(* ===== verification/_CoqProject ===== *)
-Q . S2P
Prelude.v
GoStrings.v
GoTime.v
Version.v
GoFlag.v
Logger.v
DebugServer.v
GoNet.v
Specs.v
Layers.v
LayerAccess.v
GoSlices.v
DhcpOptions.v
Option82.v
OptionsHeap.v
Bpf.v
Sockets.v
Glob.v
GlobSpec.v
CfgMatch.v
FileWatch.v
LinkMap.v
MacPolicy.v
ConfigSpec.v
Host.v
Addrs.v
IfCache.v
CmdLine.v
Request.v
Reply.v
Dhcp4.v
WellTyped.v
Relay.v
Main.v
Program.v
System.v
Drain.v
Refinement.v
Reporting.v
