(* ===== verification/Prelude.v ===== *)
(** * Formal model of the dhcp-relay DHCPv4 relay agent

    dhcp-relay receives DHCPv4 frames on a raw socket, relays client requests to a server over UDP with
    Option 82 added, and sends the server's replies back to the client as raw Ethernet frames.  A policy
    file decides per client where requests go and where replies leave; a link map gives unnumbered
    interfaces a subnet.  Both files are reloaded while the program runs.

    ** Files, in dependency order

    - [Prelude]: Go values, errors, the tactics and hint databases, list and integer lemmas.
    - [GoStrings], [GoTime], [GoNet], [GoFlag]: what the program uses of the Go standard library (utf8,
      strings, strconv, hex, bufio; RFC 3339 times; IP addresses, CIDR and MAC parsing; numbers,
      durations and the flag package).
    - [Version], [Logger], [DebugServer]: pkg/version, pkg/logger over a model of the log package, and
      pkg/debug as a state machine over servers and routes with its metrics page.
    - [Specs]: constants of pkg/specs.
    - [Layers]: the gopacket layer structs as records; the library's functions are the class [Gopacket],
      what the relay relies on the class [GopacketLaws], with a concrete instance for witnesses.
    - [LayerAccess]: pkg/gpckt/layer.go, over a class of packets.
    - [GoSlices]: Go slices as windows on shared arrays, with panics.
    - [DhcpOptions]: pkg/gpckt/dhcp/options.go and flags.go, on lists.
    - [Option82]: pkg/gpckt/dhcp/opt82.go and sub-options.go, on lists.
    - [OptionsHeap]: options.go and the decoder of opt82.go once more, in place on slices.
    - [Bpf]: pkg/bytecode, with an interpreter of the classic BPF instructions.
    - [Sockets]: pkg/sockets, the raw socket as a state machine over open descriptors.
    - [Glob], [GlobSpec], [CfgMatch]: pkg/glob over a model of filepath.Match, the meaning of patterns
      it is proved against, and pkg/cfgmatch.
    - [FileWatch]: pkg/filewatch; a reload as a function, the poller, reloads and Close as a step
      relation.
    - [LinkMap], [MacPolicy]: pkg/linkmap and pkg/macpolicy, as instances of the watcher.
    - [ConfigSpec]: what the text of a link map file means.
    - [Host]: the class [Host] of what a handler asks of the operating system, the events it produces,
      and the state and error monad it runs in.
    - [Addrs], [IfCache]: pkg/dhcp4/addrs.go and ifcache.go; the cache also with many callers.
    - [CmdLine]: the flags of main.go, their parsing and the checks of main.
    - [Request], [Reply], [Dhcp4]: pkg/dhcp4/request.go, reply.go, and validate.go with dhcp4.go and
      pkg/gpckt/dhcp/utils.go.
    - [WellTyped]: the type of a message and a small logic in which every handler keeps it.
    - [Relay]: pkg/relay, from policy to the decision for a packet.
    - [Main]: main.go, the configuration, the path of one frame, the handler pool and its drain.
    - [Program]: the function main, with what it acquires, defers and releases and its exit status, in a
      monad with early return and exit.
    - [System]: receiver, handlers, both watchers and shutdown as one transition system, in which the
      receiver and the handlers may panic.
    - [Drain]: waitForHandlers, its goroutine and its select, beside the handlers of that system.
    - [Refinement]: every run of the function main is an execution of that system.
    - [Reporting]: the exit status of main and the fatal line that explains it.

    ** Conventions

    A byte slice or string is a [list Z] of byte values, nil the empty list.  Machine integers are [Z]
    with the conversion written out ([u8], [u16], [u32]).  A Go error is the text of its message without
    the formatted values.  A handler's mutations of the shared DHCPv4 layer are updates of the state of
    its monad, its options a list; [OptionsHeap] shows that the slice operations of the source compute
    these list functions in memory, so handlers with messages in arrays of their own cannot disturb each
    other through them; the IPv4 layer shared by the copies of a reply is threaded through the copy loop.  Sends
    and log lines are appended to a trace; the host's answers to repeated calls may depend on the trace,
    so theorems about handlers hold for a host that changes its answers.  The options are sorted by a stable
    insertion sort; the sort of the source need not be stable, but the options it sorts have distinct types,
    and on those every sort gives the same list ([sort_contract_unique]).  The error of
    SetNetworkLayerForChecksum is left out: it is for layers that are neither IPv4 nor IPv6, and the relay
    passes an IPv4 layer.

    The live policy is loaded once per lookup, twice for a reply that carries a policy tag.  [reads] holds
    what the two lookups of a packet see, and the pollers may reload in between.  Each call of handlePacket
    has decoder layers of its own, which only its handler goroutine uses; a handler therefore owns its
    message in the model, and its answers from the host and the interface cache are arbitrary.

    A Go panic unwinds to the deferred functions: [recover_handler] and [recover_receive] are those of
    dhcp4.Handle and handlePacket, told whether their function panicked and answering whether the panic goes
    on; a panic that leaves its goroutine sets [crashed].

    ** What is proved

    - Packets: sub-options and Option 82 round trip, decoding is all or nothing, stays within the packet
      and copies what it keeps, the policy tag bound is exact; the in-place removal of split options
      equals its filter; changing options in place never leaves the array or reaches another message; the BPF program accepts exactly
      the frames its comments describe.
    - Configuration: the command line expresses every configuration and is read as written; parsed link
      maps and policies are what their lines say; a pattern is accepted exactly when it parses, and
      matches an interface name or MAC exactly when the text divides among its tokens; an interface gets
      the subnet of the first line of the link map file that selects it; a reload is all or nothing and
      a watcher serves a validated snapshot in every interleaving; a policy validation does not depend on map order.
    - Requests: one copy per giaddr with the right options and hop count; giaddrs are usable and are
      recognised when a reply echoes them; hop counts stay bounded.
    - Replies: frames leave only after every check, cleaned and correctly addressed; without a policy
      selection a reply returns to the interface its request came from; the action the request matched is
      applied again; a blackhole cannot be bypassed by a forged tag, nor by a reload between the lookups.
      Messages keep their type on every path and only such messages are serialised.
    - Concurrency: the interface cache enumerates once per lifetime, the handler pool is bounded, and
      the socket is closed only when no handler is left.
    - The program: it ends after a signal, and however it ends it releases what it acquired; its status is
      one exactly when it could not start, and its last line then names what failed first; the log is the rendering of a journal
      and can be read back; the debug server can be started and stopped in
      any order; the version identifies the build.
    - The system: in every interleaving each packet on the wire is well typed and justified by a received
      frame, the policies its lookups read and the configuration of the time; a panic in a handler or in
      the receiver never ends the process, is logged, and costs one packet; the whole refines the counting
      pool, and
      the function main refines it; the drain makes progress, can complete, reports completion only when
      no handler is left and can be left once the grace period is over.

    ** Fuel

    Recursion that is not structural takes fuel: the decoding of Option 82 the length of the data plus
    one (each round removes at least two bytes), runes and patterns the length of the text (each round
    consumes a byte; [match_loop_fuel] and the lemmas beside it show that more fuel changes nothing),
    decimal digits twenty (enough for 64 bits) or the binary length of the number, the BPF machine the
    length of the program (jumps only go forward).  The receive loop runs over a list of rounds, one per
    call of Receive; a run that outlives its list is reported as still running, and [main_terminates]
    shows that a list with the shutdown round in it is enough.

    ** Not modelled

    Where a library panics: the modelled functions are total, and a panic is a step that may cut any
    handler or the receiver short.  The formatted values in log and error texts, and the stack trace of a
    recovered panic.  How the lines of different goroutines interleave in the log: the lines of main and of
    what it calls are in [Program], those of the handlers in [System], those of the pollers in [FileWatch],
    those of the debug server in [DebugServer].  Timeouts as durations, except the grace period of the drain: a lookup or a
    dial that runs out of time is an answer of the host.  The encoding and decoding of whole
    packets belongs to gopacket, the profiling pages of the debug server to net/http/pprof; both are
    outside the repository.  A handler's system calls are answered per handler, so the model does not
    order the accesses of different handlers to the interface cache; [IfCache] does that on its own. *)

From stdpp Require Export prelude gmap strings.
From Stdlib Require Export ZArith Lia.

#[global] Open Scope Z_scope.

(** ** Go values

    A Go [[]byte] and a Go [string] are both a [list Z] of byte values; a conversion between the
    two is the identity.  A nil slice is the empty list: wherever the source tests a slice against
    nil the value is produced either as nil or as a non empty slice. *)

Declare Scope relay_scope.
Delimit Scope relay_scope with relay.
#[global] Open Scope relay_scope.

Abbreviation bytes := (list Z).

(** Length of a slice as a Go [int]. *)
Notation "'len' l" := (Z.of_nat (length l)) (at level 10, l at level 9) : relay_scope.

(** A Go string literal. *)
Definition lit (s : string) : bytes :=
  map (λ c, Z.of_nat (Ascii.nat_of_ascii c)) (String.list_ascii_of_string s).

(** Conversions to the unsigned machine widths. *)
Definition u8 (z : Z) : Z := z `mod` 2 ^ 8.
Definition u16 (z : Z) : Z := z `mod` 2 ^ 16.
Definition u32 (z : Z) : Z := z `mod` 2 ^ 32.

(** [z] is a byte. *)
Definition is_byte (z : Z) : Prop := 0 ≤ z < 256.
Abbreviation wf_bytes := (Forall is_byte).

(** ** Fallible code

    A Go [(T, error)] pair.  The error is the text of its message without the formatted values;
    wrapping with [%w] prepends the outer text. *)

Inductive result (A : Type) : Type :=
| Ok (a : A)
| Err (e : string).
Arguments Ok {A} a.
Arguments Err {A} e.

#[global] Instance result_ret : MRet result := λ A, Ok.
#[global] Instance result_bind : MBind result := λ A B f r,
  match r with Ok a => f a | Err e => Err e end.

(** [fmt.Errorf("prefix: %w", err)]. *)
Definition wrap {A} (prefix : string) (r : result A) : result A :=
  match r with Ok a => Ok a | Err e => Err (prefix +:+ e) end.

(** [errors.Join]: nil for no errors, else their texts on a line each. *)
Definition errors_Join (errs : list string) : result unit :=
  match errs with
  | [] => Ok ()
  | _ => Err (String.concat (String (Ascii.ascii_of_nat 10) EmptyString) errs)
  end.

Definition is_ok {A} (r : result A) : bool :=
  match r with Ok _ => true | Err _ => false end.

#[global] Instance result_eq_dec {A} `{EqDecision A} : EqDecision (result A).
Proof. solve_decision. Defined.

(** ** Automation *)

(** Lemmas that normalise list and length goals. *)
Create HintDb relay.
Create Rewrite HintDb relay_norm.

(** Split every conditional of the goal, and close what arithmetic or congruence closes. *)
Ltac split_ifs :=
  repeat case_match; simplify_eq/=; try done.

(** Turn the boolean comparisons of the context into propositions. *)
Ltac reflect_bools :=
  repeat match goal with
  | H : _ && _ = true |- _ => apply andb_true_iff in H as [? ?]
  | H : _ || _ = false |- _ => apply orb_false_iff in H as [? ?]
  | H : negb _ = true |- _ => apply negb_true_iff in H
  | H : negb _ = false |- _ => apply negb_false_iff in H
  | H : (_ =? _) = true |- _ => apply Z.eqb_eq in H
  | H : (_ =? _) = false |- _ => apply Z.eqb_neq in H
  | H : (_ <? _) = true |- _ => apply Z.ltb_lt in H
  | H : (_ <? _) = false |- _ => apply Z.ltb_ge in H
  | H : (_ <=? _) = true |- _ => apply Z.leb_le in H
  | H : (_ <=? _) = false |- _ => apply Z.leb_gt in H
  | H : bool_decide _ = true |- _ => apply bool_decide_eq_true in H
  | H : bool_decide _ = false |- _ => apply bool_decide_eq_false in H
  end.

(** Case on the integer comparisons of the goal, discarding the impossible cases. *)
Ltac case_z :=
  match goal with
  | |- context [?a <=? ?b] => destruct (Z.leb_spec a b)
  | |- context [?a <? ?b] => destruct (Z.ltb_spec a b)
  | |- context [?a =? ?b] => destruct (Z.eqb_spec a b)
  end; cbn [andb orb negb]; try first [lia | done].

Ltac case_zs := repeat case_z.

(** ** Integers *)

Lemma u8_small z : 0 ≤ z < 256 → u8 z = z.
Proof. intros. unfold u8. apply Z.mod_small. lia. Qed.

Lemma u8_range z : 0 ≤ u8 z < 256.
Proof. unfold u8. pose proof (Z.mod_pos_bound z (2 ^ 8)). lia. Qed.

Lemma u16_small z : 0 ≤ z < 65536 → u16 z = z.
Proof. intros. unfold u16. apply Z.mod_small. lia. Qed.

Lemma u32_small z : 0 ≤ z < 4294967296 → u32 z = z.
Proof. intros. unfold u32. apply Z.mod_small. lia. Qed.

#[export] Hint Rewrite u8_small u16_small u32_small using lia : relay_norm.

(** ** Lists *)

Section lists.
Context {A : Type}.
Implicit Types l k : list A.

Lemma take_app_len l k : take (length l) (l ++ k) = l.
Proof. apply take_app_length. Qed.

Lemma drop_app_len l k : drop (length l) (l ++ k) = k.
Proof. apply drop_app_length. Qed.

Lemma len_nonneg l : 0 ≤ len l.
Proof. lia. Qed.

Lemma len_zero l : len l = 0 ↔ l = [].
Proof. destruct l; simpl; split; intros; [done..|lia|done]. Qed.

(** The first element that satisfies a test, as a Go loop that returns from its body finds it. *)
Fixpoint find_first (p : A → bool) l : option A :=
  match l with
  | [] => None
  | x :: l => if p x then Some x else find_first p l
  end.

Lemma find_first_Some p l x :
  find_first p l = Some x → x ∈ l ∧ p x = true.
Proof.
  induction l as [|y l IH]; simpl; [done|].
  destruct (p y) eqn:E; intros H; simplify_eq; [by split; [left|]|].
  destruct (IH H); by split; [right|].
Qed.

Lemma find_first_None p l :
  find_first p l = None ↔ (∀ x, x ∈ l → p x = false).
Proof.
  induction l as [|y l IH]; simpl; [split; [intros _ x Hx; inversion Hx|done]|].
  destruct (p y) eqn:E; split; intros H; try done.
  - rewrite (H y) in E; [done|left].
  - intros x [->|Hx]%elem_of_cons; [done|]. by apply IH.
  - apply IH. intros x Hx. apply H. by right.
Qed.

Lemma find_first_app p l k :
  find_first p (l ++ k) =
  match find_first p l with Some x => Some x | None => find_first p k end.
Proof. induction l as [|y l IH]; simpl; [done|]. by destruct (p y). Qed.
End lists.

(** Texts split uniquely at the first separator. *)
Lemma app_sep_inj {A} (sep : A) (a b s t : list A) :
  sep ∉ a → sep ∉ b → a ++ sep :: s = b ++ sep :: t → a = b ∧ s = t.
Proof.
  revert b. induction a as [|x a IH]; intros [|y b] Ha Hb E; simplify_eq/=; try set_solver.
  rewrite !not_elem_of_cons in *. destruct (IH b) as [-> ->]; tauto.
Qed.
