(* ===== verification/GoStrings.v ===== *)
(** * The parts of Go's [strings], [strconv], [unicode/utf8], [encoding/hex] and [bufio] packages
      the relay calls. *)

From S2P Require Import Prelude.

(** ** unicode/utf8 *)

Module utf8.

(** [utf8.RuneError]. *)
Definition RuneError : Z := 65533.

Definition in_range (lo hi b : Z) : bool := (lo <=? b) && (b <=? hi).

(** The accepted range of the second byte of a multi byte sequence, and the sequence length, by its
    first byte.  [None]: the byte cannot start a sequence. *)
Definition first_info (b : Z) : option (nat * Z * Z) :=
  if in_range 194 223 b then Some (2%nat, 128, 191)
  else if b =? 224 then Some (3%nat, 160, 191)
  else if b =? 237 then Some (3%nat, 128, 159)
  else if in_range 225 239 b then Some (3%nat, 128, 191)
  else if b =? 240 then Some (4%nat, 144, 191)
  else if in_range 241 243 b then Some (4%nat, 128, 191)
  else if b =? 244 then Some (4%nat, 128, 143)
  else None.

(** [utf8.DecodeRuneInString]: the first rune and its width; an invalid encoding is
    [(RuneError, 1)], the empty string is [(RuneError, 0)]. *)
Definition DecodeRune (s : bytes) : Z * nat :=
  match s with
  | [] => (RuneError, 0%nat)
  | b0 :: s1 =>
      if b0 <? 128 then (b0, 1%nat) else
      match first_info b0 with
      | None => (RuneError, 1%nat)
      | Some (n, lo, hi) =>
          match n, s1 with
          | 2%nat, b1 :: _ =>
              if in_range lo hi b1 then (Z.land b0 31 * 64 + Z.land b1 63, 2%nat)
              else (RuneError, 1%nat)
          | 3%nat, b1 :: b2 :: _ =>
              if in_range lo hi b1 && in_range 128 191 b2
              then (Z.land b0 15 * 4096 + Z.land b1 63 * 64 + Z.land b2 63, 3%nat)
              else (RuneError, 1%nat)
          | 4%nat, b1 :: b2 :: b3 :: _ =>
              if in_range lo hi b1 && in_range 128 191 b2 && in_range 128 191 b3
              then (Z.land b0 7 * 262144 + Z.land b1 63 * 4096 + Z.land b2 63 * 64 + Z.land b3 63,
                    4%nat)
              else (RuneError, 1%nat)
          | _, _ => (RuneError, 1%nat)
          end
      end
  end.

#[global] Arguments DecodeRune : simpl never.

(** [utf8.AppendRune] on an empty buffer. *)
Definition EncodeRune (r : Z) : bytes :=
  let enc3 r := [224 + r / 4096; 128 + (r / 64) `mod` 64; 128 + r `mod` 64] in
  if in_range 0 127 r then [r]
  else if in_range 128 2047 r then [192 + r / 64; 128 + r `mod` 64]
  else if in_range 55296 57343 r then enc3 RuneError
  else if in_range 2048 65535 r then enc3 r
  else if in_range 65536 1114111 r then
    [240 + r / 262144; 128 + (r / 4096) `mod` 64; 128 + (r / 64) `mod` 64; 128 + r `mod` 64]
  else enc3 RuneError.

(** The runes of a string with their encodings, as a [range] loop over it yields them.  Every rune
    has width at least one, so the length of the string bounds the iterations. *)
Fixpoint runes_fuel (fuel : nat) (s : bytes) : list (Z * bytes) :=
  match fuel, s with
  | S fuel, _ :: _ =>
      let '(r, n) := DecodeRune s in (r, take n s) :: runes_fuel fuel (drop n s)
  | _, _ => []
  end.

Definition runes (s : bytes) : list (Z * bytes) := runes_fuel (length s) s.

Lemma DecodeRune_width s :
  s ≠ [] → (1 ≤ (DecodeRune s).2 ≤ length s)%nat.
Proof.
  destruct s as [|b0 s]; [done|intros _]. unfold DecodeRune.
  destruct (b0 <? 128); [simpl; lia|].
  destruct (first_info b0) as [[[n lo] hi]|]; [|simpl; lia].
  destruct n as [|[|[|[|[|n]]]]]; simpl; repeat case_match; simpl; lia.
Qed.

Lemma DecodeRune_ascii b s : b < 128 → DecodeRune (b :: s) = (b, 1%nat).
Proof. intros H. unfold DecodeRune. by rewrite (proj2 (Z.ltb_lt _ _) H). Qed.

Lemma runes_fuel_enough fuel fuel' s :
  (length s ≤ fuel)%nat → (length s ≤ fuel')%nat → runes_fuel fuel s = runes_fuel fuel' s.
Proof.
  revert fuel' s. induction fuel as [|fuel IH]; intros [|fuel'] [|b s] H H'; simpl in *; try lia;
    try done.
  pose proof (DecodeRune_width (b :: s) ltac:(done)) as Hw.
  destruct (DecodeRune (b :: s)) as [r n]; simpl in *. f_equal.
  apply IH; rewrite length_drop; simpl; lia.
Qed.

(** The runes of a string carry exactly its bytes. *)
Lemma runes_concat s : concat (map snd (runes s)) = s.
Proof.
  unfold runes. remember (length s) as fuel eqn:E. assert (length s ≤ fuel)%nat as H by lia.
  clear E. revert s H. induction fuel as [|fuel IH]; intros [|b s] H; simpl in *; try lia; try done.
  pose proof (DecodeRune_width (b :: s) ltac:(done)) as Hw.
  destruct (DecodeRune (b :: s)) as [r n]; simpl in *.
  rewrite IH; [|rewrite length_drop; simpl; lia]. apply take_drop.
Qed.

Lemma runes_ascii_cons b s : b < 128 → runes (b :: s) = (b, [b]) :: runes s.
Proof.
  intros H. unfold runes. cbn [length runes_fuel]. rewrite DecodeRune_ascii by done.
  done.
Qed.

Lemma runes_ascii s : Forall (λ b, b < 128) s → runes s = map (λ b, (b, [b])) s.
Proof.
  induction 1 as [|b s Hb _ IH]; [done|]. rewrite runes_ascii_cons by done. simpl. by rewrite IH.
Qed.

End utf8.

(** ** Unicode case tables

    [unicode.ToLower] and [unicode.ToUpper] outside ASCII are tables of Unicode data; they are a
    parameter. *)
Class UnicodeTables := {
  unicode_ToLower : Z → Z;
  unicode_ToUpper : Z → Z
}.

(** The identity tables, for concrete runs on ASCII inputs. *)
Definition ascii_tables : UnicodeTables :=
  {| unicode_ToLower := λ r, r; unicode_ToUpper := λ r, r |}.

(** ** strings *)

Module strings.

Definition is_ascii (s : bytes) : bool := forallb (λ b, b <? 128) s.

Definition lower_byte (b : Z) : Z := if utf8.in_range 65 90 b then b + 32 else b.
Definition upper_byte (b : Z) : Z := if utf8.in_range 97 122 b then b - 32 else b.

(** [strings.Map]. *)
Definition Map (f : Z → Z) (s : bytes) : bytes :=
  concat (map (λ '(r, _), utf8.EncodeRune (f r)) (utf8.runes s)).

Section case.
Context `{UnicodeTables}.

(** [strings.ToLower]. *)
Definition ToLower (s : bytes) : bytes :=
  if is_ascii s then map lower_byte s else Map unicode_ToLower s.

(** [strings.ToUpper]. *)
Definition ToUpper (s : bytes) : bytes :=
  if is_ascii s then map upper_byte s else Map unicode_ToUpper s.
End case.

(** [strings.HasPrefix]. *)
Definition HasPrefix (s prefix : bytes) : bool :=
  bool_decide (take (length prefix) s = prefix).

(** [strings.Contains] for a one byte substring. *)
Definition ContainsByte (s : bytes) (b : Z) : bool := existsb (Z.eqb b) s.

Lemma ContainsByte_spec s b : ContainsByte s b = true ↔ b ∈ s.
Proof.
  unfold ContainsByte. rewrite existsb_exists. setoid_rewrite Z.eqb_eq. rewrite list_elem_of_In. naive_solver.
Qed.

(** [strings.Split] with a one byte separator: never empty. *)
Fixpoint Split (s : bytes) (sep : Z) : list bytes :=
  match s with
  | [] => [[]]
  | b :: s =>
      if b =? sep then [] :: Split s sep
      else match Split s sep with
           | t :: ts => (b :: t) :: ts
           | [] => [[b]]
           end
  end.

(** [unicode.IsSpace]: the White_Space property. *)
Definition IsSpace (r : Z) : bool :=
  utf8.in_range 9 13 r || (r =? 32) || (r =? 133) || (r =? 160) || (r =? 5760)
  || utf8.in_range 8192 8202 r || (r =? 8232) || (r =? 8233) || (r =? 8239) || (r =? 8287)
  || (r =? 12288).

(** [strings.Fields] over the runes of the string; [cur] is the field being read. *)
Fixpoint fields_runes (cur : bytes) (rs : list (Z * bytes)) : list bytes :=
  match rs with
  | [] => if decide (cur = []) then [] else [cur]
  | (r, enc) :: rs =>
      if IsSpace r
      then if decide (cur = []) then fields_runes [] rs else cur :: fields_runes [] rs
      else fields_runes (cur ++ enc) rs
  end.

Definition Fields (s : bytes) : list bytes := fields_runes [] (utf8.runes s).

(** [TrimSpace] of [bytes] and [strings]: without the white space at both ends. *)
Fixpoint drop_space (rs : list (Z * bytes)) : list (Z * bytes) :=
  match rs with
  | (r, enc) :: rs' => if IsSpace r then drop_space rs' else rs
  | [] => []
  end.

Definition TrimSpace (s : bytes) : bytes :=
  concat (map snd (rev (drop_space (rev (drop_space (utf8.runes s)))))).

Lemma ToLower_nonempty `{UnicodeTables} s : is_ascii s = true → s ≠ [] → ToLower s ≠ [].
Proof. intros E Hs. unfold ToLower. rewrite E. by destruct s. Qed.

Lemma EncodeRune_nonempty r : utf8.EncodeRune r ≠ [].
Proof. unfold utf8.EncodeRune. repeat case_match; done. Qed.

Lemma ToUpper_nonempty `{UnicodeTables} s : s ≠ [] → ToUpper s ≠ [].
Proof.
  intros Hs. unfold ToUpper. destruct (is_ascii s); [by destruct s|].
  destruct s as [|b s]; [done|]. unfold Map, utf8.runes. cbn [length utf8.runes_fuel].
  destruct (utf8.DecodeRune (b :: s)) as [r n]. simpl. intros [E _]%app_eq_nil.
  by apply (EncodeRune_nonempty (unicode_ToUpper r)).
Qed.

(** Lowering twice lowers once, on ASCII. *)
Lemma lower_byte_idemp b : lower_byte (lower_byte b) = lower_byte b.
Proof.
  unfold lower_byte at 2 3. destruct (utf8.in_range 65 90 b) eqn:E; unfold lower_byte; [|by rewrite E].
  unfold utf8.in_range in *. reflect_bools. case_zs.
Qed.

Lemma lower_byte_ascii b : b < 128 → lower_byte b < 128.
Proof. unfold lower_byte, utf8.in_range. intros. case_zs. Qed.

Lemma is_ascii_Forall s : is_ascii s = true ↔ Forall (λ b, b < 128) s.
Proof.
  unfold is_ascii. rewrite forallb_forall, Forall_forall. setoid_rewrite Z.ltb_lt.
  by setoid_rewrite list_elem_of_In.
Qed.

Lemma Split_cons_nonempty s sep : Split s sep ≠ [].
Proof. destruct s; simpl; repeat case_match; done. Qed.

Lemma Split_no_sep s sep : Forall (λ b, b ≠ sep) s → Split s sep = [s].
Proof.
  induction 1 as [|b s Hb _ IH]; [done|]. simpl.
  rewrite (proj2 (Z.eqb_neq _ _) Hb). by rewrite IH.
Qed.

Lemma Split_app s sep t :
  Forall (λ b, b ≠ sep) s → Split (s ++ sep :: t) sep = s :: Split t sep.
Proof.
  induction 1 as [|b s Hb _ IH]; simpl; [by rewrite Z.eqb_refl|].
  by rewrite (proj2 (Z.eqb_neq _ _) Hb), IH.
Qed.

Lemma HasPrefix_app p s : HasPrefix (p ++ s) p = true.
Proof. unfold HasPrefix. rewrite take_app_length. by apply bool_decide_eq_true. Qed.

Lemma HasPrefix_split s p : HasPrefix s p = true → s = p ++ drop (length p) s.
Proof. unfold HasPrefix. intros H. reflect_bools. rewrite <- H at 1. by rewrite take_drop. Qed.

(** No field is empty. *)
Lemma fields_runes_nonempty rs cur :
  Forall (λ p, p.2 ≠ []) rs → Forall (λ f, f ≠ []) (fields_runes cur rs).
Proof.
  revert cur. induction rs as [|[r e] rs IH]; intros cur Hrs; simpl.
  { case_decide; by repeat constructor. }
  inversion Hrs as [|? ? He Hrs']; subst.
  repeat case_match; try case_decide; auto.
Qed.

Lemma runes_enc_nonempty s : Forall (λ p, p.2 ≠ []) (utf8.runes s).
Proof.
  unfold utf8.runes. generalize (length s) as fuel. intros fuel. revert s.
  induction fuel as [|fuel IH]; intros [|b s]; simpl; auto.
  pose proof (utf8.DecodeRune_width (b :: s) ltac:(done)) as Hw.
  destruct (utf8.DecodeRune (b :: s)) as [r n]; simpl in *.
  constructor; [|apply IH]. destruct n; [lia|done].
Qed.

Lemma Fields_nonempty s : Forall (λ f, f ≠ []) (Fields s).
Proof. apply fields_runes_nonempty, runes_enc_nonempty. Qed.

End strings.

(** ** strconv *)

Module strconv.

(** Decimal digits of [v], least significant first.  Twenty digits hold any uint64. *)
Fixpoint digits_rev (fuel : nat) (v : Z) : list Z :=
  match fuel with
  | O => []
  | S fuel => if v <? 10 then [v] else v `mod` 10 :: digits_rev fuel (v / 10)
  end.

(** [strconv.FormatUint(v, 10)]. *)
Definition FormatUint (v : Z) : bytes := map (λ d, d + 48) (reverse (digits_rev 20 v)).

Definition is_digit (c : Z) : bool := utf8.in_range 48 57 c.

(** The number a digit string denotes. *)
Definition digits_value (s : bytes) : Z := foldl (λ n c, n * 10 + (c - 48)) 0 s.

(** [strconv.Atoi] on a 64 bit platform; [None] is an error. *)
Definition Atoi (s : bytes) : option Z :=
  let '(neg, ds) :=
    match s with
    | c :: r => if c =? 45 then (true, r) else if c =? 43 then (false, r) else (false, s)
    | [] => (false, s)
    end in
  if bool_decide (ds = []) || negb (forallb is_digit ds) then None
  else
    let n := digits_value ds in
    if neg then if n <=? 2 ^ 63 then Some (- n) else None
    else if n <? 2 ^ 63 then Some n else None.

Lemma digits_rev_range fuel v :
  0 ≤ v → Forall (λ d, 0 ≤ d < 10) (digits_rev fuel v).
Proof.
  revert v. induction fuel as [|fuel IH]; intros v Hv; simpl; [done|]. case_zs.
  - repeat constructor; lia.
  - constructor; [apply Z.mod_pos_bound; lia|]. apply IH. apply Z.div_pos; lia.
Qed.

Lemma digits_rev_value fuel v :
  0 ≤ v < 10 ^ Z.of_nat fuel →
  foldr (λ d n, n * 10 + d) 0 (digits_rev fuel v) = v.
Proof.
  revert v. induction fuel as [|fuel IH]; intros v Hv; [simpl in *; lia|].
  rewrite Nat2Z.inj_succ, Z.pow_succ_r in Hv by lia. cbn [digits_rev]. destruct (Z.ltb_spec v 10); simpl; [lia|].
  rewrite IH; [pose proof (Z.div_mod v 10); lia|].
  split; [apply Z.div_pos; lia|]. apply Z.div_lt_upper_bound; lia.
Qed.

Lemma digits_rev_length fuel k v :
  0 ≤ v < 10 ^ Z.of_nat k → (1 ≤ k)%nat → (length (digits_rev fuel v) ≤ k)%nat.
Proof.
  revert k v. induction fuel as [|fuel IH]; intros [|k] v Hv Hk; simpl; try lia.
  rewrite Nat2Z.inj_succ, Z.pow_succ_r in Hv by lia.
  destruct (Z.ltb_spec v 10); simpl; [lia|].
  destruct k as [|k]; [simpl in Hv; lia|]. apply le_n_S, IH; [|lia].
  split; [apply Z.div_pos; lia|]. apply Z.div_lt_upper_bound; lia.
Qed.

Lemma FormatUint_nonempty v : FormatUint v ≠ [].
Proof.
  unfold FormatUint. cbn [digits_rev]. intros E%(f_equal length).
  rewrite length_map, length_reverse in E. by destruct (v <? 10).
Qed.

Lemma FormatUint_digits v : 0 ≤ v → Forall (λ c, 48 ≤ c ≤ 57) (FormatUint v).
Proof.
  intros Hv. unfold FormatUint. apply Forall_fmap, Forall_reverse.
  eapply Forall_impl; [by apply digits_rev_range|]. simpl. lia.
Qed.

Lemma digits_value_shift ds :
  foldl (λ n c, n * 10 + (c - 48)) 0 (map (λ d, d + 48) (reverse ds)) =
  foldr (λ d n, n * 10 + d) 0 ds.
Proof.
  induction ds as [|d ds IH]; [done|]. rewrite reverse_cons, map_app, foldl_app, IH. simpl. lia.
Qed.

Lemma FormatUint_value v : 0 ≤ v < 2 ^ 64 → digits_value (FormatUint v) = v.
Proof.
  intros Hv. unfold digits_value, FormatUint. rewrite digits_value_shift.
  apply digits_rev_value. split; [lia|]. etrans; [apply Hv|]. vm_compute. done.
Qed.

Lemma FormatUint_length v k :
  (1 ≤ k)%nat → 0 ≤ v < 10 ^ Z.of_nat k → (length (FormatUint v) ≤ k)%nat.
Proof.
  intros. unfold FormatUint. rewrite length_map, length_reverse. by apply digits_rev_length.
Qed.

(** Parsing a printed number gives it back. *)
Lemma Atoi_FormatUint v : 0 ≤ v < 2 ^ 63 → Atoi (FormatUint v) = Some v.
Proof.
  intros Hv. pose proof (FormatUint_digits v ltac:(lia)) as Hd.
  pose proof (FormatUint_value v ltac:(lia)) as Hval.
  pose proof (FormatUint_nonempty v) as Hne.
  assert (Hall : forallb is_digit (FormatUint v) = true).
  { apply forallb_forall. intros c Hc%list_elem_of_In. rewrite Forall_forall in Hd.
    specialize (Hd c Hc). unfold is_digit, utf8.in_range. case_zs. }
  unfold Atoi. destruct (FormatUint v) as [|c r] eqn:E; [done|].
  apply Forall_cons in Hd as [Hc _].
  rewrite (proj2 (Z.eqb_neq c 45)), (proj2 (Z.eqb_neq c 43)) by lia.
  rewrite bool_decide_eq_false_2 by done. rewrite Hall, Hval. simpl.
  by rewrite (proj2 (Z.ltb_lt _ _)) by lia.
Qed.

End strconv.

(** ** encoding/hex *)

Module hex.

(** One hexadecimal digit. *)
Definition fromHexChar (c : Z) : option Z :=
  if utf8.in_range 48 57 c then Some (c - 48)
  else if utf8.in_range 97 102 c then Some (c - 87)
  else if utf8.in_range 65 70 c then Some (c - 55)
  else None.

(** [hex.DecodeString]; an odd length or a non hexadecimal digit is an error. *)
Fixpoint DecodeString (s : bytes) : result bytes :=
  match s with
  | [] => Ok []
  | [_] => Err "encoding/hex: odd length hex string"
  | a :: b :: s =>
      match fromHexChar a, fromHexChar b with
      | Some x, Some y =>
          match DecodeString s with Ok t => Ok (x * 16 + y :: t) | Err e => Err e end
      | _, _ => Err "encoding/hex: invalid byte"
      end
  end.

(** Lower case hexadecimal digit of a nibble. *)
Definition hexDigit (n : Z) : Z := if n <? 10 then n + 48 else n + 87.

(** [hex.EncodeToString]. *)
Fixpoint EncodeToString (s : bytes) : bytes :=
  match s with
  | [] => []
  | b :: s => hexDigit (b / 16) :: hexDigit (b `mod` 16) :: EncodeToString s
  end.

Lemma fromHexChar_hexDigit n : 0 ≤ n < 16 → fromHexChar (hexDigit n) = Some n.
Proof.
  intros. unfold hexDigit. destruct (Z.ltb_spec n 10);
    unfold fromHexChar, utf8.in_range; case_zs; f_equal; lia.
Qed.

Lemma byte_nibbles b : is_byte b → 0 ≤ b / 16 < 16 ∧ 0 ≤ b `mod` 16 < 16 ∧
  b / 16 * 16 + b `mod` 16 = b.
Proof.
  unfold is_byte. intros. pose proof (Z.div_mod b 16). pose proof (Z.mod_pos_bound b 16). lia.
Qed.

Lemma DecodeString_EncodeToString s : wf_bytes s → DecodeString (EncodeToString s) = Ok s.
Proof.
  induction 1 as [|b s Hb _ IH]; [done|]. apply byte_nibbles in Hb as (H1 & H2 & H3).
  simpl. by rewrite !fromHexChar_hexDigit, IH, H3 by done.
Qed.

Lemma DecodeString_length s t : DecodeString s = Ok t → length s = (2 * length t)%nat.
Proof.
  revert t. induction s as [s IH] using (induction_ltof1 _ (@length Z)); unfold ltof in IH.
  intros t. destruct s as [|a [|b s]]; simpl; intros H; simplify_eq/=; [done|].
  destruct (fromHexChar a), (fromHexChar b); try done.
  destruct (DecodeString s) as [t'|] eqn:E; simplify_eq/=.
  rewrite (IH s) with (t := t'); [lia|simpl; lia|done].
Qed.

Lemma fromHexChar_range c n : fromHexChar c = Some n → 0 ≤ n < 16.
Proof.
  unfold fromHexChar, utf8.in_range. intros H. repeat case_match; reflect_bools; simplify_eq; lia.
Qed.

(** What decodes is a byte string. *)
Lemma DecodeString_wf s t : DecodeString s = Ok t → wf_bytes t.
Proof.
  revert t. induction s as [s IH] using (induction_ltof1 _ (@length Z)); unfold ltof in IH.
  intros t. destruct s as [|a [|b s]]; simpl; intros H; simplify_eq/=; [done|].
  destruct (fromHexChar a) eqn:Ea, (fromHexChar b) eqn:Eb; try done.
  destruct (DecodeString s) as [t'|] eqn:E; simplify_eq/=.
  apply fromHexChar_range in Ea, Eb. constructor; [unfold is_byte; lia|].
  eapply IH; [|done]. simpl; lia.
Qed.

End hex.

(** ** bufio *)

Module bufio.

(** An [io.Reader]: the bytes it yields, then end of file or a read error. *)
Record Reader := { content : bytes; read_err : option string }.

(** [bufio.MaxScanTokenSize]. *)
Definition MaxScanTokenSize : Z := 65536.

(** Drop one trailing carriage return. *)
Definition dropCR (l : bytes) : bytes :=
  match last l with
  | Some 13 => take (length l - 1) l
  | _ => l
  end.

(** The lines of a text without their line feeds; a final line without one counts when it is not
    empty. *)
Fixpoint split_lines (cur s : bytes) : list bytes :=
  match s with
  | [] => if decide (cur = []) then [] else [cur]
  | c :: s => if c =? 10 then cur :: split_lines [] s else split_lines (cur ++ [c]) s
  end.

(** The tokens a [bufio.Scanner] over lines yields before it stops, and what [Err] then returns: a
    line that fills the buffer stops it with [bufio.ErrTooLong]. *)
Fixpoint scan (err : option string) (ls : list bytes) : list bytes * option string :=
  match ls with
  | [] => ([], err)
  | l :: ls =>
      if MaxScanTokenSize <=? len l then ([], Some "bufio.Scanner: token too long")
      else let '(ts, e) := scan err ls in (dropCR l :: ts, e)
  end.

Definition Scan (r : Reader) : list bytes * option string :=
  scan (read_err r) (split_lines [] (content r)).

(** The first line of a text. *)
Lemma split_lines_line cur l s :
  10 ∉ l → split_lines cur (l ++ 10 :: s) = (cur ++ l) :: split_lines [] s.
Proof.
  revert cur. induction l as [|c l IH]; intros cur Hl; simpl; [by rewrite app_nil_r|].
  apply not_elem_of_cons in Hl as [Hc Hl]. rewrite (proj2 (Z.eqb_neq c 10)) by done.
  rewrite IH by done. by rewrite <- (assoc_L (++)).
Qed.

(** A reader over a string that ends without error. *)
Definition of_string (s : bytes) : Reader := {| content := s; read_err := None |}.

End bufio.
