(* ===== verification/GoTime.v ===== *)
(** * Go's [time] package, as far as the program reads dates: [time.Parse] with the layout
      [time.RFC3339]. *)

From S2P Require Import Prelude GoStrings.

Module time.

(** The wall clock of a [time.Time] in its own zone, to the second. *)
Record Time := { year : Z; month : Z; day : Z; hour : Z; minute : Z; second : Z }.

#[global] Instance Time_eq_dec : EqDecision Time.
Proof. solve_decision. Defined.

Definition isLeap (y : Z) : bool := (y `mod` 4 =? 0) && (negb (y `mod` 100 =? 0) || (y `mod` 400 =? 0)).

Definition daysIn (m y : Z) : Z :=
  if m =? 2 then if isLeap y then 29 else 28
  else if (m =? 4) || (m =? 6) || (m =? 9) || (m =? 11) then 30 else 31.

(** A date of the calendar and a time of the day. *)
Definition valid (t : Time) : Prop :=
  0 ≤ year t ≤ 9999 ∧ 1 ≤ month t ≤ 12 ∧ 1 ≤ day t ≤ daysIn (month t) (year t) ∧
  0 ≤ hour t < 24 ∧ 0 ≤ minute t < 60 ∧ 0 ≤ second t < 60.

(** ** Reading

    Each reader consumes a prefix of the value; [None] is a [ParseError]. *)

(** A literal byte of the layout. *)
Definition skip (c : Z) (s : bytes) : option bytes :=
  match s with
  | d :: s => if d =? c then Some s else None
  | [] => None
  end.

(** The four digits of the year. *)
Definition getyear (s : bytes) : option (Z * bytes) :=
  let p := take 4 s in
  if Nat.eqb (length p) 4 && forallb strconv.is_digit p then Some (strconv.digits_value p, drop 4 s)
  else None.

(** [getnum]: two digits, or one unless [fixed]. *)
Definition getnum (s : bytes) (fixed : bool) : option (Z * bytes) :=
  match s with
  | c0 :: s1 =>
      if strconv.is_digit c0 then
        let one := if fixed then None else Some (c0 - 48, s1) in
        match s1 with
        | c1 :: s2 => if strconv.is_digit c1 then Some ((c0 - 48) * 10 + (c1 - 48), s2) else one
        | [] => one
        end
      else None
  | [] => None
  end.

(** A number that must lie in a range. *)
Definition ranged (lo hi : Z) (r : option (Z * bytes)) : option (Z * bytes) :=
  match r with
  | Some (n, s) => if (lo <=? n) && (n <=? hi) then Some (n, s) else None
  | None => None
  end.

Fixpoint drop_digits (s : bytes) : bytes :=
  match s with
  | c :: s' => if strconv.is_digit c then drop_digits s' else s
  | [] => []
  end.

(** A fractional second that the layout does not ask for: a comma or period and digits. *)
Definition skip_fraction (s : bytes) : bytes :=
  match s with
  | c :: d :: s' =>
      if ((c =? 46) || (c =? 44)) && strconv.is_digit d then drop_digits s' else s
  | _ => s
  end.

(** The zone: the letter Z, or a sign with hours and minutes; offsets of 24 hours or 60 minutes are
    tolerated. *)
Definition getzone (s : bytes) : option bytes :=
  match s with
  | c :: s1 =>
      if c =? 90 then Some s1
      else
        match s with
        | sign :: h0 :: h1 :: colon :: m0 :: m1 :: rest =>
            if negb (colon =? 58) then None
            else
              match ranged 0 24 (getnum [h0; h1] true), ranged 0 60 (getnum [m0; m1] true) with
              | Some _, Some _ => if (sign =? 43) || (sign =? 45) then Some rest else None
              | _, _ => None
              end
        | _ => None
        end
  | [] => None
  end.

(** [time.Parse(time.RFC3339, value)]: the layout is [2006-01-02T15:04:05Z07:00].  The wall clock of
    the result, in the zone of the value, has the fields as they are written. *)
Definition Parse (value : bytes) : option Time :=
  '(year, s) ← getyear value; s ← skip 45 s;
  '(month, s) ← ranged 1 12 (getnum s true); s ← skip 45 s;
  '(day, s) ← getnum s true; s ← skip 84 s;
  '(hour, s) ← ranged 0 23 (getnum s false); s ← skip 58 s;
  '(minute, s) ← ranged 0 59 (getnum s true); s ← skip 58 s;
  '(second, s) ← ranged 0 59 (getnum s true);
  s ← getzone (skip_fraction s);
  if negb (bool_decide (s = [])) || (day <? 1) || (daysIn month year <? day) then None
  else Some {| year := year; month := month; day := day; hour := hour; minute := minute;
               second := second |}.

(** ** Writing, for comparison *)

Definition two (n : Z) : bytes := [48 + n / 10; 48 + n `mod` 10].

Definition rfc3339 (t : Time) (zone : bytes) : bytes :=
  two (year t / 100) ++ two (year t `mod` 100) ++ lit "-" ++ two (month t) ++ lit "-" ++ two (day t) ++
  lit "T" ++ two (hour t) ++ lit ":" ++ two (minute t) ++ lit ":" ++ two (second t) ++ zone.

(** The zones a time is written with. *)
Definition is_zone (zone : bytes) : Prop :=
  zone = lit "Z" ∨
  ∃ sign h m, (sign = 43 ∨ sign = 45) ∧ 0 ≤ h < 24 ∧ 0 ≤ m < 60 ∧ zone = sign :: two h ++ lit ":" ++ two m.

(** ** Lemmas *)

Lemma digit_code n : 0 ≤ n < 10 → strconv.is_digit (48 + n) = true.
Proof. intros. unfold strconv.is_digit, utf8.in_range. case_zs. Qed.

Lemma two_digits n :
  0 ≤ n < 100 →
  strconv.is_digit (48 + n / 10) = true ∧ strconv.is_digit (48 + n `mod` 10) = true ∧
  (48 + n / 10 - 48) * 10 + (48 + n `mod` 10 - 48) = n.
Proof.
  intros Hn. pose proof (Z.div_mod n 10). pose proof (Z.mod_pos_bound n 10).
  assert (0 ≤ n / 10 < 10) by (split; [apply Z.div_pos|apply Z.div_lt_upper_bound]; lia).
  split; [by apply digit_code|]. split; [apply digit_code; lia|lia].
Qed.

Lemma getnum_two n s fixed : 0 ≤ n < 100 → getnum (two n ++ s) fixed = Some (n, s).
Proof.
  intros Hn. destruct (two_digits n Hn) as (H1 & H2 & H3). unfold two, getnum. cbn [app].
  by rewrite H1, H2, H3.
Qed.

Lemma skip_byte c s : skip c ([c] ++ s) = Some s.
Proof. simpl. by rewrite Z.eqb_refl. Qed.

Lemma ranged_in lo hi n s : lo ≤ n ≤ hi → ranged lo hi (Some (n, s)) = Some (n, s).
Proof. intros. unfold ranged. case_zs. Qed.

Lemma getyear_two y s : 0 ≤ y ≤ 9999 → getyear (two (y / 100) ++ two (y `mod` 100) ++ s) = Some (y, s).
Proof.
  intros Hy. pose proof (Z.div_mod y 100). pose proof (Z.mod_pos_bound y 100).
  assert (Hd : 0 ≤ y / 100 < 100) by (split; [apply Z.div_pos|apply Z.div_lt_upper_bound]; lia).
  destruct (two_digits (y / 100) Hd) as (H1 & H2 & H3).
  destruct (two_digits (y `mod` 100)) as (H4 & H5 & H6); [lia|].
  unfold getyear, two. cbn [app take length drop Nat.eqb forallb andb]. rewrite H1, H2, H4, H5.
  cbn [andb]. do 2 f_equal. unfold strconv.digits_value. cbn [foldl]. rewrite take_0. cbn [foldl]. lia.
Qed.

Lemma getzone_is_zone zone : is_zone zone → getzone (skip_fraction zone) = Some [].
Proof.
  intros [->|(sign & h & m & Hs & Hh & Hm & ->)]; [done|].
  assert (Hf : skip_fraction (sign :: two h ++ lit ":" ++ two m) = sign :: two h ++ lit ":" ++ two m).
  { unfold skip_fraction, two. cbn [app]. destruct Hs as [-> | ->]; done. }
  rewrite Hf. unfold getzone, two. cbn [app lit String.list_ascii_of_string map].
  pose proof (getnum_two h [] true ltac:(lia)) as Eh. pose proof (getnum_two m [] true ltac:(lia)) as Em.
  unfold two in Eh, Em. cbn [app] in Eh, Em. rewrite Eh, Em, !ranged_in by lia.
  destruct Hs as [-> | ->]; done.
Qed.

Lemma daysIn_bound m y : 28 ≤ daysIn m y ≤ 31.
Proof. unfold daysIn. repeat case_match; lia. Qed.

Lemma getnum_range s fixed n r : getnum s fixed = Some (n, r) → 0 ≤ n < 100.
Proof.
  unfold getnum, strconv.is_digit, utf8.in_range. intros E.
  repeat case_match; simplify_eq; reflect_bools; lia.
Qed.

Lemma ranged_Some lo hi o n s : ranged lo hi o = Some (n, s) → lo ≤ n ≤ hi.
Proof. unfold ranged. intros E. repeat case_match; simplify_eq. reflect_bools. lia. Qed.

Lemma digits_value_bound s :
  forallb strconv.is_digit s = true → 0 ≤ strconv.digits_value s < 10 ^ len s.
Proof.
  induction s as [|c s IH] using rev_ind; [done|]. rewrite forallb_app. intros H. reflect_bools.
  simpl in *. specialize (IH ltac:(done)). unfold strconv.digits_value in *. rewrite foldl_app. simpl.
  rewrite length_app. simpl. rewrite Nat2Z.inj_add, Z.pow_add_r by lia.
  unfold strconv.is_digit, utf8.in_range in *. reflect_bools. simpl. lia.
Qed.

Lemma getyear_range s y r : getyear s = Some (y, r) → 0 ≤ y ≤ 9999.
Proof.
  unfold getyear. intros E. case_match eqn:Ec; [|done]. simplify_eq.
  apply andb_true_iff in Ec as [Hl Hd]. apply Nat.eqb_eq in Hl.
  pose proof (digits_value_bound _ Hd) as Hb. rewrite Hl in Hb. simpl in Hb. lia.
Qed.

(** What parses is a date of the calendar. *)
Lemma Parse_valid value t : Parse value = Some t → valid t.
Proof.
  unfold Parse. intros E.
  apply bind_Some in E as ([y s1] & Hy & E). apply bind_Some in E as (s2 & _ & E).
  apply bind_Some in E as ([mo s3] & Hmo & E). apply bind_Some in E as (s4 & _ & E).
  apply bind_Some in E as ([d s5] & _ & E). apply bind_Some in E as (s6 & _ & E).
  apply bind_Some in E as ([h s7] & Hh & E). apply bind_Some in E as (s8 & _ & E).
  apply bind_Some in E as ([mi s9] & Hmi & E). apply bind_Some in E as (s10 & _ & E).
  apply bind_Some in E as ([sec s11] & Hsec & E). apply bind_Some in E as (s12 & _ & E).
  case_match eqn:Ec; [done|]. simplify_eq. reflect_bools.
  apply getyear_range in Hy. apply ranged_Some in Hmo, Hh, Hmi, Hsec. unfold valid. simpl. lia.
Qed.

Lemma Parse_rfc3339 t zone : valid t → is_zone zone → Parse (rfc3339 t zone) = Some t.
Proof.
  intros (Hy & Hmo & Hd & Hh & Hmi & Hs) Hz. pose proof (daysIn_bound (month t) (year t)).
  unfold Parse, rfc3339. change (lit "-") with [45]. change (lit "T") with [84].
  change (lit ":") with [58].
  repeat first [rewrite getyear_two by lia | rewrite getnum_two by lia | rewrite ranged_in by lia
               | rewrite skip_byte | rewrite getzone_is_zone by done | progress cbn [mbind option_bind]].
  rewrite bool_decide_eq_true_2 by done. cbn [negb orb].
  rewrite (proj2 (Z.ltb_ge (day t) 1)), (proj2 (Z.ltb_ge (daysIn _ _) (day t))) by lia. by destruct t.
Qed.

Example rfc3339_examples :
  Parse (lit "2024-02-29T23:59:59Z") = Some (Build_Time 2024 2 29 23 59 59) ∧
  Parse (lit "2023-02-29T23:59:59Z") = None ∧
  Parse (lit "2026-05-04T3:02:01,5+05:30") = Some (Build_Time 2026 5 4 3 2 1) ∧
  Parse (lit "2026-05-04 03:02:01Z") = None ∧ Parse (lit "2026-05-04T24:00:00Z") = None ∧
  Parse (lit "2026-05-04T03:02:01Zx") = None.
Proof. repeat split; vm_compute; reflexivity. Qed.

End time.
