(* ===== verification/Version.v ===== *)
(** * The version string: [pkg/version/version.go].

    The build information is what [debug.ReadBuildInfo] returns: settings in order, or nothing. *)

From S2P Require Import Prelude GoStrings GoTime.

Definition baseVersion : bytes := lit "0.0.0".
Definition revPrefix : bytes := lit "r".

Definition unknown : bytes := baseVersion ++ lit "-unknown".
Definition dirty : bytes := baseVersion ++ lit "-dirty".

(** [debug.BuildSetting]. *)
Record BuildSetting := { Key : bytes; Value : bytes }.

(** [strings.EqualFold(s, "true")]: no rune outside ASCII folds to one of its letters. *)
Definition EqualFold_true (s : bytes) : bool := bool_decide (map strings.lower_byte s = lit "true").

(** A [[]rune] conversion, and back. *)
Definition runes_of (s : bytes) : list Z := map fst (utf8.runes s).
Definition string_of_runes (rs : list Z) : bytes := concat (map utf8.EncodeRune rs).

(** The three variables of the loop over the settings. *)
Record vcs := { vcsRevision : list Z; vcsModified : bytes; vcsTime : bytes }.

Definition vcs_step (v : vcs) (el : BuildSetting) : vcs :=
  if bool_decide (Key el = lit "vcs.revision") then
    {| vcsRevision := runes_of (Value el); vcsModified := vcsModified v; vcsTime := vcsTime v |}
  else if bool_decide (Key el = lit "vcs.modified") then
    {| vcsRevision := vcsRevision v; vcsModified := Value el; vcsTime := vcsTime v |}
  else if bool_decide (Key el = lit "vcs.time") then
    {| vcsRevision := vcsRevision v; vcsModified := vcsModified v; vcsTime := Value el |}
  else v.

Definition vcs_of (settings : list BuildSetting) : vcs :=
  foldl vcs_step {| vcsRevision := []; vcsModified := []; vcsTime := [] |} settings.

(** [fmt.Sprintf("%d.%d.%d-%d.%s%s", ...)] of the date and the revision. *)
Definition release (t : time.Time) (abbRevision : bytes) : bytes :=
  let secondsSinceMidnight := time.hour t * 3600 + time.minute t * 60 + time.second t in
  strconv.FormatUint (Z.rem (time.year t) 100) ++ lit "." ++ strconv.FormatUint (time.month t) ++ lit "." ++
  strconv.FormatUint (time.day t) ++ lit "-" ++ strconv.FormatUint secondsSinceMidnight ++ lit "." ++
  revPrefix ++ abbRevision.

Definition VCS (buildInfo : option (list BuildSetting)) (abbRevisionNum : Z) : bytes :=
  match buildInfo with
  | None => unknown
  | Some settings =>
      let v := vcs_of settings in
      if (len (vcsRevision v) =? 0) || bool_decide (vcsTime v = []) then unknown
      else if EqualFold_true (vcsModified v) then dirty
      else
        match time.Parse (vcsTime v) with
        | None => unknown
        | Some t =>
            if abbRevisionNum =? 0 then unknown
            else
              let abbRevision :=
                if len (vcsRevision v) <=? abbRevisionNum then string_of_runes (vcsRevision v)
                else string_of_runes (take (Z.to_nat abbRevisionNum) (vcsRevision v)) in
              release t abbRevision
        end
  end.

(** ** Lemmas *)

(** The value of the last setting with a key; a missing one is empty. *)
Definition last_value (key : bytes) (settings : list BuildSetting) : bytes :=
  foldl (λ v el, if bool_decide (Key el = key) then Value el else v) [] settings.

Lemma vcs_of_last settings :
  vcsRevision (vcs_of settings) = runes_of (last_value (lit "vcs.revision") settings) ∧
  vcsModified (vcs_of settings) = last_value (lit "vcs.modified") settings ∧
  vcsTime (vcs_of settings) = last_value (lit "vcs.time") settings.
Proof.
  unfold vcs_of, last_value. induction settings as [|el settings IH] using rev_ind; [done|].
  rewrite !foldl_app. cbn [foldl]. destruct IH as (IH1 & IH2 & IH3). unfold vcs_step at 1 3 5.
  destruct (decide (Key el = lit "vcs.revision")) as [->|H1]; [done|].
  rewrite (bool_decide_eq_false_2 _ H1).
  destruct (decide (Key el = lit "vcs.modified")) as [->|H2]; [done|].
  rewrite (bool_decide_eq_false_2 _ H2).
  destruct (decide (Key el = lit "vcs.time")) as [->|H3]; [done|].
  by rewrite (bool_decide_eq_false_2 _ H3).
Qed.

Lemma runes_of_ascii s : strings.is_ascii s = true → runes_of s = s.
Proof.
  intros Ha%strings.is_ascii_Forall. unfold runes_of. rewrite utf8.runes_ascii by done.
  rewrite map_map. apply map_id.
Qed.

Lemma string_of_runes_ascii s : Forall (λ b, 0 ≤ b < 128) s → string_of_runes s = s.
Proof.
  unfold string_of_runes. induction 1 as [|b s Hb _ IH]; [done|]. cbn [map concat]. rewrite IH.
  unfold utf8.EncodeRune, utf8.in_range. case_zs.
Qed.

(** Fold [take] over both branches of the abbreviation. *)
Lemma abbreviation rs n :
  0 ≤ n →
  (if len rs <=? n then string_of_runes rs else string_of_runes (take (Z.to_nat n) rs)) =
  string_of_runes (take (Z.to_nat n) rs).
Proof. intros Hn. case_z. by rewrite take_ge by lia. Qed.

(** A build of a clean tree with a readable date. *)
Definition released (settings : list BuildSetting) (t : time.Time) (rev : bytes) : Prop :=
  last_value (lit "vcs.revision") settings = rev ∧ rev ≠ [] ∧
  last_value (lit "vcs.time") settings ≠ [] ∧
  EqualFold_true (last_value (lit "vcs.modified") settings) = false ∧
  time.Parse (last_value (lit "vcs.time") settings) = Some t.

Lemma VCS_released settings t rev n :
  released settings t rev → Forall (λ b, 0 ≤ b < 128) rev → 1 ≤ n →
  VCS (Some settings) n = release t (take (Z.to_nat n) rev).
Proof.
  intros (Hr & Hne & Ht & Hm & Hp) Ha Hn. destruct (vcs_of_last settings) as (E1 & E2 & E3).
  unfold VCS. cbv zeta. rewrite E1, E2, E3, Hr.
  rewrite runes_of_ascii by (apply strings.is_ascii_Forall; eapply Forall_impl; [done|simpl; lia]).
  rewrite (proj2 (Z.eqb_neq (len rev) 0)) by (destruct rev; [done|simpl; lia]).
  rewrite (bool_decide_eq_false_2 _ Ht), Hm, Hp, (proj2 (Z.eqb_neq n 0)) by lia. cbn [orb].
  rewrite abbreviation by lia. by rewrite string_of_runes_ascii by (by apply Forall_take).
Qed.

Lemma FormatUint_inj v w :
  0 ≤ v < 2 ^ 64 → 0 ≤ w < 2 ^ 64 → strconv.FormatUint v = strconv.FormatUint w → v = w.
Proof. intros Hv Hw E. by rewrite <- (strconv.FormatUint_value v), E, strconv.FormatUint_value. Qed.

Lemma FormatUint_no_sep v c : 0 ≤ v → c < 48 → c ∉ strconv.FormatUint v.
Proof.
  intros Hv Hc Hin. pose proof (strconv.FormatUint_digits v Hv) as Hd.
  rewrite Forall_forall in Hd. apply Hd in Hin. lia.
Qed.

(** The parts of a release number. *)
Lemma release_inj t t' r r' :
  time.valid t → time.valid t' → release t r = release t' r' →
  time.year t `mod` 100 = time.year t' `mod` 100 ∧ time.month t = time.month t' ∧
  time.day t = time.day t' ∧ time.hour t = time.hour t' ∧ time.minute t = time.minute t' ∧
  time.second t = time.second t' ∧ r = r'.
Proof.
  intros (Hy & Hmo & Hd & Hh & Hmi & Hs) (Hy' & Hmo' & Hd' & Hh' & Hmi' & Hs').
  pose proof (time.daysIn_bound (time.month t) (time.year t)).
  pose proof (time.daysIn_bound (time.month t') (time.year t')).
  pose proof (Z.mod_pos_bound (time.year t) 100). pose proof (Z.mod_pos_bound (time.year t') 100).
  unfold release. rewrite !Z.rem_mod_nonneg by lia. change (lit ".") with [46]. change (lit "-") with [45].
  intros E. cbv zeta in E. cbn [app] in E.
  apply app_sep_inj in E as [E1 E]; [|apply FormatUint_no_sep; lia..].
  apply app_sep_inj in E as [E2 E]; [|apply FormatUint_no_sep; lia..].
  apply app_sep_inj in E as [E3 E]; [|apply FormatUint_no_sep; lia..].
  apply app_sep_inj in E as [E4 E]; [|apply FormatUint_no_sep; lia..].
  apply FormatUint_inj in E1, E2, E3, E4; try lia. apply app_inv_head in E.
  repeat split; try done; lia.
Qed.

Lemma release_not_base t r suffix : time.valid t → release t r ≠ baseVersion ++ 45 :: suffix.
Proof.
  intros (Hy & Hmo & Hd & _) E. pose proof (Z.mod_pos_bound (time.year t) 100).
  pose proof (time.daysIn_bound (time.month t) (time.year t)).
  unfold release in E. rewrite Z.rem_mod_nonneg in E by lia. cbv zeta in E.
  change (baseVersion ++ 45 :: suffix) with
    (strconv.FormatUint 0 ++ 46 :: strconv.FormatUint 0 ++ 46 :: 48 :: 45 :: suffix) in E.
  change (lit ".") with [46] in E. change (lit "-") with [45] in E. cbn [app] in E.
  apply app_sep_inj in E as [_ E]; [|apply FormatUint_no_sep; lia..].
  apply app_sep_inj in E as [E _]; [|apply FormatUint_no_sep; lia..].
  apply FormatUint_inj in E; lia.
Qed.

(** ** Properties *)

(** the version of a released build.  When the build information has a revision, a readable date and
    no modification, the version is made of that date, which is one of the calendar, and of at most the
    asked number of characters of the revision; it is never one of the fallbacks, and two builds with
    the same version have the same date up to the century, the same second of the day and the same
    abbreviated revision. *)
Theorem version_identifies_build (s1 s2 : list BuildSetting) (t1 t2 : time.Time) (rev1 rev2 : bytes)
    (n : Z) :
  released s1 t1 rev1 → released s2 t2 rev2 → 1 ≤ n →
  Forall (λ b, 0 ≤ b < 128) rev1 → Forall (λ b, 0 ≤ b < 128) rev2 →
  time.valid t1 ∧ VCS (Some s1) n = release t1 (take (Z.to_nat n) rev1) ∧
  VCS (Some s1) n ≠ unknown ∧ VCS (Some s1) n ≠ dirty ∧
  (VCS (Some s1) n = VCS (Some s2) n →
     time.year t1 `mod` 100 = time.year t2 `mod` 100 ∧ time.month t1 = time.month t2 ∧
     time.day t1 = time.day t2 ∧ time.hour t1 = time.hour t2 ∧ time.minute t1 = time.minute t2 ∧
     time.second t1 = time.second t2 ∧ take (Z.to_nat n) rev1 = take (Z.to_nat n) rev2).
Proof.
  intros H1 H2 Hn Ha1 Ha2. rewrite (VCS_released _ _ _ _ H1), (VCS_released _ _ _ _ H2) by done.
  assert (Hv1 : time.valid t1) by (destruct H1 as (_ & _ & _ & _ & Hp); by apply time.Parse_valid in Hp).
  assert (Hv2 : time.valid t2) by (destruct H2 as (_ & _ & _ & _ & Hp); by apply time.Parse_valid in Hp).
  split; [done|]. split; [done|]. split; [by apply (release_not_base _ _ (lit "unknown"))|].
  split; [by apply (release_not_base _ _ (lit "dirty"))|]. by apply release_inj.
Qed.

(** the fallbacks of the version.  Without build information, revision or date, with an unreadable
    date, or when no character of the revision is asked for, the version is the unknown one; a modified
    tree with a revision and a date is dirty whatever its date says. *)
Theorem version_fallbacks (settings : list BuildSetting) (n : Z) :
  VCS None n = unknown ∧
  (last_value (lit "vcs.revision") settings = [] ∨ last_value (lit "vcs.time") settings = [] →
     VCS (Some settings) n = unknown) ∧
  (last_value (lit "vcs.revision") settings ≠ [] → last_value (lit "vcs.time") settings ≠ [] →
     let modified := EqualFold_true (last_value (lit "vcs.modified") settings) in
     (modified = true → VCS (Some settings) n = dirty) ∧
     (modified = false → n = 0 ∨ time.Parse (last_value (lit "vcs.time") settings) = None →
      VCS (Some settings) n = unknown)).
Proof.
  destruct (vcs_of_last settings) as (E1 & E2 & E3). split; [done|]. unfold VCS. cbv zeta.
  rewrite E1, E2, E3. split.
  - intros [-> | ->]; [done|]. by rewrite bool_decide_eq_true_2, orb_true_r.
  - intros Hr Ht. assert (Hlen : len (runes_of (last_value (lit "vcs.revision") settings)) ≠ 0).
    { rewrite len_zero. unfold runes_of. intros Hn%map_eq_nil. apply Hr.
      by rewrite <- (utf8.runes_concat (last_value _ _)), Hn. }
    rewrite (proj2 (Z.eqb_neq _ 0) Hlen), (bool_decide_eq_false_2 _ Ht). cbn [orb].
    split; [by intros ->|]. intros -> [->|Hp]; [by destruct (time.Parse _)|by rewrite Hp].
Qed.

(** ** Witnesses *)

Module VersionExample.

Definition settings : list BuildSetting :=
  [{| Key := lit "-buildmode"; Value := lit "exe" |};
   {| Key := lit "vcs.revision"; Value := lit "4f2a9c1d77" |};
   {| Key := lit "vcs.time"; Value := lit "2026-03-09T07:05:01Z" |};
   {| Key := lit "vcs.modified"; Value := lit "false" |}].

Definition built : time.Time := time.Build_Time 2026 3 9 7 5 1.

Lemma settings_released : released settings built (lit "4f2a9c1d77").
Proof. repeat split; vm_compute; done. Qed.

End VersionExample.

Lemma version_identifies_build_witness :
  VCS (Some VersionExample.settings) 8 = lit "26.3.9-25501.r4f2a9c1d" ∧
  VCS (Some VersionExample.settings) 8 ≠ unknown.
Proof.
  split; [vm_compute; reflexivity|].
  apply (version_identifies_build VersionExample.settings VersionExample.settings VersionExample.built
    VersionExample.built (lit "4f2a9c1d77") (lit "4f2a9c1d77") 8);
    [apply VersionExample.settings_released..|lia| |];
    apply (bool_decide_eq_true_1 _); vm_compute; reflexivity.
Defined.

Lemma version_fallbacks_witness : VCS (Some []) 8 = unknown.
Proof. refine (proj1 (proj2 (version_fallbacks [] 8)) _). left. reflexivity. Defined.
