(* ===== verification/GoFlag.v ===== *)
(** * Go's [flag] package and the conversions its values use: [strconv.ParseUint] with base 0,
      [strconv.ParseBool] and [time.ParseDuration]. *)

From Stdlib Require Import SpecFloat.
From S2P Require Import Prelude GoStrings.

(** ** strconv.ParseUint(s, 0, 64) *)

Module ParseUint.

(** The value of a digit or letter in bases up to 36. *)
Definition digit (c : Z) : option Z :=
  if utf8.in_range 48 57 c then Some (c - 48)
  else let l := strings.lower_byte c in if utf8.in_range 97 122 l then Some (l - 97 + 10) else None.

(** The base and the digits of a number with an optional prefix. *)
Definition base_prefix (s : bytes) : Z * bytes :=
  match s with
  | c0 :: r =>
      if c0 =? 48 then
        match r with
        | c1 :: ((_ :: _) as ds) =>
            let l := strings.lower_byte c1 in
            if l =? 98 then (2, ds) else if l =? 111 then (8, ds) else if l =? 120 then (16, ds) else (8, r)
        | _ => (8, r)
        end
      else (10, s)
  | [] => (10, s)
  end.

(** The loop over the digits: the number, and whether an underscore was seen.  The cutoff rejects a
    number whose product with the base would not fit. *)
Fixpoint loop (base : Z) (n : Z) (underscores : bool) (s : bytes) : option (Z * bool) :=
  match s with
  | [] => Some (n, underscores)
  | c :: s =>
      if c =? 95 then loop base n true s
      else
        match digit c with
        | None => None
        | Some d =>
            if base <=? d then None
            else if (2 ^ 64 - 1) / base + 1 <=? n then None
            else let n1 := n * base + d in if 2 ^ 64 - 1 <? n1 then None else loop base n1 underscores s
        end
  end.

(** [underscoreOK]: an underscore separates digits; a base prefix counts as a digit. *)
Inductive saw := SawStart | SawDigit | SawUnderscore | SawOther.

Fixpoint underscore_loop (hex : bool) (last : saw) (s : bytes) : bool :=
  match s with
  | [] => match last with SawUnderscore => false | _ => true end
  | c :: s =>
      if utf8.in_range 48 57 c || hex && utf8.in_range 97 102 (strings.lower_byte c) then
        underscore_loop hex SawDigit s
      else if c =? 95 then
        match last with SawDigit => underscore_loop hex SawUnderscore s | _ => false end
      else match last with SawUnderscore => false | _ => underscore_loop hex SawOther s end
  end.

Definition underscoreOK (s : bytes) : bool :=
  let s := match s with c :: r => if (c =? 45) || (c =? 43) then r else s | [] => s end in
  match s with
  | c0 :: c1 :: r =>
      let l := strings.lower_byte c1 in
      if (c0 =? 48) && ((l =? 98) || (l =? 111) || (l =? 120)) then underscore_loop (l =? 120) SawDigit r
      else underscore_loop false SawStart s
  | _ => underscore_loop false SawStart s
  end.

Definition ParseUint (s : bytes) : option Z :=
  if bool_decide (s = []) then None
  else
    let '(base, ds) := base_prefix s in
    match loop base 0 false ds with
    | None => None
    | Some (n, underscores) => if underscores && negb (underscoreOK s) then None else Some n
    end.

End ParseUint.

(** ** strconv.ParseBool *)

Definition ParseBool (s : bytes) : option bool :=
  if bool_decide (s ∈ map lit ["1"; "t"; "T"; "TRUE"; "true"; "True"]) then Some true
  else if bool_decide (s ∈ map lit ["0"; "f"; "F"; "FALSE"; "false"; "False"]) then Some false
  else None.

(** ** time.ParseDuration, in nanoseconds *)

Module ParseDuration.

Definition u64 (z : Z) : Z := z `mod` 2 ^ 64.

(** [leadingInt]: an overflow is an error. *)
Fixpoint leadingInt (x : Z) (s : bytes) : option (Z * bytes) :=
  match s with
  | c :: r =>
      if strconv.is_digit c then
        if 2 ^ 63 / 10 <? x then None
        else let x := x * 10 + (c - 48) in if 2 ^ 63 <? x then None else leadingInt x r
      else Some (x, s)
  | [] => Some (x, s)
  end.

(** Binary64 arithmetic. *)
Definition float_of (z : Z) : spec_float := binary_normalize 53 1024 z 0 false.
Definition fmul : spec_float → spec_float → spec_float := SFmul 53 1024.
Definition fdiv : spec_float → spec_float → spec_float := SFdiv 53 1024.

(** [uint64(f)] of a non negative float: the part before the point. *)
Definition trunc (f : spec_float) : Z :=
  match f with
  | S754_finite false m e => if 0 <=? e then Z.pos m * 2 ^ e else Z.pos m / 2 ^ (- e)
  | _ => 0
  end.

(** [leadingFraction]: digits that would overflow are skipped. *)
Fixpoint leadingFraction (x : Z) (scale : spec_float) (overflow : bool) (s : bytes) :
    Z * spec_float * bytes :=
  match s with
  | c :: r =>
      if strconv.is_digit c then
        if overflow then leadingFraction x scale true r
        else if (2 ^ 63 - 1) / 10 <? x then leadingFraction x scale true r
        else
          let y := x * 10 + (c - 48) in
          if 2 ^ 63 <? y then leadingFraction x scale true r
          else leadingFraction y (fmul scale (float_of 10)) false r
      else (x, scale, s)
  | [] => (x, scale, s)
  end.

Definition unitMap (u : bytes) : option Z :=
  if bool_decide (u = lit "ns") then Some 1
  else if bool_decide (u = lit "us") then Some (10 ^ 3)
  else if bool_decide (u = [194; 181; 115]) then Some (10 ^ 3)
  else if bool_decide (u = [206; 188; 115]) then Some (10 ^ 3)
  else if bool_decide (u = lit "ms") then Some (10 ^ 6)
  else if bool_decide (u = lit "s") then Some (10 ^ 9)
  else if bool_decide (u = lit "m") then Some (60 * 10 ^ 9)
  else if bool_decide (u = lit "h") then Some (3600 * 10 ^ 9)
  else None.

(** The unit: everything up to the next digit or point. *)
Fixpoint split_unit (s : bytes) : bytes * bytes :=
  match s with
  | c :: r =>
      if (c =? 46) || strconv.is_digit c then ([], s) else let '(u, r) := split_unit r in (c :: u, r)
  | [] => ([], [])
  end.

(** One number with its unit, in nanoseconds, and the rest. *)
Definition component (s : bytes) : option (Z * bytes) :=
  match s with
  | c :: _ =>
      if negb ((c =? 46) || strconv.is_digit c) then None
      else
        match leadingInt 0 s with
        | None => None
        | Some (v, s1) =>
            let pre := negb (Nat.eqb (length s) (length s1)) in
            let '(f, scale, s2, post) :=
              match s1 with
              | d :: r =>
                  if d =? 46 then
                    let '(f, scale, s2) := leadingFraction 0 (float_of 1) false r in
                    (f, scale, s2, negb (Nat.eqb (length r) (length s2)))
                  else (0, float_of 1, s1, false)
              | [] => (0, float_of 1, s1, false)
              end in
            if negb pre && negb post then None
            else
              let '(u, s3) := split_unit s2 in
              if bool_decide (u = []) then None
              else
                match unitMap u with
                | None => None
                | Some unit =>
                    if 2 ^ 63 / unit <? v then None
                    else
                      let v := v * unit in
                      if 0 <? f then
                        let v := v + trunc (fmul (float_of f) (fdiv (float_of unit) scale)) in
                        if 2 ^ 63 <? v then None else Some (v, s3)
                      else Some (v, s3)
                end
        end
  | [] => None
  end.

(** The sum of the components; each takes at least one byte. *)
Fixpoint components (fuel : nat) (d : Z) (s : bytes) : option Z :=
  match s with
  | [] => Some d
  | _ =>
      match fuel with
      | O => None
      | S fuel =>
          match component s with
          | None => None
          | Some (v, s) => let d := u64 (d + v) in if 2 ^ 63 <? d then None else components fuel d s
          end
      end
  end.

Definition ParseDuration (s : bytes) : option Z :=
  let '(neg, s) :=
    match s with
    | c :: r => if c =? 45 then (true, r) else if c =? 43 then (false, r) else (false, s)
    | [] => (false, s)
    end in
  if bool_decide (s = lit "0") then Some 0
  else if bool_decide (s = []) then None
  else
    match components (length s) 0 s with
    | None => None
    | Some d => if neg then Some (- d) else if 2 ^ 63 - 1 <? d then None else Some d
    end.

End ParseDuration.

(** ** The flag package

    A flag set is the table of its flags.  A value is set through the pointer the program registered,
    here a function on the record of variables; an unreadable value is [None]. *)

Module flag.
Section flag.
Context {Vars : Type}.

Record Flag := { fl_name : bytes; fl_bool : bool; fl_set : bytes → Vars → option Vars }.

Definition StringVar (name : string) (set : bytes → Vars → Vars) : Flag :=
  {| fl_name := lit name; fl_bool := false; fl_set := λ s v, Some (set s v) |}.

Definition BoolVar (name : string) (set : bool → Vars → Vars) : Flag :=
  {| fl_name := lit name; fl_bool := true;
     fl_set := λ s v, match ParseBool s with Some b => Some (set b v) | None => None end |}.

Definition Uint64Var (name : string) (set : Z → Vars → Vars) : Flag :=
  {| fl_name := lit name; fl_bool := false;
     fl_set := λ s v, match ParseUint.ParseUint s with Some n => Some (set n v) | None => None end |}.

Definition DurationVar (name : string) (set : Z → Vars → Vars) : Flag :=
  {| fl_name := lit name; fl_bool := false;
     fl_set := λ s v,
       match ParseDuration.ParseDuration s with Some d => Some (set d v) | None => None end |}.

(** How parsing ends: the variables and the remaining arguments, or the process exits with a status
    after the usage text. *)
Inductive outcome :=
| Parsed (v : Vars) (rest : list bytes)
| Exited (status : Z).

(** The name of a flag and its value after the first equals sign, which cannot be the first byte. *)
Fixpoint cut_eq (s : bytes) : bytes * option bytes :=
  match s with
  | [] => ([], None)
  | c :: s => if c =? 61 then ([], Some s) else let '(n, v) := cut_eq s in (c :: n, v)
  end.

Definition cut_name (name : bytes) : bytes * option bytes :=
  match name with
  | [] => ([], None)
  | c :: r => let '(n, v) := cut_eq r in (c :: n, v)
  end.

(** [FlagSet.Parse] with [ExitOnError]: an error exits with status 2, a request for help with 0. *)
Fixpoint Parse (formal : list Flag) (args : list bytes) (v : Vars) : outcome :=
  match args with
  | [] => Parsed v args
  | s :: args' =>
      match s with
      | d :: (c1 :: rest) as s1 =>
          if negb (d =? 45) then Parsed v args
          else if (c1 =? 45) && bool_decide (rest = []) then Parsed v args'
          else
            let name := if c1 =? 45 then rest else s1 in
            match name with
            | [] => Exited 2
            | n0 :: _ =>
                if (n0 =? 45) || (n0 =? 61) then Exited 2
                else
                  let '(name, value) := cut_name name in
                  match find_first (λ f, bool_decide (fl_name f = name)) formal with
                  | None =>
                      if bool_decide (name = lit "help") || bool_decide (name = lit "h") then Exited 0
                      else Exited 2
                  | Some f =>
                      let set value k := match fl_set f value v with Some v => k v | None => Exited 2 end in
                      if fl_bool f then set (default (lit "true") value) (Parse formal args')
                      else
                        match value, args' with
                        | Some value, _ => set value (Parse formal args')
                        | None, value :: args'' => set value (Parse formal args'')
                        | None, [] => Exited 2
                        end
                  end
            end
      | _ => Parsed v args
      end
  end.

End flag.
#[global] Arguments Flag : clear implicits.
#[global] Arguments outcome : clear implicits.
End flag.

(** ** Lemmas *)

Import ParseUint ParseDuration.

(** Reading digits never makes a number smaller. *)
Lemma foldl_digits_ge m s :
  0 ≤ m → Forall (λ c, 48 ≤ c ≤ 57) s → m ≤ foldl (λ n c, n * 10 + (c - 48)) m s.
Proof.
  intros Hm Hs. revert m Hm. induction Hs as [|d s Hd _ IH]; intros m Hm; cbn [foldl]; [lia|].
  specialize (IH (m * 10 + (d - 48))). lia.
Qed.

(** A decimal number below 2^64 goes through the loop unchanged. *)
Lemma loop_decimal n s u :
  0 ≤ n → Forall (λ c, 48 ≤ c ≤ 57) s →
  foldl (λ n c, n * 10 + (c - 48)) n s < 2 ^ 64 →
  loop 10 n u s = Some (foldl (λ n c, n * 10 + (c - 48)) n s, u).
Proof.
  intros Hn Hs. revert n Hn. induction Hs as [|c s Hc Hs IH]; intros n Hn Hb; [done|].
  cbn [loop foldl] in *. rewrite (proj2 (Z.eqb_neq c 95)) by lia.
  pose proof (foldl_digits_ge (n * 10 + (c - 48)) s ltac:(lia) Hs).
  unfold digit, utf8.in_range. rewrite (proj2 (Z.leb_le 48 c)), (proj2 (Z.leb_le c 57)) by lia.
  cbn [andb]. rewrite (proj2 (Z.leb_gt 10 (c - 48))) by lia.
  rewrite (proj2 (Z.leb_gt ((2 ^ 64 - 1) / 10 + 1) n)).
  2: { change ((2 ^ 64 - 1) / 10) with 1844674407370955161. lia. }
  rewrite (proj2 (Z.ltb_ge (2 ^ 64 - 1) (n * 10 + (c - 48)))) by lia. apply IH; lia.
Qed.

Lemma FormatUint_head v c r :
  0 < v < 2 ^ 64 → strconv.FormatUint v = c :: r → c ≠ 48.
Proof.
  intros Hv E ->. revert Hv E. unfold strconv.FormatUint.
  assert (Hd : ∀ fuel w, 0 < w < 10 ^ Z.of_nat fuel →
    ∃ ds d, strconv.digits_rev fuel w = ds ++ [d] ∧ d ≠ 0).
  { induction fuel as [|fuel IH]; intros w Hw; [simpl in Hw; lia|].
    rewrite Nat2Z.inj_succ, Z.pow_succ_r in Hw by lia. cbn [strconv.digits_rev].
    destruct (Z.ltb_spec w 10); [exists [], w; split; [done|lia]|].
    destruct (IH (w / 10)) as (ds & d & -> & Hd).
    { split; [apply Z.div_str_pos; lia|apply Z.div_lt_upper_bound; lia]. }
    by exists (w `mod` 10 :: ds), d. }
  intros Hv E. destruct (Hd 20%nat v) as (ds & d & E' & Hne).
  { split; [lia|]. change (10 ^ Z.of_nat 20) with 100000000000000000000. lia. }
  rewrite E', reverse_app in E. simpl in E. inversion E. lia.
Qed.

(** Printing and parsing an unsigned number. *)
Lemma ParseUint_FormatUint v : 0 ≤ v < 2 ^ 64 → ParseUint (strconv.FormatUint v) = Some v.
Proof.
  intros Hv. destruct (decide (v = 0)) as [->|Hne]; [done|].
  pose proof (strconv.FormatUint_digits v ltac:(lia)) as Hd.
  pose proof (strconv.FormatUint_value v Hv) as Hval. unfold strconv.digits_value in Hval.
  pose proof (FormatUint_head v) as Hh. pose proof (strconv.FormatUint_nonempty v) as Hn.
  unfold ParseUint. destruct (strconv.FormatUint v) as [|c r] eqn:E; [done|].
  rewrite bool_decide_eq_false_2 by done. unfold base_prefix.
  rewrite (proj2 (Z.eqb_neq c 48)) by (eapply Hh; [lia|done]).
  by rewrite loop_decimal, Hval by (done || lia).
Qed.

Lemma is_digit_range c : strconv.is_digit c = true ↔ 48 ≤ c ≤ 57.
Proof. unfold strconv.is_digit, utf8.in_range. rewrite andb_true_iff, !Z.leb_le. done. Qed.

Lemma leadingInt_digits x s t :
  0 ≤ x → Forall (λ c, 48 ≤ c ≤ 57) s → (∀ c r, t = c :: r → strconv.is_digit c = false) →
  foldl (λ n c, n * 10 + (c - 48)) x s ≤ 2 ^ 63 →
  leadingInt x (s ++ t) = Some (foldl (λ n c, n * 10 + (c - 48)) x s, t).
Proof.
  intros Hx Hs Ht. revert x Hx. induction Hs as [|c s Hc Hs IH]; intros x Hx Hb.
  { destruct t as [|c r]; [done|]. simpl. by rewrite (Ht c r). }
  cbn [app leadingInt foldl] in *. rewrite (proj2 (is_digit_range c)) by done.
  pose proof (foldl_digits_ge (x * 10 + (c - 48)) s ltac:(lia) Hs). change (2 ^ 63 / 10) with 922337203685477580.
  rewrite (proj2 (Z.ltb_ge 922337203685477580 x)) by lia.
  rewrite (proj2 (Z.ltb_ge (2 ^ 63) (x * 10 + (c - 48)))) by lia. apply IH; [lia|done].
Qed.

(** A duration in nanoseconds. *)
Definition format_ns (d : Z) : bytes :=
  (if d <? 0 then [45] else []) ++ strconv.FormatUint (Z.abs d) ++ lit "ns".

Lemma component_ns v :
  0 ≤ v ≤ 2 ^ 63 → component (strconv.FormatUint v ++ lit "ns") = Some (v, []).
Proof.
  intros Hv. pose proof (strconv.FormatUint_digits v ltac:(lia)) as Hd.
  pose proof (strconv.FormatUint_value v ltac:(lia)) as Hval. unfold strconv.digits_value in Hval.
  pose proof (strconv.FormatUint_nonempty v) as Hn.
  destruct (strconv.FormatUint v) as [|c r] eqn:E; [done|]. cbn [app component].
  rewrite (proj2 (is_digit_range c)) by (by inversion Hd). rewrite orb_true_r. cbn [negb].
  change (c :: r ++ lit "ns") with ((c :: r) ++ lit "ns").
  rewrite leadingInt_digits; [|lia|done| |lia].
  2: { by intros c' r' [= <- <-]. }
  change (lit "ns") with [110; 115]. rewrite Hval, length_app. cbn [length Z.eqb Pos.eqb].
  rewrite (proj2 (Nat.eqb_neq (S (length r) + 2) 2)) by lia. cbn [negb andb].
  change (split_unit _) with ([110; 115], [] : bytes). cbv zeta iota.
  rewrite bool_decide_eq_false_2 by done. change (unitMap _) with (Some 1). cbv iota.
  rewrite Z.div_1_r, (proj2 (Z.ltb_ge (2 ^ 63) v)) by lia.
  change (0 <? 0) with false. cbv iota. by rewrite Z.mul_1_r.
Qed.

(** Printing and parsing a duration. *)
Lemma ParseDuration_format_ns d :
  - 2 ^ 63 ≤ d < 2 ^ 63 → ParseDuration (format_ns d) = Some d.
Proof.
  intros Hd. pose proof (component_ns (Z.abs d) ltac:(lia)) as Hc.
  pose proof (strconv.FormatUint_digits (Z.abs d) ltac:(lia)) as Hdig.
  pose proof (strconv.FormatUint_nonempty (Z.abs d)) as Hn. unfold format_ns, ParseDuration.
  destruct (strconv.FormatUint (Z.abs d)) as [|c r] eqn:E; [done|]. clear Hn.
  assert (Hnum : bool_decide ((c :: r) ++ lit "ns" = lit "0") = false).
  { apply bool_decide_eq_false_2. intros F%(f_equal length). rewrite length_app in F. simpl in F. lia. }
  assert (Hsum : components (length ((c :: r) ++ lit "ns")) 0 ((c :: r) ++ lit "ns") = Some (Z.abs d)).
  { cbn [app length components]. change (c :: r ++ lit "ns") with ((c :: r) ++ lit "ns"). rewrite Hc.
    unfold u64. rewrite Z.mod_small by lia. rewrite (proj2 (Z.ltb_ge (2 ^ 63) (0 + Z.abs d))) by lia.
    by destruct (length (r ++ lit "ns")). }
  apply Forall_cons in Hdig as [Hc0 _]. destruct (Z.ltb_spec d 0).
  - cbn [app]. change (c :: r ++ lit "ns") with ((c :: r) ++ lit "ns"). cbn [Z.eqb Pos.eqb].
    rewrite Hnum, bool_decide_eq_false_2, Hsum by done. f_equal. lia.
  - rewrite app_nil_l. cbn [app]. rewrite (proj2 (Z.eqb_neq c 45)), (proj2 (Z.eqb_neq c 43)) by lia.
    change (c :: r ++ lit "ns") with ((c :: r) ++ lit "ns").
    rewrite Hnum, bool_decide_eq_false_2, Hsum by done.
    rewrite (proj2 (Z.ltb_ge (2 ^ 63 - 1) (Z.abs d))) by lia. f_equal. lia.
Qed.

Lemma ParseBool_format (b : bool) : ParseBool (lit (if b then "true" else "false")) = Some b.
Proof. by destruct b. Qed.

Lemma cut_eq_app n v : 61 ∉ n → flag.cut_eq (n ++ 61 :: v) = (n, Some v).
Proof.
  induction n as [|c n IH]; intros Hn; [done|]. apply not_elem_of_cons in Hn as [Hc Hn]. simpl.
  rewrite (proj2 (Z.eqb_neq c 61)) by done. by rewrite IH.
Qed.

Example conversions :
  ParseDuration (lit "1h30m") = Some 5400000000000 ∧ ParseDuration (lit "500ms") = Some 500000000 ∧
  ParseDuration (lit "0.1s") = Some 100000000 ∧ ParseDuration (lit "-1.5us") = Some (-1500) ∧
  ParseDuration (lit "1.000000001h") = Some 3600000003600 ∧ ParseDuration (lit "10") = None ∧
  ParseDuration (lit "0") = Some 0 ∧ ParseDuration (lit ".s") = None ∧
  ParseUint (lit "0x10") = Some 16 ∧ ParseUint (lit "010") = Some 8 ∧ ParseUint (lit "1_000") = Some 1000 ∧
  ParseUint (lit "1__0") = None ∧ ParseUint (lit "18446744073709551616") = None ∧
  ParseUint (lit "-1") = None.
Proof. repeat split; vm_compute; reflexivity. Qed.
