(* ===== verification/Logger.v ===== *)
(** * Logging: [pkg/logger/logger.go], over Go's [log] package.

    A logger writes one line per call to standard error or discards it.  [Config] holds one logger per
    level; verbosity redirects the debug logger.  A message is the text [fmt] made of the format and
    its arguments. *)

From S2P Require Import Prelude GoStrings GoTime.

(** ** The log package *)

Module log.

Inductive Writer := Discard | Stderr.

Definition Ldate : Z := 1.
Definition Ltime : Z := 2.
Definition LUTC : Z := 32.
Definition Lmsgprefix : Z := 64.

Record Logger := { out : Writer; prefix : bytes; flag : Z }.

Definition New (out : Writer) (prefix : bytes) (flag : Z) : Logger :=
  {| out := out; prefix := prefix; flag := flag |}.

Definition SetOutput (l : Logger) (w : Writer) : Logger :=
  {| out := w; prefix := prefix l; flag := flag l |}.

(** [itoa]: decimal digits, least significant first, at least [wid] of them.  The buffer of the package
    has twenty bytes. *)
Fixpoint itoa_rev (fuel : nat) (i wid : Z) : bytes :=
  match fuel with
  | O => []
  | S fuel =>
      if (10 <=? i) || (1 <? wid) then 48 + (i - i / 10 * 10) :: itoa_rev fuel (i / 10) (wid - 1)
      else [48 + i]
  end.

Definition itoa (i wid : Z) : bytes := reverse (itoa_rev 20 i wid).

Definition has (flag bits : Z) : bool := negb (Z.land flag bits =? 0).

(** [formatHeader], without the parts for flags the program never sets.  The time is in UTC: the program
    sets [LUTC] wherever it asks for the date or the time. *)
Definition formatHeader (l : Logger) (t : time.Time) : bytes :=
  (if has (flag l) Lmsgprefix then [] else prefix l) ++
  (if has (flag l) Ldate then
     itoa (time.year t) 4 ++ lit "/" ++ itoa (time.month t) 2 ++ lit "/" ++ itoa (time.day t) 2 ++ lit " "
   else []) ++
  (if has (flag l) Ltime then
     itoa (time.hour t) 2 ++ lit ":" ++ itoa (time.minute t) 2 ++ lit ":" ++ itoa (time.second t) 2 ++ lit " "
   else []) ++
  (if has (flag l) Lmsgprefix then prefix l else []).

(** A line ends in a line feed; one is added when the message has none. *)
Definition terminated (msg : bytes) : bytes :=
  if bool_decide (last msg = Some 10) then msg else msg ++ [10].

(** [Logger.Printf]: what it appends to standard error. *)
Definition Printf (l : Logger) (now : time.Time) (msg : bytes) : bytes :=
  match out l with
  | Discard => []
  | Stderr => formatHeader l now ++ terminated msg
  end.

End log.

(** ** The loggers of the program *)

Module logger.

Record Config := {
  debugLogger : log.Logger;
  infoLogger : log.Logger;
  warnLogger : log.Logger;
  errorLogger : log.Logger;
  fatalLogger : log.Logger
}.

Definition datetime_flags : Z := Z.lor (Z.lor (Z.lor log.Ldate log.Ltime) log.LUTC) log.Lmsgprefix.

Definition NewWithDatetime : Config :=
  {| debugLogger := log.New log.Discard (lit "DBG | ") datetime_flags;
     infoLogger := log.New log.Stderr (lit "INF | ") datetime_flags;
     warnLogger := log.New log.Stderr (lit "WRN | ") datetime_flags;
     errorLogger := log.New log.Stderr (lit "ERR | ") datetime_flags;
     fatalLogger := log.New log.Stderr (lit "FTL | ") datetime_flags |}.

Definition NewWithoutDatetime : Config :=
  {| debugLogger := log.New log.Discard (lit "DBG | ") log.Lmsgprefix;
     infoLogger := log.New log.Stderr (lit "INF | ") log.Lmsgprefix;
     warnLogger := log.New log.Stderr (lit "WRN | ") log.Lmsgprefix;
     errorLogger := log.New log.Stderr (lit "ERR | ") log.Lmsgprefix;
     fatalLogger := log.New log.Stderr (lit "FTL | ") log.Lmsgprefix |}.

Definition set_debug (c : Config) (l : log.Logger) : Config :=
  {| debugLogger := l; infoLogger := infoLogger c; warnLogger := warnLogger c;
     errorLogger := errorLogger c; fatalLogger := fatalLogger c |}.

Definition EnableVerbose (c : Config) : Config := set_debug c (log.SetOutput (debugLogger c) log.Stderr).
Definition DisableVerbose (c : Config) : Config := set_debug c (log.SetOutput (debugLogger c) log.Discard).

(** The process as far as logging goes: the loggers, what standard error holds, and the exit status
    once [Fatalf] has been called. *)
Record process := { cl : Config; stderr : bytes; exit : option Z }.

Definition start (c : Config) : process := {| cl := c; stderr := []; exit := None |}.

Definition print (l : log.Logger) (now : time.Time) (msg : bytes) (p : process) : process :=
  {| cl := cl p; stderr := stderr p ++ log.Printf l now msg; exit := exit p |}.

Definition Debugf (now : time.Time) (msg : bytes) (p : process) : process :=
  print (debugLogger (cl p)) now msg p.
Definition Infof (now : time.Time) (msg : bytes) (p : process) : process :=
  print (infoLogger (cl p)) now msg p.
Definition Warnf (now : time.Time) (msg : bytes) (p : process) : process :=
  print (warnLogger (cl p)) now msg p.
Definition Errorf (now : time.Time) (msg : bytes) (p : process) : process :=
  print (errorLogger (cl p)) now msg p.

(** [Fatalf] prints and calls [os.Exit(1)]. *)
Definition Fatalf (now : time.Time) (msg : bytes) (p : process) : process :=
  let p := print (fatalLogger (cl p)) now msg p in
  {| cl := cl p; stderr := stderr p; exit := Some 1 |}.

(** ** Any use of the loggers *)

Inductive severity := DBG | INF | WRN | ERR | FTL.

Inductive call :=
| CallVerbose (on : bool)
| CallLog (s : severity) (now : time.Time) (msg : bytes).

(** One call; a process that has exited makes none. *)
Definition run_call (p : process) (c : call) : process :=
  match exit p with
  | Some _ => p
  | None =>
      match c with
      | CallVerbose true => {| cl := EnableVerbose (cl p); stderr := stderr p; exit := exit p |}
      | CallVerbose false => {| cl := DisableVerbose (cl p); stderr := stderr p; exit := exit p |}
      | CallLog DBG now msg => Debugf now msg p
      | CallLog INF now msg => Infof now msg p
      | CallLog WRN now msg => Warnf now msg p
      | CallLog ERR now msg => Errorf now msg p
      | CallLog FTL now msg => Fatalf now msg p
      end
  end.

Definition run (p : process) (cs : list call) : process := foldl run_call p cs.

End logger.

(** ** What the log should hold *)

Module journal.
Import logger.

(** One line of the log. *)
Record record := { sev : severity; at_time : time.Time; text : bytes }.

(** The journal: whether debug lines are kept, the lines, and whether the program has exited. *)
Record journal := { verbose : bool; records : list record; dead : bool }.

Definition empty : journal := {| verbose := false; records := []; dead := false |}.

Definition kept (verbose : bool) (s : severity) : bool :=
  match s with DBG => verbose | _ => true end.

Definition is_fatal (s : severity) : bool := match s with FTL => true | _ => false end.

Definition step (j : journal) (c : call) : journal :=
  if dead j then j
  else
    match c with
    | CallVerbose on => {| verbose := on; records := records j; dead := false |}
    | CallLog s now msg =>
        {| verbose := verbose j;
           records := records j ++
             (if kept (verbose j) s then [{| sev := s; at_time := now; text := msg |}] else []);
           dead := is_fatal s |}
    end.

Definition tag (s : severity) : bytes :=
  match s with
  | DBG => lit "DBG | " | INF => lit "INF | " | WRN => lit "WRN | " | ERR => lit "ERR | "
  | FTL => lit "FTL | "
  end.

Definition stamp (t : time.Time) : bytes :=
  log.itoa (time.year t) 4 ++ lit "/" ++ log.itoa (time.month t) 2 ++ lit "/" ++
  log.itoa (time.day t) 2 ++ lit " " ++
  log.itoa (time.hour t) 2 ++ lit ":" ++ log.itoa (time.minute t) 2 ++ lit ":" ++
  log.itoa (time.second t) 2 ++ lit " ".

Definition line (datetime : bool) (r : record) : bytes :=
  (if datetime then stamp (at_time r) else []) ++ tag (sev r) ++ log.terminated (text r).

(** The severity of a line of text. *)
Definition severity_of (datetime : bool) (l : bytes) : option severity :=
  let t := take 6 (drop (if datetime then 20 else 0) l) in
  find_first (λ s, bool_decide (tag s = t)) [DBG; INF; WRN; ERR; FTL].

(** A time whose parts print with their usual widths, and a message of one line. *)
Definition in_calendar (t : time.Time) : Prop :=
  0 ≤ time.year t < 10000 ∧ 0 ≤ time.month t < 100 ∧ 0 ≤ time.day t < 100 ∧ 0 ≤ time.hour t < 100 ∧
  0 ≤ time.minute t < 100 ∧ 0 ≤ time.second t < 100.

Definition one_line (msg : bytes) : Prop := ∃ m : bytes, (msg = m ∨ msg = m ++ [10]) ∧ 10 ∉ m.

Definition readable (c : call) : Prop :=
  match c with CallVerbose _ => True | CallLog _ now msg => one_line msg ∧ in_calendar now end.

End journal.

(** ** Lemmas *)

Import logger journal.

(** The loggers of a process and the verbosity of the journal agree. *)
Definition new_config (datetime : bool) : Config :=
  if datetime then NewWithDatetime else NewWithoutDatetime.

Definition config_of (datetime verbose : bool) : Config :=
  if verbose then EnableVerbose (new_config datetime) else new_config datetime.

Definition logger_of (c : Config) (s : severity) : log.Logger :=
  match s with
  | DBG => debugLogger c | INF => infoLogger c | WRN => warnLogger c | ERR => errorLogger c
  | FTL => fatalLogger c
  end.

Lemma config_set_verbose datetime v (on : bool) :
  (if on then EnableVerbose (config_of datetime v) else DisableVerbose (config_of datetime v)) =
  config_of datetime on.
Proof. by destruct datetime, v, on. Qed.

(** Evaluate the tests of the flags. *)
Ltac eval_flags :=
  repeat match goal with
  | |- context [log.has ?a ?b] => let v := eval vm_compute in (log.has a b) in change (log.has a b) with v
  end; cbv iota.

Lemma Printf_line datetime v s now msg :
  log.Printf (logger_of (config_of datetime v) s) now msg =
  if kept v s then line datetime {| sev := s; at_time := now; text := msg |} else [].
Proof.
  destruct datetime, v, s; cbn -[app lit log.itoa log.terminated]; try done;
    unfold line, stamp, log.formatHeader; cbn -[app lit log.itoa log.terminated tag log.has];
    eval_flags; rewrite ?app_nil_r, ?app_nil_l, <- ?(assoc_L (++)); done.
Qed.

Lemma run_call_log p s now msg :
  exit p = None →
  run_call p (CallLog s now msg) =
  {| cl := cl p; stderr := stderr p ++ log.Printf (logger_of (cl p) s) now msg;
     exit := if is_fatal s then Some 1 else None |}.
Proof. intros E. unfold run_call. rewrite E. destruct s; unfold Debugf, Infof, Warnf, Errorf, Fatalf, print; cbn; by rewrite ?E. Qed.

(** The process shows the journal. *)
Definition shows (datetime : bool) (p : process) (j : journal) : Prop :=
  cl p = config_of datetime (verbose j) ∧
  stderr p = concat (map (line datetime) (records j)) ∧
  exit p = if dead j then Some 1 else None.

Lemma shows_step datetime p j c : shows datetime p j → shows datetime (run_call p c) (step j c).
Proof.
  intros (Hc & Hs & He). unfold step. destruct (dead j) eqn:Ed.
  { unfold run_call. rewrite He. unfold shows. by rewrite Ed. }
  destruct c as [on|s now msg].
  - unfold run_call. rewrite He. assert (Hv := config_set_verbose datetime (verbose j) on).
    unfold shows. destruct on; cbn in *; rewrite Hc; done.
  - rewrite run_call_log by done. unfold shows. cbn [cl stderr exit verbose records dead].
    split; [done|]. split; [|by destruct s].
    rewrite Hc, Printf_line, Hs, map_app, concat_app.
    destruct (kept (verbose j) s); simpl; by rewrite ?app_nil_r.
Qed.

Lemma shows_run datetime cs p j :
  shows datetime p j → shows datetime (run p cs) (foldl step j cs).
Proof. revert p j. induction cs as [|c cs IH]; intros p j Hs; [done|]. apply IH, shows_step, Hs. Qed.

Lemma itoa_rev_more fuel i wid :
  1 < wid → log.itoa_rev (S fuel) i wid = 48 + i `mod` 10 :: log.itoa_rev fuel (i / 10) (wid - 1).
Proof.
  intros Hw. cbn [log.itoa_rev]. rewrite (proj2 (Z.ltb_lt 1 wid)) by done. rewrite orb_true_r.
  pose proof (Z.div_mod i 10). f_equal. lia.
Qed.

Lemma itoa_rev_last fuel i : i < 10 → log.itoa_rev (S fuel) i 1 = [48 + i].
Proof. intros Hi. cbn [log.itoa_rev]. by rewrite (proj2 (Z.leb_gt 10 i)). Qed.

Lemma itoa_2 i : 0 ≤ i < 100 → log.itoa i 2 = [48 + i / 10; 48 + i `mod` 10].
Proof.
  intros Hi. unfold log.itoa. rewrite itoa_rev_more by lia. cbn [Z.sub Z.add Z.opp Z.pos_sub Pos.pred_double].
  rewrite itoa_rev_last; [done|]. apply Z.div_lt_upper_bound; lia.
Qed.

Lemma itoa_4 i :
  0 ≤ i < 10000 →
  log.itoa i 4 = [48 + i / 10 / 10 / 10; 48 + (i / 10 / 10) `mod` 10; 48 + (i / 10) `mod` 10; 48 + i `mod` 10].
Proof.
  intros Hi. unfold log.itoa. rewrite (itoa_rev_more 19), (itoa_rev_more 18), (itoa_rev_more 17) by lia.
  change (4 - 1 - 1 - 1) with 1. rewrite itoa_rev_last; [done|].
  rewrite !Z.div_div by lia. apply Z.div_lt_upper_bound; lia.
Qed.

Lemma stamp_length t : in_calendar t → length (stamp t) = 20%nat.
Proof.
  intros (Hy & Hmo & Hd & Hh & Hmi & Hs). unfold stamp. rewrite !itoa_2 by done.
  by rewrite itoa_4.
Qed.

(** A header has no line feed. *)
Lemma stamp_no_newline t : in_calendar t → 10 ∉ stamp t.
Proof.
  intros (Hy & Hmo & Hd & Hh & Hmi & Hs). unfold stamp. rewrite !itoa_2, itoa_4 by done.
  assert (Hdiv : ∀ i, 0 ≤ i → 0 ≤ i / 10) by (intros i ?; apply Z.div_pos; lia).
  assert (Hne : ∀ i, 0 ≤ i → 10 ≠ 48 + i) by lia.
  assert (Hmod : ∀ i, 10 ≠ 48 + i `mod` 10) by (intros i; pose proof (Z.mod_pos_bound i 10); lia).
  cbn -[Z.div Z.modulo Z.add]. rewrite !not_elem_of_cons.
  repeat split; try apply not_elem_of_nil; try apply Hmod; try done; apply Hne; repeat apply Hdiv; lia.
Qed.

Lemma terminated_one_line msg :
  one_line msg → ∃ m, log.terminated msg = m ++ [10] ∧ 10 ∉ m.
Proof.
  intros (m & Hm & Hn). exists m. split; [|done]. unfold log.terminated.
  destruct Hm as [->| ->]; [|by rewrite last_snoc, bool_decide_eq_true_2].
  rewrite bool_decide_eq_false_2; [done|]. intros Hl%last_Some_elem_of. done.
Qed.

Lemma severity_of_line datetime r m :
  (datetime = true → in_calendar (at_time r)) →
  severity_of datetime ((if datetime then stamp (at_time r) else []) ++ tag (sev r) ++ m) = Some (sev r).
Proof.
  intros Ht. unfold severity_of. destruct datetime.
  - rewrite drop_app_length' by (by rewrite stamp_length; auto). by destruct (sev r).
  - simpl. by destruct (sev r).
Qed.

Lemma tag_no_newline s : 10 ∉ tag s.
Proof. destruct s; vm_compute; set_solver. Qed.

(** Readable calls leave readable records, and their lines can be told apart. *)
Lemma records_readable cs :
  Forall readable cs → Forall (λ r, one_line (text r) ∧ in_calendar (at_time r)) (records (foldl step empty cs)).
Proof.
  assert (Hgen : ∀ j, Forall readable cs → Forall (λ r, one_line (text r) ∧ in_calendar (at_time r)) (records j) →
    Forall (λ r, one_line (text r) ∧ in_calendar (at_time r)) (records (foldl step j cs))).
  { induction cs as [|c cs IH]; intros j Hcs Hj; [done|]. apply Forall_cons in Hcs as [Hc Hcs].
    cbn [foldl]. apply IH; [done|]. unfold step. destruct (dead j); [done|]. destruct c as [on|s now msg]; [done|].
    cbn. apply Forall_app. split; [done|]. destruct (kept (verbose j) s); by constructor. }
  intros Hcs. by apply Hgen.
Qed.

Lemma lines_readable datetime rs :
  Forall (λ r, one_line (text r) ∧ in_calendar (at_time r)) rs →
  map (severity_of datetime) (bufio.split_lines [] (concat (map (line datetime) rs))) =
  map (λ r, Some (sev r)) rs.
Proof.
  induction 1 as [|r rs [Hm Ht] _ IH]; [done|]. cbn [map concat].
  destruct (terminated_one_line _ Hm) as (m & E & Hn). unfold line at 1. rewrite E.
  rewrite <- !(assoc_L (++)). cbn [app].
  rewrite (assoc_L (++) (tag _)), (assoc_L (++)), bufio.split_lines_line.
  - cbn [map app]. rewrite severity_of_line by done. by rewrite IH.
  - rewrite !not_elem_of_app. split; [|by split; [apply tag_no_newline|]].
    destruct datetime; [by apply stamp_no_newline|apply not_elem_of_nil].
Qed.

(** ** Properties *)

(** C25: the program's log is its journal.  For every sequence of calls, standard error holds exactly one
    line per call that should be kept, in order, with the tag of its level: a debug call is kept when the
    last verbosity change enabled it (none is at the start), every other call always; nothing follows a
    fatal call, which exits with status one. *)
Theorem logger_refines_journal (datetime : bool) (cs : list call) :
  let p := run (start (new_config datetime)) cs in
  let j := foldl step empty cs in
  stderr p = concat (map (line datetime) (records j)) ∧
  exit p = if dead j then Some 1 else None.
Proof.
  destruct (shows_run datetime cs (start (new_config datetime)) empty) as (_ & Hs & He); [|done].
  by destruct datetime.
Qed.

(** a log can be read back.  When every message is one line and every time prints with its usual
    widths, standard error after any sequence of calls has one line per record of the journal, and the
    tag of each line gives back the severity of its record, with or without the date. *)
Theorem log_readable (datetime : bool) (cs : list call) :
  Forall readable cs →
  map (severity_of datetime) (bufio.split_lines [] (stderr (run (start (new_config datetime)) cs))) =
  map (λ r, Some (sev r)) (records (foldl step empty cs)).
Proof.
  intros Hcs. destruct (shows_run datetime cs (start (new_config datetime)) empty) as (_ & -> & _);
    [by destruct datetime|]. apply lines_readable. by apply records_readable.
Qed.

Lemma log_readable_witness :
  let now := {| time.year := 2026; time.month := 3; time.day := 9; time.hour := 7; time.minute := 5;
                time.second := 1 |} in
  let cs := [CallLog INF now (lit "started" ++ [10]); CallLog DBG now (lit "hidden");
             CallLog ERR now (lit "read failed")] in
  map (severity_of true) (bufio.split_lines [] (stderr (run (start (new_config true)) cs))) =
  [Some INF; Some ERR].
Proof.
  cbv zeta.
  match goal with |- map _ (bufio.split_lines _ (stderr (run _ ?cs))) = _ => apply (log_readable true cs) end.
  repeat apply Forall_cons_2; [..|apply Forall_nil_2]; (split; [|unfold in_calendar; cbn; lia]).
  - exists (lit "started"). split; [right; reflexivity|vm_compute; set_solver].
  - exists (lit "hidden"). split; [left; reflexivity|vm_compute; set_solver].
  - exists (lit "read failed"). split; [left; reflexivity|vm_compute; set_solver].
Defined.
