(* ===== verification/DebugServer.v ===== *)
(** * The debug web server: [pkg/debug/debug.go].

    Starting and stopping servers as steps over the process wide HTTP multiplexer, and the text of the
    metrics page. *)

From Stdlib Require Import SpecFloat.
From S2P Require Import Prelude GoStrings.

(** ** Starting and stopping *)

Definition ServerReadHeaderTimeout : Z := 5 * 10 ^ 9.
Definition ServerShutdownTimeout : Z := 5 * 10 ^ 9.

(** [http.Server]. *)
Record Server := { Addr : bytes; ReadHeaderTimeout : Z }.

Inductive status := Serving | ShutDown | Failed.

Inductive debug_log := DebugError (msg : string) | DebugWarn (msg : string).

(** The process: the [sync.Once], the patterns of the default multiplexer, every server started with
    its status, and what was logged. *)
Record web := {
  registered : bool;
  mux : list bytes;
  servers : list (Server * status);
  web_log : list debug_log
}.

Definition metrics_pattern : bytes := lit "/debug/metrics".

(** [http.HandleFunc] panics, [None], when the pattern is registered already. *)
Definition HandleFunc (pattern : bytes) (m : list bytes) : option (list bytes) :=
  if bool_decide (pattern ∈ m) then None else Some (pattern :: m).

(** [registerMetrics.Do]. *)
Definition register_once (w : web) : option web :=
  if registered w then Some w
  else
    match HandleFunc metrics_pattern (mux w) with
    | None => None
    | Some m => Some {| registered := true; mux := m; servers := servers w; web_log := web_log w |}
    end.

Definition add_log (l : debug_log) (w : web) : web :=
  {| registered := registered w; mux := mux w; servers := servers w; web_log := web_log w ++ [l] |}.

(** [Serve]: [listen] answers with the address bound.  [None] is a panic; the index of the new server is
    returned, or nothing for a nil server. *)
Definition Serve (addr : bytes) (listen : bytes → result bytes) (w : web) : option (web * option nat) :=
  if bool_decide (addr = []) then Some (w, None)
  else
    match register_once w with
    | None => None
    | Some w =>
        match listen addr with
        | Err e => Some (add_log (DebugError "Failed to start `/debug` web server") w, None)
        | Ok bound =>
            let server := {| Addr := bound; ReadHeaderTimeout := ServerReadHeaderTimeout |} in
            Some ({| registered := registered w; mux := mux w; servers := servers w ++ [(server, Serving)];
                     web_log := web_log w |}, Some (length (servers w)))
        end
    end.

Definition set_status (i : nat) (s : status) (w : web) : web :=
  {| registered := registered w; mux := mux w;
     servers := alter (λ p, (p.1, s)) i (servers w); web_log := web_log w |}.

(** [Shutdown]: the server stops accepting; [answer] is an error when the timeout cuts the wait for
    active connections short.  A nil server does nothing. *)
Definition Shutdown (server : option nat) (answer : result unit) (w : web) : web :=
  match server with
  | None => w
  | Some i =>
      let w := set_status i ShutDown w in
      match answer with
      | Ok _ => w
      | Err e => add_log (DebugWarn "Error shutting down `/debug` web server") w
      end
  end.

(** The goroutine of [Serve] after [server.Serve] returned: [http.ErrServerClosed], which a shut down
    server returns, is not logged. *)
Definition serve_returned (i : nat) (w : web) : web :=
  match servers w !! i with
  | Some (_, ShutDown) => w
  | _ => add_log (DebugError "`/debug` web server stopped") (set_status i Failed w)
  end.

(** Any use of the package. *)
Inductive web_step : web → web → Prop :=
| step_serve w addr listen w' i : Serve addr listen w = Some (w', i) → web_step w w'
| step_shutdown w i answer : web_step w (Shutdown i answer w)
| step_returned w i srv s : servers w !! i = Some (srv, s) → s ≠ Failed → web_step w (serve_returned i w).

(** The process before the first call: the patterns other packages registered. *)
Definition initial_web (others : list bytes) : web :=
  {| registered := false; mux := others; servers := []; web_log := [] |}.

(** ** The metrics page *)

Module metrics.

(** [metrics.Value] by its kind. *)
Inductive Value :=
| KindBad
| KindUint64 (v : Z)
| KindFloat64 (f : spec_float)
| KindFloat64Histogram (Buckets : list spec_float)
| KindOther (kind : Z).

Record Description := { Name : bytes; Doc : bytes }.

End metrics.

(** Decimal digits of a number of any size, which has no more of them than binary digits. *)
Definition decimal (n : Z) : bytes :=
  map (λ d, d + 48) (reverse (strconv.digits_rev (S (Z.to_nat (Z.log2 n))) n)).

(** [n] / 2^[k] rounded to the nearest integer, ties to even. *)
Definition round_half_even (n k : Z) : Z :=
  let q := n / 2 ^ k in
  let r := 2 * (n `mod` 2 ^ k) in
  if (r <? 2 ^ k) || ((r =? 2 ^ k) && Z.even q) then q else q + 1.

(** Six digits with leading zeros. *)
Definition six (n : Z) : bytes :=
  map (λ k, 48 + (n / 10 ^ k) `mod` 10) [5; 4; 3; 2; 1; 0].

(** The verb [%f]: the exact value to six decimals. *)
Definition format_f (f : spec_float) : bytes :=
  let minus (s : bool) := if s then lit "-" else [] in
  match f with
  | S754_nan => lit "NaN"
  | S754_infinity s => if s then lit "-Inf" else lit "+Inf"
  | S754_zero s => minus s ++ lit "0.000000"
  | S754_finite s m e =>
      let n := if 0 <=? e then Z.pos m * 2 ^ e * 10 ^ 6 else round_half_even (Z.pos m * 10 ^ 6) (- e) in
      minus s ++ decimal (n / 10 ^ 6) ++ lit "." ++ six (n `mod` 10 ^ 6)
  end.

Section page.

(** One line of the page. *)
Definition metric_line (d : metrics.Description) (v : metrics.Value) : bytes :=
  metrics.Name d ++ lit " " ++
  match v with
  | metrics.KindUint64 n => strconv.FormatUint n
  | metrics.KindFloat64 f => format_f f
  | metrics.KindFloat64Histogram b => lit "histogram buckets=" ++ strconv.FormatUint (len b)
  | metrics.KindBad => lit "unsupported (" ++ metrics.Doc d ++ lit ")"
  | metrics.KindOther k => lit "unsupported (unknown kind " ++ strconv.FormatUint k ++ lit ")"
  end ++ [10].

(** [RuntimeMetricsHandler]: the content type and the body.  [read] fills the value of each name, in
    place. *)
Definition RuntimeMetricsHandler (descs : list metrics.Description) (read : bytes → metrics.Value) :
    bytes * bytes :=
  let samples := map metrics.Name descs in
  (lit "text/plain; charset=utf-8",
   concat (zip_with metric_line descs (map read samples))).

End page.

(** ** Lemmas *)

(** The invariant: the pattern is registered exactly when the once has run, and only once. *)
Definition web_ok (others : list bytes) (w : web) : Prop :=
  mux w = if registered w then metrics_pattern :: others else others.

(** What [Serve] returns: nothing for an empty address, nothing but a logged error when the listener could
    not be bound, and otherwise the new server, serving at the bound address. *)
Definition serve_answer (addr : bytes) (listen : bytes → result bytes) (w w' : web) (i : option nat) : Prop :=
  (addr = [] → w' = w ∧ i = None) ∧
  (addr ≠ [] → registered w' = true ∧
   match listen addr with
   | Err e =>
       i = None ∧ servers w' = servers w ∧
       web_log w' = web_log w ++ [DebugError "Failed to start `/debug` web server"]
   | Ok bound =>
       i = Some (length (servers w)) ∧ web_log w' = web_log w ∧
       servers w' = servers w ++ [({| Addr := bound; ReadHeaderTimeout := ServerReadHeaderTimeout |}, Serving)]
   end).

Lemma Serve_ok others addr listen w :
  metrics_pattern ∉ others → web_ok others w →
  ∃ w' i, Serve addr listen w = Some (w', i) ∧ web_ok others w' ∧ serve_answer addr listen w w' i.
Proof.
  intros Hn Hok. unfold Serve. case_bool_decide as Ea; [by eexists w, None|].
  assert (Hreg : ∃ w1, register_once w = Some w1 ∧ web_ok others w1 ∧ registered w1 = true ∧
    servers w1 = servers w ∧ web_log w1 = web_log w).
  { unfold register_once. destruct (registered w) eqn:Er; [by exists w|].
    unfold HandleFunc, web_ok in *. rewrite Er in Hok. rewrite Hok, bool_decide_eq_false_2 by done.
    eexists. split; [done|]. done. }
  destruct Hreg as (w1 & -> & Hok1 & Hr1 & Hs1 & Hl1). unfold serve_answer.
  destruct (listen addr) as [bound|e] eqn:El; eexists _, _; (split; [done|]; split; [done|]; split; [done|]);
    cbn; by rewrite Hs1, Hl1.
Qed.

Lemma serve_answer_servers addr listen w w' i :
  serve_answer addr listen w w' i →
  match i with
  | None => servers w' = servers w
  | Some i => i = length (servers w) ∧ ∃ srv, servers w' = servers w ++ [srv]
  end.
Proof.
  intros [He Hne]. destruct (decide (addr = [])) as [->|Ha]; [by destruct (He eq_refl) as [-> ->]|].
  destruct (Hne Ha) as [_ Hl]. destruct (listen addr); destruct Hl as (-> & ? & ?); [|done]. eauto.
Qed.

(** The servers started before a call of [Serve] are not touched by it. *)
Lemma serve_answer_keeps addr listen w w' i j srv :
  serve_answer addr listen w w' i → servers w !! j = Some srv → servers w' !! j = Some srv.
Proof.
  intros Hs Hj. apply serve_answer_servers in Hs. destruct i as [i|]; [|by rewrite Hs].
  destruct Hs as (_ & srv' & ->). by apply lookup_app_l_Some.
Qed.

Lemma web_ok_step others w w' :
  metrics_pattern ∉ others → web_ok others w → web_step w w' → web_ok others w'.
Proof.
  intros Hn Hok Hstep. revert Hok. destruct Hstep as [w0 addr listen w1 i Hs|w0 i answer|w0 i srv s Hi Hf]; intros Hok.
  - destruct (Serve_ok others addr listen w0 Hn Hok) as (w2 & j & E & Hok' & _). by simplify_eq.
  - unfold Shutdown. destruct i, answer; done.
  - unfold serve_returned. by destruct (servers w0 !! i) as [[? []]|].
Qed.

Lemma web_ok_steps others w w' :
  metrics_pattern ∉ others → web_ok others w → rtc web_step w w' → web_ok others w'.
Proof. intros Hn Hok Hr. revert Hok. induction Hr; eauto using web_ok_step. Qed.

(** A server that is no longer serving never serves again. *)
Definition stopped (w : web) (i : nat) : Prop :=
  ∃ srv s, servers w !! i = Some (srv, s) ∧ s ≠ Serving.

Lemma stopped_alter w i j s : s ≠ Serving → stopped w i → stopped (set_status j s w) i.
Proof.
  intros Hs (srv & t & Hi & Ht). unfold stopped, set_status. cbn [servers].
  destruct (decide (i = j)) as [->|Hne].
  - rewrite list_lookup_alter_eq, Hi. by eexists srv, s.
  - rewrite list_lookup_alter_ne by done. by eexists srv, t.
Qed.

Lemma Shutdown_stops w i answer srv : servers w !! i = Some srv → stopped (Shutdown (Some i) answer w) i.
Proof.
  intros Hi. destruct answer; eexists _, _; (split; [cbn; by rewrite list_lookup_alter_eq, Hi|done]).
Qed.

Lemma stopped_step others w w' i :
  metrics_pattern ∉ others → web_ok others w → web_step w w' → stopped w i → stopped w' i.
Proof.
  intros Hn Hok Hstep. revert Hok.
  destruct Hstep as [w0 addr listen w1 j Hs|w0 j answer|w0 j srv s Hj Hf]; intros Hok Hst.
  - destruct (Serve_ok others addr listen w0 Hn Hok) as (w2 & k & E & _ & Hans). simplify_eq.
    destruct Hst as (srv & s & Hi & Ht). exists srv, s. split; [|done]. by eapply serve_answer_keeps.
  - unfold Shutdown. destruct j as [j|]; [|done].
    destruct answer; by apply (stopped_alter w0 i j ShutDown).
  - unfold serve_returned. destruct (servers w0 !! j) as [[? []]|]; try done;
      by apply (stopped_alter w0 i j Failed).
Qed.

Lemma stopped_steps others w w' i :
  metrics_pattern ∉ others → web_ok others w → rtc web_step w w' → stopped w i → stopped w' i.
Proof.
  intros Hn Hok Hr. revert Hok. induction Hr; eauto using stopped_step, web_ok_step.
Qed.

(** *** The page *)

Lemma no_byte_app (c : Z) (a b : bytes) : c ∉ a → c ∉ b → c ∉ a ++ b.
Proof. rewrite not_elem_of_app. done. Qed.

Lemma FormatUint_no_newline v : 0 ≤ v → 10 ∉ strconv.FormatUint v.
Proof.
  intros Hv Hin. pose proof (strconv.FormatUint_digits v Hv) as Hd. rewrite Forall_forall in Hd.
  apply Hd in Hin. lia.
Qed.

Lemma decimal_no_newline n : 0 ≤ n → 10 ∉ decimal n.
Proof.
  intros Hn. unfold decimal. intros (d & Hd & Hin)%list_elem_of_fmap. rewrite elem_of_reverse in Hin.
  pose proof (strconv.digits_rev_range (S (Z.to_nat (Z.log2 n))) n Hn) as Hr. rewrite Forall_forall in Hr.
  apply Hr in Hin. lia.
Qed.

Lemma six_no_newline n : 10 ∉ six n.
Proof.
  unfold six. intros (k & Hk & _)%list_elem_of_fmap. pose proof (Z.mod_pos_bound (n / 10 ^ k) 10). lia.
Qed.

Lemma round_half_even_nonneg n k : 0 ≤ n → 0 ≤ k → 0 ≤ round_half_even n k.
Proof.
  intros Hn Hk. unfold round_half_even. pose proof (Z.div_pos n (2 ^ k)). destruct (_ || _); lia.
Qed.

Lemma format_f_no_newline f : 10 ∉ format_f f.
Proof.
  destruct f as [s|s| |s m e]; cbn [format_f]; [destruct s; vm_compute; set_solver..|vm_compute; set_solver|].
  assert (Hn : 0 ≤ if 0 <=? e then Z.pos m * 2 ^ e * 10 ^ 6 else round_half_even (Z.pos m * 10 ^ 6) (- e)).
  { destruct (Z.leb_spec 0 e); [lia|]. apply round_half_even_nonneg; lia. }
  set (n := if 0 <=? e then _ else _) in *. clearbody n.
  apply no_byte_app; [destruct s; vm_compute; set_solver|].
  apply no_byte_app; [apply decimal_no_newline, Z.div_pos; lia|].
  apply no_byte_app; [vm_compute; set_solver|apply six_no_newline].
Qed.

(** A metric whose texts fit on one line of the page. *)
Definition printable (d : metrics.Description) (v : metrics.Value) : Prop :=
  (10 ∉ metrics.Name d) ∧ (32 ∉ metrics.Name d) ∧ (10 ∉ metrics.Doc d) ∧
  match v with metrics.KindUint64 n => 0 ≤ n | metrics.KindOther k => 0 ≤ k | _ => True end.

Lemma metric_line_shape d v :
  printable d v → ∃ t, metric_line d v = metrics.Name d ++ 32 :: t ++ [10] ∧ 10 ∉ t.
Proof.
  intros (Hn & _ & Hdoc & Hv). unfold metric_line. eexists. split; [reflexivity|].
  destruct v as [|n|f|b|k].
  - apply no_byte_app; [vm_compute; set_solver|]. apply no_byte_app; [done|vm_compute; set_solver].
  - by apply FormatUint_no_newline.
  - apply format_f_no_newline.
  - apply no_byte_app; [vm_compute; set_solver|apply FormatUint_no_newline; lia].
  - apply no_byte_app; [vm_compute; set_solver|].
    apply no_byte_app; [by apply FormatUint_no_newline|vm_compute; set_solver].
Qed.

(** The text of a line before its first blank. *)
Definition first_word (l : bytes) : bytes :=
  match strings.Split l 32 with w :: _ => w | [] => [] end.

Lemma first_word_app (a t : bytes) : 32 ∉ a → first_word (a ++ 32 :: t) = a.
Proof.
  intros Ha. unfold first_word. rewrite strings.Split_app; [done|].
  apply Forall_forall. intros c Hc ->. done.
Qed.

(** ** Properties *)

(** C40: the debug server can be started and stopped in any order.  As long as no other package has taken
    the pattern of the metrics page, [Serve] never panics however often it is called and the page is
    registered once; with an empty address nothing happens; otherwise a server is returned exactly when the
    listener was bound, it is the only new one and serves at the bound address with the header timeout, and
    a listener that failed is logged and leaves no server.  A server that is shut down is stopped, and a
    stopped or failed one never serves again. *)
Theorem debug_server_safe (others : list bytes) (w : web) (addr : bytes) (listen : bytes → result bytes) :
  (metrics_pattern ∉ others) → rtc web_step (initial_web others) w →
  (∃ w' i, Serve addr listen w = Some (w', i) ∧
     (addr = [] → w' = w ∧ i = None) ∧
     (addr ≠ [] → registered w' = true ∧
      match listen addr with
      | Err e =>
          i = None ∧ servers w' = servers w ∧
          web_log w' = web_log w ++ [DebugError "Failed to start `/debug` web server"]
      | Ok bound =>
          i = Some (length (servers w)) ∧ web_log w' = web_log w ∧
          servers w' = servers w ++
            [({| Addr := bound; ReadHeaderTimeout := ServerReadHeaderTimeout |}, Serving)]
      end)) ∧
  mux w = (if registered w then [metrics_pattern] else []) ++ others ∧
  (∀ i answer, is_Some (servers w !! i) → stopped (Shutdown (Some i) answer w) i) ∧
  (∀ w' i, rtc web_step w w' → stopped w i → stopped w' i).
Proof.
  intros Hn Hr. assert (Hok : web_ok others w) by (by apply (web_ok_steps others (initial_web others))). split.
  - destruct (Serve_ok others addr listen w Hn Hok) as (w' & i & E & _ & Hans). by exists w', i.
  - split; [by rewrite Hok; destruct (registered w)|]. split; [|intros w' i; by apply (stopped_steps others)].
    intros i answer [srv Hi]. by apply (Shutdown_stops _ _ _ srv).
Qed.

(** the metrics page has one line per metric, in the order of the descriptions, and the first word of
    each line is the name of its metric, whatever the kind of its value, a floating point one that is
    not a number or an unsupported one included. *)
Theorem metrics_page_lines (descs : list metrics.Description) (read : bytes → metrics.Value) :
  Forall (λ d, printable d (read (metrics.Name d))) descs →
  map first_word (bufio.split_lines [] (RuntimeMetricsHandler descs read).2) = map metrics.Name descs.
Proof.
  cbn [RuntimeMetricsHandler snd]. induction 1 as [|d descs Hd _ IH]; [done|].
  cbn [map zip_with concat]. destruct (metric_line_shape _ _ Hd) as (t & -> & Ht).
  destruct Hd as (Hn & Hsp & _).
  replace ((metrics.Name d ++ 32 :: t ++ [10]) ++ _) with
    ((metrics.Name d ++ 32 :: t) ++ 10 :: concat (zip_with metric_line descs (map read (map metrics.Name descs))))
    by (rewrite <- !(assoc_L (++)); simpl; by rewrite <- (assoc_L (++))).
  rewrite bufio.split_lines_line; [|apply no_byte_app; [done|set_solver]].
  cbn [map app]. by rewrite first_word_app, IH.
Qed.

(** ** Witnesses *)

Module DebugExample.

Definition others : list bytes := [lit "GET /debug/pprof/"; lit "GET /debug/vars"].

Definition descs : list metrics.Description :=
  [{| metrics.Name := lit "/gc/cycles:gc-cycles"; metrics.Doc := lit "Count of cycles." |};
   {| metrics.Name := lit "/cpu/classes:cpu-seconds"; metrics.Doc := lit "Estimated time." |};
   {| metrics.Name := lit "/x"; metrics.Doc := lit "Gone." |}].

(** One and a half is 3 * 2^-1. *)
Definition read (n : bytes) : metrics.Value :=
  if bool_decide (n = lit "/x") then metrics.KindBad
  else if bool_decide (n = lit "/gc/cycles:gc-cycles") then metrics.KindUint64 42
  else metrics.KindFloat64 (S754_finite true 3 (-1)).

End DebugExample.

(** A second server while the first one serves. *)
Lemma debug_server_safe_witness :
  ∃ w w' i, rtc web_step (initial_web DebugExample.others) w ∧ length (servers w) = 1%nat ∧
    Serve (lit "localhost:8080") (λ a, Ok a) w = Some (w', i) ∧
    (lit "localhost:8080" = [] → w' = w ∧ i = None) ∧
    (lit "localhost:8080" ≠ [] → registered w' = true ∧
     i = Some (length (servers w)) ∧ web_log w' = web_log w ∧
     servers w' = servers w ++
       [({| Addr := lit "localhost:8080"; ReadHeaderTimeout := ServerReadHeaderTimeout |}, Serving)]).
Proof.
  destruct (Serve (lit "localhost:6060") (λ a, Ok a) (initial_web DebugExample.others)) as [[w j]|] eqn:E.
  2: { vm_compute in E. discriminate E. }
  assert (Hr : rtc web_step (initial_web DebugExample.others) w) by (by eapply rtc_once, step_serve).
  exists w.
  destruct (debug_server_safe DebugExample.others w (lit "localhost:8080") (λ a, Ok a))
    as [(w' & i & Hs & He & Hne) _]; [vm_compute; set_solver|done|].
  exists w', i. split; [done|]. split; [|exact (conj Hs (conj He Hne))].
  vm_compute in E. by simplify_eq.
Defined.

Lemma metrics_page_lines_witness :
  (RuntimeMetricsHandler (drop 1 DebugExample.descs) DebugExample.read).2 =
    lit "/cpu/classes:cpu-seconds -1.500000" ++ [10] ++ lit "/x unsupported (Gone.)" ++ [10] ∧
  map first_word (bufio.split_lines [] (RuntimeMetricsHandler DebugExample.descs DebugExample.read).2) =
  map metrics.Name DebugExample.descs.
Proof.
  split; [vm_compute; reflexivity|]. apply (metrics_page_lines DebugExample.descs DebugExample.read).
  repeat (apply Forall_cons_2; [repeat split; vm_compute; set_solver|]). apply Forall_nil_2.
Defined.
