(* ===== verification/GoNet.v ===== *)
(** * The parts of Go's [net] package the relay calls: addresses, masks, hardware addresses and
      their parsers. *)

From S2P Require Import Prelude GoStrings.

(** ** IP addresses *)

Module IP.

(** A [net.IP]: four or sixteen bytes, [[]] for nil. *)
Definition v4InV6Prefix : bytes := [0; 0; 0; 0; 0; 0; 0; 0; 0; 0; 255; 255].

Definition IPv4 (a b c d : Z) : bytes := v4InV6Prefix ++ [a; b; c; d].
Definition IPv4zero : bytes := IPv4 0 0 0 0.
Definition IPv4bcast : bytes := IPv4 255 255 255 255.
Definition IPv6unspecified : bytes := replicate 16 0.
Definition IPv6loopback : bytes := replicate 15 0 ++ [1].

(** [ip.To4()]; [[]] is nil. *)
Definition To4 (ip : bytes) : bytes :=
  if len ip =? 4 then ip
  else if (len ip =? 16) && bool_decide (take 12 ip = v4InV6Prefix) then drop 12 ip
  else [].

(** [ip.Equal(x)]: an IPv4 address equals its IPv4-in-IPv6 form. *)
Definition Equal (ip x : bytes) : bool :=
  if len ip =? len x then bool_decide (ip = x)
  else if (len ip =? 4) && (len x =? 16) then
    bool_decide (take 12 x = v4InV6Prefix) && bool_decide (ip = drop 12 x)
  else if (len ip =? 16) && (len x =? 4) then
    bool_decide (take 12 ip = v4InV6Prefix) && bool_decide (drop 12 ip = x)
  else false.

Definition byte_at (ip : bytes) (i : nat) : Z := default 0 (ip !! i).

Definition IsUnspecified (ip : bytes) : bool := Equal ip IPv4zero || Equal ip IPv6unspecified.

Definition IsLoopback (ip : bytes) : bool :=
  if bool_decide (To4 ip ≠ []) then byte_at (To4 ip) 0 =? 127 else Equal ip IPv6loopback.

Definition IsMulticast (ip : bytes) : bool :=
  if bool_decide (To4 ip ≠ []) then Z.land (byte_at (To4 ip) 0) 240 =? 224
  else (len ip =? 16) && (byte_at ip 0 =? 255).

Definition IsLinkLocalMulticast (ip : bytes) : bool :=
  if bool_decide (To4 ip ≠ [])
  then (byte_at (To4 ip) 0 =? 224) && (byte_at (To4 ip) 1 =? 0) && (byte_at (To4 ip) 2 =? 0)
  else (len ip =? 16) && (byte_at ip 0 =? 255) && (Z.land (byte_at ip 1) 15 =? 2).

Definition IsLinkLocalUnicast (ip : bytes) : bool :=
  if bool_decide (To4 ip ≠ [])
  then (byte_at (To4 ip) 0 =? 169) && (byte_at (To4 ip) 1 =? 254)
  else (len ip =? 16) && (byte_at ip 0 =? 254) && (Z.land (byte_at ip 1) 192 =? 128).

Definition IsGlobalUnicast (ip : bytes) : bool :=
  ((len ip =? 4) || (len ip =? 16)) &&
  negb (Equal ip IPv4bcast) && negb (IsUnspecified ip) && negb (IsLoopback ip) &&
  negb (IsMulticast ip) && negb (IsLinkLocalUnicast ip).

(** [ip.String()] of a four byte address. *)
Definition String4 (ip : bytes) : bytes :=
  match ip with
  | [a; b; c; d] =>
      strconv.FormatUint a ++ [46] ++ strconv.FormatUint b ++ [46] ++
      strconv.FormatUint c ++ [46] ++ strconv.FormatUint d
  | _ => lit "<nil>"
  end.

(** [ip.Mask(mask)]; [[]] is nil. *)
Definition Mask (ip mask : bytes) : bytes :=
  let mask' := if (len mask =? 16) && (len ip =? 4) && forallb (Z.eqb 255) (take 12 mask)
               then drop 12 mask else mask in
  let ip' := if (len mask' =? 4) && (len ip =? 16) && bool_decide (take 12 ip = v4InV6Prefix)
             then drop 12 ip else ip in
  if len ip' =? len mask' then zip_with Z.land ip' mask' else [].

(** [net.CIDRMask(ones, bits)] for [bits] 32 or 128: whole bytes of ones, then the partial byte. *)
Fixpoint CIDRMask (nbytes : nat) (ones : Z) : bytes :=
  match nbytes with
  | O => []
  | S n => (if 8 <=? ones then 255 else if ones <=? 0 then 0 else 255 - (2 ^ (8 - ones) - 1))
             :: CIDRMask n (ones - 8)
  end.

Lemma To4_length ip : To4 ip ≠ [] → length (To4 ip) = 4%nat.
Proof.
  unfold To4. destruct (Z.eqb_spec (len ip) 4); [lia|].
  destruct (Z.eqb_spec (len ip) 16); simpl; [|done].
  case_bool_decide; [|done]. rewrite length_drop. lia.
Qed.

Lemma To4_v4 ip : length ip = 4%nat → To4 ip = ip.
Proof. intros E. unfold To4. by rewrite E. Qed.

Lemma To4_idemp ip : To4 (To4 ip) = To4 ip.
Proof.
  destruct (decide (To4 ip = [])) as [->|H]; [done|]. by apply To4_v4, To4_length.
Qed.

Lemma To4_nonempty_v4 ip : length ip = 4%nat → To4 ip ≠ [].
Proof. intros E. rewrite To4_v4 by done. by destruct ip. Qed.

Lemma Equal_refl ip : Equal ip ip = true.
Proof. unfold Equal. rewrite Z.eqb_refl. by apply bool_decide_eq_true. Qed.

(** Comparing addresses compares their IPv4 forms when they have one. *)
Lemma Equal_To4 ip x :
  length ip = 4%nat → (length x = 4 ∨ length x = 16)%nat →
  Equal ip x = bool_decide (To4 x = ip).
Proof.
  intros Hi Hx. assert (ip ≠ []) by (by destruct ip). unfold Equal, To4.
  destruct Hx as [Hx|Hx]; rewrite Hi, Hx; simpl.
  { repeat case_bool_decide; congruence. }
  destruct (bool_decide (take 12 x = v4InV6Prefix)); simpl; repeat case_bool_decide; congruence.
Qed.

(** An address whose IPv4 form exists is at one of the two sizes. *)
Lemma To4_some_length ip : To4 ip ≠ [] → (length ip = 4 ∨ length ip = 16)%nat.
Proof.
  unfold To4. destruct (Z.eqb_spec (len ip) 4); [lia|].
  destruct (Z.eqb_spec (len ip) 16); simpl; [lia|done].
Qed.

Lemma Equal_16_4 ip x :
  length ip = 16%nat → length x = 4%nat → Equal ip x = Equal x ip.
Proof.
  intros Hi Hx. unfold Equal. rewrite Hi, Hx. simpl. f_equal.
  apply bool_decide_ext. split; intros; congruence.
Qed.

Lemma To4_of_16 ip : To4 ip ≠ [] → length ip = 16%nat → take 12 ip = v4InV6Prefix ∧ drop 12 ip = To4 ip.
Proof.
  unfold To4. intros H E. rewrite E in *. simpl in *. by case_bool_decide.
Qed.

(** [Equal] against a sixteen byte IPv4-in-IPv6 constant sees only the IPv4 form. *)
Lemma Equal_IPv4_To4 ip a b c d :
  To4 ip ≠ [] → Equal (To4 ip) (IPv4 a b c d) = Equal ip (IPv4 a b c d).
Proof.
  intros H. pose proof (To4_length ip H) as H4.
  destruct (To4_some_length ip H) as [E|E]; [by rewrite To4_v4|].
  destruct (To4_of_16 ip H E) as [E1 E2]. unfold Equal. rewrite E, H4. simpl.
  rewrite <- E2. apply bool_decide_ext. split; intros Heq.
  - rewrite <- (take_drop 12 ip), E1, Heq. done.
  - rewrite Heq. done.
Qed.

Lemma CIDRMask_length n ones : length (CIDRMask n ones) = n.
Proof. revert ones. induction n; intros; simpl; auto. Qed.

End IP.

(** ** Networks *)

(** A [net.IPNet]. *)
Record IPNet := { ipnet_IP : bytes; ipnet_Mask : bytes }.

#[global] Instance IPNet_eq_dec : EqDecision IPNet.
Proof. solve_decision. Defined.

Module Net.

Definition networkNumberAndMask (n : IPNet) : bytes * bytes :=
  let ip := if bool_decide (IP.To4 (ipnet_IP n) ≠ []) then IP.To4 (ipnet_IP n) else ipnet_IP n in
  if (len ip =? 4) || (len ip =? 16) then
    let m := ipnet_Mask n in
    if len m =? 4 then (if len ip =? 4 then (ip, m) else ([], []))
    else if len m =? 16 then (ip, if len ip =? 4 then drop 12 m else m)
    else ([], [])
  else ([], []).

(** [n.Contains(ip)]. *)
Definition Contains (n : IPNet) (ip : bytes) : bool :=
  let '(nn, m) := networkNumberAndMask n in
  let ip := if bool_decide (IP.To4 ip ≠ []) then IP.To4 ip else ip in
  if negb (len ip =? len nn) then false
  else bool_decide (zip_with Z.land nn m = zip_with Z.land ip m).

End Net.

(** ** netip.ParseAddr *)

Module netip.

(** A parsed address: four bytes for IPv4, sixteen for IPv6, with the zone of the latter. *)
Record Addr := { addr_bytes : bytes; zone : bytes }.

(** [parseIPv4Fields]: [prev] is the previous byte ([None] at the start), [acc] the octets read so
    far. *)
Fixpoint parseIPv4Fields (prev : option Z) (val digLen : Z) (acc : bytes) (s : bytes) :
    option bytes :=
  match s with
  | [] => if len acc <? 3 then None else Some (acc ++ [val])
  | c :: s' =>
      if strconv.is_digit c then
        if (digLen =? 1) && (val =? 0) then None
        else
          let val := val * 10 + (c - 48) in
          if 255 <? val then None else parseIPv4Fields (Some c) val (digLen + 1) acc s'
      else if c =? 46 then
        if bool_decide (prev = None) || bool_decide (s' = []) || bool_decide (prev = Some 46) then None
        else if len acc =? 3 then None
        else parseIPv4Fields (Some c) 0 0 (acc ++ [val]) s'
      else None
  end.

Definition parseIPv4 (s : bytes) : option bytes := parseIPv4Fields None 0 0 [] s.

(** One group of hexadecimal digits: its value, its width and the rest; [None] past four digits. *)
Fixpoint hexGroup (off : nat) (acc : Z) (s : bytes) : option (Z * nat * bytes) :=
  match s with
  | [] => Some (acc, off, [])
  | c :: s' =>
      match hex.fromHexChar c with
      | Some d => if Nat.ltb 3 off then None else hexGroup (S off) (acc * 16 + d) s'
      | None => Some (acc, off, s)
      end
  end.

(** The groups of an IPv6 address after a leading ellipsis is cut.  [ip] holds the bytes read, [ell]
    the position of the ellipsis.  At most eight groups are read. *)
Fixpoint parseGroups (fuel : nat) (ip : bytes) (ell : option nat) (s : bytes) :
    option (bytes * option nat * bytes) :=
  match fuel with
  | O => Some (ip, ell, s)
  | S fuel =>
      match hexGroup 0 0 s with
      | None => None
      | Some (_, O, _) => None
      | Some (acc, S _, rest) =>
          match rest with
          | [] => Some (ip ++ [acc / 256; acc `mod` 256], ell, [])
          | c :: rest' =>
              if c =? 46 then
                if bool_decide (ell = None) && negb (len ip =? 12) then None
                else if 16 <? len ip + 4 then None
                else match parseIPv4 s with
                     | Some v4 => Some (ip ++ v4, ell, [])
                     | None => None
                     end
              else if negb (c =? 58) then None
              else
                let ip := ip ++ [acc / 256; acc `mod` 256] in
                match rest' with
                | [] => None
                | c' :: rest'' =>
                    if c' =? 58 then
                      if bool_decide (ell ≠ None) then None
                      else match rest'' with
                           | [] => Some (ip, Some (length ip), [])
                           | _ => parseGroups fuel ip (Some (length ip)) rest''
                           end
                    else parseGroups fuel ip ell rest'
                end
          end
      end
  end.

(** Split at the first occurrence of a byte. *)
Fixpoint cut (b : Z) (s : bytes) : option (bytes * bytes) :=
  match s with
  | [] => None
  | c :: s =>
      if c =? b then Some ([], s)
      else match cut b s with Some (x, y) => Some (c :: x, y) | None => None end
  end.

Definition parseIPv6 (s : bytes) : option Addr :=
  let '(s, zone) := match cut 37 s with Some (x, z) => (x, Some z) | None => (s, None) end in
  if bool_decide (zone = Some []) then None else
  let zone := default [] zone in
  let lead := strings.HasPrefix s (lit "::") in
  let s := if lead then drop 2 s else s in
  if lead && bool_decide (s = []) then Some {| addr_bytes := replicate 16 0; zone := zone |} else
  match parseGroups 8 [] (if lead then Some 0%nat else None) s with
  | None => None
  | Some (ip, ell, rest) =>
      if bool_decide (rest ≠ []) then None
      else if len ip <? 16 then
        match ell with
        | None => None
        | Some e => Some {| addr_bytes := take e ip ++ replicate (16 - length ip) 0 ++ drop e ip;
                            zone := zone |}
        end
      else match ell with
           | Some _ => None
           | None => Some {| addr_bytes := ip; zone := zone |}
           end
  end.

(** [netip.ParseAddr]: the first dot, colon or percent sign decides the family. *)
Definition ParseAddr (s : bytes) : option Addr :=
  match find_first (λ c, (c =? 46) || (c =? 58) || (c =? 37)) s with
  | Some 46 => match parseIPv4 s with Some b => Some {| addr_bytes := b; zone := [] |} | None => None end
  | Some 58 => parseIPv6 s
  | _ => None
  end.

(** [addr.As16()]. *)
Definition As16 (a : Addr) : bytes :=
  if len (addr_bytes a) =? 4 then IP.v4InV6Prefix ++ addr_bytes a else addr_bytes a.

End netip.

(** ** Parsers of the [net] package *)

(** [net.ParseIP]; [[]] is nil. *)
Definition ParseIP (s : bytes) : bytes :=
  match netip.ParseAddr s with
  | Some a => if bool_decide (netip.zone a = []) then netip.As16 a else []
  | None => []
  end.

(** [dtoi] over a whole string: the decimal number, [None] when a byte is not a digit, the string
    is empty or the number reaches 0xFFFFFF. *)
Fixpoint dtoi_go (n : Z) (s : bytes) : option Z :=
  match s with
  | [] => Some n
  | c :: s =>
      if strconv.is_digit c then
        let n := n * 10 + (c - 48) in
        if 16777215 <=? n then None else dtoi_go n s
      else None
  end.

Definition dtoi (s : bytes) : option Z := if bool_decide (s = []) then None else dtoi_go 0 s.

(** [net.ParseCIDR]: the network, or an error. *)
Definition ParseCIDR (s : bytes) : result IPNet :=
  let err := Err "invalid CIDR address" in
  match netip.cut 47 s with
  | None => err
  | Some (addr, mask) =>
      match netip.ParseAddr addr with
      | None => err
      | Some a =>
          if bool_decide (netip.zone a ≠ []) then err else
          let bits := len (netip.addr_bytes a) * 8 in
          match dtoi mask with
          | None => err
          | Some n =>
              if bits <? n then err else
              let m := IP.CIDRMask (length (netip.addr_bytes a)) n in
              Ok {| ipnet_IP := IP.Mask (netip.As16 a) m; ipnet_Mask := m |}
          end
      end
  end.

(** ** Hardware addresses *)

Module HardwareAddr.

(** [hw.String()]: lower case pairs joined by colons. *)
Fixpoint String (hw : bytes) : bytes :=
  match hw with
  | [] => []
  | [b] => [hex.hexDigit (b / 16); hex.hexDigit (b `mod` 16)]
  | b :: hw => hex.hexDigit (b / 16) :: hex.hexDigit (b `mod` 16) :: 58 :: String hw
  end.

(** [xtoi2]: two hexadecimal digits, followed by [e] unless the string ends there. *)
Definition xtoi2 (s : bytes) (e : Z) : option Z :=
  match s with
  | a :: b :: rest =>
      match rest with
      | c :: _ => if negb (c =? e) then None
                  else match hex.fromHexChar a, hex.fromHexChar b with
                       | Some x, Some y => Some (x * 16 + y) | _, _ => None end
      | [] => match hex.fromHexChar a, hex.fromHexChar b with
              | Some x, Some y => Some (x * 16 + y) | _, _ => None end
      end
  | _ => None
  end.

(** [n] pairs each followed by the separator. *)
Fixpoint parsePairs (n : nat) (sep : Z) (s : bytes) : option bytes :=
  match n with
  | O => Some []
  | S n =>
      match xtoi2 s sep, parsePairs n sep (drop 3 s) with
      | Some b, Some hw => Some (b :: hw)
      | _, _ => None
      end
  end.

(** [n] dotted groups of two bytes. *)
Fixpoint parseDotted (n : nat) (s : bytes) : option bytes :=
  match n with
  | O => Some []
  | S n =>
      match xtoi2 (take 2 s) 0, xtoi2 (drop 2 s) 46, parseDotted n (drop 5 s) with
      | Some a, Some b, Some hw => Some (a :: b :: hw)
      | _, _, _ => None
      end
  end.

Definition mac_size (n : Z) : bool := (n =? 6) || (n =? 8) || (n =? 20).

(** [net.ParseMAC]. *)
Definition ParseMAC (s : bytes) : result bytes :=
  let err := Err "invalid MAC address" in
  let of_option o := match o with Some hw => Ok hw | None => err end in
  let n := len s + 1 in
  if len s <? 14 then err
  else if (IP.byte_at s 2 =? 58) || (IP.byte_at s 2 =? 45) then
    if negb (n `mod` 3 =? 0) then err
    else if negb (mac_size (n / 3)) then err
    else of_option (parsePairs (Z.to_nat (n / 3)) (IP.byte_at s 2) s)
  else if IP.byte_at s 4 =? 46 then
    if negb (n `mod` 5 =? 0) then err
    else if negb (mac_size (2 * n / 5)) then err
    else of_option (parseDotted (Z.to_nat (2 * n / 5 / 2)) s)
  else err.

Lemma String_cons b hw : hw ≠ [] →
  String (b :: hw) = hex.hexDigit (b / 16) :: hex.hexDigit (b `mod` 16) :: 58 :: String hw.
Proof. by destruct hw. Qed.

Lemma String_length hw : hw ≠ [] → length (String hw) = (3 * length hw - 1)%nat.
Proof.
  induction hw as [|b hw IH]; [done|intros _]. destruct hw as [|b' hw]; [done|].
  rewrite String_cons by done. cbn [length]. rewrite IH by done. simpl. lia.
Qed.

Lemma parsePairs_String hw :
  wf_bytes hw → parsePairs (length hw) 58 (String hw) = Some hw.
Proof.
  induction 1 as [|b hw Hb Hhw IH]; [done|]. apply hex.byte_nibbles in Hb as (H1 & H2 & H3).
  destruct hw as [|b' hw].
  { simpl. by rewrite !hex.fromHexChar_hexDigit, H3 by done. }
  rewrite String_cons by done. remember (b' :: hw) as hw' eqn:E. cbn [length parsePairs skipn].
  rewrite drop_0, IH. unfold xtoi2. rewrite Z.eqb_refl. simpl.
  by rewrite !hex.fromHexChar_hexDigit, H3 by done.
Qed.

(** A printed Ethernet address parses back. *)
Lemma ParseMAC_String hw :
  wf_bytes hw → length hw = 6%nat → ParseMAC (String hw) = Ok hw.
Proof.
  intros Hwf Hlen. assert (Hs : length (String hw) = 17%nat).
  { rewrite String_length by (by destruct hw). lia. }
  assert (H2 : IP.byte_at (String hw) 2 = 58).
  { by destruct hw as [|a [|b hw]]. }
  pose proof (parsePairs_String hw Hwf) as Hp. rewrite Hlen in Hp.
  unfold ParseMAC. rewrite H2, Hs.
  replace (Z.to_nat ((Z.of_nat 17 + 1) / 3)) with 6%nat by done. by rewrite Hp.
Qed.

(** The text form of a hardware address is ASCII, has no upper case letter and no path separator. *)
Lemma hexDigit_range n : 0 ≤ n < 16 → 48 ≤ hex.hexDigit n ≤ 57 ∨ 97 ≤ hex.hexDigit n ≤ 102.
Proof. intros. unfold hex.hexDigit. case_zs. Qed.

Lemma String_chars hw :
  wf_bytes hw → Forall (λ c, 48 ≤ c ≤ 58 ∨ 97 ≤ c ≤ 102) (String hw).
Proof.
  induction 1 as [|b hw Hb Hhw IH]; [done|]. apply hex.byte_nibbles in Hb as (H1 & H2 & _).
  apply hexDigit_range in H1, H2. destruct hw as [|b' hw].
  { do 2 (apply Forall_cons_2; [lia|]). done. }
  rewrite String_cons by done. do 3 (apply Forall_cons_2; [lia|]). done.
Qed.

End HardwareAddr.
