(* ===== verification/Specs.v ===== *)
(** * Protocol constants: the package [pkg/specs]. *)

From S2P Require Import Prelude.

(** ** dhcpv4.go *)

Definition DHCPv4ServerPort : Z := 67.
Definition DHCPv4ClientPort : Z := 68.
Definition DHCPv4MinMessageSize : Z := 244.
Definition DHCPv4MaxMessageSize : Z := 548.
Definition DHCPv4MaxHops : Z := 16.
Definition DHCPv4BroadcastFlag : Z := 32768.
Definition DHCPv4MaxOptionSize : Z := 255.
Definition DHCPv4OptionTypeSize : Z := 1.
Definition DHCPv4OptionLengthSize : Z := 1.
Definition DHCPv4MaxSubOptionSize : Z :=
  DHCPv4MaxOptionSize - DHCPv4OptionTypeSize - DHCPv4OptionLengthSize.

(** ** ethernet.go: field sizes in bits *)

Definition EthernetFieldSizeDestinationMACAddress : Z := 48.
Definition EthernetFieldSizeSourceMACAddress : Z := 48.
Definition EthernetFieldSizeEtherType : Z := 16.
Definition EthernetHeaderSizeBits : Z :=
  EthernetFieldSizeDestinationMACAddress + EthernetFieldSizeSourceMACAddress +
  EthernetFieldSizeEtherType.
Definition EthernetCommonMTU : Z := 1500.
Definition EthernetMACLengthBytes : Z := 6.

(** ** ipv4.go: field sizes in bits *)

Definition IPv4FieldSizeVersion : Z := 4.
Definition IPv4FieldSizeIHL : Z := 4.
Definition IPv4FieldSizeDSC : Z := 6.
Definition IPv4FieldSizeECN : Z := 2.
Definition IPv4FieldSizeTotalLength : Z := 16.
Definition IPv4FieldSizeIdentification : Z := 16.
Definition IPv4FieldSizeFlags : Z := 3.
Definition IPv4FieldSizeFragmentOffset : Z := 13.
Definition IPv4FieldSizeTTL : Z := 8.
Definition IPv4FieldSizeProtocol : Z := 8.
Definition IPv4FieldSizeChecksum : Z := 16.
Definition IPv4FieldSizeSourceIP : Z := 32.
Definition IPv4FieldSizeDestinationIP : Z := 32.
Definition IPv4HeaderSizeBits : Z :=
  IPv4FieldSizeVersion + IPv4FieldSizeIHL + IPv4FieldSizeDSC + IPv4FieldSizeECN + IPv4FieldSizeTotalLength +
  IPv4FieldSizeIdentification + IPv4FieldSizeFlags + IPv4FieldSizeFragmentOffset + IPv4FieldSizeTTL +
  IPv4FieldSizeProtocol + IPv4FieldSizeChecksum + IPv4FieldSizeSourceIP + IPv4FieldSizeDestinationIP.
Definition IPv4FieldIHLValueMinHeaderNoOptions : Z := 5.
Definition IPv4Version : Z := 4.
Definition DefaultTTL : Z := 64.

(** ** udp.go: field sizes in bits *)

Definition UDPFieldSizeSourcePort : Z := 16.
