(* ===== verification/Layers.v ===== *)
(** * Packet layers

    The relay decodes and encodes packets with the gopacket library, which is not part of the
    repository.  The layer structs are records of the fields the relay reads or writes; the library
    functions it calls are the operations of the class [Gopacket], and what the relay relies on is
    the class [GopacketLaws]. *)

From S2P Require Import Prelude Specs.

(** ** Layer structs *)

(** [layers.DHCPOption]: the length byte is a field of its own. *)
Record DHCPOption := mkOption { opt_Type : Z; opt_Length : Z; opt_Data : bytes }.

#[global] Instance DHCPOption_eq_dec : EqDecision DHCPOption.
Proof. solve_decision. Defined.

(** The zero value [layers.DHCPOption{}]. *)
Definition zero_option : DHCPOption := mkOption 0 0 [].

(** [layers.DHCPv4].  [Rest] stands for the fields the relay never touches (secs, siaddr, sname). *)
Record DHCPv4 := mkDHCPv4 {
  Operation : Z;
  HardwareType : Z;
  HardwareLen : Z;
  RelayHops : Z;
  Xid : Z;
  Flags : Z;
  ClientIP : bytes;
  YourClientIP : bytes;
  RelayAgentIP : bytes;
  ClientHWAddr : bytes;
  File : bytes;
  Options : list DHCPOption;
  Rest : bytes
}.

Definition set_Options (o : list DHCPOption) (m : DHCPv4) : DHCPv4 :=
  {| Operation := Operation m; HardwareType := HardwareType m; HardwareLen := HardwareLen m;
     RelayHops := RelayHops m; Xid := Xid m; Flags := Flags m; ClientIP := ClientIP m;
     YourClientIP := YourClientIP m; RelayAgentIP := RelayAgentIP m;
     ClientHWAddr := ClientHWAddr m; File := File m; Options := o; Rest := Rest m |}.

Definition set_RelayHops (h : Z) (m : DHCPv4) : DHCPv4 :=
  {| Operation := Operation m; HardwareType := HardwareType m; HardwareLen := HardwareLen m;
     RelayHops := h; Xid := Xid m; Flags := Flags m; ClientIP := ClientIP m;
     YourClientIP := YourClientIP m; RelayAgentIP := RelayAgentIP m;
     ClientHWAddr := ClientHWAddr m; File := File m; Options := Options m; Rest := Rest m |}.

Definition set_RelayAgentIP (ip : bytes) (m : DHCPv4) : DHCPv4 :=
  {| Operation := Operation m; HardwareType := HardwareType m; HardwareLen := HardwareLen m;
     RelayHops := RelayHops m; Xid := Xid m; Flags := Flags m; ClientIP := ClientIP m;
     YourClientIP := YourClientIP m; RelayAgentIP := ip;
     ClientHWAddr := ClientHWAddr m; File := File m; Options := Options m; Rest := Rest m |}.

Definition set_Flags (f : Z) (m : DHCPv4) : DHCPv4 :=
  {| Operation := Operation m; HardwareType := HardwareType m; HardwareLen := HardwareLen m;
     RelayHops := RelayHops m; Xid := Xid m; Flags := f; ClientIP := ClientIP m;
     YourClientIP := YourClientIP m; RelayAgentIP := RelayAgentIP m;
     ClientHWAddr := ClientHWAddr m; File := File m; Options := Options m; Rest := Rest m |}.

#[global] Instance DHCPv4_eq_dec : EqDecision DHCPv4.
Proof. solve_decision. Defined.

(** [layers.Ethernet]. *)
Record Ethernet := { SrcMAC : bytes; DstMAC : bytes; EthernetType : Z }.

(** [layers.IPv4]. *)
Record IPv4 := {
  ip_Version : Z; ip_IHL : Z; ip_Id : Z; ip_Flags : Z; ip_FragOffset : Z; ip_TTL : Z;
  ip_Protocol : Z; ip_SrcIP : bytes; ip_DstIP : bytes
}.

(** [layers.UDP]. *)
Record UDP := { udp_SrcPort : Z; udp_DstPort : Z }.

#[global] Instance Ethernet_eq_dec : EqDecision Ethernet.
Proof. solve_decision. Defined.
#[global] Instance IPv4_eq_dec : EqDecision IPv4.
Proof. solve_decision. Defined.
#[global] Instance UDP_eq_dec : EqDecision UDP.
Proof. solve_decision. Defined.

Definition set_SrcIP (ip : bytes) (l : IPv4) : IPv4 :=
  {| ip_Version := ip_Version l; ip_IHL := ip_IHL l; ip_Id := ip_Id l; ip_Flags := ip_Flags l;
     ip_FragOffset := ip_FragOffset l; ip_TTL := ip_TTL l; ip_Protocol := ip_Protocol l;
     ip_SrcIP := ip; ip_DstIP := ip_DstIP l |}.

Definition set_DstIP (ip : bytes) (l : IPv4) : IPv4 :=
  {| ip_Version := ip_Version l; ip_IHL := ip_IHL l; ip_Id := ip_Id l; ip_Flags := ip_Flags l;
     ip_FragOffset := ip_FragOffset l; ip_TTL := ip_TTL l; ip_Protocol := ip_Protocol l;
     ip_SrcIP := ip_SrcIP l; ip_DstIP := ip |}.

(** ** Protocol numbers of the layers package *)

Definition DHCPOpRequest : Z := 1.
Definition DHCPOpReply : Z := 2.
Definition DHCPOptPad : Z := 0.
Definition DHCPOptMessageType : Z := 53.
Definition DHCPOptClientID : Z := 61.
Definition DHCPOptEnd : Z := 255.
Definition LinkTypeEthernet : Z := 1.
Definition IPv4DontFragment : Z := 2.
Definition IPv4MoreFragments : Z := 1.
Definition IPProtocolUDP : Z := 17.
Definition EthernetTypeIPv4 : Z := 2048.
Definition EthernetBroadcast : bytes := [255; 255; 255; 255; 255; 255].

(** ** Library operations *)

Class Gopacket := {
  (** [layers.NewDHCPOption(t, data)]. *)
  NewDHCPOption : Z → bytes → DHCPOption;
  (** [DHCPv4.Len()]. *)
  DHCPv4_Len : DHCPv4 → Z;
  (** [DHCPMsgType.String()]. *)
  DHCPMsgType_String : Z → bytes;
  (** [gopacket.SerializeLayers] of a DHCPv4 layer alone. *)
  SerializeDHCPv4 : DHCPv4 → result bytes;
  (** [gopacket.SerializeLayers] of a whole frame. *)
  SerializeFrame : Ethernet → IPv4 → UDP → DHCPv4 → result bytes;
  (** [IPv4.VerifyChecksum], [UDP.VerifyChecksum] over the pseudo header. *)
  IPv4_VerifyChecksum : IPv4 → bool;
  UDP_VerifyChecksum : IPv4 → UDP → bool
}.

(** The documented behaviour the relay relies on. *)
Class GopacketLaws `{Gopacket} : Prop := {
  (** "NewDHCPOption constructs a new DHCPOption with a given type and data." *)
  NewDHCPOption_spec t data : NewDHCPOption t data = mkOption t (u8 (len data)) data;
  (** A message type the library knows has a name. *)
  DHCPMsgType_String_nonempty v : 1 ≤ v ≤ 8 → DHCPMsgType_String v ≠ []
}.

(** A concrete library for the witnesses: options serialise as type, length and data bytes after
    the fixed header. *)
Module TestPacket.

Definition options_bytes (os : list DHCPOption) : bytes :=
  concat (map (λ o, opt_Type o :: opt_Length o :: opt_Data o) os).

Definition serialize (m : DHCPv4) : bytes :=
  [Operation m; HardwareType m; HardwareLen m; RelayHops m] ++ RelayAgentIP m ++ ClientHWAddr m ++
  options_bytes (Options m).

Definition test_gopacket : Gopacket := {|
  NewDHCPOption t data := mkOption t (u8 (len data)) data;
  DHCPv4_Len m := 240 + len (options_bytes (Options m)) + 1;
  DHCPMsgType_String v := lit "MSG" ++ [v + 48];
  SerializeDHCPv4 m := Ok (serialize m);
  SerializeFrame e i u m := Ok (DstMAC e ++ SrcMAC e ++ ip_SrcIP i ++ ip_DstIP i ++ serialize m);
  IPv4_VerifyChecksum _ := true;
  UDP_VerifyChecksum _ _ := true
|}.

Lemma test_gopacket_laws : @GopacketLaws test_gopacket.
Proof. split; [done|]. intros v _. done. Qed.

End TestPacket.
