(* ===== verification/LayerAccess.v ===== *)
(** * Layer access: [pkg/gpckt/layer.go].

    The typed getters over a decoded packet and the copy of a DHCPv4 layer.  The packet and the decoder
    belong to gopacket and are the class [Packets]. *)

From S2P Require Import Prelude Specs Layers.

Inductive LayerType := LayerTypeEthernet | LayerTypeIPv4 | LayerTypeUDP | LayerTypeDHCPv4 | LayerOther.

#[global] Instance LayerType_eq_dec : EqDecision LayerType.
Proof. solve_decision. Defined.

(** A [*layers.DHCPv4] with the bytes it was decoded from. *)
Record DHCPv4Layer := { dhcp_fields : DHCPv4; Contents : bytes }.

(** The dynamic types behind a [gopacket.Layer]. *)
Inductive Layer :=
| LEthernet (l : Ethernet)
| LIPv4 (l : IPv4)
| LUDP (l : UDP)
| LDHCPv4 (l : DHCPv4Layer)
| LOther.

(** [Layer.LayerType()]. *)
Definition layer_type (l : Layer) : LayerType :=
  match l with
  | LEthernet _ => LayerTypeEthernet
  | LIPv4 _ => LayerTypeIPv4
  | LUDP _ => LayerTypeUDP
  | LDHCPv4 _ => LayerTypeDHCPv4
  | LOther => LayerOther
  end.

Class Packets := {
  Packet : Type;
  (** [Packet.Layer]; a nil interface is [None]. *)
  packet_Layer : Packet → LayerType → option Layer;
  (** [DHCPv4.DecodeFromBytes] into a fresh layer. *)
  DecodeFromBytes : bytes → result DHCPv4Layer
}.

(** "Layer returns the first layer in this packet of the given type, or nil." *)
Class PacketsLaws `{Packets} : Prop := {
  packet_Layer_type p t l : packet_Layer p t = Some l → layer_type l = t
}.

Section access.
Context `{Packets}.

Definition GetEthernet (packet : Packet) : option Ethernet :=
  match packet_Layer packet LayerTypeEthernet with
  | None => None
  | Some l => match l with LEthernet layerEthernet => Some layerEthernet | _ => None end
  end.

Definition GetIPv4 (packet : Packet) : option IPv4 :=
  match packet_Layer packet LayerTypeIPv4 with
  | None => None
  | Some l => match l with LIPv4 layerIPv4 => Some layerIPv4 | _ => None end
  end.

Definition GetUDP (packet : Packet) : option UDP :=
  match packet_Layer packet LayerTypeUDP with
  | None => None
  | Some l => match l with LUDP layerUDP => Some layerUDP | _ => None end
  end.

Definition GetDHCPv4 (packet : Packet) : option DHCPv4Layer :=
  match packet_Layer packet LayerTypeDHCPv4 with
  | None => None
  | Some l => match l with LDHCPv4 layerDHCPv4 => Some layerDHCPv4 | _ => None end
  end.

Definition CopyDHCPv4 (layerDHCPv4 : option DHCPv4Layer) : result DHCPv4Layer :=
  match layerDHCPv4 with
  | None => Err "copy error: source DHCPv4 layer is nil"
  | Some l => wrap "copy error: " (DecodeFromBytes (Contents l))
  end.

(** A layer whose fields the program has changed; the bytes stay. *)
Definition modified (m : DHCPv4) (l : DHCPv4Layer) : DHCPv4Layer :=
  {| dhcp_fields := m; Contents := Contents l |}.

(** The layer of a packet by its type. *)
Definition getter_result (packet : Packet) (t : LayerType) : option Layer :=
  match t with
  | LayerTypeEthernet => LEthernet <$> GetEthernet packet
  | LayerTypeIPv4 => LIPv4 <$> GetIPv4 packet
  | LayerTypeUDP => LUDP <$> GetUDP packet
  | LayerTypeDHCPv4 => LDHCPv4 <$> GetDHCPv4 packet
  | LayerOther => None
  end.

Lemma getter_result_spec `{!PacketsLaws} packet t :
  t ≠ LayerOther → getter_result packet t = packet_Layer packet t.
Proof.
  intros Ht. unfold getter_result, GetEthernet, GetIPv4, GetUDP, GetDHCPv4.
  destruct t; try done;
    match goal with |- context [packet_Layer packet ?t] =>
      pose proof (packet_Layer_type packet t) as Hl; destruct (packet_Layer packet t) as [[]|] end;
    try done; by specialize (Hl _ eq_refl).
Qed.

End access.

(** ** Properties *)

(** layer access is exact and a copy is of what was received.  Each getter returns the layer the
    packet holds under its type and nil when there is none: the type assertion never hides a layer.  A
    copy of a DHCPv4 layer is what its bytes decode to whatever has been done to its fields since, so a
    copy never sees changes of the relay; a nil layer and undecodable bytes are errors. *)
Theorem layer_access_correct `{Packets} `{!PacketsLaws} (packet : Packet) (t : LayerType)
    (l : DHCPv4Layer) (m : DHCPv4) :
  (t ≠ LayerOther → getter_result packet t = packet_Layer packet t) ∧
  CopyDHCPv4 (Some (modified m l)) = CopyDHCPv4 (Some l) ∧
  (∀ c, CopyDHCPv4 (Some l) = Ok c ↔ DecodeFromBytes (Contents l) = Ok c) ∧
  is_ok (CopyDHCPv4 None) = false.
Proof.
  split; [apply getter_result_spec|]. split; [done|]. split; [|done].
  intros c. unfold CopyDHCPv4, wrap. by destruct (DecodeFromBytes (Contents l)).
Qed.

(** ** A concrete library *)

Module TestAccess.

(** A packet is the list of its layers; a message decodes from its operation and hop count. *)
Definition decode (b : bytes) : result DHCPv4Layer :=
  match b with
  | op :: hops :: _ =>
      Ok {| dhcp_fields := mkDHCPv4 op 1 6 hops 0 0 [] [] [] [] [] [] []; Contents := b |}
  | _ => Err "DHCPv4 length too short"
  end.

Definition test_packets : Packets := {|
  Packet := list Layer;
  packet_Layer p t := find_first (λ l, bool_decide (layer_type l = t)) p;
  DecodeFromBytes := decode
|}.

Lemma test_packets_laws : @PacketsLaws test_packets.
Proof.
  split. intros p t l Hl. apply find_first_Some in Hl as [_ Hl]. by apply bool_decide_eq_true in Hl.
Qed.

Definition received : DHCPv4Layer :=
  {| dhcp_fields := mkDHCPv4 1 1 6 0 0 0 [] [] [] [] [] [] []; Contents := [1; 0] |}.

End TestAccess.

Lemma layer_access_correct_witness :
  let p := [LUDP {| udp_SrcPort := 68; udp_DstPort := 67 |}; LDHCPv4 TestAccess.received] in
  @getter_result TestAccess.test_packets p LayerTypeUDP = Some (LUDP {| udp_SrcPort := 68; udp_DstPort := 67 |}).
Proof.
  intros p.
  exact (proj1 (@layer_access_correct TestAccess.test_packets TestAccess.test_packets_laws p LayerTypeUDP
    TestAccess.received (dhcp_fields TestAccess.received)) ltac:(discriminate)).
Defined.
