(* ===== verification/GoSlices.v ===== *)
(** * Go slices over shared arrays.

    A slice is a window on an array; several slices may share one, writes through one are seen through
    the others, and appending within the capacity overwrites what lies behind the window.  Indexing
    outside the length and slicing outside the capacity panic. *)

From S2P Require Import Prelude.

(** ** Heap, slices, panics *)

Abbreviation heap A := (gmap nat (list A)).

Record slice := mkSlice { s_arr : nat; s_off : nat; s_len : nat; s_cap : nat }.

(** A computation on the arrays; [None] is a panic. *)
Definition go (A B : Type) : Type := heap A → option (heap A * B).

#[global] Instance go_ret {A} : MRet (go A) := λ B b h, Some (h, b).
#[global] Instance go_bind {A} : MBind (go A) := λ B C f m h,
  match m h with Some (h, b) => f b h | None => None end.

Definition panic {A B} : go A B := λ _, None.

Section slices.
Context {A : Type}.

(** The elements of a slice. *)
Definition contents (h : heap A) (s : slice) : list A :=
  take (s_len s) (drop (s_off s) (default [] (h !! s_arr s))).

(** [s[i]]. *)
Definition index (s : slice) (i : nat) : go A A := λ h,
  if (i <? s_len s)%nat then
    match contents h s !! i with Some x => Some (h, x) | None => None end
  else None.

(** The heap in which the elements of [s] are [l]. *)
Definition with_contents (h : heap A) (s : slice) (l : list A) : heap A :=
  alter (λ arr, take (s_off s) arr ++ l ++ drop (s_off s + s_len s) arr) (s_arr s) h.

(** [s[i] = x]. *)
Definition assign (s : slice) (i : nat) (x : A) : go A unit := λ h,
  if (i <? s_len s)%nat then Some (with_contents h s (<[i := x]> (contents h s)), ()) else None.

(** [s[lo:hi]]. *)
Definition reslice (s : slice) (lo hi : nat) : go A slice :=
  if (lo <=? hi)%nat && (hi <=? s_cap s)%nat
  then mret (mkSlice (s_arr s) (s_off s + lo) (hi - lo) (s_cap s - lo)) else panic.

(** [clear(s)], with the zero value of the elements. *)
Definition clear (zero : A) (s : slice) : go A unit := λ h,
  Some (with_contents h s (replicate (s_len s) zero), ()).

(** A new array with these elements and room for more; how much is up to the run time. *)
Definition allocate (spare : list A) (l : list A) : go A slice := λ h,
  let a := fresh (dom h) in
  Some (<[a := l ++ spare]> h, mkSlice a 0 (length l) (length l + length spare)).

(** [append(s, xs...)]: within the capacity when it suffices, else in a new array. *)
Definition append (spare : list A) (s : slice) (xs : list A) : go A slice := λ h,
  if (s_len s + length xs <=? s_cap s)%nat then
    let s' := mkSlice (s_arr s) (s_off s) (s_len s + length xs) (s_cap s) in
    Some (with_contents h s' (contents h s ++ xs), s')
  else allocate spare (contents h s ++ xs) h.

(** A loop over the elements, each read when its turn comes. *)
Fixpoint range {B} (s : slice) (n j : nat) (f : B → A → B) (acc : B) : go A B :=
  match n with
  | O => mret acc
  | S n => x ← index s j; range s n (S j) f (f acc x)
  end.

(** ** Well formed slices *)

Record slice_ok (h : heap A) (s : slice) : Prop := {
  slice_len : (s_len s <= s_cap s)%nat;
  slice_cap : ∃ arr, h !! s_arr s = Some arr ∧ (s_off s + s_cap s <= length arr)%nat
}.

Lemma contents_length h s : slice_ok h s → length (contents h s) = s_len s.
Proof.
  intros [Hl (arr & E & Hc)]. unfold contents. rewrite E. cbn. rewrite length_take, length_drop. lia.
Qed.

Lemma with_contents_insert (h : heap A) s l arr :
  h !! s_arr s = Some arr →
  with_contents h s l = <[s_arr s := take (s_off s) arr ++ l ++ drop (s_off s + s_len s) arr]> h.
Proof.
  intros E. unfold with_contents. apply map_eq. intros a. destruct (decide (a = s_arr s)) as [->|Hne].
  - by rewrite lookup_alter_eq, lookup_insert_eq, E.
  - by rewrite lookup_alter_ne, lookup_insert_ne.
Qed.

Lemma contents_with h s l :
  slice_ok h s → length l = s_len s → contents (with_contents h s l) s = l.
Proof.
  intros [Hl (arr & E & Hc)] Hlen. unfold contents, with_contents. rewrite lookup_alter_eq, E. cbn.
  rewrite drop_app_length' by (rewrite length_take; lia). by rewrite take_app_length'.
Qed.

Lemma with_contents_twice h s l l' :
  slice_ok h s → length l = s_len s → with_contents (with_contents h s l) s l' = with_contents h s l'.
Proof.
  intros [Hl (arr & E & Hc)] Hlen. rewrite (with_contents_insert _ _ _ _ E).
  erewrite !with_contents_insert by (done || apply lookup_insert_eq). rewrite insert_insert_eq. f_equal.
  rewrite take_app_length' by (rewrite length_take; lia). do 2 f_equal.
  rewrite (app_assoc (take _ _)), drop_app_length'; [done|]. rewrite length_app, length_take. lia.
Qed.

Lemma with_contents_same h s : slice_ok h s → with_contents h s (contents h s) = h.
Proof.
  intros [Hl (arr & E & Hc)]. rewrite (with_contents_insert _ _ _ _ E). unfold contents. rewrite E. cbn.
  rewrite <- drop_drop, take_drop, take_drop. by apply insert_id.
Qed.

(** Another window on the array is as long as before. *)
Lemma slice_ok_with h s l s' :
  slice_ok h s → length l = s_len s → slice_ok h s' → slice_ok (with_contents h s l) s'.
Proof.
  intros [Hl (arr & E & Hc)] Hlen [Hl' (arr' & E' & Hc')]. split; [done|]. unfold with_contents.
  destruct (decide (s_arr s' = s_arr s)) as [Ea|Ha].
  - rewrite Ea in *. rewrite lookup_alter_eq, E. eexists. split; [done|]. simplify_eq/=.
    rewrite !length_app, length_take, length_drop. lia.
  - rewrite lookup_alter_ne by done. by exists arr'.
Qed.

(** ** What the operations do on well formed slices *)

Lemma index_ok h s i : slice_ok h s → (i < s_len s)%nat →
  ∃ x, contents h s !! i = Some x ∧ index s i h = Some (h, x).
Proof.
  intros Hs Hi. destruct (lookup_lt_is_Some_2 (contents h s) i) as [x Hx]; [by rewrite contents_length|].
  exists x. split; [done|]. unfold index. destruct (Nat.ltb_spec i (s_len s)); [by rewrite Hx|lia].
Qed.

Lemma assign_ok h s i x : (i < s_len s)%nat →
  assign s i x h = Some (with_contents h s (<[i := x]> (contents h s)), ()).
Proof. intros Hi. unfold assign. by destruct (Nat.ltb_spec i (s_len s)); [|lia]. Qed.

Lemma range_ok {B} h s n j (f : B → A → B) acc :
  slice_ok h s → (j + n = s_len s)%nat →
  range s n j f acc h = Some (h, foldl f acc (drop j (contents h s))).
Proof.
  intros Hs. revert j acc. induction n as [|n IH]; intros j acc Hj; cbn [range].
  - rewrite drop_ge by (rewrite contents_length by done; lia). done.
  - unfold mbind, go_bind. destruct (index_ok h s j Hs) as (x & Hx & ->); [lia|].
    rewrite IH by lia. by rewrite (drop_S _ _ _ Hx).
Qed.

(** A prefix of a slice. *)
Definition prefix (s : slice) (n : nat) : slice := mkSlice (s_arr s) (s_off s) n (s_cap s).

Lemma reslice_prefix h s n : (n <= s_cap s)%nat → reslice s 0 n h = Some (h, prefix s n).
Proof.
  intros Hn. unfold reslice, prefix. destruct (Nat.leb_spec n (s_cap s)); [|lia]. cbn.
  by rewrite Nat.add_0_r, !Nat.sub_0_r.
Qed.

Lemma contents_prefix h s n : (n <= s_len s)%nat → contents h (prefix s n) = take n (contents h s).
Proof. intros Hn. unfold contents, prefix. cbn. by rewrite take_take, Nat.min_l. Qed.

Lemma prefix_ok h s n : slice_ok h s → (n <= s_len s)%nat → slice_ok h (prefix s n).
Proof. intros [Hl Hc] Hn. split; cbn; [lia|done]. Qed.

(** The rest of a slice. *)
Definition suffix (s : slice) (n : nat) : slice :=
  mkSlice (s_arr s) (s_off s + n) (s_len s - n) (s_cap s - n).

Lemma reslice_suffix h s n : slice_ok h s → (n <= s_len s)%nat → reslice s n (s_len s) h = Some (h, suffix s n).
Proof.
  intros [Hl _] Hn. unfold reslice, suffix. destruct (Nat.leb_spec n (s_len s)), (Nat.leb_spec (s_len s) (s_cap s));
    try lia. done.
Qed.

Lemma contents_suffix h s n : contents h (suffix s n) = drop n (contents h s).
Proof. unfold contents, suffix. cbn. by rewrite skipn_firstn_comm, drop_drop. Qed.

Lemma suffix_ok h s n : slice_ok h s → (n <= s_len s)%nat → slice_ok h (suffix s n).
Proof. intros [Hl (arr & E & Hc)] Hn. split; cbn; [lia|]. exists arr. split; [done|lia]. Qed.

(** Clearing a suffix. *)
Lemma clear_suffix zero h s n :
  slice_ok h s → (n <= s_len s)%nat →
  clear zero (suffix s n) h =
    Some (with_contents h s (take n (contents h s) ++ replicate (s_len s - n) zero), ()).
Proof.
  intros [Hl (arr & E & Hc)] Hn. unfold clear.
  erewrite !with_contents_insert by exact E. unfold contents, suffix. cbn. rewrite E. cbn. do 3 f_equal. rewrite take_take, Nat.min_l by done.
  rewrite <- (take_take_drop _ (s_off s) n), <- !app_assoc. do 4 f_equal. lia.
Qed.

(** ** Append *)

(** After an append the old windows on other arrays, and what they hold, are unchanged, and the result
    is a slice of the same array or of a new one. *)
Lemma append_ok spare h s xs :
  slice_ok h s →
  ∃ h' s', append spare s xs h = Some (h', s') ∧ slice_ok h' s' ∧ contents h' s' = contents h s ++ xs ∧
    (s_arr s' = s_arr s ∨ s_arr s' ∉ dom h) ∧ dom h ⊆ dom h' ∧
    ∀ a, a ∈ dom h → a ≠ s_arr s → h' !! a = h !! a.
Proof.
  intros Hs. pose proof (contents_length h s Hs) as Hlen. destruct Hs as [Hl (arr & E & Hc)]. unfold append.
  destruct (Nat.leb_spec (s_len s + length xs) (s_cap s)) as [Hfit|Hfull].
  - set (s' := mkSlice _ _ _ _).
    assert (Hs' : slice_ok h s') by (split; [done|by exists arr]).
    assert (Hlen' : length (contents h s ++ xs) = s_len s') by (rewrite length_app, Hlen; done).
    eexists _, s'. split; [done|]. split; [by apply slice_ok_with|]. split; [by apply contents_with|].
    split; [by left|]. split; [unfold with_contents; by rewrite dom_alter_L|].
    intros a _ Ha. unfold with_contents. by rewrite lookup_alter_ne.
  - unfold allocate. pose proof (is_fresh (dom h)) as Hf. eexists _, _. split; [done|].
    set (a := fresh (dom h)) in *. split; [|split; [|split; [by right|split; [set_solver|]]]].
    + split; cbn; [lia|]. rewrite lookup_insert_eq. eexists. split; [done|]. rewrite (length_app _ spare). lia.
    + unfold contents at 1. cbn. rewrite lookup_insert_eq. cbn. rewrite drop_0. apply take_app_length.
    + intros b Hb _. rewrite lookup_insert_ne; [done|]. set_solver.
Qed.

End slices.

Arguments contents : simpl never.
Arguments with_contents : simpl never.
Arguments prefix : simpl never.
Arguments suffix : simpl never.
