(* ===== verification/DhcpOptions.v ===== *)
(** * DHCPv4 options and flags: [pkg/gpckt/dhcp/options.go] and [pkg/gpckt/dhcp/flags.go]. *)

From stdpp Require Import sorting.
From S2P Require Import Prelude GoStrings Specs Layers.

(** ** Option list operations *)

Definition IsOption (option : DHCPOption) : bool := 0 <? opt_Length option.

Definition has_type (t : Z) (o : DHCPOption) : bool := opt_Type o =? t.

(** The first option of a type, the zero option when there is none. *)
Definition GetOption (layerDHCPv4 : DHCPv4) (optionType : Z) : DHCPOption :=
  default zero_option (find_first (has_type optionType) (Options layerDHCPv4)).

(** [slices.DeleteFunc] by option type. *)
Definition delete_type (t : Z) (os : list DHCPOption) : list DHCPOption :=
  List.filter (λ o, negb (has_type t o)) os.

Definition DeleteOption (layerDHCPv4 : DHCPv4) (optionType : Z) : DHCPv4 :=
  set_Options (delete_type optionType (Options layerDHCPv4)) layerDHCPv4.

(** [slices.SortFunc] by option type: insertion sort, which is what the library runs up to twelve
    elements.  [sort_contract_unique] below shows that on distinct types every sort that meets the
    documented contract returns the same list. *)
Fixpoint insert_by_type (o : DHCPOption) (os : list DHCPOption) : list DHCPOption :=
  match os with
  | [] => [o]
  | x :: os => if opt_Type o <? opt_Type x then o :: x :: os else x :: insert_by_type o os
  end.

Definition sort_by_type (os : list DHCPOption) : list DHCPOption :=
  foldl (λ acc o, insert_by_type o acc) [] os.

Definition SetOption (layerDHCPv4 : DHCPv4) (newOption : DHCPOption) : DHCPv4 :=
  set_Options
    (sort_by_type (delete_type (opt_Type newOption) (Options layerDHCPv4) ++ [newOption]))
    layerDHCPv4.

(** ** RFC 3396 split options

    The loop compacts the slice in place: it reads element [j] of the backing array after the
    writes of the earlier iterations, and writes element [i]. *)

Definition count_option (m : gmap Z Z) (o : DHCPOption) : gmap Z Z :=
  if (opt_Type o =? DHCPOptPad) || (opt_Type o =? DHCPOptEnd) then m
  else <[opt_Type o := default 0 (m !! opt_Type o) + 1]> m.

Definition optionCount (options : list DHCPOption) : gmap Z Z := foldl count_option ∅ options.

Fixpoint compact (counts : gmap Z Z) (fuel j i : nat) (options : list DHCPOption) :
    list DHCPOption * nat :=
  match fuel with
  | O => (options, i)
  | S fuel =>
      match options !! j with
      | None => (options, i)
      | Some o =>
          if opt_Type o =? DHCPOptEnd then (<[i := o]> options, S i)
          else if (opt_Type o =? DHCPOptPad) || negb (default 0 (counts !! opt_Type o) =? 1)
          then compact counts fuel (S j) i options
          else compact counts fuel (S j) (S i) (<[i := o]> options)
      end
  end.

Definition DeleteSplitOptions (options : list DHCPOption) : list DHCPOption :=
  let '(backing, i) := compact (optionCount options) (length options) 0 0 options in
  take i backing.

(** ** Message type *)

Section message_type.
Context `{Gopacket} `{UnicodeTables}.

Definition known_message_type (val : Z) : bool := (1 <=? val) && (val <=? 8).

(** The upper case name of the message type, empty when option 53 is missing or malformed. *)
Definition GetMessageType (layerDHCPv4 : DHCPv4) : bytes :=
  let opt53 := GetOption layerDHCPv4 DHCPOptMessageType in
  if negb (IsOption opt53) || bool_decide (opt_Data opt53 = []) || negb (opt_Length opt53 =? 1)
  then []
  else
    match opt_Data opt53 with
    | val :: _ => if known_message_type val then strings.ToUpper (DHCPMsgType_String val) else []
    | [] => []
    end.
End message_type.

(** ** Flags *)

(** [layer.Flags &^= DHCPv4BroadcastFlag] and [layer.Flags |= DHCPv4BroadcastFlag]. *)
Definition clear_broadcast (m : DHCPv4) : DHCPv4 :=
  set_Flags (Z.ldiff (Flags m) DHCPv4BroadcastFlag) m.
Definition set_broadcast (m : DHCPv4) : DHCPv4 :=
  set_Flags (Z.lor (Flags m) DHCPv4BroadcastFlag) m.

Definition IsUnicast (layerDHCPv4 : option DHCPv4) : bool :=
  match layerDHCPv4 with
  | None => false
  | Some m => Z.land (Flags m) DHCPv4BroadcastFlag =? 0
  end.

Definition IsBroadcast (layerDHCPv4 : option DHCPv4) : bool :=
  match layerDHCPv4 with
  | None => false
  | Some m => Z.land (Flags m) DHCPv4BroadcastFlag =? DHCPv4BroadcastFlag
  end.

Definition SetUnicast (layerDHCPv4 : option DHCPv4) : option DHCPv4 :=
  match layerDHCPv4 with None => None | Some m => Some (clear_broadcast m) end.

Definition SetBroadcast (layerDHCPv4 : option DHCPv4) : option DHCPv4 :=
  match layerDHCPv4 with None => None | Some m => Some (set_broadcast m) end.

(** ** Lemmas: lookup and deletion *)

Lemma elem_of_delete_type t os o : o ∈ delete_type t os ↔ o ∈ os ∧ opt_Type o ≠ t.
Proof.
  unfold delete_type, has_type. rewrite !list_elem_of_In, filter_In, negb_true_iff, Z.eqb_neq.
  done.
Qed.

Lemma find_first_delete_ne t t' os :
  t ≠ t' → find_first (has_type t) (delete_type t' os) = find_first (has_type t) os.
Proof.
  intros Hne. induction os as [|o os IH]; [done|]. simpl. unfold has_type in *.
  destruct (Z.eqb_spec (opt_Type o) t'); simpl.
  - rewrite IH. by rewrite (proj2 (Z.eqb_neq _ _)) by congruence.
  - by rewrite IH.
Qed.

Lemma find_first_delete_eq t os : find_first (has_type t) (delete_type t os) = None.
Proof.
  apply find_first_None. intros o [_ Ho]%elem_of_delete_type. by apply Z.eqb_neq.
Qed.

Lemma delete_type_sublist t os : delete_type t os `sublist_of` os.
Proof.
  induction os as [|o os IH]; [done|]. simpl.
  destruct (has_type t o); simpl; by constructor.
Qed.

Lemma delete_type_NoDup t os :
  NoDup (map opt_Type os) → NoDup (map opt_Type (delete_type t os)).
Proof. intros H. eapply sublist_NoDup; [exact H|]. apply (fmap_sublist opt_Type), delete_type_sublist. Qed.

(** ** Lemmas: sorting *)

Definition type_le (a b : DHCPOption) : Prop := opt_Type a ≤ opt_Type b.

#[global] Instance type_le_trans : Transitive type_le.
Proof. unfold type_le. intros x y z. lia. Qed.

Lemma insert_by_type_perm o os : insert_by_type o os ≡ₚ o :: os.
Proof.
  induction os as [|x os IH]; [done|]. simpl. case_match; [done|].
  rewrite IH. constructor.
Qed.

Lemma sort_by_type_acc os acc : foldl (λ acc o, insert_by_type o acc) acc os ≡ₚ acc ++ os.
Proof.
  revert acc. induction os as [|o os IH]; intros acc; simpl; [by rewrite app_nil_r|].
  rewrite IH, insert_by_type_perm. apply Permutation_middle.
Qed.

Lemma sort_by_type_perm os : sort_by_type os ≡ₚ os.
Proof. apply (sort_by_type_acc os []). Qed.

Lemma insert_by_type_sorted o os :
  StronglySorted type_le os → StronglySorted type_le (insert_by_type o os).
Proof.
  unfold type_le. induction 1 as [|x os Hs IH Hall]; simpl; [repeat constructor|].
  destruct (Z.ltb_spec (opt_Type o) (opt_Type x)).
  - constructor; [by constructor|]. constructor; [lia|].
    eapply Forall_impl; [exact Hall|]. simpl. intros. lia.
  - constructor; [done|]. rewrite insert_by_type_perm. by constructor.
Qed.

Lemma sort_by_type_sorted os : StronglySorted type_le (sort_by_type os).
Proof.
  unfold sort_by_type. assert (H : StronglySorted type_le []) by constructor. revert H.
  generalize (@nil DHCPOption) as acc. induction os as [|o os IH]; intros acc H; [done|]. simpl.
  by apply IH, insert_by_type_sorted.
Qed.

(** Two options of one list with distinct types and the same type are the same option. *)
Lemma NoDup_types_inj os a b :
  NoDup (map opt_Type os) → a ∈ os → b ∈ os → opt_Type a = opt_Type b → a = b.
Proof.
  intros Hnd Ha Hb Heq.
  apply list_elem_of_lookup in Ha as [i Hi]. apply list_elem_of_lookup in Hb as [j Hj].
  assert (i = j); [|congruence].
  eapply NoDup_lookup; [exact Hnd|..]; rewrite list_lookup_fmap.
  - by rewrite Hi.
  - by rewrite Hj, Heq.
Qed.

Lemma sort_contract_unique os l1 l2 :
  NoDup (map opt_Type os) → l1 ≡ₚ os → l2 ≡ₚ os →
  StronglySorted type_le l1 → StronglySorted type_le l2 → l1 = l2.
Proof.
  intros Hnd P1 P2 S1 S2. eapply StronglySorted_unique_strong; [|exact S1|exact S2|by rewrite P1].
  intros x1 x2 H1 H2 Hle Hge. unfold type_le in *.
  eapply NoDup_types_inj; [exact Hnd|by rewrite <- P1|by rewrite <- P2|lia].
Qed.

Lemma find_first_insert t o os :
  opt_Type o ≠ t →
  find_first (has_type t) (insert_by_type o os) = find_first (has_type t) os.
Proof.
  intros Hne. unfold has_type. induction os as [|x os IH]; simpl.
  { by rewrite (proj2 (Z.eqb_neq _ _) Hne). }
  case_match; simpl; [by rewrite (proj2 (Z.eqb_neq _ _) Hne)|]. by rewrite IH.
Qed.

Lemma find_first_insert_fresh o os :
  (∀ x, x ∈ os → opt_Type x ≠ opt_Type o) →
  find_first (has_type (opt_Type o)) (insert_by_type o os) = Some o.
Proof.
  unfold has_type. induction os as [|x os IH]; intros H; simpl; [by rewrite Z.eqb_refl|].
  case_match; simpl; [by rewrite Z.eqb_refl|].
  rewrite (proj2 (Z.eqb_neq _ _)) by (apply H; left). apply IH. intros y Hy. apply H. by right.
Qed.

Lemma find_first_insert_eq t o os :
  StronglySorted type_le os → opt_Type o = t → is_Some (find_first (has_type t) os) →
  find_first (has_type t) (insert_by_type o os) = find_first (has_type t) os.
Proof.
  intros Hs <-. unfold has_type. induction Hs as [|x os Hs IH Hall]; simpl; [by intros []|].
  destruct (Z.eqb_spec (opt_Type x) (opt_Type o)) as [E|E].
  - intros _. rewrite E, Z.ltb_irrefl. simpl. by rewrite E, Z.eqb_refl.
  - intros Hf. destruct (Z.ltb_spec (opt_Type o) (opt_Type x)).
    + exfalso. destruct Hf as [y Hy]. apply find_first_Some in Hy as [Hy E'].
      rewrite Forall_forall in Hall. specialize (Hall y Hy). unfold type_le in Hall. lia.
    + simpl. rewrite (proj2 (Z.eqb_neq _ _) E). by apply IH.
Qed.

(** Sorting keeps the first option of every type first. *)
Lemma find_first_sort t os : find_first (has_type t) (sort_by_type os) = find_first (has_type t) os.
Proof.
  unfold sort_by_type. enough (∀ acc, StronglySorted type_le acc →
    find_first (has_type t) (foldl (λ acc o, insert_by_type o acc) acc os) =
    find_first (has_type t) (acc ++ os)) as H by (apply (H []); constructor).
  induction os as [|o os IH]; intros acc Hs; simpl; [by rewrite app_nil_r|].
  rewrite IH by (by apply insert_by_type_sorted). rewrite !find_first_app. simpl.
  destruct (decide (opt_Type o = t)) as [<-|Hne].
  - destruct (find_first (has_type (opt_Type o)) acc) as [x|] eqn:E.
    + rewrite find_first_insert_eq, E; [done..|by eexists].
    + rewrite find_first_insert_fresh; [unfold has_type; by rewrite Z.eqb_refl|].
      intros x Hx Heq. rewrite find_first_None in E. specialize (E x Hx).
      unfold has_type in E. apply Z.eqb_neq in E. congruence.
  - rewrite find_first_insert by done. unfold has_type.
    by rewrite (proj2 (Z.eqb_neq (opt_Type o) t) Hne).
Qed.

(** ** Lemmas: SetOption *)

Lemma SetOption_options m o :
  Options (SetOption m o) = sort_by_type (delete_type (opt_Type o) (Options m) ++ [o]).
Proof. done. Qed.

Lemma GetOption_SetOption_eq m o : GetOption (SetOption m o) (opt_Type o) = o.
Proof.
  unfold GetOption. rewrite SetOption_options, find_first_sort, find_first_app.
  rewrite find_first_delete_eq. simpl. unfold has_type. by rewrite Z.eqb_refl.
Qed.

Lemma GetOption_SetOption_ne m o t :
  opt_Type o ≠ t → GetOption (SetOption m o) t = GetOption m t.
Proof.
  intros Hne. unfold GetOption. rewrite SetOption_options, find_first_sort, find_first_app.
  rewrite find_first_delete_ne by done. destruct (find_first _ _); [done|]. simpl.
  unfold has_type. by rewrite (proj2 (Z.eqb_neq _ _) Hne).
Qed.

Lemma GetOption_DeleteOption_ne m t t' :
  t ≠ t' → GetOption (DeleteOption m t') t = GetOption m t.
Proof. intros. unfold GetOption. simpl. by rewrite find_first_delete_ne. Qed.

Lemma SetOption_NoDup m o :
  NoDup (map opt_Type (Options m)) → NoDup (map opt_Type (Options (SetOption m o))).
Proof.
  intros H. rewrite SetOption_options.
  assert (P : sort_by_type (delete_type (opt_Type o) (Options m) ++ [o]) ≡ₚ
              o :: delete_type (opt_Type o) (Options m)).
  { rewrite sort_by_type_perm. by rewrite Permutation_app_comm. }
  apply (fmap_Permutation opt_Type) in P.
  change (NoDup (opt_Type <$> sort_by_type (delete_type (opt_Type o) (Options m) ++ [o]))).
  rewrite P. constructor; [|by apply delete_type_NoDup].
  intros (x & Hx & Hin)%list_elem_of_fmap. apply elem_of_delete_type in Hin as [_ Hne]. congruence.
Qed.

(** ** Lemmas: split options *)

(** How many options of the list have a type. *)
Definition count_type (t : Z) (os : list DHCPOption) : nat :=
  length (List.filter (has_type t) os).

(** An option the filter keeps: not padding, and the only one of its type in the whole list. *)
Definition unsplit (all : list DHCPOption) (o : DHCPOption) : bool :=
  negb (opt_Type o =? DHCPOptPad) && Nat.eqb (count_type (opt_Type o) all) 1.

(** Reference definition: the kept options up to and including the first End. *)
Fixpoint keep_until_end (keep : DHCPOption → bool) (os : list DHCPOption) : list DHCPOption :=
  match os with
  | [] => []
  | o :: os =>
      if opt_Type o =? DHCPOptEnd then [o]
      else if keep o then o :: keep_until_end keep os
      else keep_until_end keep os
  end.

Lemma count_type_cons t o os :
  count_type t (o :: os) = ((if decide (opt_Type o = t) then 1 else 0) + count_type t os)%nat.
Proof.
  unfold count_type, has_type. simpl. destruct (Z.eqb_spec (opt_Type o) t), (decide (opt_Type o = t));
    done.
Qed.

Lemma count_type_app t l k : count_type t (l ++ k) = (count_type t l + count_type t k)%nat.
Proof. unfold count_type. by rewrite List.filter_app, length_app. Qed.

Lemma count_type_zero t os : count_type t os = 0%nat ↔ (∀ o, o ∈ os → opt_Type o ≠ t).
Proof.
  induction os as [|o os IH].
  { split; [intros _ o Ho; inversion Ho|done]. }
  rewrite count_type_cons. split.
  - intros H x [->|Hx]%elem_of_cons; [by destruct (decide (opt_Type o = t))|].
    apply IH; [|done]. by destruct (decide (opt_Type o = t)).
  - intros H. destruct (decide (opt_Type o = t)) as [E|]; [by edestruct (H o); [left|]|].
    simpl. apply IH. intros x Hx. apply H. by right.
Qed.

(** The counting map counts. *)
Lemma optionCount_lookup os t :
  t ≠ DHCPOptPad → t ≠ DHCPOptEnd →
  default 0 (optionCount os !! t) = Z.of_nat (count_type t os).
Proof.
  intros Hp He. unfold optionCount.
  enough (∀ m, default 0 (foldl (λ m o,
    if (opt_Type o =? DHCPOptPad) || (opt_Type o =? DHCPOptEnd) then m
    else <[opt_Type o := default 0 (m !! opt_Type o) + 1]> m) m os !! t) =
    default 0 ((m : gmap Z Z) !! t) + Z.of_nat (count_type t os)) as H.
  { rewrite H, lookup_empty. simpl. lia. }
  induction os as [|o os IH]; intros m; [unfold count_type; simpl; lia|].
  cbn [foldl]. rewrite IH, count_type_cons.
  destruct (decide (opt_Type o = t)) as [->|Hne].
  - rewrite (proj2 (Z.eqb_neq t DHCPOptPad) Hp), (proj2 (Z.eqb_neq t DHCPOptEnd) He). simpl.
    rewrite lookup_insert_eq. simpl. lia.
  - case_match; [simpl; lia|]. rewrite lookup_insert_ne by done. lia.
Qed.

(** The in place loop at position [j] with [i] elements written. *)
Lemma compact_spec all fuel j i arr :
  (i ≤ j)%nat → (j + fuel = length arr)%nat →
  let '(arr', i') := compact (optionCount all) fuel j i arr in
  take i' arr' = take i arr ++ keep_until_end (unsplit all) (drop j arr).
Proof.
  revert j i arr. induction fuel as [|fuel IH]; intros j i arr Hij Hlen; cbn [compact].
  { rewrite drop_ge by lia. by rewrite app_nil_r. }
  destruct (lookup_lt_is_Some_2 arr j ltac:(lia)) as [o Ho]. rewrite Ho, (drop_S _ _ _ Ho).
  cbn [keep_until_end].
  assert (Hwrite : take (S i) (<[i:=o]> arr) = take i arr ++ [o]).
  { rewrite (take_S_r _ _ o) by (apply list_lookup_insert_eq; lia). by rewrite take_insert_ge. }
  assert (Hdrop : drop (S j) (<[i:=o]> arr) = drop (S j) arr) by (apply drop_insert_lt; lia).
  destruct (Z.eqb_spec (opt_Type o) DHCPOptEnd) as [E|E]; [exact Hwrite|].
  assert (Hkeep : (opt_Type o =? DHCPOptPad) || negb (default 0 (optionCount all !! opt_Type o) =? 1)
                  = negb (unsplit all o)).
  { unfold unsplit. destruct (Z.eqb_spec (opt_Type o) DHCPOptPad); [done|]. simpl.
    rewrite optionCount_lookup by done. f_equal.
    destruct (Nat.eqb_spec (count_type (opt_Type o) all) 1); case_zs; lia. }
  rewrite Hkeep. destruct (unsplit all o); simpl.
  - specialize (IH (S j) (S i) (<[i:=o]> arr) ltac:(lia) ltac:(rewrite length_insert; lia)).
    destruct (compact _ _ _ _ _) as [arr' i']. rewrite IH, Hwrite, Hdrop. by rewrite <- app_assoc.
  - specialize (IH (S j) i arr ltac:(lia) ltac:(lia)).
    destruct (compact _ _ _ _ _) as [arr' i']. by rewrite IH.
Qed.

Lemma DeleteSplitOptions_reference os :
  DeleteSplitOptions os = keep_until_end (unsplit os) os.
Proof.
  unfold DeleteSplitOptions. pose proof (compact_spec os (length os) 0 0 os ltac:(lia) ltac:(lia)) as H.
  destruct (compact _ _ _ _ _) as [arr i]. by rewrite H.
Qed.

Lemma keep_until_end_sublist keep os : keep_until_end keep os `sublist_of` os.
Proof.
  induction os as [|o os IH]; simpl; [constructor|].
  repeat case_match; constructor; [apply sublist_nil_l|done..].
Qed.

(** What an element of the filtered list is: the End marker, or the only option of its type. *)
Lemma elem_of_keep_until_end keep os o :
  o ∈ keep_until_end keep os → o ∈ os ∧ (opt_Type o = DHCPOptEnd ∨ keep o = true).
Proof.
  induction os as [|x os IH]; simpl; [by intros ?%elem_of_nil|].
  destruct (Z.eqb_spec (opt_Type x) DHCPOptEnd).
  { intros ->%list_elem_of_singleton. split; [left|by left]. }
  destruct (keep x) eqn:E.
  - intros [->|H]%elem_of_cons; [split; [left|by right]|].
    destruct (IH H). split; [by right|done].
  - intros H. destruct (IH H). split; [by right|done].
Qed.

Lemma keep_until_end_NoDup all pre os :
  all = pre ++ os → NoDup (map opt_Type (keep_until_end (unsplit all) os)).
Proof.
  revert pre. induction os as [|o os IH]; intros pre Hall; simpl; [constructor|].
  assert (IH' := IH (pre ++ [o]) ltac:(by rewrite <- app_assoc)).
  destruct (Z.eqb_spec (opt_Type o) DHCPOptEnd) as [E|E]; [repeat constructor; set_solver|].
  destruct (unsplit all o) eqn:Hk; [|done]. simpl. constructor; [|done].
  intros (x & Hx & Hin)%list_elem_of_fmap.
  apply elem_of_keep_until_end in Hin as [Hin _].
  unfold unsplit in Hk. apply andb_true_iff in Hk as [_ Hk%Nat.eqb_eq].
  rewrite Hall, count_type_app, count_type_cons in Hk.
  destruct (decide (opt_Type o = opt_Type o)); [|done].
  assert (H0 : count_type (opt_Type o) os = 0%nat) by lia.
  rewrite count_type_zero in H0. by apply (H0 x).
Qed.

Lemma DeleteSplitOptions_NoDup os : NoDup (map opt_Type (DeleteSplitOptions os)).
Proof. rewrite DeleteSplitOptions_reference. by apply (keep_until_end_NoDup os []). Qed.

Lemma keep_until_end_end_last keep os pre o post :
  keep_until_end keep os = pre ++ o :: post → opt_Type o = DHCPOptEnd → post = [].
Proof.
  revert pre. induction os as [|x os IH]; intros pre H E; simpl in H; [by destruct pre|].
  destruct (Z.eqb_spec (opt_Type x) DHCPOptEnd).
  { destruct pre as [|? [|]]; by simplify_eq/=. }
  destruct (keep x); [|by eapply IH].
  destruct pre as [|y pre]; simplify_eq/=. by eapply IH.
Qed.

(** ** Lemmas: flags *)

Lemma broadcast_testbit m :
  Z.land (Flags m) DHCPv4BroadcastFlag = if Z.testbit (Flags m) 15 then DHCPv4BroadcastFlag else 0.
Proof.
  apply Z.bits_inj_iff'. intros n Hn. rewrite Z.land_spec. change DHCPv4BroadcastFlag with (2 ^ 15).
  destruct (decide (n = 15)) as [->|Hne].
  - rewrite Z.pow2_bits_true by lia. rewrite andb_true_r. by destruct (Z.testbit (Flags m) 15).
  - rewrite Z.pow2_bits_false by lia. rewrite andb_false_r.
    destruct (Z.testbit (Flags m) 15); [by rewrite Z.pow2_bits_false by lia|by rewrite Z.bits_0].
Qed.

Lemma IsUnicast_bit m : IsUnicast (Some m) = negb (Z.testbit (Flags m) 15).
Proof. unfold IsUnicast, IsBroadcast. rewrite broadcast_testbit. by destruct (Z.testbit (Flags m) 15). Qed.

Lemma IsBroadcast_bit m : IsBroadcast (Some m) = Z.testbit (Flags m) 15.
Proof. unfold IsUnicast, IsBroadcast. rewrite broadcast_testbit. by destruct (Z.testbit (Flags m) 15). Qed.

Lemma broadcast_bit n : Z.testbit DHCPv4BroadcastFlag n = bool_decide (n = 15).
Proof.
  change DHCPv4BroadcastFlag with (2 ^ 15). rewrite Z.pow2_bits_eqb by lia.
  case_bool_decide; case_zs.
Qed.

Lemma clear_broadcast_bit m n :
  Z.testbit (Flags (clear_broadcast m)) n = Z.testbit (Flags m) n && negb (bool_decide (n = 15)).
Proof. simpl. by rewrite Z.ldiff_spec, broadcast_bit. Qed.

Lemma set_broadcast_bit m n :
  Z.testbit (Flags (set_broadcast m)) n = Z.testbit (Flags m) n || bool_decide (n = 15).
Proof. simpl. by rewrite Z.lor_spec, broadcast_bit. Qed.

(** ** Lemmas: message type *)

Lemma GetMessageType_nonempty `{GopacketLaws} `{UnicodeTables} m :
  GetMessageType m ≠ [] ↔
  ∃ o v rest, find_first (has_type DHCPOptMessageType) (Options m) = Some o ∧
    opt_Length o = 1 ∧ opt_Data o = v :: rest ∧ 1 ≤ v ≤ 8.
Proof.
  unfold GetMessageType, GetOption, IsOption.
  destruct (find_first _ (Options m)) as [o|]; simpl.
  2: { split; [done|]. intros (o & v & rest & Ho & _). done. }
  destruct (opt_Data o) as [|v rest] eqn:Ed; simpl.
  { rewrite orb_true_r. simpl. split; [done|]. intros (o' & v & r & Ho & _ & Hd & _). simplify_eq.
    congruence. }
  unfold known_message_type. destruct (Z.eqb_spec (opt_Length o) 1) as [El|El]; simpl.
  2: { rewrite orb_true_r. split; [done|]. intros (o' & v' & r & Ho & Hl & _). by simplify_eq. }
  rewrite El. simpl. split.
  - intros Hne. exists o, v, rest. repeat split; try done; revert Hne; case_zs.
  - intros (o' & v' & r & Ho & _ & Hd & Hv). simplify_eq. rewrite Ed in Hd. simplify_eq.
    destruct (Z.leb_spec 1 v'), (Z.leb_spec v' 8); try lia. simpl.
    by apply strings.ToUpper_nonempty, DHCPMsgType_String_nonempty.
Qed.

(** ** Properties *)

(** C29: the in-place compaction loop of [DeleteSplitOptions], which overwrites the array it reads,
    returns the kept options up to the first End in their order, where an option is kept when it is
    not padding and its type occurs exactly once in the whole list. *)
Theorem DeleteSplitOptions_correct (options : list DHCPOption) :
  DeleteSplitOptions options = keep_until_end (unsplit options) options.
Proof. apply DeleteSplitOptions_reference. Qed.

(** after [DeleteSplitOptions] no option type occurs twice, no padding is left, an End marker is
    the last option, and every option comes from the input in its order. *)
Theorem DeleteSplitOptions_normal (options : list DHCPOption) :
  NoDup (map opt_Type (DeleteSplitOptions options)) ∧
  DeleteSplitOptions options `sublist_of` options ∧
  (∀ o, o ∈ DeleteSplitOptions options → opt_Type o ≠ DHCPOptPad) ∧
  (∀ pre o post, DeleteSplitOptions options = pre ++ o :: post →
     opt_Type o = DHCPOptEnd → post = []).
Proof.
  split; [apply DeleteSplitOptions_NoDup|]. rewrite DeleteSplitOptions_reference.
  split; [apply keep_until_end_sublist|]. split.
  - intros o Ho E. apply elem_of_keep_until_end in Ho as [_ [H|H]]; [by rewrite E in H|].
    unfold unsplit in H. by rewrite E in H.
  - intros pre o post. apply keep_until_end_end_last.
Qed.

(** [SetOption] makes the new option the one [GetOption] finds for its type, leaves what
    [GetOption] finds for every other type alone, and leaves the list sorted by type; on options
    with distinct types any sorting function that returns a sorted permutation gives the same
    list, so the instability of [slices.SortFunc] does not show. *)
Theorem SetOption_correct (m : DHCPv4) (o : DHCPOption) :
  GetOption (SetOption m o) (opt_Type o) = o ∧
  (∀ t, opt_Type o ≠ t → GetOption (SetOption m o) t = GetOption m t) ∧
  StronglySorted type_le (Options (SetOption m o)) ∧
  (NoDup (map opt_Type (Options m)) → ∀ sorted,
     sorted ≡ₚ delete_type (opt_Type o) (Options m) ++ [o] → StronglySorted type_le sorted →
     sorted = Options (SetOption m o)).
Proof.
  split; [apply GetOption_SetOption_eq|]. split; [intros t; apply GetOption_SetOption_ne|].
  split; [apply sort_by_type_sorted|]. intros Hnd sorted Hp Hs.
  eapply sort_contract_unique; [|exact Hp| |exact Hs|apply sort_by_type_sorted].
  - pose proof (SetOption_NoDup m o Hnd) as H.
    change (NoDup (opt_Type <$> (delete_type (opt_Type o) (Options m) ++ [o]))).
    by rewrite <- (sort_by_type_perm (_ ++ [o])).
  - apply sort_by_type_perm.
Qed.

(** every reply is exactly one of unicast and broadcast, [SetUnicast] and [SetBroadcast] make it
    so, and neither touches another flag bit; a nil layer is neither. *)
Theorem flags_correct (m : DHCPv4) :
  IsUnicast (Some m) = negb (IsBroadcast (Some m)) ∧
  IsUnicast (SetUnicast (Some m)) = true ∧
  IsBroadcast (SetBroadcast (Some m)) = true ∧
  (∀ n, n ≠ 15 → Z.testbit (Flags (clear_broadcast m)) n = Z.testbit (Flags m) n ∧
                 Z.testbit (Flags (set_broadcast m)) n = Z.testbit (Flags m) n) ∧
  IsUnicast None = false ∧ IsBroadcast None = false.
Proof.
  rewrite IsUnicast_bit, IsBroadcast_bit. unfold SetUnicast, SetBroadcast.
  rewrite IsUnicast_bit, IsBroadcast_bit, clear_broadcast_bit, set_broadcast_bit.
  rewrite bool_decide_eq_true_2 by done. rewrite andb_false_r, orb_true_r.
  repeat split; [done..| |]; rewrite ?clear_broadcast_bit, ?set_broadcast_bit;
    rewrite bool_decide_eq_false_2 by done; by rewrite ?andb_true_r, ?orb_false_r.
Qed.
