(* ===== verification/Option82.v ===== *)
(** * Relay agent information: [pkg/gpckt/dhcp/opt82.go] and [pkg/gpckt/dhcp/sub-options.go].

    Option 82 packs a list of sub-options.  The relay writes its interface index (Agent Circuit ID),
    the client subnet (Link Selection) and the matched policy key (Policy Tag) into a request, and
    reads them back from the reply. *)

From S2P Require Import Prelude GoStrings GoNet Specs Layers DhcpOptions.

(** ** opt82.go *)

Definition RelayAgentInformation : Z := 82.

Definition GetRelayAgentInformationOption (layerDHCPv4 : DHCPv4) : DHCPOption :=
  let opt82 := GetOption layerDHCPv4 RelayAgentInformation in
  if negb (IsOption opt82) then zero_option
  else if bool_decide (opt_Data opt82 = []) || (opt_Length opt82 <? 1) then zero_option
  else opt82.

Definition DeleteRelayAgentInformationOption (layerDHCPv4 : DHCPv4) : DHCPv4 :=
  DeleteOption layerDHCPv4 RelayAgentInformation.

(** The packed sub-options, [None] as soon as one has length zero. *)
Fixpoint encode_subs (data : bytes) (subOptions : list DHCPOption) : option bytes :=
  match subOptions with
  | [] => Some data
  | s :: subOptions =>
      if opt_Length s =? 0 then None
      else encode_subs (data ++ [opt_Type s; opt_Length s] ++ opt_Data s) subOptions
  end.

Section encode.
Context `{Gopacket}.

Definition EncodeRelayAgentInformationOption (subOptions : list DHCPOption) : DHCPOption :=
  match encode_subs [] subOptions with
  | None => zero_option
  | Some data =>
      if DHCPv4MaxOptionSize <? len data then zero_option
      else NewDHCPOption RelayAgentInformation data
  end.

Definition SetRelayAgentInformationOption (layerDHCPv4 : DHCPv4) (subOptions : list DHCPOption) :
    DHCPv4 :=
  let opt82 := EncodeRelayAgentInformationOption subOptions in
  if negb (IsOption opt82) then layerDHCPv4 else SetOption layerDHCPv4 opt82.
End encode.

Definition headerSize : Z := DHCPv4OptionTypeSize + DHCPv4OptionLengthSize.

(** The decoding loop; each round removes at least the header, so the length of the data bounds the
    rounds.  A truncated trailer rejects the whole option. *)
Fixpoint decode_subs (fuel : nat) (subOptions : list DHCPOption) (data : bytes) : list DHCPOption :=
  match fuel with
  | O => subOptions
  | S fuel =>
      if len data =? 0 then subOptions
      else if len data <? headerSize then []
      else
        let length := IP.byte_at data (Z.to_nat DHCPv4OptionTypeSize) in
        if len data <? headerSize + length then []
        else
          let sub := mkOption (IP.byte_at data 0) length
                       (take (Z.to_nat length) (drop (Z.to_nat headerSize) data)) in
          decode_subs fuel (subOptions ++ [sub]) (drop (Z.to_nat (headerSize + length)) data)
  end.

Definition DecodeRelayAgentInformationOption (option : DHCPOption) : list DHCPOption :=
  decode_subs (S (length (opt_Data option))) [] (opt_Data option).

(** ** sub-options.go *)

Definition AgentCircuitIDSubOption : Z := 1.
Definition LinkSelectionSubOption : Z := 5.
Definition PolicyTagSubOption : Z := 224.

Definition MaxAgentCircuitIDSize : Z := 10.
Definition MaxPolicyTagSize : Z :=
  DHCPv4MaxOptionSize - 2 * (DHCPv4OptionTypeSize + DHCPv4OptionLengthSize) - MaxAgentCircuitIDSize.

Definition CreateAgentCircuitIDSubOption (value : Z) : DHCPOption :=
  let data := strconv.FormatUint value in
  mkOption AgentCircuitIDSubOption (u8 (len data)) data.

(** The first circuit id decides: its number, or 0 when it does not parse. *)
Definition ExtractAgentCircuitIDSubOptionData (options : list DHCPOption) : Z :=
  match find_first (has_type AgentCircuitIDSubOption) options with
  | Some opt => match strconv.Atoi (opt_Data opt) with Some val => val | None => 0 end
  | None => 0
  end.

Definition CreateLinkSelectionSubOption (subnet : bytes) : DHCPOption :=
  let v4 := IP.To4 subnet in
  if bool_decide (v4 = []) then zero_option else mkOption LinkSelectionSubOption 4 v4.

(** [[]] is nil. *)
Definition ExtractLinkSelectionSubOptionData (options : list DHCPOption) : bytes :=
  match find_first (λ o, has_type LinkSelectionSubOption o && (len (opt_Data o) =? 4)) options with
  | Some opt => opt_Data opt
  | None => []
  end.

Definition CreatePolicyTagSubOption (tag : bytes) : DHCPOption :=
  if (len tag =? 0) || (DHCPv4MaxSubOptionSize <? len tag) then zero_option
  else mkOption PolicyTagSubOption (u8 (len tag)) tag.

(** [[]] is nil. *)
Definition ExtractPolicyTagSubOptionData (options : list DHCPOption) : bytes :=
  match find_first (has_type PolicyTagSubOption) options with
  | Some opt => opt_Data opt
  | None => []
  end.

(** ** Well formed sub-options *)

(** A sub-option whose length byte is the length of its data. *)
Definition wf_sub (s : DHCPOption) : Prop := opt_Length s = len (opt_Data s).

(** The bytes of one packed sub-option, and of a list. *)
Definition sub_bytes (s : DHCPOption) : bytes := opt_Type s :: opt_Length s :: opt_Data s.
Definition subs_bytes (ss : list DHCPOption) : bytes := concat (map sub_bytes ss).

Lemma subs_bytes_app l k : subs_bytes (l ++ k) = subs_bytes l ++ subs_bytes k.
Proof. unfold subs_bytes. by rewrite map_app, concat_app. Qed.

Lemma subs_bytes_cons s k : subs_bytes (s :: k) = sub_bytes s ++ subs_bytes k.
Proof. done. Qed.

Lemma len_sub_bytes s : len (sub_bytes s) = 2 + len (opt_Data s).
Proof. simpl. lia. Qed.

Lemma len_subs_nil : len (subs_bytes []) = 0.
Proof. done. Qed.

Lemma len_subs_cons s k : len (subs_bytes (s :: k)) = 2 + len (opt_Data s) + len (subs_bytes k).
Proof. rewrite subs_bytes_cons, length_app, Nat2Z.inj_add, len_sub_bytes. lia. Qed.

(** ** Lemmas: encoding *)

Lemma encode_subs_ok data ss :
  Forall (λ s, opt_Length s ≠ 0) ss → encode_subs data ss = Some (data ++ subs_bytes ss).
Proof.
  intros H. revert data. induction H as [|s ss Hs _ IH]; intros data; simpl.
  { by rewrite app_nil_r. }
  rewrite (proj2 (Z.eqb_neq _ _) Hs), IH, subs_bytes_cons, <- app_assoc. done.
Qed.

Lemma encode_subs_zero data ss :
  ¬ Forall (λ s, opt_Length s ≠ 0) ss → encode_subs data ss = None.
Proof.
  revert data. induction ss as [|s ss IH]; intros data H; simpl; [by destruct H|].
  destruct (Z.eqb_spec (opt_Length s) 0); [done|]. apply IH. intros H'. apply H. by constructor.
Qed.

Lemma Encode_ok `{GopacketLaws} ss :
  Forall (λ s, opt_Length s ≠ 0) ss → len (subs_bytes ss) ≤ 255 →
  EncodeRelayAgentInformationOption ss =
    mkOption RelayAgentInformation (len (subs_bytes ss)) (subs_bytes ss).
Proof.
  intros Hz Hl. unfold EncodeRelayAgentInformationOption. rewrite encode_subs_ok by done.
  change DHCPv4MaxOptionSize with 255. rewrite app_nil_l, (proj2 (Z.ltb_ge _ _) Hl).
  rewrite NewDHCPOption_spec, u8_small by lia. done.
Qed.

Lemma Encode_oversize `{Gopacket} ss :
  Forall (λ s, opt_Length s ≠ 0) ss → 255 < len (subs_bytes ss) →
  EncodeRelayAgentInformationOption ss = zero_option.
Proof.
  intros Hz Hl. unfold EncodeRelayAgentInformationOption. rewrite encode_subs_ok by done.
  change DHCPv4MaxOptionSize with 255. by rewrite app_nil_l, (proj2 (Z.ltb_lt _ _) Hl).
Qed.

Lemma Encode_zero_sub `{Gopacket} ss :
  ¬ Forall (λ s, opt_Length s ≠ 0) ss → EncodeRelayAgentInformationOption ss = zero_option.
Proof. intros H'. unfold EncodeRelayAgentInformationOption. by rewrite encode_subs_zero. Qed.

(** ** Lemmas: decoding *)

(** One round of the loop on a well formed prefix. *)
Lemma decode_subs_step fuel acc s data :
  wf_sub s →
  decode_subs (S fuel) acc (sub_bytes s ++ data) = decode_subs fuel (acc ++ [s]) data.
Proof.
  intros Hs. unfold wf_sub in Hs. cbn [decode_subs].
  assert (Hlen : len (sub_bytes s ++ data) = 2 + opt_Length s + len data).
  { rewrite length_app, Nat2Z.inj_add, len_sub_bytes. lia. }
  rewrite Hlen. change (headerSize) with 2.
  replace (IP.byte_at (sub_bytes s ++ data) (Z.to_nat DHCPv4OptionTypeSize)) with (opt_Length s)
    by done.
  rewrite (proj2 (Z.eqb_neq _ _)) by lia. rewrite !(proj2 (Z.ltb_ge _ _)) by lia.
  f_equal.
  - f_equal. f_equal. destruct s as [t n d]; simpl in *. f_equal.
    rewrite drop_0, Hs, Nat2Z.id, take_app_length. done.
  - replace (Z.to_nat (2 + opt_Length s)) with (length (sub_bytes s)); [apply drop_app_length|].
    pose proof (len_sub_bytes s). lia.
Qed.

Lemma decode_subs_encoded fuel acc ss :
  Forall wf_sub ss → (length ss < fuel)%nat →
  decode_subs fuel acc (subs_bytes ss) = acc ++ ss.
Proof.
  intros H. revert fuel acc. induction H as [|s ss Hs _ IH]; intros [|fuel] acc Hf; simpl in Hf; try lia.
  { simpl. by rewrite app_nil_r. }
  rewrite subs_bytes_cons, decode_subs_step by done. rewrite IH by lia. by rewrite <- app_assoc.
Qed.

Lemma subs_bytes_length ss : (length ss ≤ length (subs_bytes ss))%nat.
Proof.
  induction ss as [|s ss IH]; [simpl; lia|]. rewrite subs_bytes_cons, length_app. simpl. lia.
Qed.

Lemma Decode_subs_bytes t n ss :
  Forall wf_sub ss → DecodeRelayAgentInformationOption (mkOption t n (subs_bytes ss)) = ss.
Proof.
  intros H. unfold DecodeRelayAgentInformationOption. simpl opt_Data.
  apply (decode_subs_encoded _ []); [done|]. pose proof (subs_bytes_length ss). lia.
Qed.

(** The loop only returns what it accumulated or a full parse of the rest. *)
Lemma decode_subs_sound fuel acc data :
  wf_bytes data → (length data < fuel)%nat →
  decode_subs fuel acc data = [] ∨
  ∃ ss, decode_subs fuel acc data = acc ++ ss ∧ subs_bytes ss = data ∧ Forall wf_sub ss.
Proof.
  revert acc data. induction fuel as [|fuel IH]; intros acc data Hwf Hf; [lia|]. cbn [decode_subs].
  change headerSize with 2. destruct (Z.eqb_spec (len data) 0) as [E|E].
  { right. exists []. apply len_zero in E as ->. by rewrite app_nil_r. }
  destruct (Z.ltb_spec (len data) 2); [by left|].
  destruct data as [|t [|n rest]]; [done|simpl in *; lia|].
  apply Forall_cons in Hwf as [Ht Hwf]. apply Forall_cons in Hwf as [Hn Hrest].
  change (IP.byte_at (t :: n :: rest) (Z.to_nat DHCPv4OptionTypeSize)) with n.
  change (IP.byte_at (t :: n :: rest) 0) with t. unfold is_byte in Hn.
  destruct (Z.ltb_spec (len (t :: n :: rest)) (2 + n)) as [|Hn']; [by left|].
  cbn [length] in Hn'. replace (Z.to_nat (2 + n)) with (S (S (Z.to_nat n))) by lia.
  change (drop (Z.to_nat 2) (t :: n :: rest)) with rest. cbn [drop].
  set (s := mkOption t n (take (Z.to_nat n) rest)).
  assert (Hs : wf_sub s). { unfold wf_sub. simpl. rewrite length_take. lia. }
  destruct (IH (acc ++ [s]) (drop (Z.to_nat n) rest)) as [H0|(ss & Hd & Hb & Hall)].
  { by apply Forall_drop. }
  { rewrite length_drop. simpl in Hf. lia. }
  { by left. }
  right. exists (s :: ss). rewrite Hd, <- app_assoc, subs_bytes_cons, Hb. repeat split; [|by constructor].
  unfold sub_bytes. simpl. by rewrite take_drop.
Qed.

Lemma Decode_sound o :
  wf_bytes (opt_Data o) → DecodeRelayAgentInformationOption o ≠ [] →
  subs_bytes (DecodeRelayAgentInformationOption o) = opt_Data o ∧
  Forall wf_sub (DecodeRelayAgentInformationOption o).
Proof.
  intros Hwf Hne. unfold DecodeRelayAgentInformationOption in *.
  destruct (decode_subs_sound (S (length (opt_Data o))) [] (opt_Data o) Hwf ltac:(lia))
    as [H|(ss & H & Hb & Hall)]; [done|].
  by rewrite H, app_nil_l.
Qed.

(** ** Lemmas: sub-options *)

Lemma circuit_id_wf v : 0 ≤ v < 2 ^ 32 →
  wf_sub (CreateAgentCircuitIDSubOption v) ∧
  1 ≤ opt_Length (CreateAgentCircuitIDSubOption v) ≤ MaxAgentCircuitIDSize.
Proof.
  intros Hv. unfold wf_sub, CreateAgentCircuitIDSubOption, MaxAgentCircuitIDSize. simpl.
  pose proof (strconv.FormatUint_length v 10 ltac:(lia) ltac:(lia)) as Hl.
  pose proof (strconv.FormatUint_nonempty v) as Hne.
  destruct (strconv.FormatUint v) eqn:E; [done|]. simpl length in *. rewrite u8_small by lia. lia.
Qed.

Lemma Extract_circuit_id v ss :
  0 ≤ v < 2 ^ 32 →
  ExtractAgentCircuitIDSubOptionData (CreateAgentCircuitIDSubOption v :: ss) = v.
Proof.
  intros Hv. unfold ExtractAgentCircuitIDSubOptionData. cbn [find_first].
  unfold CreateAgentCircuitIDSubOption at 1, has_type. simpl.
  by rewrite strconv.Atoi_FormatUint by lia.
Qed.

Lemma link_selection_wf subnet :
  IP.To4 subnet ≠ [] →
  CreateLinkSelectionSubOption subnet = mkOption LinkSelectionSubOption 4 (IP.To4 subnet) ∧
  wf_sub (CreateLinkSelectionSubOption subnet).
Proof.
  intros H. unfold CreateLinkSelectionSubOption. rewrite bool_decide_eq_false_2 by done.
  split; [done|]. unfold wf_sub. simpl. by rewrite IP.To4_length.
Qed.

Lemma policy_tag_wf tag :
  tag ≠ [] → len tag ≤ DHCPv4MaxSubOptionSize →
  CreatePolicyTagSubOption tag = mkOption PolicyTagSubOption (len tag) tag ∧
  wf_sub (CreatePolicyTagSubOption tag).
Proof.
  intros Hne Hl. unfold CreatePolicyTagSubOption. change DHCPv4MaxSubOptionSize with 253 in *.
  assert (len tag ≠ 0) by (by rewrite len_zero).
  rewrite (proj2 (Z.eqb_neq _ _)), (proj2 (Z.ltb_ge _ _)) by done. simpl.
  rewrite u8_small by lia. by split.
Qed.

Lemma policy_tag_zero tag :
  tag = [] ∨ DHCPv4MaxSubOptionSize < len tag → CreatePolicyTagSubOption tag = zero_option.
Proof.
  intros [->|H]; [done|]. unfold CreatePolicyTagSubOption.
  rewrite (proj2 (Z.ltb_lt _ _) H). by rewrite orb_true_r.
Qed.

Lemma wf_nonzero ss : Forall (λ s, wf_sub s ∧ opt_Data s ≠ []) ss →
  Forall wf_sub ss ∧ Forall (λ s, opt_Length s ≠ 0) ss.
Proof.
  intros H. split; (eapply Forall_impl; [exact H|]); simpl; intros s [Hs Hne]; [done|].
  unfold wf_sub in Hs. rewrite Hs. by rewrite len_zero.
Qed.

Lemma subs_bytes_nonempty ss : ss ≠ [] → subs_bytes ss ≠ [].
Proof. by destruct ss. Qed.

(** What the reply path reads after the request path has set Option 82. *)
Lemma Get_Set_relay_info `{GopacketLaws} m ss :
  Forall (λ s, wf_sub s ∧ opt_Data s ≠ []) ss → ss ≠ [] → len (subs_bytes ss) ≤ 255 →
  let m' := SetOption m (EncodeRelayAgentInformationOption ss) in
  IsOption (GetRelayAgentInformationOption m') = true ∧
  DecodeRelayAgentInformationOption (GetRelayAgentInformationOption m') = ss.
Proof.
  intros Hss Hne Hl. destruct (wf_nonzero ss Hss) as [Hwf Hnz]. cbv zeta.
  rewrite Encode_ok by done. unfold GetRelayAgentInformationOption.
  rewrite (GetOption_SetOption_eq m (mkOption RelayAgentInformation _ _)).
  assert (0 < len (subs_bytes ss)).
  { apply subs_bytes_nonempty in Hne. destruct (subs_bytes ss); [done|simpl; lia]. }
  assert (Hopt : IsOption (mkOption RelayAgentInformation (len (subs_bytes ss)) (subs_bytes ss)) = true)
    by (by apply Z.ltb_lt).
  rewrite Hopt. cbn [negb opt_Data opt_Length].
  rewrite (proj2 (Z.ltb_ge (len (subs_bytes ss)) 1)) by lia.
  rewrite bool_decide_eq_false_2 by (by apply subs_bytes_nonempty). cbn [orb].
  split; [exact Hopt|]. by apply Decode_subs_bytes.
Qed.

Lemma IsOption_Encode `{GopacketLaws} (ss : list DHCPOption) :
  IsOption (EncodeRelayAgentInformationOption ss) = true ↔
  ss ≠ [] ∧ Forall (λ s, opt_Length s ≠ 0) ss ∧ len (subs_bytes ss) ≤ DHCPv4MaxOptionSize.
Proof.
  change DHCPv4MaxOptionSize with 255.
  destruct (decide (Forall (λ s, opt_Length s ≠ 0) ss)) as [Hz|Hz].
  2: { rewrite Encode_zero_sub by done. simpl. split; [done|by intros (_ & ? & _)]. }
  destruct (decide (len (subs_bytes ss) ≤ 255)) as [Hl|Hl].
  2: { rewrite Encode_oversize by (done || lia). simpl. split; [done|by intros (_ & _ & ?)]. }
  rewrite Encode_ok by done. unfold IsOption. simpl opt_Length. rewrite Z.ltb_lt.
  destruct ss as [|s ss]; [split; [done|by intros (? & _)]|].
  rewrite subs_bytes_cons. simpl. split; [done|lia].
Qed.

Lemma circuit_and_tag_fit v tag :
  0 ≤ v < 2 ^ 32 → tag ≠ [] → len tag ≤ MaxPolicyTagSize →
  let ss := [CreateAgentCircuitIDSubOption v; CreatePolicyTagSubOption tag] in
  ss ≠ [] ∧ Forall (λ s, opt_Length s ≠ 0) ss ∧ len (subs_bytes ss) ≤ DHCPv4MaxOptionSize.
Proof.
  intros Hv Hne Hl. change MaxPolicyTagSize with 241 in Hl. cbv zeta.
  destruct (circuit_id_wf v Hv) as [Hw Hc]. change MaxAgentCircuitIDSize with 10 in Hc.
  destruct (policy_tag_wf tag Hne) as [E Ht]; [change DHCPv4MaxSubOptionSize with 253; lia|].
  unfold wf_sub in Hw, Ht. rewrite E in *. simpl in Ht.
  assert (len tag ≠ 0) by (by rewrite len_zero).
  split; [done|]. split; [do 2 (apply Forall_cons_2; [first [lia|simpl; lia]|]); done|].
  rewrite !len_subs_cons, len_subs_nil. cbn [opt_Data]. change DHCPv4MaxOptionSize with 255. lia.
Qed.

(** ** Properties *)

(** C20: decoding an encoded list of sub-options gives the list back, whenever each sub-option is non
    empty with a correct length byte and the whole fits the 255 bytes of an option. *)
Theorem opt82_roundtrip `{GopacketLaws} (ss : list DHCPOption) :
  Forall (λ s, wf_sub s ∧ opt_Data s ≠ []) ss → len (subs_bytes ss) ≤ DHCPv4MaxOptionSize →
  DecodeRelayAgentInformationOption (EncodeRelayAgentInformationOption ss) = ss.
Proof.
  intros Hss Hl. destruct (wf_nonzero ss Hss) as [Hwf Hnz].
  rewrite Encode_ok by done. by apply Decode_subs_bytes.
Qed.

Definition example_subs : list DHCPOption :=
  [CreateAgentCircuitIDSubOption 4294967295; CreateLinkSelectionSubOption [192; 168; 50; 0];
   CreatePolicyTagSubOption [1; 170; 187]].

Lemma opt82_roundtrip_witness :
  @DecodeRelayAgentInformationOption
    (@EncodeRelayAgentInformationOption TestPacket.test_gopacket example_subs) = example_subs.
Proof.
  apply (@opt82_roundtrip TestPacket.test_gopacket TestPacket.test_gopacket_laws).
  - repeat constructor; done.
  - vm_compute. done.
Defined.

(** decoding never trusts a partial parse: whatever list a byte string decodes to accounts for
    every byte of it, and each sub-option's data is exactly as long as its length byte says; a
    truncated or corrupt trailer therefore yields no sub-option at all. *)
Theorem opt82_decode_all_or_nothing (o : DHCPOption) :
  wf_bytes (opt_Data o) →
  DecodeRelayAgentInformationOption o = [] ∨
  (subs_bytes (DecodeRelayAgentInformationOption o) = opt_Data o ∧
   Forall wf_sub (DecodeRelayAgentInformationOption o)).
Proof.
  intros Hwf. destruct (decide (DecodeRelayAgentInformationOption o = [])); [by left|right].
  by apply Decode_sound.
Qed.

Lemma opt82_decode_all_or_nothing_witness :
  DecodeRelayAgentInformationOption (mkOption 82 7 [1; 1; 55; 224; 2; 9; 9]) =
    [mkOption 1 1 [55]; mkOption 224 2 [9; 9]] ∧
  subs_bytes (DecodeRelayAgentInformationOption (mkOption 82 7 [1; 1; 55; 224; 2; 9; 9])) =
    [1; 1; 55; 224; 2; 9; 9] ∧
  DecodeRelayAgentInformationOption (mkOption 82 8 [1; 1; 55; 224; 2; 9; 9; 1]) = [].
Proof.
  split; [reflexivity|]. split; [|reflexivity].
  destruct (opt82_decode_all_or_nothing (mkOption 82 7 [1; 1; 55; 224; 2; 9; 9])) as [H|[H _]].
  - repeat constructor; done.
  - discriminate H.
  - exact H.
Defined.

(** encoding fails, with the zero option, exactly when there is nothing to encode, a sub-option
    has length zero, or the packed size exceeds 255 bytes. *)
Theorem opt82_encode_accepts `{GopacketLaws} (ss : list DHCPOption) :
  IsOption (EncodeRelayAgentInformationOption ss) = true ↔
  ss ≠ [] ∧ Forall (λ s, opt_Length s ≠ 0) ss ∧ len (subs_bytes ss) ≤ DHCPv4MaxOptionSize.
Proof. apply IsOption_Encode. Qed.

(** the interface index survives the trip through Option 82: the circuit id the relay writes for
    any 32 bit interface index is read back as that index, whatever sub-options follow it, and its
    payload has at most ten bytes. *)
Theorem circuit_id_roundtrip (v : Z) (ss : list DHCPOption) :
  0 ≤ v < 2 ^ 32 →
  ExtractAgentCircuitIDSubOptionData (CreateAgentCircuitIDSubOption v :: ss) = v ∧
  wf_sub (CreateAgentCircuitIDSubOption v) ∧
  1 ≤ len (opt_Data (CreateAgentCircuitIDSubOption v)) ≤ MaxAgentCircuitIDSize.
Proof.
  intros Hv. destruct (circuit_id_wf v Hv) as [Hwf Hl]. rewrite <- Hwf.
  split; [by apply Extract_circuit_id|done].
Qed.

Lemma circuit_id_roundtrip_witness :
  ExtractAgentCircuitIDSubOptionData (CreateAgentCircuitIDSubOption 4294967295 :: []) = 4294967295.
Proof. apply (circuit_id_roundtrip 4294967295 []). lia. Defined.

(** [MaxPolicyTagSize] is exactly the bound it is documented to be: a non empty tag up to it fits
    Option 82 beside the circuit id of every 32 bit interface index, and a longer tag does not fit
    beside the widest one. *)
Theorem policy_tag_bound `{GopacketLaws} (tag : bytes) :
  tag ≠ [] →
  (len tag ≤ MaxPolicyTagSize ↔
   ∀ v, 0 ≤ v < 2 ^ 32 →
     IsOption (EncodeRelayAgentInformationOption
       [CreateAgentCircuitIDSubOption v; CreatePolicyTagSubOption tag]) = true).
Proof.
  intros Hne. change MaxPolicyTagSize with 241. split.
  - intros Hl v Hv. apply IsOption_Encode. by apply circuit_and_tag_fit.
  - intros H'. specialize (H' 4294967295 ltac:(lia)). apply IsOption_Encode in H' as (_ & Hz & Hl).
    apply Forall_cons in Hz as [_ Hz]. apply Forall_cons in Hz as [Hz _].
    destruct (decide (len tag ≤ DHCPv4MaxSubOptionSize)) as [Ht|Ht].
    2: { by rewrite policy_tag_zero in Hz by (right; lia). }
    destruct (policy_tag_wf tag Hne Ht) as [E _]. rewrite E in Hl.
    rewrite !subs_bytes_cons, !length_app in Hl. simpl in Hl.
    change DHCPv4MaxOptionSize with 255 in Hl. lia.
Qed.

Lemma policy_tag_bound_witness :
  IsOption (@EncodeRelayAgentInformationOption TestPacket.test_gopacket
    [CreateAgentCircuitIDSubOption 4294967295; CreatePolicyTagSubOption (replicate 241 7)]) = true ∧
  IsOption (@EncodeRelayAgentInformationOption TestPacket.test_gopacket
    [CreateAgentCircuitIDSubOption 4294967295; CreatePolicyTagSubOption (replicate 242 7)]) = false.
Proof.
  split; [|vm_compute; reflexivity].
  apply (@policy_tag_bound TestPacket.test_gopacket TestPacket.test_gopacket_laws (replicate 241 7)).
  - discriminate.
  - vm_compute. discriminate.
  - lia.
Defined.
