(* ===== verification/OptionsHeap.v ===== *)
(** * The option list in memory: [pkg/gpckt/dhcp/options.go] over shared arrays.

    [DhcpOptions] models the options of a message as a list.  In the program they are a slice, and
    [DeleteSplitOptions], [DeleteOption] and [SetOption] change its array in place: they shift elements,
    clear the tail and append within the capacity.  Here they are translated over Go slices and shown
    to compute those list functions, without a panic and without touching another message.  Likewise
    for the parser of option 82, whose results must not share the packet's memory. *)

From S2P Require Import Prelude GoStrings GoNet Specs Layers GoSlices DhcpOptions Option82.

(** ** options.go *)

(** The second loop of [DeleteSplitOptions] and the result. *)
Fixpoint compact_go (counts : gmap Z Z) (n j i : nat) (options : slice) : go DHCPOption nat :=
  match n with
  | O => mret i
  | S n =>
      option ← index options j;
      if opt_Type option =? DHCPOptEnd then assign options i option ;; mret (S i)
      else if (opt_Type option =? DHCPOptPad) || negb (default 0 (counts !! opt_Type option) =? 1)
      then compact_go counts n (S j) i options
      else assign options i option ;; compact_go counts n (S j) (S i) options
  end.

Definition DeleteSplitOptions_go (options : slice) : go DHCPOption slice :=
  counts ← range options (s_len options) 0 count_option ∅;
  i ← compact_go counts (s_len options) 0 0 options;
  reslice options 0 i.

(** [slices.IndexFunc] and [slices.DeleteFunc]. *)
Fixpoint index_func (del : DHCPOption → bool) (n j : nat) (s : slice) : go DHCPOption (option nat) :=
  match n with
  | O => mret None
  | S n => v ← index s j; if del v then mret (Some j) else index_func del n (S j) s
  end.

Fixpoint shift_kept (del : DHCPOption → bool) (n j i : nat) (s : slice) : go DHCPOption nat :=
  match n with
  | O => mret i
  | S n =>
      v ← index s j;
      if negb (del v) then assign s i v ;; shift_kept del n (S j) (S i) s
      else shift_kept del n (S j) i s
  end.

Definition DeleteFunc (del : DHCPOption → bool) (s : slice) : go DHCPOption slice :=
  found ← index_func del (s_len s) 0 s;
  match found with
  | None => mret s
  | Some i =>
      i ← shift_kept del (s_len s - S i) (S i) i s;
      obsolete ← reslice s i (s_len s);
      clear zero_option obsolete ;;
      reslice s 0 i
  end.

(** [slices.SortFunc] by option type, in place. *)
Definition SortFunc (s : slice) : go DHCPOption unit := λ h,
  Some (with_contents h s (sort_by_type (contents h s)), ()).

(** A message: its fields, and its options as a slice. *)
Record message := mkMessage { m_layer : DHCPv4; m_options : slice }.

Definition set_options (s : slice) (m : message) : message := mkMessage (m_layer m) s.

(** The message as the list model has it. *)
Definition view (h : heap DHCPOption) (m : message) : DHCPv4 := set_Options (contents h (m_options m)) (m_layer m).

(** The statement of [handlePacket] that drops split options. *)
Definition unsplit_go (m : message) : go DHCPOption message :=
  s ← DeleteSplitOptions_go (m_options m); mret (set_options s m).

Definition DeleteOption_go (m : message) (optionType : Z) : go DHCPOption message :=
  s ← DeleteFunc (has_type optionType) (m_options m); mret (set_options s m).

Definition SetOption_go (spare : list DHCPOption) (m : message) (newOption : DHCPOption) :
    go DHCPOption message :=
  s ← DeleteFunc (has_type (opt_Type newOption)) (m_options m);
  s ← append spare s [newOption];
  SortFunc s ;;
  mret (set_options s m).

Definition GetOption_go (m : message) (optionType : Z) : go DHCPOption DHCPOption :=
  found ← index_func (has_type optionType) (s_len (m_options m)) 0 (m_options m);
  match found with
  | Some i => index (m_options m) i
  | None => mret zero_option
  end.

Section message_type.
Context `{Gopacket} `{UnicodeTables}.

Definition GetMessageType_go (m : message) : go DHCPOption bytes :=
  opt53 ← GetOption_go m DHCPOptMessageType;
  if negb (IsOption opt53) || bool_decide (opt_Data opt53 = []) || negb (opt_Length opt53 =? 1)
  then mret []
  else
    match opt_Data opt53 !! 0%nat with
    | None => panic
    | Some val => mret (if known_message_type val then strings.ToUpper (DHCPMsgType_String val) else [])
    end.
End message_type.

(** ** opt82.go *)

Record sub_option := mkSub { sub_Type : Z; sub_Length : Z; sub_Data : slice }.

Definition view_sub (h : heap Z) (o : sub_option) : DHCPOption :=
  mkOption (sub_Type o) (sub_Length o) (contents h (sub_Data o)).

Definition nil_slice : slice := mkSlice 0 0 0 0.

(** [append([]byte(nil), s...)]. *)
Definition clone (spare : bytes) (s : slice) : go Z slice := λ h,
  match contents h s with
  | [] => Some (h, nil_slice)
  | l => allocate spare l h
  end.

Fixpoint decode_go (spare : bytes) (fuel : nat) (subOptions : list sub_option) (data : slice) :
    go Z (list sub_option) :=
  match fuel with
  | O => mret subOptions
  | S fuel =>
      if Z.of_nat (s_len data) =? 0 then mret subOptions
      else if Z.of_nat (s_len data) <? headerSize then mret []
      else
        length ← index data (Z.to_nat DHCPv4OptionTypeSize);
        if Z.of_nat (s_len data) <? headerSize + length then mret []
        else
          type ← index data 0;
          size ← index data (Z.to_nat DHCPv4OptionTypeSize);
          body ← reslice data (Z.to_nat headerSize) (Z.to_nat (headerSize + length));
          copied ← clone spare body;
          data ← reslice data (Z.to_nat (headerSize + length)) (s_len data);
          decode_go spare fuel (subOptions ++ [mkSub type size copied]) data
  end.

Definition DecodeRelayAgentInformationOption_go (spare : bytes) (data : slice) : go Z (list sub_option) :=
  decode_go spare (S (s_len data)) [] data.

(** ** Lemmas: the loops *)

Lemma go_bind_Some {A B C} (m : go A B) (k : B → go A C) h h' b : m h = Some (h', b) → (m ≫= k) h = k b h'.
Proof. intros E. unfold mbind, go_bind. by rewrite E. Qed.

Lemma compact_length counts n j i (l : list DHCPOption) :
  length (compact counts n j i l).1 = length l.
Proof.
  revert j i l. induction n as [|n IH]; intros j i l; cbn; [done|]. destruct (l !! j); [|done].
  destruct (_ =? _); [cbn; by rewrite length_insert|]. destruct (_ || _); rewrite IH, ?length_insert; done.
Qed.

Lemma compact_index counts n j i (l : list DHCPOption) :
  (i <= j)%nat → (j + n = length l)%nat → ((compact counts n j i l).2 <= length l)%nat.
Proof.
  revert j i l. induction n as [|n IH]; intros j i l Hi Hj; cbn; [lia|].
  destruct (l !! j) eqn:E; [|cbn; lia]. apply lookup_lt_Some in E.
  destruct (_ =? _); [cbn; lia|]. destruct (_ || _); [|rewrite <- (length_insert l i d)]; apply IH; rewrite ?length_insert; lia.
Qed.

(** The loop on the array is the loop on the list. *)
Lemma compact_go_ok counts n j i h s :
  slice_ok h s → (i <= j)%nat → (j + n = s_len s)%nat →
  compact_go counts n j i s h =
    let '(l, i') := compact counts n j i (contents h s) in Some (with_contents h s l, i').
Proof.
  revert j i h. induction n as [|n IH]; intros j i h Hs Hi Hj; cbn [compact_go compact].
  { by rewrite with_contents_same. }
  destruct (index_ok h s j Hs) as (o & Ho & Ei); [lia|]. rewrite (go_bind_Some _ _ _ _ _ Ei), Ho.
  pose proof (contents_length h s Hs) as Hlen.
  assert (Hst : ∀ x, length (<[i := x]> (contents h s)) = s_len s) by (intros x; by rewrite length_insert).
  destruct (_ =? _); [erewrite go_bind_Some by (apply assign_ok; lia); done|].
  destruct (_ || _); [by apply IH; [|lia..]|].
  erewrite go_bind_Some by (apply assign_ok; lia). rewrite IH; [|by apply slice_ok_with|lia..].
  rewrite contents_with by done. destruct (compact _ _ _ _ _) as [l i']. by rewrite with_contents_twice.
Qed.

Lemma DeleteSplitOptions_go_ok h s :
  slice_ok h s →
  ∃ l i, DeleteSplitOptions_go s h = Some (with_contents h s l, prefix s i) ∧
    length l = s_len s ∧ (i <= s_len s)%nat ∧ take i l = DeleteSplitOptions (contents h s).
Proof.
  intros Hs. pose proof (contents_length h s Hs) as Hlen. unfold DeleteSplitOptions_go, DeleteSplitOptions, optionCount.
  erewrite go_bind_Some by (apply range_ok; [done|lia]). rewrite drop_0.
  set (counts := foldl count_option ∅ (contents h s)).
  pose proof (compact_go_ok counts (s_len s) 0 0 h s Hs) as Hc. specialize (Hc ltac:(lia) ltac:(lia)).
  pose proof (compact_length counts (s_len s) 0 0 (contents h s)) as Hl.
  pose proof (compact_index counts (s_len s) 0 0 (contents h s)) as Hi. rewrite Hlen in *.
  destruct (compact counts (s_len s) 0 0 (contents h s)) as [l i]. cbn in *. specialize (Hi ltac:(lia) ltac:(lia)).
  exists l, i. erewrite go_bind_Some by exact Hc. rewrite reslice_prefix; [done|]. destruct Hs. lia.
Qed.

Lemma filter_none (del : DHCPOption → bool) l :
  Forall (λ o, del o = false) l → List.filter (λ o, negb (del o)) l = l.
Proof. induction 1 as [|o l Ho _ IH]; [done|]. cbn. by rewrite Ho, IH. Qed.

(** [index_func] finds the first element, without writing. *)
Lemma index_func_ok del n j h s :
  slice_ok h s → (j + n = s_len s)%nat →
  ∃ r, index_func del n j s h = Some (h, r) ∧
    match r with
    | None => Forall (λ o, del o = false) (drop j (contents h s))
    | Some i => (j <= i < s_len s)%nat ∧ ∃ o, contents h s !! i = Some o ∧ del o = true ∧
        Forall (λ o, del o = false) (take (i - j) (drop j (contents h s)))
    end.
Proof.
  revert j. induction n as [|n IH]; intros j Hs Hj; cbn [index_func].
  { exists None. split; [done|]. rewrite drop_ge; [constructor|]. rewrite contents_length by done. lia. }
  destruct (index_ok h s j Hs) as (o & Ho & Ei); [lia|]. rewrite (go_bind_Some _ _ _ _ _ Ei).
  destruct (del o) eqn:Ed.
  - exists (Some j). split; [done|]. split; [lia|]. exists o. by rewrite Nat.sub_diag.
  - destruct (IH (S j) Hs) as (r & Er & Hr); [lia|]. exists r. split; [done|].
    rewrite (drop_S _ _ _ Ho). destruct r as [i|]; [|by constructor].
    destruct Hr as (Hi & o' & ? & ? & Hf). split; [lia|]. exists o'.
    replace (i - j)%nat with (S (i - S j)) by lia. by repeat constructor.
Qed.

Lemma shift_kept_ok del n j i h s :
  slice_ok h s → (i <= j)%nat → (j + n = s_len s)%nat →
  ∃ l i', shift_kept del n j i s h = Some (with_contents h s l, i') ∧ length l = s_len s ∧ (i' <= s_len s)%nat ∧
    take i' l = take i (contents h s) ++ List.filter (λ o, negb (del o)) (drop j (contents h s)).
Proof.
  revert j i h. induction n as [|n IH]; intros j i h Hs Hi Hj; cbn [shift_kept];
    pose proof (contents_length h s Hs) as Hlen.
  { exists (contents h s), i. rewrite with_contents_same, drop_ge, app_nil_r by (done || lia). repeat (split; [done || lia|]). done. }
  destruct (index_ok h s j Hs) as (o & Ho & Ei); [lia|]. rewrite (go_bind_Some _ _ _ _ _ Ei), (drop_S _ _ _ Ho).
  cbn [List.filter]. destruct (negb (del o)); [|by apply IH; [|lia..]].
  assert (Hst : length (<[i := o]> (contents h s)) = s_len s) by by rewrite length_insert.
  erewrite go_bind_Some by (apply assign_ok; lia).
  destruct (IH (S j) (S i) (with_contents h s (<[i := o]> (contents h s)))) as (l & i' & E & Hl & Hi' & Ht);
    [by apply slice_ok_with|lia..|].
  rewrite with_contents_twice, contents_with in * by done. exists l, i'. repeat (split; [done|]). rewrite Ht.
  rewrite drop_insert_lt by lia. rewrite (take_S_r _ _ o) by (apply list_lookup_insert_eq; lia).
  by rewrite take_insert_ge, <- app_assoc by lia.
Qed.

Lemma DeleteFunc_ok del h s :
  slice_ok h s →
  ∃ l n, DeleteFunc del s h = Some (with_contents h s l, prefix s n) ∧ length l = s_len s ∧ (n <= s_len s)%nat ∧
    take n l = List.filter (λ o, negb (del o)) (contents h s).
Proof.
  intros Hs. pose proof (contents_length h s Hs) as Hlen. unfold DeleteFunc.
  destruct (index_func_ok del (s_len s) 0 h s Hs) as (r & Er & Hr); [lia|].
  rewrite (go_bind_Some _ _ _ _ _ Er). rewrite drop_0 in Hr. destruct r as [i|].
  - destruct Hr as (Hi & o & Ho & Hd & Hf). rewrite Nat.sub_0_r in Hf.
    destruct (shift_kept_ok del (s_len s - S i) (S i) i h s Hs) as (l & i' & E & Hl & Hi' & Ht); [lia..|].
    rewrite (go_bind_Some _ _ _ _ _ E). assert (Hs' : slice_ok (with_contents h s l) s) by by apply slice_ok_with.
    erewrite go_bind_Some by by apply reslice_suffix. erewrite go_bind_Some by by apply clear_suffix.
    rewrite contents_with, with_contents_twice, reslice_prefix by (done || destruct Hs; lia).
    eexists _, i'. split; [done|]. rewrite length_app, length_replicate, length_take. split; [lia|]. split; [lia|].
    rewrite take_app_length' by (rewrite length_take; lia). rewrite Ht.
    rewrite <- (take_drop i (contents h s)) at 3. rewrite List.filter_app, (drop_S _ _ _ Ho). cbn. rewrite Hd. cbn.
    by rewrite (filter_none _ (take i _)) by done.
  - exists (contents h s), (s_len s). rewrite with_contents_same by done. split; [by destruct s|].
    split; [done|]. split; [done|]. rewrite take_ge by lia. by rewrite filter_none.
Qed.

(** ** Lemmas: operations on a message *)

(** An operation of one message, as the packet path uses them; reading is one. *)
Inductive option_op :=
| OpUnsplit
| OpDelete (optionType : Z)
| OpSet (newOption : DHCPOption)
| OpGet (optionType : Z).

(** What it does to the list, and what it does to the array. *)
Definition apply_op (m : DHCPv4) (op : option_op) : DHCPv4 :=
  match op with
  | OpUnsplit => set_Options (DeleteSplitOptions (Options m)) m
  | OpDelete t => DeleteOption m t
  | OpSet o => SetOption m o
  | OpGet _ => m
  end.

Definition run_op (spare : list DHCPOption) (op : option_op) (m : message) : go DHCPOption message :=
  match op with
  | OpUnsplit => unsplit_go m
  | OpDelete t => DeleteOption_go m t
  | OpSet o => SetOption_go spare m o
  | OpGet t => _ ← GetOption_go m t; mret m
  end.

(** [m'] in [h'] is what became of [m] in [h]: it has the options [l], its array is that of [m] or a new
    one, and no other array changed. *)
Record becomes (h : heap DHCPOption) (m : message) (h' : heap DHCPOption) (m' : message) (l : list DHCPOption) : Prop := {
  bec_layer : m_layer m' = m_layer m;
  bec_ok : slice_ok h' (m_options m');
  bec_contents : contents h' (m_options m') = l;
  bec_array : s_arr (m_options m') = s_arr (m_options m) ∨ s_arr (m_options m') ∉ dom h;
  bec_dom : dom h ⊆ dom h';
  bec_frame a : a ∈ dom h → a ≠ s_arr (m_options m) → h' !! a = h !! a
}.

(** A prefix of the slice after a change in place. *)
Lemma becomes_prefix h m l n :
  slice_ok h (m_options m) → length l = s_len (m_options m) → (n <= s_len (m_options m))%nat →
  becomes h m (with_contents h (m_options m) l) (set_options (prefix (m_options m) n) m) (take n l).
Proof.
  intros Hs Hl Hn. split; cbn; [done| | |by left|..].
  - apply prefix_ok; [by apply slice_ok_with|done].
  - by rewrite contents_prefix, contents_with.
  - unfold with_contents. by rewrite dom_alter_L.
  - intros a _ Ha. unfold with_contents. by rewrite lookup_alter_ne.
Qed.

Lemma SetOption_go_ok spare h m o :
  slice_ok h (m_options m) →
  ∃ h' m', SetOption_go spare m o h = Some (h', m') ∧
    becomes h m h' m' (sort_by_type (delete_type (opt_Type o) (contents h (m_options m)) ++ [o])).
Proof.
  intros Hs. destruct (DeleteFunc_ok (has_type (opt_Type o)) h (m_options m) Hs) as (l & n & E & Hl & Hn & Ht).
  unfold SetOption_go. rewrite (go_bind_Some _ _ _ _ _ E).
  destruct (becomes_prefix h m l n Hs Hl Hn) as [_ Hs1 Hc1 _ Hd1 Hf1]. cbn in *. rewrite Ht in Hc1.
  destruct (append_ok spare _ _ [o] Hs1) as (h2 & s2 & E2 & Hs2 & Hc2 & Ha2 & Hd2 & Hf2).
  rewrite (go_bind_Some _ _ _ _ _ E2). cbn. rewrite Hc1 in Hc2. eexists _, _. split; [done|].
  assert (Hsort : length (sort_by_type (contents h2 s2)) = s_len s2).
  { rewrite <- (contents_length h2 s2 Hs2). apply Permutation_length. apply sort_by_type_perm. }
  assert (s_arr s2 = s_arr (m_options m) ∨ s_arr s2 ∉ dom h) as Ha.
  { destruct Ha2 as [?|Ha2]; [by left|right]. set_solver. }
  split; cbn; [done|by apply slice_ok_with| |done|..].
  - rewrite contents_with by done. by rewrite Hc2.
  - unfold with_contents. rewrite dom_alter_L. set_solver.
  - intros a Hin Hne. unfold with_contents. rewrite lookup_alter_ne; [|by destruct Ha as [->|Ha]; set_solver].
    rewrite Hf2 by (done || set_solver). by apply Hf1.
Qed.

Lemma GetOption_go_ok h m t :
  slice_ok h (m_options m) → GetOption_go m t h = Some (h, GetOption (view h m) t).
Proof.
  intros Hs. unfold GetOption_go. destruct (index_func_ok (has_type t) (s_len (m_options m)) 0 h (m_options m) Hs)
    as (r & Er & Hr); [lia|]. rewrite (go_bind_Some _ _ _ _ _ Er). rewrite drop_0 in Hr.
  unfold GetOption. cbn. destruct r as [i|].
  - destruct Hr as (Hi & o & Ho & Ht & Hf). rewrite Nat.sub_0_r in Hf.
    destruct (index_ok h (m_options m) i Hs) as (x & Hx & ->); [lia|]. rewrite Ho in Hx. injection Hx as <-.
    rewrite <- (take_drop_middle _ _ _ Ho), find_first_app, (proj2 (find_first_None _ _)); [cbn; by rewrite Ht|].
    intros x Hx. rewrite Forall_forall in Hf. by apply Hf.
  - rewrite (proj2 (find_first_None _ _)); [done|]. intros x Hx. rewrite Forall_forall in Hr. by apply Hr.
Qed.

(** Every operation computes the list function in place. *)
Lemma run_op_ok spare op h m :
  slice_ok h (m_options m) →
  ∃ h' m', run_op spare op m h = Some (h', m') ∧ becomes h m h' m' (Options (apply_op (view h m) op)).
Proof.
  intros Hs. destruct op as [|t|o|t]; cbn.
  - destruct (DeleteSplitOptions_go_ok h (m_options m) Hs) as (l & i & E & Hl & Hi & <-).
    unfold unsplit_go. rewrite (go_bind_Some _ _ _ _ _ E). eexists _, _. split; [done|]. by apply becomes_prefix.
  - destruct (DeleteFunc_ok (has_type t) h (m_options m) Hs) as (l & n & E & Hl & Hn & Ht).
    unfold DeleteOption_go. rewrite (go_bind_Some _ _ _ _ _ E). eexists _, _. split; [done|].
    unfold delete_type. rewrite <- Ht. by apply becomes_prefix.
  - by apply SetOption_go_ok.
  - erewrite go_bind_Some by by apply GetOption_go_ok. exists h, m. split; [done|]. by split; [..|left| |].
Qed.

Lemma becomes_view h m h' m' op :
  becomes h m h' m' (Options (apply_op (view h m) op)) → view h' m' = apply_op (view h m) op.
Proof. intros [El _ Ec _ _ _]. unfold view at 1. rewrite El, Ec. by destruct op. Qed.

(** Messages in arrays of their own. *)
Record separate (h : heap DHCPOption) (ms : list message) : Prop := {
  sep_ok : Forall (λ m, slice_ok h (m_options m)) ms;
  sep_arrays : NoDup ((λ m, s_arr (m_options m)) <$> ms)
}.

Lemma separate_ne h ms j k mj mk :
  separate h ms → ms !! j = Some mj → ms !! k = Some mk → j ≠ k → s_arr (m_options mj) ≠ s_arr (m_options mk).
Proof.
  intros [_ Hd] Hj Hk Hne Ea. apply Hne. eapply NoDup_lookup; [exact Hd|..].
  - by erewrite list_lookup_fmap, Hj.
  - erewrite list_lookup_fmap, Hk. cbn. by rewrite Ea.
Qed.

Lemma slice_in_dom {A} (h : heap A) s : slice_ok h s → s_arr s ∈ dom h.
Proof. intros [_ (arr & E & _)]. by eapply elem_of_dom_2. Qed.

(** A slice of an array that did not change. *)
Lemma slice_unchanged {A} (h h' : heap A) s :
  h' !! s_arr s = h !! s_arr s → slice_ok h s → slice_ok h' s ∧ contents h' s = contents h s.
Proof. intros E [Hl Hc]. split; [split; [done|by rewrite E]|]. unfold contents. by rewrite E. Qed.

(** An operation of one message keeps them separate and leaves the others as they are. *)
Lemma becomes_separate h ms k m h' m' l :
  separate h ms → ms !! k = Some m → becomes h m h' m' l →
  separate h' (<[k := m']> ms) ∧ ∀ j mj, j ≠ k → ms !! j = Some mj → view h' mj = view h mj.
Proof.
  intros Hsep Hk [El Hok Ec Ha Hd Hf]. pose proof Hsep as [Hs Hn]. rewrite Forall_lookup in Hs.
  assert (Hother : ∀ j mj, j ≠ k → ms !! j = Some mj → slice_ok h' (m_options mj) ∧
    contents h' (m_options mj) = contents h (m_options mj)).
  { intros j mj Hne Hj. apply slice_unchanged; [|by eapply Hs]. apply Hf; [by eapply slice_in_dom, Hs|].
    by eapply separate_ne. }
  split; [split|].
  - apply Forall_lookup. intros j mj [(-> & <- & _)|[Hne Hj]]%list_lookup_insert_Some; [done|].
    by eapply Hother; [|exact Hj].
  - apply NoDup_alt. intros i j a (mi & -> & Hi)%list_lookup_fmap_Some (mj & Ea & Hj)%list_lookup_fmap_Some.
    apply list_lookup_insert_Some in Hi as [(-> & <- & _)|[Hi1 Hi]], Hj as [(<- & <- & _)|[Hj1 Hj]]; [done|..].
    + exfalso. assert (s_arr (m_options mj) ∈ dom h) by (by eapply slice_in_dom, Hs).
      destruct Ha as [Ha|Ha]; [|apply Ha; congruence]. eapply separate_ne; [exact Hsep|exact Hk|exact Hj|done|congruence].
    + exfalso. assert (s_arr (m_options mi) ∈ dom h) by (by eapply slice_in_dom, Hs).
      destruct Ha as [Ha|Ha]; [|apply Ha; congruence]. eapply separate_ne; [exact Hsep|exact Hk|exact Hi|done|congruence].
    + destruct (decide (i = j)); [done|]. exfalso. eapply (separate_ne h ms i j); [exact Hsep|exact Hi|exact Hj|done|congruence].
  - intros j mj Hne Hj. unfold view. by destruct (Hother j mj Hne Hj) as [_ ->].
Qed.

(** ** Interleaved operations *)

(** An operation of message [who]; [room] is what the run time adds when it has to move the array. *)
Record access := { who : nat; what : option_op; room : list DHCPOption }.

Fixpoint run_ops (ops : list access) (ms : list message) : go DHCPOption (list message) :=
  match ops with
  | [] => mret ms
  | op :: ops =>
      match ms !! who op with
      | None => run_ops ops ms
      | Some m => m' ← run_op (room op) (what op) m; run_ops ops (<[who op := m']> ms)
      end
  end.

(** The operations of one message. *)
Definition ops_of (k : nat) (ops : list access) : list option_op :=
  map what (List.filter (λ op, who op =? k)%nat ops).

Lemma run_ops_ok ops h ms :
  separate h ms →
  ∃ h' ms', run_ops ops ms h = Some (h', ms') ∧ separate h' ms' ∧
    ∀ k m, ms !! k = Some m → ∃ m', ms' !! k = Some m' ∧ view h' m' = foldl apply_op (view h m) (ops_of k ops).
Proof.
  revert h ms. induction ops as [|[k0 op sp] ops IH]; intros h ms Hsep; cbn [run_ops who what room].
  { exists h, ms. split; [done|]. split; [done|]. intros k m Hk. by exists m. }
  destruct (ms !! k0) as [m0|] eqn:E0.
  - destruct (run_op_ok sp op h m0) as (h1 & m1 & E & Hb); [destruct Hsep as [Hs _]; rewrite Forall_lookup in Hs; by eapply Hs|].
    rewrite (go_bind_Some _ _ _ _ _ E). pose proof (becomes_view _ _ _ _ _ Hb) as Hv.
    destruct (becomes_separate _ _ _ _ _ _ _ Hsep E0 Hb) as [Hsep1 Hother].
    destruct (IH h1 _ Hsep1) as (h' & ms' & Er & Hsep' & Hall). exists h', ms'. split; [done|]. split; [done|].
    intros k m Hk. unfold ops_of. cbn. destruct (Nat.eqb_spec k0 k) as [->|Hne]; cbn.
    + rewrite E0 in Hk. injection Hk as <-. rewrite <- Hv. apply Hall, list_lookup_insert_eq. by eapply lookup_lt_Some.
    + rewrite <- (Hother k m) by done. apply Hall. by rewrite list_lookup_insert_ne.
  - destruct (IH h ms Hsep) as (h' & ms' & Er & Hsep' & Hall). exists h', ms'. repeat (split; [done|]).
    intros k m Hk. unfold ops_of. cbn. destruct (Nat.eqb_spec k0 k) as [->|Hne]; [congruence|]. by apply Hall.
Qed.

(** ** Lemmas: option 82 *)

(** A part of a slice. *)
Lemma reslice_ok {A} (h : heap A) s lo hi :
  slice_ok h s → (lo <= hi)%nat → (hi <= s_len s)%nat →
  ∃ s', reslice s lo hi h = Some (h, s') ∧ slice_ok h s' ∧ s_len s' = (hi - lo)%nat ∧
    contents h s' = take (hi - lo) (drop lo (contents h s)).
Proof.
  intros [Hl (arr & E & Hc)] Hlo Hhi. unfold reslice.
  destruct (Nat.leb_spec lo hi), (Nat.leb_spec hi (s_cap s)); try lia. cbn. eexists. split; [done|].
  split; [split; cbn; [lia|exists arr; split; [done|lia]]|]. split; [done|].
  unfold contents. cbn. rewrite E. cbn. rewrite skipn_firstn_comm, take_take, drop_drop. f_equal. lia.
Qed.

Lemma slice_kept {A} (h h' : heap A) s : h ⊆ h' → slice_ok h s → slice_ok h' s ∧ contents h' s = contents h s.
Proof.
  intros Hsub Hs. apply slice_unchanged; [|done]. destruct Hs as [_ (arr & E & _)]. rewrite E. by eapply lookup_weaken.
Qed.

(** A sub-option that shares no memory with the heap [h]. *)
Definition owned (h h' : heap Z) (o : sub_option) : Prop :=
  sub_Data o = nil_slice ∨ slice_ok h' (sub_Data o) ∧ s_arr (sub_Data o) ∉ dom h.

Lemma owned_kept h h' h'' o :
  h' ⊆ h'' → owned h h' o → owned h h'' o ∧ view_sub h'' o = view_sub h' o.
Proof.
  intros Hsub [En|[Hs Hn]]; unfold owned, view_sub.
  - rewrite En. split; [by left|done].
  - destruct (slice_kept h' h'' (sub_Data o) Hsub Hs) as [Hs' ->]. split; [by right|done].
Qed.

Lemma clone_ok spare (h : heap Z) s :
  ∃ h' s', clone spare s h = Some (h', s') ∧ h ⊆ h' ∧ contents h' s' = contents h s ∧
    (s' = nil_slice ∨ slice_ok h' s' ∧ s_arr s' ∉ dom h).
Proof.
  unfold clone. destruct (contents h s) as [|b l]; [by exists h, nil_slice; repeat split; [|left]|].
  unfold allocate. pose proof (is_fresh (dom h)) as Hf. eexists _, _. split; [done|].
  set (a := fresh (dom h)) in *. assert (Hn : h !! a = None) by by apply not_elem_of_dom.
  split; [by apply insert_subseteq|]. split.
  - unfold contents. cbn. rewrite lookup_insert_eq. cbn. by rewrite take_app_length.
  - right. split; [|done]. split; cbn; [lia|]. rewrite lookup_insert_eq. eexists. split; [done|].
    cbn. rewrite length_app. lia.
Qed.

Lemma byte_at_lookup (l : bytes) i x : l !! i = Some x → IP.byte_at l i = x.
Proof. intros E. unfold IP.byte_at. by rewrite E. Qed.

Lemma decode_go_ok spare h0 fuel acc data h :
  h0 ⊆ h → slice_ok h data → wf_bytes (contents h data) → Forall (owned h0 h) acc →
  ∃ h' subs, decode_go spare fuel acc data h = Some (h', subs) ∧ h ⊆ h' ∧ Forall (owned h0 h') subs ∧
    map (view_sub h') subs = decode_subs fuel (map (view_sub h) acc) (contents h data).
Proof.
  revert acc data h. induction fuel as [|fuel IH]; intros acc data h Hsub Hs Hb Hacc; cbn [decode_go decode_subs].
  { by exists h, acc. }
  pose proof (contents_length h data Hs) as Hlen. rewrite Hlen.
  destruct (_ =? _) eqn:E0; [by exists h, acc|]. destruct (_ <? headerSize) eqn:E1; [by exists h, []|].
  reflect_bools. unfold headerSize, DHCPv4OptionTypeSize, DHCPv4OptionLengthSize in *.
  destruct (index_ok h data 1 Hs) as (n & Hn & En); [lia|]. destruct (index_ok h data 0 Hs) as (t & Ht & Et); [lia|].
  change (Z.to_nat 1) with 1%nat. rewrite (go_bind_Some _ _ _ _ _ En), (byte_at_lookup _ _ _ Hn), (byte_at_lookup _ _ _ Ht).
  destruct (_ <? 1 + 1 + n) eqn:E2; [by exists h, []|]. reflect_bools.
  assert (0 ≤ n < 256) by (rewrite Forall_lookup in Hb; by apply (Hb 1%nat)).
  rewrite (go_bind_Some _ _ _ _ _ Et), (go_bind_Some _ _ _ _ _ En).
  destruct (reslice_ok h data (Z.to_nat (1 + 1)) (Z.to_nat (1 + 1 + n)) Hs) as (body & Eb & _ & _ & Cb); [lia..|].
  rewrite (go_bind_Some _ _ _ _ _ Eb). destruct (clone_ok spare h body) as (h1 & copied & Ec & Hsub1 & Cc & Hc).
  rewrite (go_bind_Some _ _ _ _ _ Ec). destruct (slice_kept h h1 data Hsub1 Hs) as [Hs1 Cd].
  destruct (reslice_ok h1 data (Z.to_nat (1 + 1 + n)) (s_len data) Hs1) as (data' & Ed & Hs' & _ & Cd'); [lia..|].
  rewrite (go_bind_Some _ _ _ _ _ Ed). rewrite Cd in Cd'.
  rewrite take_ge in Cd' by (rewrite length_drop; lia).
  destruct (IH (acc ++ [mkSub t n copied]) data' h1) as (h' & subs & E & Hsub' & Hown & Hview).
  - by etransitivity.
  - done.
  - rewrite Cd'. by apply Forall_drop.
  - apply Forall_app. split; [|constructor; [|constructor]].
    + eapply Forall_impl; [exact Hacc|]. intros o Ho. by apply (owned_kept h0 h h1).
    + destruct Hc as [->|[Hc Hc']]; [by left|right]. split; [done|]. cbn. intros Hin. apply Hc'.
      eapply subseteq_dom; [exact Hsub|done].
  - exists h', subs. split; [done|]. split; [by etransitivity|]. split; [done|]. rewrite Hview, Cd', map_app.
    f_equal. f_equal.
    + apply map_ext_Forall. eapply Forall_impl; [exact Hacc|]. intros o Ho. by apply (owned_kept h0 h h1).
    + cbn. unfold view_sub. cbn. rewrite Cc, Cb. do 4 f_equal. lia.
Qed.

(** ** Properties *)

(** C11: the option list of a message is safe to change in place, however the handlers' work on their
    messages is interleaved.  Dropping split options, deleting, setting and reading options, in any order
    and on messages in arrays of their own, never indexes out of range; every message ends with exactly
    the options the list functions give for its own operations in order, though deletion shifts and
    clears the array and setting appends within its capacity; and the messages stay separate. *)
Theorem option_lists_isolated (ops : list access) (h : heap DHCPOption) (ms : list message) :
  separate h ms →
  ∃ h' ms', run_ops ops ms h = Some (h', ms') ∧ separate h' ms' ∧
    ∀ k m, ms !! k = Some m → ∃ m', ms' !! k = Some m' ∧ view h' m' = foldl apply_op (view h m) (ops_of k ops).
Proof. apply run_ops_ok. Qed.

(** C21: the parser of option 82 never reads outside the packet and keeps nothing of it.  On every slice of a
    packet's bytes it returns without a panic; its result is that of the list function; the packet is
    not written; and each sub-option's data is empty or lies in an array of its own, so a later change
    of the packet buffer changes no sub-option. *)
Theorem opt82_decode_copies (spare : bytes) (h : heap Z) (data : slice) :
  slice_ok h data → wf_bytes (contents h data) →
  ∃ h' subs, DecodeRelayAgentInformationOption_go spare data h = Some (h', subs) ∧
    map (view_sub h') subs = DecodeRelayAgentInformationOption (mkOption RelayAgentInformation 0 (contents h data)) ∧
    h ⊆ h' ∧
    ∀ s bs, slice_ok h s →
      map (view_sub (with_contents h' s bs)) subs = map (view_sub h') subs.
Proof.
  intros Hs Hb. destruct (decode_go_ok spare h (S (s_len data)) [] data h) as (h' & subs & E & Hsub & Hown & Hv);
    [done..|constructor|]. exists h', subs. split; [done|].
  split; [unfold DecodeRelayAgentInformationOption; cbn [opt_Data]; by rewrite (contents_length h data Hs)|].
  split; [done|]. intros s bs Hss. apply map_ext_Forall. eapply Forall_impl; [exact Hown|].
  intros o [En|[_ Hn]]; unfold view_sub; f_equal; [by rewrite En|]. unfold contents, with_contents.
  rewrite lookup_alter_ne; [done|]. intros Ea. apply Hn. rewrite <- Ea. by apply slice_in_dom.
Qed.

(** the message type is read without a panic, and is that of the list model. *)
Theorem message_type_in_range `{Gopacket} `{UnicodeTables} (h : heap DHCPOption) (m : message) :
  slice_ok h (m_options m) → GetMessageType_go m h = Some (h, GetMessageType (view h m)).
Proof.
  intros Hs. unfold GetMessageType_go, GetMessageType. erewrite go_bind_Some by by apply GetOption_go_ok.
  destruct (_ || _) eqn:E; [done|]. destruct (opt_Data _) as [|val rest] eqn:Ed; [|done].
  rewrite bool_decide_true, orb_true_r in E by done. done.
Qed.

(** ** Witnesses *)

Module HeapExample.

Definition opt (t : Z) (data : bytes) : DHCPOption := mkOption t (len data) data.

(** Two messages; the second has room behind its slice for one more option. *)
Definition arrays : heap DHCPOption :=
  {[ 0%nat := [opt 53 [1]; opt 12 [97]; opt 12 [98]; opt 255 []];
     1%nat := [opt 53 [5]; opt 82 [1; 1; 50]; opt 61 [7]; zero_option] ]}.

Definition layer : DHCPv4 := mkDHCPv4 1 1 6 0 7 0 [] [] [] [] [] [] [].

Definition messages : list message :=
  [mkMessage layer (mkSlice 0 0 4 4); mkMessage layer (mkSlice 1 0 3 4)].

Definition ops : list access :=
  [{| who := 0; what := OpUnsplit; room := [] |};
   {| who := 1; what := OpDelete 82; room := [] |};
   {| who := 0; what := OpSet (opt 82 [1; 1; 51]); room := [zero_option] |};
   {| who := 1; what := OpGet 53; room := [] |};
   {| who := 1; what := OpSet (opt 12 [99]); room := [] |}].

Lemma separate_messages : separate arrays messages.
Proof.
  split.
  - repeat constructor; cbn; try lia; (eexists; split; [reflexivity|cbn; lia]).
  - apply (bool_decide_unpack _). vm_compute. exact I.
Qed.

(** A packet with an option 82 of two sub-options between other bytes. *)
Definition packet : heap Z := {[ 0%nat := [82; 8; 1; 1; 50; 5; 3; 10; 0; 0; 255] ]}.
Definition data : slice := mkSlice 0 2 8 9.

End HeapExample.

Lemma option_lists_isolated_witness :
  ∃ h' ms' m0 m1, run_ops HeapExample.ops HeapExample.messages HeapExample.arrays = Some (h', ms') ∧
    ms' !! 0%nat = Some m0 ∧ ms' !! 1%nat = Some m1 ∧
    map opt_Type (Options (view h' m0)) = [53; 82; 255] ∧ map opt_Type (Options (view h' m1)) = [12; 53; 61].
Proof.
  destruct (option_lists_isolated HeapExample.ops HeapExample.arrays HeapExample.messages
    HeapExample.separate_messages) as (h' & ms' & E & _ & Hall).
  destruct (Hall 0%nat _ eq_refl) as (m0 & E0 & Hv0), (Hall 1%nat _ eq_refl) as (m1 & E1 & Hv1).
  exists h', ms', m0, m1. repeat (split; [eassumption|]). rewrite Hv0, Hv1. split; vm_compute; reflexivity.
Defined.

Lemma opt82_decode_copies_witness :
  ∃ h' subs, DecodeRelayAgentInformationOption_go [] HeapExample.data HeapExample.packet = Some (h', subs) ∧
    map opt_Data (map (view_sub h') subs) = [[50]; [10; 0; 0]] ∧
    map (view_sub (with_contents h' HeapExample.data (replicate 8 0))) subs = map (view_sub h') subs.
Proof.
  assert (Hs : slice_ok HeapExample.packet HeapExample.data).
  { split; cbn; [lia|]. eexists. split; [reflexivity|cbn; lia]. }
  destruct (opt82_decode_copies [] HeapExample.packet HeapExample.data Hs) as (h' & subs & E & Hv & _ & Hw).
  { vm_compute. repeat constructor; discriminate. }
  exists h', subs. split; [exact E|]. split; [rewrite Hv; vm_compute; reflexivity|]. apply Hw. exact Hs.
Defined.
