(* ===== verification/Bpf.v ===== *)
(** * The socket filter: [pkg/bytecode/bpf.go] and [pkg/bytecode/const.go].

    The filter is a classic BPF program built by Go code.  The program is translated instruction by
    instruction, opcodes included, and run by an interpreter of the classic BPF instruction set:
    accumulator [A], index register [X], forward jumps, loads in network byte order, a load outside
    the packet drops it. *)

From S2P Require Import Prelude Specs.

(** ** The instruction set *)

(** [unix.SockFilter]. *)
Record SockFilter := mkFilter { Code : Z; Jt : Z; Jf : Z; K : Z }.

Definition BPF_LD : Z := 0.
Definition BPF_LDX : Z := 1.
Definition BPF_ALU : Z := 4.
Definition BPF_JMP : Z := 5.
Definition BPF_RET : Z := 6.
Definition BPF_W : Z := 0.
Definition BPF_H : Z := 8.
Definition BPF_B : Z := 16.
Definition BPF_ABS : Z := 32.
Definition BPF_IND : Z := 64.
Definition BPF_LEN : Z := 128.
Definition BPF_MSH : Z := 160.
Definition BPF_AND : Z := 80.
Definition BPF_JEQ : Z := 16.
Definition BPF_JGT : Z := 32.
Definition BPF_JGE : Z := 48.
Definition BPF_JSET : Z := 64.
Definition BPF_K : Z := 0.

Notation "a .| b" := (Z.lor a b) (at level 50, left associativity) : relay_scope.

(** Loads from the packet; [None] outside it. *)
Definition load_byte (p : bytes) (k : Z) : option Z :=
  if (0 <=? k) && (k <? len p) then p !! Z.to_nat k else None.

Definition load_half (p : bytes) (k : Z) : option Z :=
  match load_byte p k, load_byte p (k + 1) with
  | Some a, Some b => Some (a * 256 + b)
  | _, _ => None
  end.

Record machine := { pc : nat; A : Z; X : Z }.

Inductive outcome :=
| Next (m : machine)
| Return (k : Z)
| Invalid.

Definition jump (m : machine) (i : SockFilter) (c : bool) : outcome :=
  Next {| pc := S (pc m) + Z.to_nat (if c then Jt i else Jf i); A := A m; X := X m |}.

Definition load_A (m : machine) (v : option Z) : outcome :=
  match v with
  | Some a => Next {| pc := S (pc m); A := a; X := X m |}
  | None => Return 0
  end.

(** One instruction. *)
Definition exec (p : bytes) (m : machine) (i : SockFilter) : outcome :=
  let c := Code i in
  if c =? BPF_LD .| BPF_H .| BPF_ABS then load_A m (load_half p (K i))
  else if c =? BPF_LD .| BPF_B .| BPF_ABS then load_A m (load_byte p (K i))
  else if c =? BPF_LD .| BPF_H .| BPF_IND then load_A m (load_half p (u32 (X m + K i)))
  else if c =? BPF_LD .| BPF_W .| BPF_LEN then load_A m (Some (len p))
  else if c =? BPF_LDX .| BPF_B .| BPF_MSH then
    match load_byte p (K i) with
    | Some b => Next {| pc := S (pc m); A := A m; X := 4 * Z.land b 15 |}
    | None => Return 0
    end
  else if c =? BPF_ALU .| BPF_AND .| BPF_K then
    Next {| pc := S (pc m); A := Z.land (A m) (K i); X := X m |}
  else if c =? BPF_JMP .| BPF_JEQ .| BPF_K then jump m i (A m =? K i)
  else if c =? BPF_JMP .| BPF_JGT .| BPF_K then jump m i (K i <? A m)
  else if c =? BPF_JMP .| BPF_JGE .| BPF_K then jump m i (K i <=? A m)
  else if c =? BPF_JMP .| BPF_JSET .| BPF_K then jump m i (negb (Z.land (A m) (K i) =? 0))
  else if c =? BPF_RET .| BPF_K then Return (K i)
  else Invalid.

(** Run a program; [None] when it runs off its end, executes an unknown opcode or is out of fuel. *)
Fixpoint run (fuel : nat) (prog : list SockFilter) (p : bytes) (m : machine) : option Z :=
  match fuel with
  | O => None
  | S fuel =>
      match prog !! pc m with
      | None => None
      | Some i =>
          match exec p m i with
          | Next m' => run fuel prog p m'
          | Return k => Some k
          | Invalid => None
          end
      end
  end.

Definition start : machine := {| pc := 0; A := 0; X := 0 |}.

(** The verdict on a packet: the number of bytes to keep, 0 to drop it. *)
Definition filter_packet (prog : list SockFilter) (p : bytes) : option Z :=
  run (length prog) prog p start.

(** ** const.go *)

Definition EthernetFieldOffsetEtherType : Z := EthernetHeaderSizeBits - EthernetFieldSizeEtherType.

Definition IPv4FieldOffsetFlags : Z :=
  IPv4FieldSizeVersion + IPv4FieldSizeIHL + IPv4FieldSizeDSC + IPv4FieldSizeECN +
  IPv4FieldSizeTotalLength + IPv4FieldSizeIdentification.
Definition IPv4FieldOffsetProtocol : Z :=
  IPv4FieldOffsetFlags + IPv4FieldSizeFlags + IPv4FieldSizeFragmentOffset + IPv4FieldSizeTTL.

Definition UDPFieldOffsetDestinationPort : Z :=
  EthernetHeaderSizeBits / 8 + UDPFieldSizeSourcePort / 8.

Definition IPv4FieldBitMaskIHL : Z := 15.

(** ** bpf.go *)

Definition ETH_P_IP : Z := 2048.
Definition IPPROTO_UDP : Z := 17.

Definition GetBPFSockFilterForDHCPv4Messages (mtu : Z) : list SockFilter := [
  mkFilter (BPF_LD .| BPF_H .| BPF_ABS) 0 0 (EthernetFieldOffsetEtherType / 8);
  mkFilter (BPF_JMP .| BPF_JEQ .| BPF_K) 0 15 ETH_P_IP;
  mkFilter (BPF_LD .| BPF_B .| BPF_ABS) 0 0 (EthernetHeaderSizeBits / 8);
  mkFilter (BPF_ALU .| BPF_AND .| BPF_K) 0 0 IPv4FieldBitMaskIHL;
  mkFilter (BPF_JMP .| BPF_JGE .| BPF_K) 0 12 IPv4FieldIHLValueMinHeaderNoOptions;
  mkFilter (BPF_JMP .| BPF_JGT .| BPF_K) 11 0 IPv4FieldIHLValueMinHeaderNoOptions;
  mkFilter (BPF_LD .| BPF_B .| BPF_ABS) 0 0 ((EthernetHeaderSizeBits + IPv4FieldOffsetProtocol) / 8);
  mkFilter (BPF_JMP .| BPF_JEQ .| BPF_K) 0 9 IPPROTO_UDP;
  mkFilter (BPF_LD .| BPF_H .| BPF_ABS) 0 0 ((EthernetHeaderSizeBits + IPv4FieldOffsetFlags) / 8);
  mkFilter (BPF_JMP .| BPF_JSET .| BPF_K) 7 0 16383;
  mkFilter (BPF_LDX .| BPF_B .| BPF_MSH) 0 0 (EthernetHeaderSizeBits / 8);
  mkFilter (BPF_LD .| BPF_H .| BPF_IND) 0 0 UDPFieldOffsetDestinationPort;
  mkFilter (BPF_JMP .| BPF_JEQ .| BPF_K) 0 4 DHCPv4ServerPort;
  mkFilter (BPF_LD .| BPF_W .| BPF_LEN) 0 0 0;
  mkFilter (BPF_JMP .| BPF_JGE .| BPF_K) 0 2 DHCPv4MinMessageSize;
  mkFilter (BPF_JMP .| BPF_JGT .| BPF_K) 1 0 mtu;
  mkFilter (BPF_RET .| BPF_K) 0 0 mtu;
  mkFilter (BPF_RET .| BPF_K) 0 0 0
].

(** The filter the reply socket and the UDP socket attach: drop everything. *)
Definition drop_all_filter : list SockFilter := [mkFilter (BPF_RET .| BPF_K) 0 0 0].

(** ** Specification *)

(** A field of the frame by byte offset. *)
Definition byte_of (p : bytes) (k : nat) : Z := default 0 (p !! k).
Definition half_of (p : bytes) (k : nat) : Z := byte_of p k * 256 + byte_of p (S k).

(** An Ethernet frame that carries an unfragmented IPv4 packet without IP options holding a UDP
    datagram for the DHCP server port, of a length between the minimum and the MTU. *)
Definition is_dhcp_frame (mtu : Z) (p : bytes) : bool :=
  (half_of p 12 =? 2048) && (Z.land (byte_of p 14) 15 =? 5) && (byte_of p 23 =? 17) &&
  (Z.land (half_of p 20) 16383 =? 0) && (half_of p 36 =? 67) &&
  (244 <=? len p) && (len p <=? mtu).

(** ** Validity: what the kernel checks when the program is attached *)

Definition is_jump (i : SockFilter) : bool := Z.land (Code i) 7 =? BPF_JMP.
Definition is_ret (i : SockFilter) : bool := Z.land (Code i) 7 =? BPF_RET.

(** Every jump lands inside the program and the last instruction returns. *)
Definition valid_program (prog : list SockFilter) : bool :=
  forallb (λ '(n, i),
    negb (is_jump i) ||
    (Nat.ltb (S n + Z.to_nat (Jt i)) (length prog) && Nat.ltb (S n + Z.to_nat (Jf i)) (length prog)))
    (zip (seq 0 (length prog)) prog) &&
  match last prog with Some i => is_ret i | None => false end.

(** ** Lemmas *)

Lemma load_byte_in p k : (k < length p)%nat → load_byte p (Z.of_nat k) = Some (byte_of p k).
Proof.
  intros H. unfold load_byte, byte_of. rewrite Nat2Z.id.
  destruct (lookup_lt_is_Some_2 p k H) as [b ->]. case_zs.
Qed.

Lemma load_byte_Some p k b :
  load_byte p k = Some b → 0 ≤ k < len p ∧ b = byte_of p (Z.to_nat k).
Proof.
  unfold load_byte, byte_of. case_match; [|done]. reflect_bools. intros ->. done.
Qed.

Lemma load_half_Some p k v :
  load_half p k = Some v → 0 ≤ k ∧ k + 1 < len p ∧ v = half_of p (Z.to_nat k).
Proof.
  unfold load_half, half_of. destruct (load_byte p k) eqn:E1; [|done].
  destruct (load_byte p (k + 1)) eqn:E2; [|done]. intros. simplify_eq.
  apply load_byte_Some in E1 as [? ->], E2 as [? ->].
  replace (Z.to_nat (k + 1)) with (S (Z.to_nat k)) by lia. lia.
Qed.

Lemma load_half_None p k : 0 ≤ k → load_half p k = None → len p ≤ k + 1.
Proof.
  intros Hk. unfold load_half, load_byte. case_zs.
  destruct (lookup_lt_is_Some_2 p (Z.to_nat k) ltac:(lia)) as [? ->].
  by destruct (lookup_lt_is_Some_2 p (Z.to_nat (k + 1)) ltac:(lia)) as [? ->].
Qed.

Lemma load_byte_None p k : 0 ≤ k → load_byte p k = None → len p ≤ k.
Proof.
  intros Hk. unfold load_byte. case_zs.
  by destruct (lookup_lt_is_Some_2 p (Z.to_nat k) ltac:(lia)) as [? ->].
Qed.

(** A short frame is not a DHCP frame. *)
Lemma is_dhcp_frame_short mtu p : len p < 244 → is_dhcp_frame mtu p = false.
Proof.
  intros. unfold is_dhcp_frame. rewrite (proj2 (Z.leb_gt 244 (len p))) by done.
  by rewrite andb_false_r.
Qed.

(** The meaning of each opcode the filter uses, by its number. *)
Section opcodes.
Context (p : bytes) (m : machine) (jt jf k : Z).

Lemma exec_ldh : exec p m (mkFilter 40 jt jf k) = load_A m (load_half p k).
Proof. reflexivity. Qed.
Lemma exec_ldb : exec p m (mkFilter 48 jt jf k) = load_A m (load_byte p k).
Proof. reflexivity. Qed.
Lemma exec_ldh_ind : exec p m (mkFilter 72 jt jf k) = load_A m (load_half p (u32 (X m + k))).
Proof. reflexivity. Qed.
Lemma exec_len : exec p m (mkFilter 128 jt jf k) = load_A m (Some (len p)).
Proof. reflexivity. Qed.
Lemma exec_msh :
  exec p m (mkFilter 177 jt jf k) =
  match load_byte p k with
  | Some b => Next {| pc := S (pc m); A := A m; X := 4 * Z.land b 15 |}
  | None => Return 0
  end.
Proof. reflexivity. Qed.
Lemma exec_and :
  exec p m (mkFilter 84 jt jf k) = Next {| pc := S (pc m); A := Z.land (A m) k; X := X m |}.
Proof. reflexivity. Qed.
Lemma exec_jeq : exec p m (mkFilter 21 jt jf k) = jump m (mkFilter 21 jt jf k) (A m =? k).
Proof. reflexivity. Qed.
Lemma exec_jgt : exec p m (mkFilter 37 jt jf k) = jump m (mkFilter 37 jt jf k) (k <? A m).
Proof. reflexivity. Qed.
Lemma exec_jge : exec p m (mkFilter 53 jt jf k) = jump m (mkFilter 53 jt jf k) (k <=? A m).
Proof. reflexivity. Qed.
Lemma exec_jset :
  exec p m (mkFilter 69 jt jf k) = jump m (mkFilter 69 jt jf k) (negb (Z.land (A m) k =? 0)).
Proof. reflexivity. Qed.
Lemma exec_ret : exec p m (mkFilter 6 jt jf k) = Return k.
Proof. reflexivity. Qed.
End opcodes.

(** The assembled program, as the tcpdump text it is documented with. *)
Lemma program_text mtu :
  GetBPFSockFilterForDHCPv4Messages mtu = [
    mkFilter 40 0 0 12; mkFilter 21 0 15 2048; mkFilter 48 0 0 14; mkFilter 84 0 0 15;
    mkFilter 53 0 12 5; mkFilter 37 11 0 5; mkFilter 48 0 0 23; mkFilter 21 0 9 17;
    mkFilter 40 0 0 20; mkFilter 69 7 0 16383; mkFilter 177 0 0 14; mkFilter 72 0 0 16;
    mkFilter 21 0 4 67; mkFilter 128 0 0 0; mkFilter 53 0 2 244; mkFilter 37 1 0 mtu;
    mkFilter 6 0 0 mtu; mkFilter 6 0 0 0].
Proof. reflexivity. Qed.

Lemma run_step fuel prog p m i :
  prog !! pc m = Some i →
  run (S fuel) prog p m =
  match exec p m i with
  | Next m' => run fuel prog p m'
  | Return k => Some k
  | Invalid => None
  end.
Proof. intros E. cbn [run]. by rewrite E. Qed.

(** Execute the next instruction. *)
Ltac bpf lem :=
  erewrite run_step by reflexivity; rewrite lem; unfold load_A, jump;
  cbn [Jt Jf pc A X]; cbv iota.

(** A load: outside the packet the frame is dropped, and it is too short to be a DHCP frame. *)
Ltac bpf_half :=
  match goal with
  | |- context [load_half ?p ?k] =>
      let E := fresh "E" in
      destruct (load_half p k) eqn:E;
        [apply load_half_Some in E as (_ & _ & ->)
        |apply load_half_None in E; [|lia]; symmetry;
         rewrite is_dhcp_frame_short by lia; reflexivity]
  end.

Ltac bpf_byte :=
  match goal with
  | |- context [load_byte ?p ?k] =>
      let E := fresh "E" in
      destruct (load_byte p k) eqn:E;
        [apply load_byte_Some in E as (_ & ->)
        |apply load_byte_None in E; [|lia]; symmetry;
         rewrite is_dhcp_frame_short by lia; reflexivity]
  end.

(** The frame is not a DHCP frame because of a check. *)
Lemma not_dhcp_frame mtu p :
  half_of p 12 ≠ 2048 ∨ Z.land (byte_of p 14) 15 ≠ 5 ∨ byte_of p 23 ≠ 17 ∨
  Z.land (half_of p 20) 16383 ≠ 0 ∨ half_of p 36 ≠ 67 ∨ len p < 244 ∨ mtu < len p →
  is_dhcp_frame mtu p = false.
Proof.
  intros H. apply not_true_is_false. unfold is_dhcp_frame. intros H'. reflect_bools. lia.
Qed.

(** The run has reached the last instruction, which drops the frame. *)
Ltac bpf_drop :=
  erewrite run_step by reflexivity; rewrite exec_ret;
  rewrite not_dhcp_frame by lia; reflexivity.

Lemma filter_verdict mtu p :
  filter_packet (GetBPFSockFilterForDHCPv4Messages mtu) p =
  Some (if is_dhcp_frame mtu p then mtu else 0).
Proof.
  rewrite program_text. unfold filter_packet, start. change (length _) with 18%nat.
  bpf exec_ldh. bpf_half. change (Z.to_nat 12) with 12%nat.
  bpf exec_jeq. destruct (Z.eqb_spec (half_of p 12) 2048); [|bpf_drop].
  bpf exec_ldb. bpf_byte. change (Z.to_nat 14) with 14%nat.
  bpf exec_and.
  bpf exec_jge. destruct (Z.leb_spec 5 (Z.land (byte_of p 14) 15)); [|bpf_drop].
  bpf exec_jgt. destruct (Z.ltb_spec 5 (Z.land (byte_of p 14) 15)); [bpf_drop|].
  bpf exec_ldb. bpf_byte. change (Z.to_nat 23) with 23%nat.
  bpf exec_jeq. destruct (Z.eqb_spec (byte_of p 23) 17); [|bpf_drop].
  bpf exec_ldh. bpf_half. change (Z.to_nat 20) with 20%nat.
  bpf exec_jset. destruct (Z.eqb_spec (Z.land (half_of p 20) 16383) 0); cbn [negb]; [|bpf_drop].
  bpf exec_msh. bpf_byte. change (Z.to_nat 14) with 14%nat.
  bpf exec_ldh_ind. replace (Z.land (byte_of p 14) 15) with 5 by lia.
  change (u32 (4 * 5 + 16)) with 36. bpf_half. change (Z.to_nat 36) with 36%nat.
  bpf exec_jeq. destruct (Z.eqb_spec (half_of p 36) 67); [|bpf_drop].
  bpf exec_len.
  bpf exec_jge. destruct (Z.leb_spec 244 (len p)); [|bpf_drop].
  bpf exec_jgt. destruct (Z.ltb_spec mtu (len p)); [bpf_drop|].
  bpf exec_ret. f_equal. unfold is_dhcp_frame. case_zs.
Qed.

(** ** Properties *)

(** C28: the socket filter accepts exactly the frames that carry an unfragmented IPv4 packet without
    IP options with a UDP datagram for port 67 and a frame length from 244 bytes to the MTU, and
    keeps MTU bytes of them; every other byte string, however short, is dropped.  The run always
    ends in a return instruction, and the program passes the kernel's jump checks. *)
Theorem bpf_filter_correct (mtu : Z) (p : bytes) :
  filter_packet (GetBPFSockFilterForDHCPv4Messages mtu) p =
    Some (if is_dhcp_frame mtu p then mtu else 0) ∧
  valid_program (GetBPFSockFilterForDHCPv4Messages mtu) = true ∧
  filter_packet drop_all_filter p = Some 0.
Proof. split; [apply filter_verdict|]. split; reflexivity. Qed.

(** A frame that carries an IPv4 packet of exactly the MTU is longer than the MTU by its Ethernet
    header, so the filter drops it. *)
Lemma full_size_packet_dropped mtu p :
  0 < mtu → len p = EthernetHeaderSizeBits / 8 + mtu →
  filter_packet (GetBPFSockFilterForDHCPv4Messages mtu) p = Some 0.
Proof.
  intros Hm Hl. change (EthernetHeaderSizeBits / 8) with 14 in Hl.
  rewrite filter_verdict, not_dhcp_frame; [done|]. lia.
Qed.
