(* ===== verification/Sockets.v ===== *)
(** * Sockets: [pkg/sockets].

    The raw socket wrapper is a state machine over the descriptors the process holds open; the answers
    of the system calls are arguments. *)

From S2P Require Import Prelude GoStrings GoNet Specs Layers Bpf.

(** ** misc.go *)

(** [binary.BigEndian.PutUint16], and [Uint16] in either order. *)
Definition put_be16 (i : Z) : bytes := [u16 i / 256; u16 i `mod` 256].
Definition be16 (b : bytes) : Z := IP.byte_at b 0 * 256 + IP.byte_at b 1.
Definition le16 (b : bytes) : Z := IP.byte_at b 1 * 256 + IP.byte_at b 0.

(** [Htons] on a host whose native order is little endian or not. *)
Definition Htons (little : bool) (i : Z) : Z :=
  if little then le16 (put_be16 i) else be16 (put_be16 i).

(** ** raw.go *)

(** [unix.SockaddrLinklayer]: [Addr] is an array of eight bytes. *)
Record SockaddrLinklayer := { sa_Protocol : Z; sa_Ifindex : Z; sa_Halen : Z; sa_Addr : bytes }.

Definition sa_capacity : Z := 8.

Definition new_sockaddr (protocol ifIndex : Z) : SockaddrLinklayer :=
  {| sa_Protocol := protocol; sa_Ifindex := ifIndex; sa_Halen := 0; sa_Addr := replicate 8 0 |}.

(** [copy(dst, src)] for a source that fits. *)
Definition copy_bytes (dst src : bytes) : bytes := src ++ drop (length src) dst.

Definition setLinkLayerAddr (sa : SockaddrLinklayer) (hwAddr : bytes) : result SockaddrLinklayer :=
  if bool_decide (hwAddr = []) then Ok sa
  else if len (sa_Addr sa) <? len hwAddr then Err "hardware address exceeds sockaddr capacity"
  else Ok {| sa_Protocol := sa_Protocol sa; sa_Ifindex := sa_Ifindex sa; sa_Halen := u8 (len hwAddr);
             sa_Addr := copy_bytes (sa_Addr sa) hwAddr |}.

(** The descriptors open in the process, and the wrapper: nil, or an [os.File] on a descriptor that is
    open or closed. *)
Record Raw := { f : option (Z * bool) }.
Record world := { open_fds : gset Z; raw : Raw }.

Definition new_world (fds : gset Z) : world := {| open_fds := fds; raw := {| f := None |} |}.

Inductive sockopt_answer := OptSet | OptUnsupported | OptError (e : string).

(** [os.File.Close]: releases an open descriptor once. *)
Definition file_close (w : world) : world * result unit :=
  match f (raw w) with
  | None => (w, Err "socket not initialized")
  | Some (fd, false) => (w, Err "file already closed")
  | Some (fd, true) => ({| open_fds := open_fds w ∖ {[fd]}; raw := {| f := Some (fd, false) |} |}, Ok ())
  end.

(** [Raw.Create]: [sock] is the answer of [socket], [opt] of the PACKET_IGNORE_OUTGOING option. *)
Definition Create (w : world) (sock : result Z) (opt : sockopt_answer) : world * result unit :=
  match sock with
  | Err e => (w, Err e)
  | Ok fd =>
      let w := {| open_fds := {[fd]} ∪ open_fds w; raw := raw w |} in
      match opt with
      | OptError e =>
          ({| open_fds := open_fds w ∖ {[fd]}; raw := raw w |}, Err ("set PACKET_IGNORE_OUTGOING: " +:+ e))
      | _ =>
          let w := match f (raw w) with None => w | Some _ => (file_close w).1 end in
          ({| open_fds := open_fds w; raw := {| f := Some (fd, true) |} |}, Ok ())
      end
  end.

(** [Raw.Close]. *)
Definition Close (w : world) : world * result unit :=
  match f (raw w) with
  | None => (w, Err "socket not initialized")
  | Some _ => file_close w
  end.

(** [Raw.control]: the operation runs on the descriptor when the file is open. *)
Definition control (w : world) (op : Z → result unit) : result unit :=
  match f (raw w) with
  | None => Err "socket not initialized"
  | Some (fd, false) => Err "use of closed file"
  | Some (fd, true) => op fd
  end.

(** [Raw.SetReadDeadline]. *)
Definition SetReadDeadline (w : world) : result unit := control w (λ _, Ok ()).

(** [Raw.Bind]: [bind] answers for the address it is given. *)
Definition Bind (w : world) (ifIndex : Z) (hwAddr : bytes) (protocol : Z)
    (bind : Z → SockaddrLinklayer → result unit) : result unit :=
  match setLinkLayerAddr (new_sockaddr protocol ifIndex) hwAddr with
  | Err e => Err e
  | Ok sa => control w (λ fd, bind fd sa)
  end.

(** [Raw.AttachBPF]: the kernel gets the program with its length as a sixteen bit count. *)
Definition AttachBPF (w : world) (bytecode : list SockFilter)
    (setsockopt : Z → Z → list SockFilter → result unit) : result unit :=
  if len bytecode =? 0 then Ok ()
  else control w (λ fd, setsockopt fd (u16 (len bytecode)) bytecode).

(** One round of a poller loop: the system call answered, or the poller gave up. *)
Inductive attempt_answer (A : Type) :=
| Answered (a : A)
| Again
| PollError (e : string).
Arguments Answered {A} a.
Arguments Again {A}.
Arguments PollError {A} e.

(** [RawConn.Read] and [Write] over the answers of the rounds: the first that is not EAGAIN decides;
    [None] is still parked on the poller. *)
Fixpoint poll_loop {A} (rounds : list (attempt_answer A)) : option (result A) :=
  match rounds with
  | [] => None
  | Answered a :: _ => Some (Ok a)
  | PollError e :: _ => Some (Err e)
  | Again :: rounds => poll_loop rounds
  end.

(** [Raw.Receive]: each answer is a length with its source, [None] when the source is not a link layer
    address, or an error of [Recvfrom]. *)
Definition Receive (w : world)
    (rounds : list (attempt_answer (result (Z * option SockaddrLinklayer)))) :
    option (result (Z * SockaddrLinklayer)) :=
  match f (raw w) with
  | None => Some (Err "socket not initialized")
  | Some (fd, false) => Some (Err "use of closed file")
  | Some (fd, true) =>
      match poll_loop rounds with
      | None => None
      | Some (Err e) => Some (Err e)
      | Some (Ok (Err e)) => Some (Err e)
      | Some (Ok (Ok (n, None))) => Some (Err "unexpected source")
      | Some (Ok (Ok (n, Some sa))) => Some (Ok (n, sa))
      end
  end.

(** [Raw.Send]: the number of bytes sent. *)
Definition Send (w : world) (ifIndex : Z) (hwAddr : bytes) (protocol : Z) (buf : bytes)
    (rounds : SockaddrLinklayer → list (attempt_answer (result unit))) : option (result Z) :=
  match f (raw w) with
  | None => Some (Err "socket not initialized")
  | Some (fd, is_open) =>
      match setLinkLayerAddr (new_sockaddr protocol ifIndex) hwAddr with
      | Err e => Some (Err e)
      | Ok sa =>
          if negb is_open then Some (Err "use of closed file")
          else match poll_loop (rounds sa) with
               | None => None
               | Some (Err e) => Some (Err e)
               | Some (Ok (Err e)) => Some (Err e)
               | Some (Ok (Ok _)) => Some (Ok (len buf))
               end
      end
  end.

(** ** packet.go *)

(** [ControlReuseAddrAndPort]: both options are set, in order, or the first error is returned. *)
Definition ControlReuseAddrAndPort (ctl reuseaddr reuseport : result unit) : result unit :=
  match ctl with
  | Err e => Err e
  | Ok _ => match reuseaddr with Err e => Err e | Ok _ => reuseport end
  end.

(** [ListenPacketConn4]: [listen] answers for the textual address. *)
Definition ListenPacketConn4 (addr : bytes) (port : Z) (listen : bytes → Z → result unit) : result unit :=
  if bool_decide (addr = []) then Err "addr must not be nil"
  else
    let addr4 := IP.To4 addr in
    if bool_decide (addr4 = []) then Err "addr must be a valid IPv4 address"
    else listen (IP.String4 addr4) port.

(** ** Any use of the wrapper *)

(** The operations that change it; [socket] never returns a descriptor that is already open. *)
Inductive step : world → world → Prop :=
| step_create w sock opt :
    (∀ fd, sock = Ok fd → fd ∉ open_fds w) → step w (Create w sock opt).1
| step_close w : step w (Close w).1.

(** The descriptors of the wrapper: one while it holds an open file. *)
Definition held (r : Raw) : gset Z :=
  match f r with Some (fd, true) => {[fd]} | _ => ∅ end.

(** ** Lemmas *)

(** The descriptors the process had before, and those of the wrapper, are disjoint and together all that
    is open. *)
Definition accounted (base : gset Z) (w : world) : Prop :=
  open_fds w = base ∪ held (raw w) ∧ base ## held (raw w).

Lemma accounted_file_close base w : accounted base w → accounted base (file_close w).1.
Proof.
  intros [Ho Hd]. unfold file_close. destruct (f (raw w)) as [[fd []]|] eqn:E; [|done..].
  unfold accounted, held in *. rewrite E in *. simpl. split; [|set_solver]. rewrite Ho. set_solver.
Qed.

Lemma accounted_step base w w' : accounted base w → step w w' → accounted base w'.
Proof.
  intros Hacc Hstep. destruct Hstep as [w sock opt Hfresh|w].
  - unfold Create. destruct sock as [fd|e]; [|done]. specialize (Hfresh fd eq_refl).
    destruct Hacc as [Ho Hd].
    assert (Hcl : open_fds (match f (raw w) with
                            | None => {| open_fds := {[fd]} ∪ open_fds w; raw := raw w |}
                            | Some _ => (file_close {| open_fds := {[fd]} ∪ open_fds w; raw := raw w |}).1
                            end) = {[fd]} ∪ base).
    { unfold file_close, held in *. cbn [raw]. destruct (f (raw w)) as [[fd' []]|]; cbn [fst open_fds];
        rewrite Ho in *; set_solver. }
    destruct opt; cbn [fst raw open_fds]; unfold accounted, held in *; cbn [raw f open_fds];
      try (rewrite Hcl; rewrite Ho in Hfresh; set_solver).
    split; [|done]. rewrite Ho in *. set_solver.
  - unfold Close. destruct (f (raw w)) eqn:E; [by apply accounted_file_close|done].
Qed.

Lemma accounted_steps base w w' : accounted base w → rtc step w w' → accounted base w'.
Proof. intros Ha Hr. revert Ha. induction Hr; eauto using accounted_step. Qed.

Lemma setLinkLayerAddr_ok protocol ifIndex hw :
  hw ≠ [] → len hw ≤ sa_capacity →
  setLinkLayerAddr (new_sockaddr protocol ifIndex) hw =
    Ok {| sa_Protocol := protocol; sa_Ifindex := ifIndex; sa_Halen := len hw;
          sa_Addr := hw ++ replicate (8 - length hw) 0 |}.
Proof.
  unfold sa_capacity, setLinkLayerAddr, new_sockaddr. intros Hne Hl.
  rewrite bool_decide_eq_false_2 by done. cbn [sa_Addr sa_Protocol sa_Ifindex].
  rewrite length_replicate, (proj2 (Z.ltb_ge (Z.of_nat 8) (len hw))), u8_small by lia.
  unfold copy_bytes. by rewrite drop_replicate.
Qed.

Lemma setLinkLayerAddr_fits protocol ifIndex hw sa :
  setLinkLayerAddr (new_sockaddr protocol ifIndex) hw = Ok sa → len hw ≤ sa_capacity.
Proof.
  unfold setLinkLayerAddr, new_sockaddr, sa_capacity. case_bool_decide as E; [by subst|].
  cbn [sa_Addr]. rewrite length_replicate. destruct (Z.ltb_spec (Z.of_nat 8) (len hw)); [done|lia].
Qed.

Lemma bytes_div_mod a b : is_byte a → is_byte b → (a * 256 + b) / 256 = a ∧ (a * 256 + b) `mod` 256 = b.
Proof.
  unfold is_byte. intros Ha Hb. split.
  - rewrite Z.div_add_l, Z.div_small by lia. lia.
  - rewrite Z.add_comm, Z.mod_add, Z.mod_small by lia. done.
Qed.

Lemma put_be16_bytes a b : is_byte a → is_byte b → put_be16 (a * 256 + b) = [a; b].
Proof.
  intros Ha Hb. unfold put_be16. rewrite u16_small by (unfold is_byte in *; lia).
  by destruct (bytes_div_mod a b Ha Hb) as [-> ->].
Qed.

Lemma split_u16 i : 0 ≤ i < 65536 → ∃ a b, i = a * 256 + b ∧ is_byte a ∧ is_byte b.
Proof.
  intros Hi. exists (i / 256), (i `mod` 256). unfold is_byte.
  pose proof (Z.div_mod i 256 ltac:(lia)). pose proof (Z.mod_pos_bound i 256 ltac:(lia)).
  split; [lia|]. split; [|lia]. split; [apply Z.div_pos|apply Z.div_lt_upper_bound]; lia.
Qed.

(** ** Properties *)

(** C37: a raw socket never leaks a descriptor and never closes one it does not own: after any sequence of
    [Create], also failing or repeated ones, and [Close], the open descriptors of the process are those
    it had at the start and the single one of the current open file. *)
Theorem raw_no_descriptor_leak (base : gset Z) (w : world) :
  rtc step (new_world base) w → open_fds w = base ∪ held (raw w) ∧ base ## held (raw w).
Proof.
  apply accounted_steps. unfold accounted, held. simpl. split; [set_solver|set_solver].
Qed.

Lemma raw_no_descriptor_leak_witness :
  let w1 := (Create (new_world {[0; 1; 2]}) (Ok 3) OptUnsupported).1 in
  let w2 := (Create w1 (Ok 4) OptSet).1 in
  let w3 := (Create w2 (Ok 5) (OptError "EPERM")).1 in
  open_fds w3 = {[0; 1; 2]} ∪ held (raw w3) ∧ {[0; 1; 2]} ## held (raw w3).
Proof.
  intros w1 w2 w3. apply (raw_no_descriptor_leak {[0; 1; 2]} w3).
  eapply rtc_l; [apply (step_create _ (Ok 3) OptUnsupported)|].
  { intros fd [= <-]. apply (bool_decide_unpack _). vm_compute. exact I. }
  eapply rtc_l; [apply (step_create _ (Ok 4) OptSet)|].
  { intros fd [= <-]. apply (bool_decide_unpack _). vm_compute. exact I. }
  eapply rtc_l; [apply (step_create _ (Ok 5) (OptError "EPERM"))|].
  { intros fd [= <-]. apply (bool_decide_unpack _). vm_compute. exact I. }
  apply rtc_refl.
Defined.

(** a hardware address is stored in a link layer socket address without truncation or overflow: it is
    refused exactly when it is longer than the array, and otherwise its length and its bytes are what
    the kernel reads back. *)
Theorem link_layer_addr_exact (protocol ifIndex : Z) (hw : bytes) :
  (is_ok (setLinkLayerAddr (new_sockaddr protocol ifIndex) hw) = true ↔ len hw ≤ sa_capacity) ∧
  (∀ sa, setLinkLayerAddr (new_sockaddr protocol ifIndex) hw = Ok sa →
     sa_Ifindex sa = ifIndex ∧ sa_Protocol sa = protocol ∧ sa_Halen sa = len hw ∧
     length (sa_Addr sa) = 8%nat ∧ take (Z.to_nat (sa_Halen sa)) (sa_Addr sa) = hw).
Proof.
  destruct (decide (hw = [])) as [->|Hne].
  { split; [by split|]. by intros sa [= <-]. }
  destruct (decide (len hw ≤ sa_capacity)) as [Hl|Hl].
  - rewrite setLinkLayerAddr_ok by done. split; [by split|]. intros sa [= <-]. cbn.
    unfold sa_capacity in Hl. rewrite length_app, length_replicate, Nat2Z.id, take_app_len.
    repeat split; lia.
  - unfold setLinkLayerAddr, new_sockaddr. rewrite bool_decide_eq_false_2 by done.
    cbn [sa_Addr]. unfold sa_capacity in *.
    rewrite length_replicate, (proj2 (Z.ltb_lt (Z.of_nat 8) (len hw))) by lia.
    split; [split; [done|intros ?; lia]|done].
Qed.

(** [Htons] gives the two bytes of its argument in network order when the host stores the result in
    its native order, whichever that is, and applying it twice is the identity. *)
Theorem htons_correct (little : bool) (i : Z) :
  0 ≤ i < 65536 →
  0 ≤ Htons little i < 65536 ∧ Htons little (Htons little i) = i ∧
  (if little then [Htons true i `mod` 256; Htons true i / 256] else put_be16 (Htons false i)) = put_be16 i.
Proof.
  intros Hi. destruct (split_u16 i Hi) as (a & b & -> & Ha & Hb). unfold Htons.
  assert (Hle : ∀ x y, le16 [x; y] = y * 256 + x) by done.
  assert (Hbe : ∀ x y, be16 [x; y] = x * 256 + y) by done.
  destruct little; rewrite !put_be16_bytes, ?Hle, ?Hbe, !put_be16_bytes by done.
  - rewrite Hle. destruct (bytes_div_mod b a) as [-> ->]; [done..|]. unfold is_byte in *.
    split; [lia|]. split; [lia|done].
  - rewrite Hbe. unfold is_byte in *. split; [lia|]. done.
Qed.

Lemma htons_correct_witness :
  0 ≤ Htons true 2048 < 65536 ∧ Htons true (Htons true 2048) = 2048 ∧
  [Htons true 2048 `mod` 256; Htons true 2048 / 256] = put_be16 2048.
Proof. apply (htons_correct true 2048). lia. Defined.
