(* ===== verification/Glob.v ===== *)
(** * Shell patterns: [pkg/glob/glob.go], over Go's [path/filepath.Match].

    [filepath.Match] is modelled as it runs on Linux: the separator is the slash and the backslash
    escapes.  A malformed pattern is [None]. *)

From S2P Require Import Prelude GoStrings.

Module filepath.

Definition Separator : Z := 47.

(** ASCII codes of the pattern syntax. *)
Definition ch_star : Z := 42.
Definition ch_quest : Z := 63.
Definition ch_lbrack : Z := 91.
Definition ch_rbrack : Z := 93.
Definition ch_bslash : Z := 92.
Definition ch_caret : Z := 94.
Definition ch_minus : Z := 45.

(** ** scanChunk *)

Fixpoint skip_stars (pattern : bytes) : bool * bytes :=
  match pattern with
  | c :: p => if c =? ch_star then (true, (skip_stars p).2) else (false, pattern)
  | [] => (false, [])
  end.

(** The chunk up to the next star outside a class, and the rest. *)
Fixpoint scan (inrange : bool) (pattern : bytes) : bytes * bytes :=
  match pattern with
  | [] => ([], [])
  | c :: p =>
      if c =? ch_bslash then
        match p with
        | [] => ([c], [])
        | d :: p => let '(ch, r) := scan inrange p in (c :: d :: ch, r)
        end
      else if (c =? ch_star) && negb inrange then ([], pattern)
      else
        let inrange' := if c =? ch_lbrack then true else if c =? ch_rbrack then false else inrange in
        let '(ch, r) := scan inrange' p in (c :: ch, r)
  end.

Definition scanChunk (pattern : bytes) : bool * bytes * bytes :=
  let '(star, p) := skip_stars pattern in
  let '(chunk, rest) := scan false p in (star, chunk, rest).

(** ** getEsc: one, possibly escaped, rune of a character class *)

Definition getEsc (chunk : bytes) : option (Z * bytes) :=
  match chunk with
  | [] => None
  | c :: chunk' =>
      if (c =? ch_minus) || (c =? ch_rbrack) then None
      else
        let chunk := if c =? ch_bslash then chunk' else chunk in
        match chunk with
        | [] => None
        | _ =>
            let '(r, n) := utf8.DecodeRune chunk in
            if (r =? utf8.RuneError) && Nat.eqb n 1 then None
            else
              let nchunk := drop n chunk in
              if bool_decide (nchunk = []) then None else Some (r, nchunk)
        end
  end.

(** ** matchChunk *)

(** The ranges of a class up to its closing bracket: whether [r] is in one of them, and the rest of
    the chunk.  Every range takes at least one byte. *)
Fixpoint match_ranges (fuel : nat) (r : Z) (nrange : nat) (mat : bool) (chunk : bytes) :
    option (bool * bytes) :=
  match fuel with
  | O => None
  | S fuel =>
      match chunk with
      | c :: chunk' =>
          if (c =? ch_rbrack) && Nat.ltb 0 nrange then Some (mat, chunk')
          else
            match getEsc chunk with
            | None => None
            | Some (lo, chunk) =>
                match chunk with
                | d :: chunk' =>
                    if d =? ch_minus then
                      match getEsc chunk' with
                      | None => None
                      | Some (hi, chunk) =>
                          match_ranges fuel r (S nrange) (mat || (lo <=? r) && (r <=? hi)) chunk
                      end
                    else match_ranges fuel r (S nrange) (mat || (lo <=? r) && (r <=? lo)) chunk
                | [] => None
                end
            end
      | [] => None
      end
  end.

Inductive chunk_result :=
| Bad
| NoMatch
| Matched (rest : bytes).

(** After a failed match the loop goes on checking the syntax of the chunk, no longer reading
    [s]. *)
Fixpoint match_chunk (fuel : nat) (failed : bool) (chunk s : bytes) : chunk_result :=
  match fuel with
  | O => if failed then NoMatch else Matched s
  | S fuel =>
      match chunk with
      | [] => if failed then NoMatch else Matched s
      | c :: chunk' =>
          let failed := failed || bool_decide (s = []) in
          if c =? ch_lbrack then
            let '(r, n) := if failed then (0, 0%nat) else utf8.DecodeRune s in
            let s := drop n s in
            let '(negated, chunk') :=
              match chunk' with
              | d :: chunk'' => if d =? ch_caret then (true, chunk'') else (false, chunk')
              | [] => (false, chunk')
              end in
            match match_ranges (S (length chunk')) r 0 false chunk' with
            | None => Bad
            | Some (mat, chunk') => match_chunk fuel (failed || eqb mat negated) chunk' s
            end
          else if c =? ch_quest then
            if failed then match_chunk fuel true chunk' s
            else match_chunk fuel (default 0 (head s) =? Separator) chunk'
                   (drop (utf8.DecodeRune s).2 s)
          else
            let lit chunk :=
              match chunk with
              | [] => Bad
              | c :: chunk' =>
                  if failed then match_chunk fuel true chunk' s
                  else match_chunk fuel (negb (c =? default 0 (head s))) chunk' (tail s)
              end in
            if c =? ch_bslash then lit chunk' else lit chunk
      end
  end.

Definition matchChunk (chunk s : bytes) : chunk_result :=
  match_chunk (length chunk) false chunk s.

(** ** Match *)

(** Look for the chunk after skipping bytes of the name up to a separator.  [None]: bad pattern;
    [Some None]: not found. *)
Fixpoint try_skip (chunk : bytes) (last_chunk : bool) (name : bytes) : option (option bytes) :=
  match name with
  | [] => Some None
  | c :: name =>
      if c =? Separator then Some None
      else
        match matchChunk chunk name with
        | Matched t =>
            if last_chunk && negb (bool_decide (t = [])) then try_skip chunk last_chunk name
            else Some (Some t)
        | Bad => None
        | NoMatch => try_skip chunk last_chunk name
        end
  end.

(** The syntax check of the remaining pattern before a mismatch is reported. *)
Fixpoint check_rest (fuel : nat) (pattern : bytes) : option bool :=
  match fuel with
  | O => Some false
  | S fuel =>
      match pattern with
      | [] => Some false
      | _ =>
          let '(_, chunk, pattern) := scanChunk pattern in
          match matchChunk chunk [] with
          | Bad => None
          | _ => check_rest fuel pattern
          end
      end
  end.

Fixpoint match_loop (fuel : nat) (pattern name : bytes) : option bool :=
  match fuel with
  | O => Some (bool_decide (name = []))
  | S fuel =>
      match pattern with
      | [] => Some (bool_decide (name = []))
      | _ =>
          let '(star, chunk, pattern) := scanChunk pattern in
          if star && bool_decide (chunk = []) then Some (negb (strings.ContainsByte name Separator))
          else
            let mismatch :=
              match
                if star then try_skip chunk (bool_decide (pattern = [])) name else Some None
              with
              | None => None
              | Some (Some t) => match_loop fuel pattern t
              | Some None => check_rest fuel pattern
              end in
            match matchChunk chunk name with
            | Matched t =>
                if bool_decide (t = []) || negb (bool_decide (pattern = [])) then
                  match_loop fuel pattern t
                else mismatch
            | Bad => None
            | NoMatch => mismatch
            end
      end
  end.

(** [filepath.Match]. *)
Definition Match (pattern name : bytes) : option bool := match_loop (length pattern) pattern name.

End filepath.

(** ** pkg/glob *)

Module glob.

Definition Validate (pattern : bytes) : result unit :=
  if bool_decide (pattern = []) then Err "empty glob"
  else
    match filepath.Match pattern [] with
    | None => Err "invalid glob"
    | Some _ =>
        match filepath.Match pattern pattern with
        | None => Err "invalid glob"
        | Some _ => Ok ()
        end
    end.

Definition Match (pattern s : bytes) : bool :=
  match filepath.Match pattern s with Some ok => ok | None => false end.

End glob.

(** ** Lemmas *)

Import filepath.

(** Whether a class is well formed, and where it ends, does not depend on the rune tested. *)
Lemma match_ranges_syntax fuel r r' nrange mat mat' chunk :
  match match_ranges fuel r nrange mat chunk, match_ranges fuel r' nrange mat' chunk with
  | Some (_, rest), Some (_, rest') => rest = rest'
  | None, None => True
  | _, _ => False
  end.
Proof.
  revert nrange mat mat' chunk. induction fuel as [|fuel IH]; intros nrange mat mat' chunk; simpl; [done|].
  destruct chunk as [|c chunk']; [done|]. destruct ((c =? ch_rbrack) && Nat.ltb 0 nrange); [done|].
  destruct (getEsc (c :: chunk')) as [[lo [|d chunk]]|]; [done| |done].
  destruct (d =? ch_minus); [|apply IH]. destruct (getEsc chunk) as [[hi ?]|]; [apply IH|done].
Qed.

(** Whether a chunk is well formed does not depend on the text it is matched against. *)
Lemma match_chunk_syntax fuel failed failed' chunk s s' :
  match_chunk fuel failed chunk s = Bad → match_chunk fuel failed' chunk s' = Bad.
Proof.
  revert failed failed' chunk s s'. induction fuel as [|fuel IH]; intros failed failed' chunk s s';
    cbn [match_chunk]; [by destruct failed|].
  destruct chunk as [|c chunk]; [by destruct failed|].
  destruct (c =? ch_lbrack).
  - destruct (if failed || _ then _ else _) as [r n].
    destruct (if failed' || _ then _ else _) as [r' n'].
    destruct (match chunk with [] => _ | _ :: _ => _ end) as [neg chunk'].
    pose proof (match_ranges_syntax (S (length chunk')) r r' 0 false false chunk') as Hr.
    destruct (match_ranges _ r _ _ _) as [[m rest]|], (match_ranges _ r' _ _ _) as [[m' rest']|];
      try done. subst rest'. apply IH.
  - destruct (c =? ch_quest); [repeat case_match; apply IH|].
    destruct (c =? ch_bslash); [destruct chunk; [done|]|]; repeat case_match; apply IH.
Qed.

Lemma matchChunk_syntax chunk s s' : matchChunk chunk s = Bad → matchChunk chunk s' = Bad.
Proof. apply match_chunk_syntax. Qed.

(** A failed match stays failed. *)
Lemma match_chunk_failed fuel chunk s rest : match_chunk fuel true chunk s ≠ Matched rest.
Proof.
  revert chunk s. induction fuel as [|fuel IH]; intros chunk s; cbn [match_chunk orb]; [done|].
  destruct chunk as [|c chunk]; [done|]. repeat case_match; done || apply IH.
Qed.

(** A non empty chunk needs text. *)
Lemma matchChunk_empty_text chunk rest : chunk ≠ [] → matchChunk chunk [] ≠ Matched rest.
Proof.
  intros Hne. unfold matchChunk. destruct chunk as [|c chunk]; [done|]. cbn [length match_chunk].
  rewrite (bool_decide_eq_true_2 ([] = [])) by done. cbn [orb].
  repeat case_match; done || apply match_chunk_failed.
Qed.

(** ** Chunks of a pattern *)

Lemma skip_stars_spec p :
  let '(star, q) := skip_stars p in
  head q ≠ Some ch_star ∧ (length q ≤ length p)%nat ∧ (star = false → q = p) ∧
  (star = true → (length q < length p)%nat).
Proof.
  induction p as [|c p IH]; simpl; [done|]. destruct (Z.eqb_spec c ch_star) as [E|E].
  - destruct (skip_stars p) as [star q]. simpl. destruct IH as (H1 & H2 & _). repeat split; try done; lia.
  - simpl. repeat split; try done; congruence.
Qed.

Lemma scan_length inrange p :
  (length (scan inrange p).1 + length (scan inrange p).2 = length p)%nat.
Proof.
  revert inrange. induction p as [p IH] using (induction_ltof1 _ (@length Z)); unfold ltof in IH.
  intros inrange. destruct p as [|c p]; [done|]. cbn [scan].
  destruct (c =? ch_bslash).
  { destruct p as [|d p]; [done|]. pose proof (IH p ltac:(simpl; lia) inrange) as H.
    destruct (scan inrange p) as [ch r]. simpl in *. lia. }
  destruct ((c =? ch_star) && negb inrange); [done|].
  match goal with |- context [scan ?b p] =>
    pose proof (IH p ltac:(simpl; lia) b) as H; destruct (scan b p) as [ch r] end.
  simpl in *. lia.
Qed.

Lemma scan_empty_chunk p rest : scan false p = ([], rest) → p = [] ∨ head p = Some ch_star.
Proof.
  destruct p as [|c p]; [by left|]. cbn [scan]. destruct (c =? ch_bslash).
  { destruct p as [|d p]; [done|]. by destruct (scan false p). }
  destruct (Z.eqb_spec c ch_star) as [->|]; [by right|]. cbn [andb].
  match goal with |- context [scan ?b p] => by destruct (scan b p) end.
Qed.

(** A chunk is empty only at the end of a pattern that ends in stars; otherwise the rest of the
    pattern is shorter. *)
Lemma scanChunk_spec p star chunk rest :
  p ≠ [] → scanChunk p = (star, chunk, rest) →
  (length rest < length p)%nat ∧ (chunk = [] → star = true ∧ rest = []).
Proof.
  intros Hne. unfold scanChunk. pose proof (skip_stars_spec p) as Hs.
  destruct (skip_stars p) as [star' q]. destruct Hs as (H1 & H2 & H3 & H4).
  pose proof (scan_length false q) as Hl. pose proof (scan_empty_chunk q) as He.
  destruct (scan false q) as [chunk' rest'] eqn:E. intros [= -> -> ->]. simpl in Hl. split.
  - destruct star; [specialize (H4 eq_refl); lia|]. rewrite (H3 eq_refl) in *.
    destruct chunk; [|simpl in Hl; lia]. by destruct (He rest eq_refl).
  - intros ->. destruct (He rest eq_refl) as [->|Hh]; [|done].
    simpl in Hl. destruct rest; [|simpl in Hl; lia]. split; [|done].
    destruct star; [done|]. by rewrite (H3 eq_refl) in Hne.
Qed.

(** ** Syntax errors do not depend on the name *)

Lemma check_rest_step fuel p star chunk rest :
  p ≠ [] → scanChunk p = (star, chunk, rest) →
  check_rest (S fuel) p =
  match matchChunk chunk [] with Bad => None | _ => check_rest fuel rest end.
Proof. intros Hne E. cbn [check_rest]. rewrite E. by destruct p. Qed.

Lemma match_loop_step fuel p name star chunk rest :
  p ≠ [] → scanChunk p = (star, chunk, rest) →
  match_loop (S fuel) p name =
  if star && bool_decide (chunk = []) then Some (negb (strings.ContainsByte name Separator))
  else
    let mismatch :=
      match if star then try_skip chunk (bool_decide (rest = [])) name else Some None with
      | None => None
      | Some (Some t) => match_loop fuel rest t
      | Some None => check_rest fuel rest
      end in
    match matchChunk chunk name with
    | Matched t =>
        if bool_decide (t = []) || negb (bool_decide (rest = [])) then match_loop fuel rest t
        else mismatch
    | Bad => None
    | NoMatch => mismatch
    end.
Proof. intros Hne E. cbn [match_loop]. rewrite E. by destruct p. Qed.

Lemma try_skip_bad chunk last_chunk name :
  try_skip chunk last_chunk name = None → matchChunk chunk [] = Bad.
Proof.
  induction name as [|c name IH]; simpl; [done|]. destruct (c =? Separator); [done|].
  destruct (matchChunk chunk name) eqn:E; [intros _; by eapply matchChunk_syntax|done|].
  by destruct (last_chunk && _).
Qed.

(** A match that fails on the pattern fails the syntax check. *)
Lemma match_loop_bad fuel p name :
  match_loop fuel p name = None → check_rest fuel p = None.
Proof.
  revert p name. induction fuel as [|fuel IH]; intros p name; [done|].
  destruct (decide (p = [])) as [->|Hne]; [done|].
  destruct (scanChunk p) as [[star chunk] rest] eqn:E.
  rewrite (match_loop_step _ _ _ _ _ _ Hne E), (check_rest_step _ _ _ _ _ Hne E).
  destruct (star && bool_decide (chunk = [])); [done|]. cbv zeta.
  assert (Hmis : match if star then try_skip chunk (bool_decide (rest = [])) name else Some None with
      | None => None
      | Some (Some t) => match_loop fuel rest t
      | Some None => check_rest fuel rest
      end = None → match matchChunk chunk [] with Bad => None | _ => check_rest fuel rest end = None).
  { destruct star.
    - destruct (try_skip _ _ _) as [[t|]|] eqn:Et.
      + intros ->%IH. by destruct (matchChunk chunk []).
      + intros ->. by destruct (matchChunk chunk []).
      + intros _. by rewrite (try_skip_bad _ _ _ Et).
    - intros ->. by destruct (matchChunk chunk []). }
  destruct (matchChunk chunk name) as [| |t] eqn:Em; [|exact Hmis|].
  - intros _. by rewrite (matchChunk_syntax _ _ [] Em).
  - destruct (_ || _); [|exact Hmis]. intros ->%IH. by destruct (matchChunk chunk []).
Qed.

(** The empty name reaches every chunk of the pattern. *)
Lemma match_loop_empty_name fuel p :
  check_rest fuel p = None → match_loop fuel p [] = None.
Proof.
  destruct fuel as [|fuel]; [done|]. destruct (decide (p = [])) as [->|Hne]; [done|].
  destruct (scanChunk p) as [[star chunk] rest] eqn:E.
  rewrite (match_loop_step _ _ _ _ _ _ Hne E), (check_rest_step _ _ _ _ _ Hne E).
  destruct (scanChunk_spec _ _ _ _ Hne E) as [_ Hc].
  destruct (decide (chunk = [])) as [->|Hch].
  { destruct (Hc eq_refl) as [-> ->]. simpl. destruct fuel; done. }
  rewrite (bool_decide_eq_false_2 _ Hch), andb_false_r. cbv zeta.
  pose proof (matchChunk_empty_text chunk) as Hm.
  destruct (matchChunk chunk []) as [| |t]; [done| |by destruct (Hm t)].
  intros ->. by destruct star.
Qed.

Lemma Match_bad_iff p : (∃ s, filepath.Match p s = None) ↔ filepath.Match p [] = None.
Proof.
  unfold filepath.Match. split; [intros [s Hs]|by eexists].
  by eapply match_loop_empty_name, match_loop_bad.
Qed.

Lemma Validate_ok p :
  glob.Validate p = Ok () ↔ p ≠ [] ∧ ∀ s, filepath.Match p s ≠ None.
Proof.
  unfold glob.Validate. destruct (decide (p = [])) as [->|Hne].
  { rewrite bool_decide_eq_true_2 by done. split; [done|by intros [? _]]. }
  rewrite bool_decide_eq_false_2 by done. split.
  - intros H. split; [done|]. intros s Hs. destruct (filepath.Match p []) eqn:E; [|done].
    rewrite (proj1 (Match_bad_iff p)) in E; [done|by eexists].
  - intros [_ H]. destruct (filepath.Match p []) eqn:E1; [|by apply H in E1].
    destruct (filepath.Match p p) eqn:E2; [done|by apply H in E2].
Qed.

Lemma Validate_err p : glob.Validate p ≠ Ok () → p = [] ∨ filepath.Match p [] = None.
Proof.
  intros H. destruct (decide (p = [])); [by left|right].
  apply dec_stable. intros Hm. apply H, Validate_ok. split; [done|].
  intros s Hs. apply Hm, Match_bad_iff. by eexists.
Qed.

(** ** The fuel is enough

    Every round of each loop takes at least one byte of the pattern, so more fuel than its length
    changes nothing. *)

Lemma getEsc_length chunk r rest : getEsc chunk = Some (r, rest) → (length rest < length chunk)%nat.
Proof.
  unfold getEsc. destruct chunk as [|c chunk]; [done|]. destruct (_ || _); [done|].
  assert (H : (length (if (c =? ch_bslash)%Z then chunk else c :: chunk) ≤ length (c :: chunk))%nat).
  { destruct (c =? ch_bslash); simpl; lia. }
  destruct (if c =? ch_bslash then chunk else c :: chunk) as [|d ds] eqn:E; [done|].
  pose proof (utf8.DecodeRune_width (d :: ds) ltac:(done)) as Hw.
  destruct (utf8.DecodeRune (d :: ds)) as [r' n]. simpl in Hw.
  destruct (_ && _); [done|]. case_bool_decide; [done|]. intros [= <- <-].
  rewrite length_drop. simpl in *. lia.
Qed.

Lemma match_ranges_length fuel r nrange mat chunk m rest :
  match_ranges fuel r nrange mat chunk = Some (m, rest) → (length rest < length chunk)%nat.
Proof.
  revert nrange mat chunk. induction fuel as [|fuel IH]; intros nrange mat chunk; simpl; [done|].
  destruct chunk as [|c chunk]; [done|]. destruct (_ && _); [intros [= <- <-]; simpl; lia|].
  destruct (getEsc (c :: chunk)) as [[lo [|d ch]]|] eqn:E1; [done| |done].
  apply getEsc_length in E1. destruct (d =? ch_minus); [|intros H%IH; lia].
  destruct (getEsc ch) as [[hi ch']|] eqn:E2; [|done]. apply getEsc_length in E2.
  intros H%IH. simpl in *. lia.
Qed.

Lemma match_ranges_fuel fuel fuel' r nrange mat chunk :
  (length chunk < fuel)%nat → (length chunk < fuel')%nat →
  match_ranges fuel r nrange mat chunk = match_ranges fuel' r nrange mat chunk.
Proof.
  revert fuel' nrange mat chunk. induction fuel as [|fuel IH]; intros [|fuel'] nrange mat chunk H H';
    try lia. cbn [match_ranges]. destruct chunk as [|c chunk]; [done|]. destruct (_ && _); [done|].
  destruct (getEsc (c :: chunk)) as [[lo [|d ch]]|] eqn:E1; [done| |done].
  apply getEsc_length in E1. destruct (d =? ch_minus); [|apply IH; simpl in *; lia].
  destruct (getEsc ch) as [[hi ch']|] eqn:E2; [|done]. apply getEsc_length in E2.
  apply IH; simpl in *; lia.
Qed.

Lemma match_chunk_fuel fuel fuel' failed chunk s :
  (length chunk ≤ fuel)%nat → (length chunk ≤ fuel')%nat →
  match_chunk fuel failed chunk s = match_chunk fuel' failed chunk s.
Proof.
  revert fuel' failed chunk s. induction fuel as [|fuel IH]; intros [|fuel'] failed chunk s H H';
    (destruct chunk as [|c chunk]; [done|]); cbn [length] in *; try lia. cbn [match_chunk].
  destruct (c =? ch_lbrack).
  - destruct (if failed || _ then _ else _) as [r n].
    assert (Hl : (length (match chunk with
      | [] => (false, chunk)
      | d :: chunk'' => if (d =? ch_caret)%Z then (true, chunk'') else (false, chunk)
      end).2 ≤ length chunk)%nat).
    { destruct chunk as [|d ds]; [done|]. destruct (d =? ch_caret); simpl; lia. }
    destruct (match chunk with [] => _ | _ :: _ => _ end) as [neg chunk']. simpl in Hl.
    destruct (match_ranges _ r _ _ _) as [[m rest]|] eqn:Em; [|done].
    apply match_ranges_length in Em. apply IH; lia.
  - destruct (c =? ch_quest); [repeat case_match; apply IH; lia|].
    destruct (c =? ch_bslash); [destruct chunk; [done|]|]; repeat case_match; apply IH;
      simpl in *; lia.
Qed.

Lemma check_rest_fuel fuel fuel' p :
  (length p ≤ fuel)%nat → (length p ≤ fuel')%nat → check_rest fuel p = check_rest fuel' p.
Proof.
  revert fuel' p. induction fuel as [|fuel IH]; intros [|fuel'] p H H';
    (destruct (decide (p = [])) as [->|Hne]; [done|]); try (destruct p; simpl in *; lia || done).
  destruct (scanChunk p) as [[star chunk] rest] eqn:E.
  rewrite !(check_rest_step _ _ _ _ _ Hne E).
  destruct (scanChunk_spec _ _ _ _ Hne E) as [Hl _]. by rewrite (IH fuel' rest) by lia.
Qed.

Lemma match_loop_fuel fuel fuel' p name :
  (length p ≤ fuel)%nat → (length p ≤ fuel')%nat → match_loop fuel p name = match_loop fuel' p name.
Proof.
  revert fuel' p name. induction fuel as [|fuel IH]; intros [|fuel'] p name H H';
    (destruct (decide (p = [])) as [->|Hne]; [done|]); try (destruct p; simpl in *; lia || done).
  destruct (scanChunk p) as [[star chunk] rest] eqn:E.
  rewrite !(match_loop_step _ _ _ _ _ _ Hne E).
  destruct (scanChunk_spec _ _ _ _ Hne E) as [Hl _].
  rewrite (check_rest_fuel fuel fuel' rest) by lia. cbv zeta.
  destruct (star && _); [done|]. destruct (matchChunk chunk name); [done|..];
    repeat case_match; done || apply IH; lia.
Qed.

(** ** Properties *)

(** load-time validation is complete.  A pattern that passes [Validate] is non empty and no text
    whatsoever makes [filepath.Match] report it malformed, so the silent "error is a non match" of
    [glob.Match] never hides a bad pattern; a pattern that some text reveals to be malformed is
    rejected, already by the probe with the empty string. *)
Theorem glob_validate_complete (pattern : bytes) :
  (glob.Validate pattern = Ok () ↔ pattern ≠ [] ∧ ∀ s, filepath.Match pattern s ≠ None) ∧
  ((∃ s, filepath.Match pattern s = None) → filepath.Match pattern [] = None).
Proof. split; [apply Validate_ok|apply Match_bad_iff]. Qed.

Example glob_validate_examples :
  glob.Validate (lit "eth[0-3]*") = Ok () ∧ glob.Match (lit "eth[0-3]*") (lit "eth2.100") = true ∧
  glob.Match (lit "eth[0-3]*") (lit "eth7") = false ∧
  glob.Validate (lit "eth*[") = Err "invalid glob" ∧ glob.Validate (lit "a\") = Err "invalid glob" ∧
  glob.Match (lit "02:00:00:*") (lit "02:00:00:aa:bb:cc") = true ∧
  glob.Match (lit "br-?an*") (lit "br-lan0") = true.
Proof. repeat split; vm_compute; reflexivity. Qed.
