(* ===== verification/GlobSpec.v ===== *)
(** * What a shell pattern means.

    The meaning of the patterns of [pkg/glob], after the documentation of [filepath.Match]: a pattern is a
    sequence of literals, wildcards and classes, and a name matches when it can be divided among them.
    [Glob] runs the chunk-wise greedy search of the standard library; the theorem here relates the two. *)

From S2P Require Import Prelude GoStrings Glob.

Import filepath.

(** ** Patterns as tokens *)

Inductive token :=
| TLit (c : Z)
| TAny
| TClass (negated : bool) (ranges : list (Z * Z))
| TStar.

#[global] Instance token_eq_dec : EqDecision token.
Proof. solve_decision. Defined.

(** The ranges of a class, up to and including its closing bracket, and the rest of the pattern. *)
Fixpoint parse_ranges (fuel : nat) (first : bool) (p : bytes) : option (list (Z * Z) * bytes) :=
  match fuel, p with
  | S fuel, c :: p' =>
      if (c =? ch_rbrack) && negb first then Some ([], p')
      else
        '(lo, q) ← getEsc p;
        match q with
        | d :: q' =>
            if d =? ch_minus then
              '(hi, q) ← getEsc q';
              '(rs, rest) ← parse_ranges fuel false q; Some ((lo, hi) :: rs, rest)
            else '(rs, rest) ← parse_ranges fuel false q; Some ((lo, lo) :: rs, rest)
        | [] => None
        end
  | _, _ => None
  end.

(** A class after its opening bracket. *)
Definition parse_class (p : bytes) : option (token * bytes) :=
  let '(negated, p) :=
    match p with d :: p' => if d =? ch_caret then (true, p') else (false, p) | [] => (false, p) end in
  '(rs, rest) ← parse_ranges (S (length p)) true p; Some (TClass negated rs, rest).

Definition parse_token (p : bytes) : option (token * bytes) :=
  match p with
  | [] => None
  | c :: p' =>
      if c =? ch_star then Some (TStar, p')
      else if c =? ch_lbrack then parse_class p'
      else if c =? ch_quest then Some (TAny, p')
      else if c =? ch_bslash then match p' with [] => None | d :: p'' => Some (TLit d, p'') end
      else Some (TLit c, p')
  end.

Fixpoint parse_tokens (fuel : nat) (p : bytes) : option (list token) :=
  match fuel, p with
  | _, [] => Some []
  | S fuel, _ => '(t, p') ← parse_token p; ts ← parse_tokens fuel p'; Some (t :: ts)
  | O, _ => None
  end.

(** Every token takes at least one byte, so the length of the pattern is fuel enough. *)
Definition parse (p : bytes) : option (list token) := parse_tokens (length p) p.

(** ** Matching *)

Definition in_ranges (r : Z) (rs : list (Z * Z)) : bool := existsb (λ '(lo, hi), (lo <=? r) && (r <=? hi)) rs.

(** What is left of the text after one rune. *)
Definition rest_of (s : bytes) : bytes := drop (utf8.DecodeRune s).2 s.

Inductive matches : list token → bytes → Prop :=
| matches_end : matches [] []
| matches_lit c ts s : matches ts s → matches (TLit c :: ts) (c :: s)
| matches_any ts s :
    s ≠ [] → head s ≠ Some Separator → matches ts (rest_of s) → matches (TAny :: ts) s
| matches_class negated rs ts s :
    s ≠ [] → in_ranges (utf8.DecodeRune s).1 rs = negb negated → matches ts (rest_of s) →
    matches (TClass negated rs :: ts) s
| matches_star ts pre s : Separator ∉ pre → matches ts s → matches (TStar :: ts) (pre ++ s).

(** A text of single byte characters without separators, such as an interface name or a MAC. *)
Definition plain (s : bytes) : Prop := Forall (λ b, b < 128 ∧ b ≠ Separator) s.

(** What one token other than a star leaves of a text, if it accepts its beginning. *)
Definition take_token (t : token) (s : bytes) : option bytes :=
  match t, s with
  | TLit c, b :: s' => if c =? b then Some s' else None
  | TAny, b :: _ => if b =? Separator then None else Some (rest_of s)
  | TClass negated rs, _ :: _ =>
      if eqb (in_ranges (utf8.DecodeRune s).1 rs) negated then None else Some (rest_of s)
  | _, _ => None
  end.

(** The tokens of a chunk, which has no star, take a prefix of the text in the only possible way. *)
Fixpoint consume (ts : list token) (s : bytes) : option bytes :=
  match ts with
  | [] => Some s
  | t :: ts => s' ← take_token t s; consume ts s'
  end.

(** ** Parsing is local *)

(** A valid encoding is decoded the same whatever follows it, and is one ASCII byte or has none. *)
Lemma DecodeRune_local p r n :
  utf8.DecodeRune p = (r, n) → p ≠ [] → ¬ (r = utf8.RuneError ∧ n = 1%nat) →
  ∃ x, p = x ++ drop n p ∧ (∀ y, utf8.DecodeRune (x ++ y) = (r, n) ∧ drop n (x ++ y) = y) ∧
       ((∃ b, x = [b] ∧ b < 128) ∨ x ≠ [] ∧ Forall (λ b, 128 ≤ b) x).
Proof.
  intros E Hne Hok. destruct p as [|b0 p]; [done|]. unfold utf8.DecodeRune in E.
  destruct (Z.ltb_spec b0 128) as [Hlt|Hge].
  { injection E as <- <-. exists [b0]. split; [done|]. split; [|left; eauto].
    intros y. cbn [app]. by rewrite utf8.DecodeRune_ascii by done. }
  destruct (utf8.first_info b0) as [[[k lo] hi]|] eqn:Ef; [|by injection E as <- <-; destruct Hok].
  assert (Hlo : 128 ≤ lo) by (unfold utf8.first_info in Ef; repeat case_match; simplify_eq; lia).
  assert (Hbad : (utf8.RuneError, 1%nat) = (r, n) → False) by (intros [= <- <-]; by apply Hok).
  destruct k as [|[|[|[|[|k]]]]], p as [|b1 [|b2 [|b3 p]]]; try (by destruct (Hbad E));
    (destruct (_ && _) eqn:Er in E || destruct (utf8.in_range lo hi b1) eqn:Er in E); try (by destruct (Hbad E));
    injection E as <- <-;
    match goal with |- ∃ x, ?p = x ++ drop ?n _ ∧ _ => exists (take n p) end;
    (split; [done|split; [|right; split; [done|]]]);
    try (intros y; unfold utf8.DecodeRune; cbn [take app];
         by rewrite (proj2 (Z.ltb_ge _ _) Hge), Ef, Er);
    unfold utf8.in_range in Er; rewrite ?andb_true_iff, ?Z.leb_le in Er; repeat constructor; lia.
Qed.

(** Bytes outside ASCII belong to the chunk. *)
Lemma scan_high b x y :
  Forall (λ c, 128 ≤ c) x → scan b (x ++ y) = (x ++ (scan b y).1, (scan b y).2).
Proof.
  induction 1 as [|c x Hc _ IH]; [cbn [app]; by destruct (scan b y)|]. cbn [app scan].
  unfold ch_bslash, ch_star, ch_lbrack, ch_rbrack. case_zs; try lia. cbn [andb]. by rewrite IH.
Qed.

(** The rune at the head of a chunk, and what follows it. *)
Definition rune_and_rest (chunk : bytes) : option (Z * bytes) :=
  match chunk with
  | [] => None
  | _ =>
      let '(r, n) := utf8.DecodeRune chunk in
      if (r =? utf8.RuneError) && Nat.eqb n 1 then None
      else if bool_decide (drop n chunk = []) then None else Some (r, drop n chunk)
  end.

Lemma getEsc_cons c p :
  getEsc (c :: p) =
  if (c =? ch_minus) || (c =? ch_rbrack) then None
  else rune_and_rest (if c =? ch_bslash then p else c :: p).
Proof. done. Qed.

Lemma rune_and_rest_local p r q :
  rune_and_rest p = Some (r, q) →
  ∃ x, p = x ++ q ∧ (∀ y, y ≠ [] → rune_and_rest (x ++ y) = Some (r, y)) ∧
       ((∃ b, x = [b] ∧ b < 128) ∨ x ≠ [] ∧ Forall (λ b, 128 ≤ b) x).
Proof.
  unfold rune_and_rest at 1. destruct (decide (p = [])) as [->|Hne]; [done|].
  destruct (utf8.DecodeRune p) as [r' n] eqn:E. intros Heq.
  assert (Hv : ((r' =? utf8.RuneError) && Nat.eqb n 1) = false ∧ r' = r ∧ drop n p = q).
  { destruct p; [done|]. destruct (_ && _); [done|]. case_bool_decide; [done|]. by injection Heq as <- <-. }
  destruct Hv as (Hv & -> & <-). destruct (DecodeRune_local p r n E Hne) as (x & Hx & Hl & Hs).
  { intros [-> ->]. done. }
  exists x. split; [done|]. split; [|done]. intros y Hy. destruct (Hl y) as [E1 E2]. unfold rune_and_rest.
  rewrite E1, Hv, E2, bool_decide_eq_false_2 by done.
  by destruct (x ++ y) as [|? ?] eqn:E3; [apply app_eq_nil in E3 as [_ ?]|].
Qed.

(** The bytes of one rune of a class: what follows does not matter, and the scan stays in the class. *)
Lemma getEsc_local p r q :
  getEsc p = Some (r, q) →
  ∃ x, p = x ++ q ∧ x ≠ [] ∧ (∀ y, y ≠ [] → getEsc (x ++ y) = Some (r, y)) ∧
       ∀ y, scan true (x ++ y) = (x ++ (scan true y).1, (scan true y).2).
Proof.
  destruct p as [|c p]; [done|]. rewrite getEsc_cons.
  destruct ((c =? ch_minus) || (c =? ch_rbrack)) eqn:Ec; [done|].
  destruct (c =? ch_bslash) eqn:Es; intros (x & Hx & Hl & Hs)%rune_and_rest_local.
  - exists (c :: x). rewrite Hx. split; [done|]. split; [done|]. split.
    + intros y Hy. cbn [app]. rewrite getEsc_cons, Ec, Es. by apply Hl.
    + intros y. cbn [app scan]. rewrite Es. destruct Hs as [(b & -> & _)|[Hne Hh]].
      { cbn [app]. by destruct (scan true y). }
      destruct x as [|b x]; [done|]. apply Forall_cons in Hh as [_ Hh]. cbn [app].
      by rewrite (scan_high true x y Hh).
  - exists x. split; [done|]. assert (Hc : ∃ x', x = c :: x').
    { destruct Hs as [(b & -> & _)|[Hne _]]; [|destruct x as [|b x]; [done|]];
        cbn [app] in Hx; injection Hx as <- _; eauto. }
    destruct Hc as [x' ->]. split; [done|]. split.
    + intros y Hy. cbn [app]. rewrite getEsc_cons, Ec, Es. by apply (Hl y).
    + intros y. destruct Hs as [(b & [= -> ->] & _)|[_ Hh]]; [|by apply scan_high].
      cbn [app scan]. rewrite Es, andb_false_r. apply orb_false_iff in Ec as [_ ->].
      destruct (b =? ch_lbrack); by destruct (scan true y).
Qed.

Lemma parse_ranges_local fuel first p rs rest :
  parse_ranges fuel first p = Some (rs, rest) →
  ∃ x, p = x ++ rest ∧ x ≠ [] ∧
    (∀ y fuel', (length (x ++ y) < fuel')%nat → parse_ranges fuel' first (x ++ y) = Some (rs, y)) ∧
    ∀ y, scan true (x ++ y) = (x ++ (scan false y).1, (scan false y).2).
Proof.
  revert first p rs. induction fuel as [|fuel IH]; intros first p rs; [done|]. destruct p as [|c p]; [done|].
  cbn [parse_ranges]. destruct ((c =? ch_rbrack) && negb first) eqn:Ec.
  { intros [= <- <-]. exists [c]. split; [done|]. split; [done|]. apply andb_true_iff in Ec as [Er Ef]. split.
    - intros y [|fuel'] Hf; [lia|]. cbn [app parse_ranges]. by rewrite Er, Ef.
    - intros y. apply Z.eqb_eq in Er as ->. cbn. by destruct (scan false y). }
  destruct (getEsc (c :: p)) as [[lo [|d q]]|] eqn:E1; [done| |done]. cbn [mbind option_bind].
  apply getEsc_local in E1 as (x1 & Hp1 & Hn1 & Hl1 & Hs1). rewrite Hp1.
  assert (Hstep : ∀ z, ∃ c' p', x1 ++ z = c' :: p' ∧ ((c' =? ch_rbrack) && negb first) = false).
  { destruct x1 as [|c1 x1]; [done|]. injection Hp1 as <- _. intros z. eexists _, _. done. }
  assert (Hunf : ∀ z fuel', parse_ranges (S fuel') first (x1 ++ z) =
    '(lo, q) ← getEsc (x1 ++ z);
     match q with
     | d :: q' => if d =? ch_minus then
                    '(hi, q) ← getEsc q'; '(rs, rest) ← parse_ranges fuel' false q; Some ((lo, hi) :: rs, rest)
                  else '(rs, rest) ← parse_ranges fuel' false q; Some ((lo, lo) :: rs, rest)
     | [] => None
     end).
  { intros z fuel'. destruct (Hstep z) as (c' & p' & -> & Hc'). cbn [parse_ranges]. by rewrite Hc'. }
  destruct (d =? ch_minus) eqn:Ed.
  - destruct (getEsc q) as [[hi q2]|] eqn:E2; [|done]. cbn [mbind option_bind].
    apply getEsc_local in E2 as (x2 & -> & Hn2 & Hl2 & Hs2).
    destruct (parse_ranges fuel false q2) as [[rs' rest']|] eqn:E3; [|done].
    intros [= <- <-]. apply IH in E3 as (x3 & -> & Hn3 & Hl3 & Hs3).
    exists (x1 ++ d :: x2 ++ x3). rewrite <- !app_assoc. cbn [app]. rewrite <- app_assoc.
    split; [done|]. split; [by destruct x1|]. split.
    + intros y [|fuel'] Hf; [lia|]. rewrite <- !app_assoc in *. cbn [app] in *. rewrite <- app_assoc in *.
      rewrite Hunf, Hl1 by done. cbn [mbind option_bind]. rewrite Ed, Hl2 by (by destruct x3).
      cbn [mbind option_bind]. rewrite Hl3; [done|]. rewrite !length_app in *. cbn [length] in *.
      rewrite !length_app in *. lia.
    + intros y. rewrite <- !app_assoc. cbn [app]. rewrite <- app_assoc, Hs1. cbn [scan].
      apply Z.eqb_eq in Ed as ->. cbn. by rewrite Hs2, Hs3, <- app_assoc.
  - destruct (parse_ranges fuel false (d :: q)) as [[rs' rest']|] eqn:E3; [|done].
    intros [= <- <-]. apply IH in E3 as (x3 & Hq & Hn3 & Hl3 & Hs3). rewrite Hq.
    exists (x1 ++ x3). rewrite <- !app_assoc. split; [done|]. split; [by destruct x1|]. split.
    + intros y [|fuel'] Hf; [lia|]. rewrite <- app_assoc in *. rewrite Hunf, Hl1 by (by destruct x3).
      cbn [mbind option_bind]. destruct x3 as [|d' x3]; [done|]. injection Hq as <- _. cbn [app].
      rewrite Ed. change (d :: x3 ++ y) with ((d :: x3) ++ y). rewrite Hl3; [done|].
      destruct x1; [done|]. rewrite !length_app in *. cbn [length] in *. lia.
    + intros y. by rewrite <- app_assoc, Hs1, Hs3, <- app_assoc.
Qed.

Lemma parse_class_local p t q :
  parse_class p = Some (t, q) →
  ∃ x, p = x ++ q ∧ (∀ y, parse_class (x ++ y) = Some (t, y)) ∧ t ≠ TStar ∧
       ∀ y, scan true (x ++ y) = (x ++ (scan false y).1, (scan false y).2).
Proof.
  intros Hp. assert (Hcar : ∃ neg p', parse_class p =
      ('(rs, rest) ← parse_ranges (S (length p')) true p'; Some (TClass neg rs, rest)) ∧
      (if neg then p = ch_caret :: p' else p = p' ∧ head p ≠ Some ch_caret)).
  { unfold parse_class. destruct p as [|d p]; [by exists false, []|].
    destruct (Z.eqb_spec d ch_caret) as [->|Hd]; [by exists true, p|]. exists false, (d :: p).
    split; [done|]. split; [done|]. cbn. congruence. }
  destruct Hcar as (neg & p' & Heq & Hneg). rewrite Heq in Hp.
  destruct (parse_ranges _ true p') as [[rs rest]|] eqn:Er; [|done]. injection Hp as <- <-.
  apply parse_ranges_local in Er as (x & -> & Hne & Hl & Hs). destruct neg.
  - exists (ch_caret :: x). split; [done|]. split; [|split; [done|]].
    + intros y. unfold parse_class. cbn [app]. rewrite Z.eqb_refl, Hl by lia. done.
    + intros y. cbn. by rewrite Hs.
  - destruct Hneg as [-> Hd]. exists x. split; [done|]. split; [|done]. intros y. unfold parse_class.
    destruct x as [|d x]; [done|]. cbn [app] in *. destruct (Z.eqb_spec d ch_caret) as [->|_]; [done|].
    by rewrite Hl by lia.
Qed.

(** A token is parsed the same whatever follows it, and unless it is a star the scan for the end of the
    chunk passes over it. *)
Lemma parse_token_local p t q :
  parse_token p = Some (t, q) →
  ∃ x, p = x ++ q ∧ x ≠ [] ∧ (∀ y, parse_token (x ++ y) = Some (t, y)) ∧
       (t ≠ TStar → ∀ y, scan false (x ++ y) = (x ++ (scan false y).1, (scan false y).2)).
Proof.
  destruct p as [|c p]; [done|]. cbn [parse_token].
  destruct (Z.eqb_spec c ch_star) as [->|Hs]; [intros [= <- <-]; by exists [ch_star]|].
  destruct (Z.eqb_spec c ch_lbrack) as [->|Hb].
  { intros (x & -> & Hl & Ht & Hsc)%parse_class_local. exists (ch_lbrack :: x). split; [done|]. split; [done|].
    split; [intros y; apply Hl|]. intros _ y. cbn. by rewrite Hsc. }
  destruct (Z.eqb_spec c ch_quest) as [->|Hq].
  { intros [= <- <-]. exists [ch_quest]. split_and!; try done. intros _ y. cbn. by destruct (scan false y). }
  destruct (Z.eqb_spec c ch_bslash) as [->|He].
  { destruct p as [|d p]; [done|]. intros [= <- <-]. exists [ch_bslash; d]. split_and!; try done.
    intros _ y. cbn. by destruct (scan false y). }
  intros [= <- <-]. exists [c]. split_and!; try done.
  - intros y. cbn. apply Z.eqb_neq in Hs, Hb, Hq, He. by rewrite Hs, Hb, Hq, He.
  - intros _ y. cbn [app scan]. apply Z.eqb_neq in Hs, Hb, Hq, He. rewrite He, Hs, Hb. cbn [andb].
    destruct (c =? ch_rbrack); by destruct (scan false y).
Qed.

(** ** Unfolding the parser *)

Lemma parse_token_shorter p t q : parse_token p = Some (t, q) → (length q < length p)%nat.
Proof.
  intros (x & -> & Hne & _)%parse_token_local. rewrite length_app. destruct x; [done|]. cbn. lia.
Qed.

Lemma parse_tokens_fuel fuel fuel' p :
  (length p ≤ fuel)%nat → (length p ≤ fuel')%nat → parse_tokens fuel p = parse_tokens fuel' p.
Proof.
  revert fuel' p. induction fuel as [|fuel IH]; intros [|fuel'] [|c p] H H'; cbn [length] in *; try lia; try done.
  cbn [parse_tokens]. destruct (parse_token (c :: p)) as [[t q]|] eqn:E; [|done].
  apply parse_token_shorter in E. cbn in *. by rewrite (IH fuel' q) by lia.
Qed.

Lemma parse_unfold p :
  p ≠ [] → parse p = '(t, q) ← parse_token p; ts ← parse q; Some (t :: ts).
Proof.
  destruct p as [|c p]; [done|]. intros _. unfold parse. cbn [length parse_tokens].
  destruct (parse_token (c :: p)) as [[t q]|] eqn:E; [|done]. cbn [mbind option_bind].
  apply parse_token_shorter in E. cbn in E. by rewrite (parse_tokens_fuel (length p) (length q) q) by lia.
Qed.

Lemma scan_app b p : p = (scan b p).1 ++ (scan b p).2.
Proof.
  revert b. induction p as [p IH] using (induction_ltof1 _ (@length Z)); unfold ltof in IH.
  intros b. destruct p as [|c p]; [done|]. cbn [scan]. destruct (c =? ch_bslash).
  { destruct p as [|d p]; [done|]. pose proof (IH p ltac:(cbn; lia) b) as H.
    destruct (scan b p) as [ch r]. cbn in *. by rewrite <- H. }
  destruct ((c =? ch_star) && negb b); [done|].
  match goal with |- context [scan ?b' p] =>
    pose proof (IH p ltac:(cbn; lia) b') as H; destruct (scan b' p) as [ch r] end.
  cbn in *. by rewrite <- H.
Qed.

Lemma skip_stars_app p :
  let '(star, q) := skip_stars p in
  ∃ n, p = replicate n ch_star ++ q ∧ (star = true ↔ n ≠ 0%nat) ∧ head q ≠ Some ch_star.
Proof.
  induction p as [|c p IH]; [by exists 0%nat|]. cbn [skip_stars].
  destruct (Z.eqb_spec c ch_star) as [->|Hc].
  - destruct (skip_stars p) as [star q]. destruct IH as (n & -> & _ & Hh). exists (S n). done.
  - exists 0%nat. split; [done|]. split; [done|]. cbn. congruence.
Qed.

(** ** The chunk matcher runs over the tokens *)

Lemma match_ranges_parse fuel r nrange mat chunk :
  match_ranges fuel r nrange mat chunk =
  '(rs, rest) ← parse_ranges fuel (Nat.eqb nrange 0) chunk; Some (mat || in_ranges r rs, rest).
Proof.
  revert nrange mat chunk. induction fuel as [|fuel IH]; intros nrange mat chunk; [done|].
  destruct chunk as [|c chunk]; [done|]. cbn [match_ranges parse_ranges].
  assert (Hn : Nat.ltb 0 nrange = negb (Nat.eqb nrange 0)) by by destruct nrange. rewrite Hn.
  destruct (_ && _); [cbn; by rewrite orb_false_r|].
  destruct (getEsc (c :: chunk)) as [[lo [|d q]]|]; [done| |done]. cbn [mbind option_bind].
  destruct (d =? ch_minus); [destruct (getEsc q) as [[hi q2]|]; [|done]|]; cbn [mbind option_bind];
    rewrite IH; change (Nat.eqb (S nrange) 0) with false;
    destruct (parse_ranges _ false _) as [[rs rest]|]; try done; cbn; by rewrite orb_assoc.
Qed.

(** A match that has failed no longer reads the text. *)
Lemma match_chunk_blind fuel chunk s s' : match_chunk fuel true chunk s = match_chunk fuel true chunk s'.
Proof.
  revert chunk s s'. induction fuel as [|fuel IH]; intros chunk s s'; [done|]. cbn [match_chunk orb].
  destruct chunk as [|c chunk]; [done|]. destruct (c =? ch_lbrack); [repeat case_match; done || apply IH|].
  destruct (c =? ch_quest); [apply IH|]. destruct (c =? ch_bslash); [destruct chunk; [done|]|]; apply IH.
Qed.

Lemma match_chunk_malformed fuel failed p s :
  p ≠ [] → parse_token p = None → match_chunk (S fuel) failed p s = Bad.
Proof.
  destruct p as [|c p]; [done|]. intros _. cbn [parse_token match_chunk].
  destruct (c =? ch_star); [done|]. destruct (c =? ch_lbrack).
  - destruct (if failed || _ then _ else _) as [r n]. unfold parse_class.
    destruct (match p with [] => _ | _ :: _ => _ end) as [neg p']. rewrite match_ranges_parse.
    change (Nat.eqb 0 0) with true. by destruct (parse_ranges _ true p') as [[rs rest]|].
  - destruct (c =? ch_quest); [done|]. destruct (c =? ch_bslash); [by destruct p|done].
Qed.

Lemma match_chunk_token fuel failed p t q s :
  parse_token p = Some (t, q) → t ≠ TStar →
  match_chunk (S fuel) failed p s =
  match (if failed then None else take_token t s) with
  | Some s' => match_chunk fuel false q s'
  | None => match_chunk fuel true q []
  end.
Proof.
  destruct p as [|c p]; [done|]. cbn [parse_token match_chunk].
  destruct (c =? ch_star); [by intros [= <- _]|]. destruct (c =? ch_lbrack).
  { unfold parse_class. destruct (match p with [] => _ | _ :: _ => _ end) as [neg p'].
    intros Hp _. destruct (if failed || bool_decide (s = []) then _ else _) as [r n] eqn:Ern.
    rewrite match_ranges_parse. change (Nat.eqb 0 0) with true.
    destruct (parse_ranges _ true p') as [[rs rest]|]; [|done]. cbn [mbind option_bind orb] in *.
    injection Hp as <- <-. destruct failed; cbn [orb] in *; [apply match_chunk_blind|].
    destruct s as [|b s]; [rewrite bool_decide_eq_true_2 by done; apply match_chunk_blind|].
    rewrite bool_decide_eq_false_2 in * by done. unfold take_token, rest_of. rewrite Ern. cbn [orb fst snd].
    destruct (eqb _ _); [apply match_chunk_blind|done]. }
  destruct (c =? ch_quest).
  { intros [= <- <-] _. destruct failed; [apply match_chunk_blind|]. cbn [orb].
    destruct s as [|b s]; [rewrite bool_decide_eq_true_2 by done; apply match_chunk_blind|].
    rewrite bool_decide_eq_false_2 by done. change (default 0 (head (b :: s))) with b. cbn [take_token].
    destruct (b =? Separator); [apply match_chunk_blind|done]. }
  assert (Hlit : ∀ c' q', match
      (if failed || bool_decide (s = []) then match_chunk fuel true q' s
       else match_chunk fuel (negb (c' =? default 0 (head s))) q' (tail s)) with r => r end =
    match (if failed then None else take_token (TLit c') s) with
    | Some s' => match_chunk fuel false q' s'
    | None => match_chunk fuel true q' []
    end).
  { intros c' q'. destruct failed; [apply match_chunk_blind|]. cbn [orb].
    destruct s as [|b s]; [rewrite bool_decide_eq_true_2 by done; apply match_chunk_blind|].
    rewrite bool_decide_eq_false_2 by done. change (default 0 (head (b :: s))) with b. cbn [take_token].
    destruct (c' =? b); [done|apply match_chunk_blind]. }
  destruct (c =? ch_bslash); [destruct p as [|d p]; [done|]|]; intros [= <- <-] _; apply Hlit.
Qed.

(** What the matcher makes of a chunk, when its tokens are [ots]. *)
Definition chunk_as (ots : option (list token)) (chunk : bytes) : Prop :=
  ∀ failed s, match_chunk (length chunk) failed chunk s =
    match ots with
    | None => Bad
    | Some ts =>
        match (if failed then None else consume ts s) with Some t => Matched t | None => NoMatch end
    end.

Lemma chunk_as_token p t q ots :
  parse_token p = Some (t, q) → t ≠ TStar → chunk_as ots q → chunk_as (cons t <$> ots) p.
Proof.
  intros Hp Ht Hq failed s. pose proof (parse_token_shorter _ _ _ Hp) as Hl.
  destruct (length p) as [|k]; [lia|]. rewrite (match_chunk_token k failed p t q s Hp Ht).
  assert (Hk : ∀ f s', match_chunk k f q s' = match_chunk (length q) f q s')
    by (intros; apply match_chunk_fuel; lia).
  destruct ots as [ts|]; cbn [fmap option_fmap option_map consume].
  - destruct (if failed then None else take_token t s) as [s'|] eqn:E; rewrite Hk, Hq.
    + destruct failed; [done|]. by rewrite E.
    + destruct failed; [done|]. by rewrite E.
  - destruct (if failed then None else take_token t s); by rewrite Hk, Hq.
Qed.

(** The chunk that [scan] cuts off: the pattern parses to the tokens of the chunk, none of them a star,
    and those of the rest; the matcher runs over the tokens of the chunk. *)
Lemma scan_tokens p :
  let '(chunk, rest) := scan false p in
  chunk_as (parse chunk) chunk ∧
  match parse chunk with
  | Some ts => (TStar ∉ ts) ∧ parse p = (rts ← parse rest; Some (ts ++ rts))
  | None => parse p = None
  end.
Proof.
  induction p as [p IH] using (induction_ltof1 _ (@length Z)); unfold ltof in IH.
  destruct (decide (p = [])) as [->|Hne].
  { split; [by intros [] s|]. split; [set_solver|done]. }
  destruct (parse_token p) as [[t q]|] eqn:Ep.
  - pose proof (parse_token_shorter _ _ _ Ep) as Hlt. pose proof Ep as Ep'.
    apply parse_token_local in Ep' as (x & -> & Hx & Hl & Hs). destruct (decide (t = TStar)) as [->|Ht].
    + assert (Hstar : ∃ x', x ++ q = ch_star :: x').
      { destruct x as [|c x]; [done|]. cbn [app parse_token] in *. clear -Ep.
        destruct (Z.eqb_spec c ch_star) as [->|_]; [eauto|]. destruct (c =? ch_lbrack).
        { apply parse_class_local in Ep as (? & _ & _ & ? & _). done. }
        repeat case_match; congruence. }
      destruct Hstar as [x' Heq]. rewrite Heq. change (scan false (ch_star :: x')) with ([] : bytes, ch_star :: x').
      split; [by intros [] s|]. change (parse []) with (Some [] : option (list token)).
      split; [set_solver|]. by destruct (parse (ch_star :: x')).
    + rewrite Hs by done. specialize (IH q Hlt). destruct (scan false q) as [ch r]. cbn [fst snd].
      destruct IH as [Has Hp].
      rewrite (parse_unfold (x ++ ch)), (parse_unfold (x ++ q)) by (by destruct x).
      rewrite !Hl. cbn [mbind option_bind]. split.
      { pose proof (chunk_as_token _ _ _ _ (Hl ch) Ht Has) as Hc. by destruct (parse ch). }
      destruct (parse ch) as [ts|]; cbn [mbind option_bind]; [|by rewrite Hp].
      destruct Hp as [Hn ->]. split; [set_solver|]. by destruct (parse r).
  - pose proof (scan_app false p) as Happ. pose proof (scan_empty_chunk p) as Hemp.
    destruct (scan false p) as [ch r]. cbn [fst snd] in Happ. assert (Hch : ch ≠ []).
    { intros ->. destruct (Hemp r eq_refl) as [->|Hh]; [done|].
      destruct p as [|c p]; [done|]. injection Hh as ->. done. }
    assert (Hbad : parse_token ch = None).
    { destruct (parse_token ch) as [[t q]|] eqn:Ec; [|done].
      apply parse_token_local in Ec as (x & -> & _ & Hl & _). rewrite Happ, <- app_assoc, Hl in Ep. done. }
    rewrite (parse_unfold ch Hch), (parse_unfold p Hne), Hbad, Ep. cbn. split; [|done].
    intros failed s. destruct ch as [|c ch]; [done|]. by apply match_chunk_malformed.
Qed.

Lemma scan_rest b p : (scan b p).2 = [] ∨ ∃ q, (scan b p).2 = ch_star :: q.
Proof.
  revert b. induction p as [p IH] using (induction_ltof1 _ (@length Z)); unfold ltof in IH.
  intros b. destruct p as [|c p]; [by left|]. cbn [scan]. destruct (c =? ch_bslash).
  { destruct p as [|d p]; [by left|]. pose proof (IH p ltac:(cbn; lia) b) as H. by destruct (scan b p). }
  destruct (Z.eqb_spec c ch_star) as [->|_]; [destruct b; [|right; by eexists]|]; cbn [andb negb];
    match goal with |- context [scan ?b' p] =>
      pose proof (IH p ltac:(cbn; lia) b') as H; by destruct (scan b' p) end.
Qed.

Lemma parse_stars n p : parse (replicate n ch_star ++ p) = (ts ← parse p; Some (replicate n TStar ++ ts)).
Proof.
  induction n as [|n IH]; [cbn [replicate app]; by destruct (parse p)|]. cbn [replicate app].
  rewrite parse_unfold by done. cbn [parse_token]. rewrite Z.eqb_refl. cbn [mbind option_bind].
  rewrite IH. by destruct (parse p).
Qed.

(** One round of the matcher: stars, the tokens of a chunk, and a rest that is empty or begins with a
    star. *)
Lemma scanChunk_tokens p star chunk rest :
  scanChunk p = (star, chunk, rest) →
  chunk_as (parse chunk) chunk ∧ (rest = [] ∨ ∃ q, rest = ch_star :: q) ∧
  match parse chunk with
  | Some ts => (TStar ∉ ts) ∧ ∃ n, (star = true ↔ n ≠ 0%nat) ∧
                 parse p = (rts ← parse rest; Some (replicate n TStar ++ ts ++ rts))
  | None => parse p = None
  end.
Proof.
  unfold scanChunk. pose proof (skip_stars_app p) as Hs. destruct (skip_stars p) as [star' q].
  destruct Hs as (n & -> & Hn & _). pose proof (scan_tokens q) as Ht. pose proof (scan_rest false q) as Hr.
  destruct (scan false q) as [ch r]. intros [= -> -> ->]. destruct Ht as [Has Ht]. split; [done|].
  split; [done|]. rewrite parse_stars. destruct (parse chunk) as [ts|]; [|by rewrite Ht].
  destruct Ht as [Hin ->]. split; [done|]. exists n. split; [done|]. by destruct (parse rest).
Qed.

Lemma check_rest_parse fuel p : (length p ≤ fuel)%nat → (check_rest fuel p = None ↔ parse p = None).
Proof.
  revert p. induction fuel as [|fuel IH]; intros p Hl.
  { destruct p; [done|cbn in Hl; lia]. }
  destruct (decide (p = [])) as [->|Hne]; [done|].
  destruct (scanChunk p) as [[star chunk] rest] eqn:E. rewrite (check_rest_step _ _ _ _ _ Hne E).
  destruct (scanChunk_spec _ _ _ _ Hne E) as [Hlt _].
  destruct (scanChunk_tokens _ _ _ _ E) as (Has & _ & Hp). unfold matchChunk. rewrite (Has false []).
  destruct (parse chunk) as [ts|]; [|done]. destruct Hp as (_ & n & _ & Hp).
  assert (Hc : (match match consume ts [] with Some t => Matched t | None => NoMatch end with
      | Bad => None | _ => check_rest fuel rest end) = check_rest fuel rest) by by destruct (consume ts []).
  rewrite Hc, IH, Hp by lia. by destruct (parse rest).
Qed.

(** ** Facts of the relation *)

Lemma matches_stars n ts pre s :
  (n = 0%nat → pre = []) → Separator ∉ pre → matches ts s → matches (replicate n TStar ++ ts) (pre ++ s).
Proof.
  intros H0 Hpre Hm. destruct n as [|n]; [by rewrite H0|]. cbn [replicate app].
  apply matches_star; [done|]. clear H0. induction n as [|n IH]; [done|]. cbn [replicate app].
  apply (matches_star _ [] _); [set_solver|done].
Qed.

Lemma matches_stars_inv n ts s :
  matches (replicate n TStar ++ ts) s →
  ∃ pre s', s = pre ++ s' ∧ (Separator ∉ pre) ∧ (n = 0%nat → pre = []) ∧ matches ts s'.
Proof.
  revert s. induction n as [|n IH]; intros s Hm; [exists [], s; split_and!; try done; set_solver|].
  cbn [replicate app] in Hm. inversion Hm as [| | | |? pre s0 Hpre Hm0]; subst.
  destruct (IH _ Hm0) as (pre' & s' & -> & Hpre' & _ & Hm'). exists (pre ++ pre'), s'.
  split; [by rewrite app_assoc|]. split; [set_solver|done].
Qed.

Lemma matches_token t ts s :
  t ≠ TStar → matches (t :: ts) s ↔ ∃ s', take_token t s = Some s' ∧ matches ts s'.
Proof.
  intros Ht. split.
  - intros Hm. inversion Hm as [|c ? s0 Hm0|? ? Hne Hh Hm0|neg rs ? ? Hne Hr Hm0|]; subst; try done.
    + exists s0. cbn. by rewrite Z.eqb_refl.
    + destruct s as [|b s]; [done|]. exists (rest_of (b :: s)). split; [|done]. cbn [take_token].
      destruct (Z.eqb_spec b Separator) as [->|_]; [done|done].
    + destruct s as [|b s]; [done|]. exists (rest_of (b :: s)). split; [|done]. cbn [take_token].
      rewrite Hr. by destruct neg.
  - intros (s' & Hs & Hm). destruct t as [c| |neg rs|], s as [|b s]; try done; cbn [take_token] in Hs.
    + destruct (Z.eqb_spec c b) as [->|_]; [|done]. injection Hs as <-. by constructor.
    + destruct (Z.eqb_spec b Separator) as [->|Hb]; [done|]. injection Hs as <-.
      constructor; [done| |done]. cbn. congruence.
    + destruct (eqb _ _) eqn:Er; [done|]. injection Hs as <-. constructor; [done| |done].
      destruct (in_ranges _ _), neg; done.
Qed.

Lemma matches_consume ts rts s :
  TStar ∉ ts → matches (ts ++ rts) s ↔ ∃ t, consume ts s = Some t ∧ matches rts t.
Proof.
  revert s. induction ts as [|t ts IH]; intros s Hn; cbn [app consume]; [naive_solver|].
  apply not_elem_of_cons in Hn as [Ht Hn]. rewrite matches_token by done. split.
  - intros (s' & -> & (u & Hu & Hm)%IH); [|done]. by exists u.
  - destruct (take_token t s) as [s'|]; [|naive_solver]. intros (u & Hu & Hm).
    exists s'. split; [done|]. apply IH; [done|]. by exists u.
Qed.

(** ** Soundness *)

Lemma matchChunk_consume chunk ts s :
  chunk_as (Some ts) chunk →
  matchChunk chunk s = match consume ts s with Some t => Matched t | None => NoMatch end.
Proof. intros Has. exact (Has false s). Qed.

Lemma try_skip_sound chunk ts last_chunk name t :
  chunk_as (Some ts) chunk → try_skip chunk last_chunk name = Some (Some t) →
  ∃ pre s, name = pre ++ s ∧ (Separator ∉ pre) ∧ consume ts s = Some t.
Proof.
  intros Has. induction name as [|c name IH]; [done|]. cbn [try_skip].
  destruct (Z.eqb_spec c Separator) as [|Hc]; [done|].
  assert (Hrec : try_skip chunk last_chunk name = Some (Some t) →
    ∃ pre s, c :: name = pre ++ s ∧ (Separator ∉ pre) ∧ consume ts s = Some t).
  { intros (pre & s & -> & Hpre & Hs)%IH. exists (c :: pre), s. split; [done|]. split; [set_solver|done]. }
  rewrite (matchChunk_consume _ _ _ Has). destruct (consume ts name) as [u|] eqn:Eu; [|done].
  destruct (last_chunk && _); [done|]. intros [= ->]. exists [c], name. split; [done|]. split; [set_solver|done].
Qed.

Lemma check_rest_never fuel p : check_rest fuel p ≠ Some true.
Proof.
  revert p. induction fuel as [|fuel IH]; intros p; [done|]. cbn [check_rest]. destruct p; [done|].
  destruct (scanChunk _) as [[star chunk] rest]. destruct (matchChunk chunk []); done || apply IH.
Qed.

Lemma match_loop_sound fuel p name ts :
  (length p ≤ fuel)%nat → parse p = Some ts → match_loop fuel p name = Some true → matches ts name.
Proof.
  revert p name ts. induction fuel as [|fuel IH]; intros p name ts Hl Hp.
  { destruct p; [|cbn in Hl; lia]. injection Hp as <-. cbn. case_bool_decide; [subst; constructor|done]. }
  destruct (decide (p = [])) as [->|Hne].
  { injection Hp as <-. cbn. case_bool_decide; [subst; constructor|done]. }
  destruct (scanChunk p) as [[star chunk] rest] eqn:E. rewrite (match_loop_step _ _ _ _ _ _ Hne E).
  destruct (scanChunk_spec _ _ _ _ Hne E) as [Hlt Hemp].
  destruct (scanChunk_tokens _ _ _ _ E) as (Has & _ & Htok).
  destruct (parse chunk) as [cts|] eqn:Ec; [|congruence]. destruct Htok as (Hno & n & Hn & Heq).
  rewrite Heq in Hp. destruct (parse rest) as [rts|] eqn:Er; [|done]. injection Hp as <-.
  assert (Hgo : ∀ pre s t, name = pre ++ s → Separator ∉ pre → (n = 0%nat → pre = []) →
    consume cts s = Some t → match_loop fuel rest t = Some true →
    matches (replicate n TStar ++ cts ++ rts) name).
  { intros pre s t -> Hpre H0 Hs Ht. apply matches_stars; [done|done|].
    apply matches_consume; [done|]. exists t. split; [done|]. apply (IH rest); [lia|done|done]. }
  destruct (star && bool_decide (chunk = [])) eqn:Esc.
  { apply andb_true_iff in Esc as [-> ->%bool_decide_eq_true]. destruct (Hemp eq_refl) as [_ ->].
    injection Ec as <-. injection Er as <-. intros [= Hc%negb_true_iff].
    rewrite <- (app_nil_r name). apply matches_stars; [by intros ->; destruct (proj1 Hn eq_refl)| |constructor].
    intros Hin. apply strings.ContainsByte_spec in Hin. congruence. }
  cbv zeta. rewrite (matchChunk_consume _ _ _ Has).
  assert (Hmis : match if star then try_skip chunk (bool_decide (rest = [])) name else Some None with
      | None => None
      | Some (Some t) => match_loop fuel rest t
      | Some None => check_rest fuel rest
      end = Some true → matches (replicate n TStar ++ cts ++ rts) name).
  { destruct star; [|intros Hc; by apply check_rest_never in Hc].
    destruct (try_skip _ _ _) as [[t|]|] eqn:Et; [|intros Hc; by apply check_rest_never in Hc|done].
    destruct (try_skip_sound _ _ _ _ _ Has Et) as (pre & s & Hname & Hpre & Hs).
    apply (Hgo pre s); [done|done| |done]. intros ->. by destruct (proj1 Hn eq_refl). }
  destruct (consume cts name) as [t|] eqn:Et; [|exact Hmis]. destruct (_ || _); [|exact Hmis].
  apply (Hgo [] name); [done|set_solver|done|done].
Qed.

(** ** Completeness on plain texts *)

Lemma plain_drop k s : plain s → plain (drop k s).
Proof. apply Forall_drop. Qed.

(** On a plain text every token takes one byte. *)
Lemma consume_plain ts s t : plain s → consume ts s = Some t → t = drop (length ts) s.
Proof.
  revert s. induction ts as [|k ts IH]; intros s Hs; cbn [consume length]; [by intros [= ->]|].
  destruct (take_token k s) as [s'|] eqn:Ek; [|done]. cbn [mbind option_bind]. intros Hc.
  destruct s as [|b s]; [by destruct k|]. apply Forall_cons in Hs as [[Hb _] Hs].
  assert (Hr : rest_of (b :: s) = s) by (unfold rest_of; by rewrite utf8.DecodeRune_ascii).
  assert (s' = s) as ->; [|by apply IH].
  destruct k as [c| |neg rs|]; cbn [take_token] in Ek; rewrite ?Hr in Ek; try done.
  - destruct (c =? b); congruence.
  - destruct (b =? Separator); congruence.
  - destruct (eqb _ _); congruence.
Qed.

Lemma try_skip_complete chunk ts last_chunk name k t :
  chunk_as (Some ts) chunk → plain name → (1 ≤ k ≤ length name)%nat →
  consume ts (drop k name) = Some t → (last_chunk = true → t = []) →
  ∃ j u, (j ≤ k)%nat ∧ try_skip chunk last_chunk name = Some (Some u) ∧
         consume ts (drop j name) = Some u ∧ (last_chunk = true → u = []).
Proof.
  intros Has. revert k. induction name as [|c name IH]; intros k Hpl Hk Hc Hlast; [cbn in Hk; lia|].
  apply Forall_cons in Hpl as [[_ Hsep] Hpl]. cbn [try_skip]. rewrite (proj2 (Z.eqb_neq _ _) Hsep).
  rewrite (matchChunk_consume _ _ _ Has). destruct k as [|k]; [lia|]. cbn [drop length] in *.
  assert (Hrec : (1 ≤ k)%nat →
    ∃ j u, (j ≤ S k)%nat ∧ try_skip chunk last_chunk name = Some (Some u) ∧
         consume ts (drop j (c :: name)) = Some u ∧ (last_chunk = true → u = [])).
  { intros Hk1. destruct (IH k Hpl ltac:(lia) Hc Hlast) as (j & u & Hj & Hu). exists (S j), u.
    split; [lia|done]. }
  destruct k as [|k].
  - rewrite drop_0 in Hc. rewrite Hc. assert (Hl : (last_chunk && negb (bool_decide (t = []))) = false).
    { destruct last_chunk; [|done]. by rewrite Hlast. }
    rewrite Hl. exists 1%nat, t. cbn [drop]. by rewrite drop_0.
  - destruct (consume ts name) as [u|] eqn:Eu; [|apply Hrec; lia].
    destruct (last_chunk && negb (bool_decide (u = []))) eqn:Hl; [apply Hrec; lia|].
    exists 1%nat, u. cbn [drop]. rewrite drop_0. split_and!; [lia|done|done|].
    intros ->. apply negb_false_iff in Hl. by apply bool_decide_eq_true in Hl.
Qed.

(** A star takes more when the text has more in front. *)
Lemma matches_star_more ts pre s :
  Separator ∉ pre → matches (TStar :: ts) s → matches (TStar :: ts) (pre ++ s).
Proof.
  intros Hpre Hm. inversion Hm as [| | | |? pre' s' Hpre' Hm']; subst. rewrite app_assoc.
  apply matches_star; [set_solver|done].
Qed.

Lemma plain_no_separator s : plain s → Separator ∉ s.
Proof. unfold plain. rewrite Forall_forall. intros Hs Hin. by destruct (Hs _ Hin). Qed.

(** When the tokens that follow are none or begin with a star, matching may go on from any earlier
    position. *)
Lemma matches_earlier rts s i j :
  plain s → (rts = [] ∨ ∃ ts, rts = TStar :: ts) → (i ≤ j)%nat →
  (rts = [] → drop i s = []) → matches rts (drop j s) → matches rts (drop i s).
Proof.
  intros Hs Hr Hij H0 Hm. destruct Hr as [->|[ts ->]]; [rewrite H0 by done; constructor|].
  replace (drop i s) with (take (j - i) (drop i s) ++ drop j s).
  2: { rewrite <- (take_drop (j - i) (drop i s)) at 2. rewrite drop_drop. do 2 f_equal. lia. }
  apply matches_star_more; [|done]. apply plain_no_separator, Forall_take, plain_drop, Hs.
Qed.

Lemma rest_tokens rest rts :
  (rest = [] ∨ ∃ q, rest = ch_star :: q) → parse rest = Some rts →
  rest = [] ∧ rts = [] ∨ rest ≠ [] ∧ ∃ ts, rts = TStar :: ts.
Proof.
  intros [->|[q ->]] Hp; [left; by injection Hp as <-|right]. split; [done|].
  rewrite parse_unfold in Hp by done. cbn in Hp. destruct (parse q); [|done]. injection Hp as <-. by eexists.
Qed.

Lemma match_loop_complete fuel p name ts :
  (length p ≤ fuel)%nat → parse p = Some ts → plain name → matches ts name →
  match_loop fuel p name = Some true.
Proof.
  revert p name ts. induction fuel as [|fuel IH]; intros p name ts Hl Hp Hpl Hm.
  { destruct p; [|cbn in Hl; lia]. injection Hp as <-. by inversion Hm. }
  destruct (decide (p = [])) as [->|Hne]; [injection Hp as <-; by inversion Hm|].
  destruct (scanChunk p) as [[star chunk] rest] eqn:E. rewrite (match_loop_step _ _ _ _ _ _ Hne E).
  destruct (scanChunk_spec _ _ _ _ Hne E) as [Hlt Hemp].
  destruct (scanChunk_tokens _ _ _ _ E) as (Has & Hrest & Htok).
  destruct (parse chunk) as [cts|] eqn:Ec; [|congruence]. destruct Htok as (Hno & n & Hn & Heq).
  rewrite Heq in Hp. destruct (parse rest) as [rts|] eqn:Er; [|done]. injection Hp as <-.
  destruct (star && bool_decide (chunk = [])) eqn:Esc.
  { f_equal. apply negb_true_iff, not_true_iff_false. rewrite strings.ContainsByte_spec.
    by apply plain_no_separator. }
  cbv zeta. rewrite (matchChunk_consume _ _ _ Has).
  apply matches_stars_inv in Hm as (pre & s & -> & _ & H0 & Hm).
  apply matches_consume in Hm as (t & Hc & Hm); [|done]. set (name := pre ++ s) in *.
  assert (Hs : s = drop (length pre) name) by (unfold name; by rewrite drop_app_length).
  assert (Ht : t = drop (length pre + length cts) name).
  { rewrite <- drop_drop, <- Hs. apply consume_plain; [|done]. rewrite Hs. by apply plain_drop. }
  pose proof (rest_tokens _ _ Hrest Er) as Hr.
  assert (Hgo : ∀ j u, (j ≤ length pre)%nat → consume cts (drop j name) = Some u →
    (rest = [] → u = []) → match_loop fuel rest u = Some true).
  { intros j u Hj Hu Hz. apply consume_plain in Hu; [|by apply plain_drop]. rewrite drop_drop in Hu.
    apply (IH rest u rts); [lia|done|subst u; by apply plain_drop|]. subst u t.
    apply (matches_earlier _ _ _ (length pre + length cts)); [done| |lia| |exact Hm].
    - destruct Hr as [[_ ->]|[_ ?]]; auto.
    - intros ->. destruct Hr as [[-> _]|[_ [? ?]]]; [auto|done]. }
  assert (Hlast : rest = [] → t = []) by (destruct Hr as [[_ ->]|[? _]]; [by inversion Hm|done]).
  assert (Hmis : pre ≠ [] → match if star then try_skip chunk (bool_decide (rest = [])) name else Some None with
      | None => None
      | Some (Some t) => match_loop fuel rest t
      | Some None => check_rest fuel rest
      end = Some true).
  { intros Hpre. destruct star; [|destruct n; [by destruct (Hpre (H0 eq_refl))|by discriminate (proj2 Hn (Nat.neq_succ_0 _))]].
    destruct (try_skip_complete chunk cts (bool_decide (rest = [])) name (length pre) t)
      as (j & u & Hj & -> & Hu & Hz); [done|done| |by rewrite <- Hs|by intros ?%bool_decide_eq_true; auto|].
    { unfold name. rewrite length_app. destruct pre; [done|]. cbn. lia. }
    apply (Hgo j); [done|done|]. intros Hz'. apply Hz. by apply bool_decide_eq_true. }
  destruct (consume cts name) as [u|] eqn:Eu.
  - destruct (bool_decide (u = []) || negb (bool_decide (rest = []))) eqn:Eb.
    + apply (Hgo 0%nat); [lia|by rewrite drop_0|]. intros Hz. apply orb_true_iff in Eb as [Eb|Eb].
      { by apply bool_decide_eq_true in Eb. } by rewrite bool_decide_eq_true_2 in Eb.
    + apply Hmis. intros ->. cbn [app] in name. subst name. rewrite Hc in Eu. injection Eu as <-.
      apply orb_false_iff in Eb as [Eb1 Eb2%negb_false_iff]. apply bool_decide_eq_false in Eb1.
      apply bool_decide_eq_true in Eb2. auto.
  - apply Hmis. intros ->. cbn [app] in name. subst name. congruence.
Qed.

(** What validation and matching decide, in terms of the tokens. *)
Lemma glob_spec (pattern : bytes) :
  (glob.Validate pattern = Ok () ↔ pattern ≠ [] ∧ ∃ ts, parse pattern = Some ts) ∧
  ∀ ts s, parse pattern = Some ts →
    (glob.Match pattern s = true → matches ts s) ∧
    (plain s → glob.Match pattern s = true ↔ matches ts s).
Proof.
  split.
  - rewrite Validate_ok. apply and_iff_compat_l. split.
    + intros Hm. destruct (parse pattern) as [ts|] eqn:E; [by eexists|]. exfalso. apply (Hm []).
      apply match_loop_empty_name, check_rest_parse; done.
    + intros [ts Hts] s Hs%match_loop_bad. apply check_rest_parse in Hs; [congruence|done].
  - intros ts s Hp. unfold glob.Match, filepath.Match.
    assert (Hsound : match match_loop (length pattern) pattern s with Some ok => ok | None => false end = true →
      matches ts s).
    { destruct (match_loop _ _ _) as [[]|] eqn:E; [|done..]. intros _. by eapply match_loop_sound. }
    split; [done|]. intros Hpl. split; [done|]. intros Hm. by erewrite match_loop_complete.
Qed.

(** ** Properties *)

(** C17: shell patterns mean what their documentation says.  A pattern is accepted at load time exactly when
    it is non empty and parses to a sequence of literals, wildcards, classes and stars; it matches a
    text only when the text can be divided among these tokens; and on every text of single byte
    characters without a slash, such as an interface name or a MAC address, it matches whenever such a
    division exists, although the search is greedy and never goes back to an earlier star. *)
Theorem glob_meaning (pattern : bytes) :
  (glob.Validate pattern = Ok () ↔ pattern ≠ [] ∧ ∃ ts, parse pattern = Some ts) ∧
  ∀ ts s, parse pattern = Some ts →
    (glob.Match pattern s = true → matches ts s) ∧
    (plain s → glob.Match pattern s = true ↔ matches ts s).
Proof. apply glob_spec. Qed.

(** Outside plain texts the greedy search can miss a division: the second star would have to give back
    part of a multi byte rune. *)
Example glob_greedy_incomplete :
  let p := lit "*?*" ++ [152; 128] in let s := [240; 159; 152; 128] in
  ∃ ts, parse p = Some ts ∧ matches ts s ∧ glob.Match p s = false.
Proof.
  eexists. split; [vm_compute; reflexivity|].
  split; [|vm_compute; reflexivity].
  apply (matches_star _ [240] [159; 152; 128]); [set_solver|].
  apply matches_any; [done|done|]. change (rest_of [159; 152; 128]) with [152; 128].
  apply (matches_star _ [] [152; 128]); [set_solver|]. repeat constructor.
Qed.

Lemma glob_meaning_witness :
  glob.Validate (lit "eth[0-3]*") = Ok () ∧
  matches [TLit 101; TLit 116; TLit 104; TClass false [(48, 51)]; TStar] (lit "eth2.100").
Proof.
  split.
  - apply (glob_meaning (lit "eth[0-3]*")). split; [done|]. eexists. vm_compute. reflexivity.
  - destruct (glob_meaning (lit "eth[0-3]*")) as [_ Hm].
    refine (proj1 (Hm _ (lit "eth2.100") _) _); vm_compute; reflexivity.
Defined.
