(* ===== verification/CfgMatch.v ===== *)
(** * NIC selectors and config lines: [pkg/cfgmatch/cfgmatch.go]. *)

From S2P Require Import Prelude GoStrings GoNet Glob.

(** ** File syntax *)

Definition CommentPrefix : bytes := lit "#".
Definition CatchAllKey : bytes := lit "*".
Definition NameDim : bytes := lit "name=".
Definition MACDim : bytes := lit "mac=".

(** A selector of network interfaces by name or MAC patterns, or of all of them. *)
Record Selector := { NameGlobs : list bytes; MACGlobs : list bytes; All : bool }.

#[global] Instance Selector_eq_dec : EqDecision Selector.
Proof. solve_decision. Defined.

(** The zero value. *)
Definition zero_selector : Selector := {| NameGlobs := []; MACGlobs := []; All := false |}.

Section selector.
Context `{UnicodeTables}.

(** [Selector.Match]: the first glob of either list that matches decides. *)
Definition Selector_Match (s : Selector) (name mac : bytes) : bool :=
  if All s then true
  else
    let mac := strings.ToLower mac in
    match find_first (λ g, glob.Match g name) (NameGlobs s) with
    | Some _ => true
    | None =>
        match find_first (λ g, glob.Match g mac) (MACGlobs s) with
        | Some _ => true
        | None => false
        end
    end.

(** The loop of [ParseSelector] over the comma separated terms. *)
Fixpoint parse_terms (s : Selector) (terms : list bytes) : result Selector :=
  match terms with
  | [] => Ok s
  | term :: terms =>
      if strings.HasPrefix term NameDim then
        let g := drop (length NameDim) term in
        match glob.Validate g with
        | Err e => Err e
        | Ok _ =>
            parse_terms {| NameGlobs := NameGlobs s ++ [g]; MACGlobs := MACGlobs s; All := All s |}
              terms
        end
      else if strings.HasPrefix term MACDim then
        let g := strings.ToLower (drop (length MACDim) term) in
        match glob.Validate g with
        | Err e => Err e
        | Ok _ =>
            parse_terms {| NameGlobs := NameGlobs s; MACGlobs := MACGlobs s ++ [g]; All := All s |}
              terms
        end
      else Err "invalid selector term (want name=, mac=, or *)"
  end.

Definition ParseSelector (token : bytes) : result Selector :=
  if bool_decide (token = CatchAllKey) then Ok {| NameGlobs := []; MACGlobs := []; All := true |}
  else parse_terms zero_selector (strings.Split token 44).
End selector.

(** The fields of a config line up to the first field that starts a comment. *)
Fixpoint until_comment (fields : list bytes) : list bytes :=
  match fields with
  | [] => []
  | f :: fields => if strings.HasPrefix f CommentPrefix then [] else f :: until_comment fields
  end.

Definition Fields (line : bytes) : list bytes := until_comment (strings.Fields line).

(** ** Lemmas *)

Section selector_lemmas.
Context `{UnicodeTables}.

(** A selector whose patterns are all well formed. *)
Definition valid_selector (s : Selector) : Prop :=
  Forall (λ g, glob.Validate g = Ok ()) (NameGlobs s ++ MACGlobs s).

Lemma valid_selector_name s g :
  valid_selector s → glob.Validate g = Ok () →
  valid_selector {| NameGlobs := NameGlobs s ++ [g]; MACGlobs := MACGlobs s; All := All s |}.
Proof.
  unfold valid_selector. simpl. rewrite !Forall_app, Forall_singleton. tauto.
Qed.

Lemma valid_selector_mac s g :
  valid_selector s → glob.Validate g = Ok () →
  valid_selector {| NameGlobs := NameGlobs s; MACGlobs := MACGlobs s ++ [g]; All := All s |}.
Proof.
  unfold valid_selector. simpl. rewrite !Forall_app, Forall_singleton. tauto.
Qed.

Lemma parse_terms_valid s terms s' :
  valid_selector s → parse_terms s terms = Ok s' → valid_selector s' ∧ All s' = All s.
Proof.
  revert s. induction terms as [|t terms IH]; intros s Hs; simpl; [by intros [= ->]|].
  destruct (strings.HasPrefix t NameDim).
  - destruct (glob.Validate _) as [[]|e] eqn:E; [|done].
    intros Hp. apply IH in Hp; [done|]. by apply valid_selector_name.
  - destruct (strings.HasPrefix t MACDim); [|done].
    destruct (glob.Validate _) as [[]|e] eqn:E; [|done].
    intros Hp. apply IH in Hp; [done|]. by apply valid_selector_mac.
Qed.

Lemma ParseSelector_valid token s : ParseSelector token = Ok s → valid_selector s.
Proof.
  unfold ParseSelector. case_bool_decide; [intros [= <-]; constructor|].
  intros Hp. apply parse_terms_valid in Hp; [by destruct Hp|constructor].
Qed.

Lemma find_first_is_Some {A} (p : A → bool) l :
  (∃ x, find_first p l = Some x) ↔ ∃ x, x ∈ l ∧ p x = true.
Proof.
  split.
  - intros [x Hx]. exists x. by apply find_first_Some.
  - intros (x & Hx & Hp). destruct (find_first p l) eqn:E; [by eexists|].
    rewrite find_first_None in E. by rewrite E in Hp.
Qed.

Lemma Selector_Match_spec s name mac :
  Selector_Match s name mac = true ↔
  All s = true ∨ (∃ g, g ∈ NameGlobs s ∧ glob.Match g name = true) ∨
  (∃ g, g ∈ MACGlobs s ∧ glob.Match g (strings.ToLower mac) = true).
Proof.
  unfold Selector_Match. destruct (All s); [split; [by left|done]|].
  rewrite <- !find_first_is_Some.
  destruct (find_first _ (NameGlobs s)); [split; [intros _; right; left; by eexists|done]|].
  destruct (find_first _ (MACGlobs s)); [split; [intros _; right; right; by eexists|done]|].
  split; [done|]. intros [?|[[? ?]|[? ?]]]; done.
Qed.

Lemma ToLower_idemp s : strings.is_ascii s = true → strings.ToLower (strings.ToLower s) = strings.ToLower s.
Proof.
  intros E. unfold strings.ToLower. rewrite E.
  assert (Ha : strings.is_ascii (map strings.lower_byte s) = true).
  { apply strings.is_ascii_Forall, Forall_fmap. apply strings.is_ascii_Forall in E.
    eapply Forall_impl; [exact E|]. intros b. apply strings.lower_byte_ascii. }
  rewrite Ha, map_map. apply map_ext. apply strings.lower_byte_idemp.
Qed.

End selector_lemmas.

Lemma until_comment_prefix fields :
  ∃ rest, fields = until_comment fields ++ rest ∧
    (rest = [] ∨ ∃ f rest', rest = f :: rest' ∧ strings.HasPrefix f CommentPrefix = true).
Proof.
  induction fields as [|f fields IH]; [by exists []; split; [|left]|]. simpl.
  destruct (strings.HasPrefix f CommentPrefix) eqn:E.
  - exists (f :: fields). split; [done|]. right. by eexists _, _.
  - destruct IH as (rest & Heq & Hr). exists rest. split; [|done]. simpl. by f_equal.
Qed.

Lemma until_comment_no_comment fields :
  Forall (λ f, strings.HasPrefix f CommentPrefix = false) (until_comment fields).
Proof.
  induction fields as [|f fields IH]; simpl; [done|].
  destruct (strings.HasPrefix f CommentPrefix) eqn:E; [done|]. by constructor.
Qed.

(** ** Properties *)

(** a selector that parses holds only well formed patterns, so matching it never meets a pattern
    error on any interface name or MAC. *)
Theorem selector_never_malformed `{UnicodeTables} (token : bytes) (s : Selector) :
  ParseSelector token = Ok s →
  ∀ g text, g ∈ NameGlobs s ++ MACGlobs s → filepath.Match g text ≠ None.
Proof.
  intros Hp g text Hg. apply ParseSelector_valid in Hp. unfold valid_selector in Hp.
  rewrite Forall_forall in Hp. by apply (Validate_ok g), Hp.
Qed.

Lemma selector_never_malformed_witness :
  ∃ s, @ParseSelector ascii_tables (lit "name=eth*,mac=02:00:*") = Ok s ∧
    ∀ g text, g ∈ NameGlobs s ++ MACGlobs s → filepath.Match g text ≠ None.
Proof.
  eexists. split; [vm_compute; reflexivity|].
  apply (@selector_never_malformed ascii_tables (lit "name=eth*,mac=02:00:*")).
  vm_compute. reflexivity.
Defined.

(** a selector matches an interface exactly when it is the catch-all, one of its name patterns
    matches the name, or one of its MAC patterns matches the lower-cased MAC; the case of an ASCII
    MAC makes no difference. *)
Theorem selector_match_correct `{UnicodeTables} (s : Selector) (name mac : bytes) :
  (Selector_Match s name mac = true ↔
   All s = true ∨ (∃ g, g ∈ NameGlobs s ∧ glob.Match g name = true) ∨
   (∃ g, g ∈ MACGlobs s ∧ glob.Match g (strings.ToLower mac) = true)) ∧
  (strings.is_ascii mac = true →
   Selector_Match s name (strings.ToLower mac) = Selector_Match s name mac).
Proof.
  split; [apply Selector_Match_spec|]. intros Ha. unfold Selector_Match. by rewrite ToLower_idemp.
Qed.

(** a config line tokenises to its whitespace separated fields up to, and without, the first one
    that begins with a number sign; no field is empty and a number sign inside a field is kept. *)
Theorem Fields_correct (line : bytes) :
  Forall (λ f, f ≠ [] ∧ strings.HasPrefix f CommentPrefix = false) (Fields line) ∧
  ∃ rest, strings.Fields line = Fields line ++ rest ∧
    (rest = [] ∨ ∃ f rest', rest = f :: rest' ∧ strings.HasPrefix f CommentPrefix = true).
Proof.
  destruct (until_comment_prefix (strings.Fields line)) as (rest & Heq & Hr).
  split; [|by exists rest]. apply Forall_and. split; [|apply until_comment_no_comment].
  pose proof (strings.Fields_nonempty line) as Hne. rewrite Heq in Hne.
  by apply Forall_app in Hne as [Hne _].
Qed.

Example Fields_example :
  Fields (lit "  name=eth#1   10.0.0.0/24 # note") = [lit "name=eth#1"; lit "10.0.0.0/24"] ∧
  Fields (lit "#name=eth1 10.0.0.0/24") = [].
Proof. split; vm_compute; reflexivity. Qed.
