(* ===== verification/FileWatch.v ===== *)
(** * Hot reloaded files: [pkg/filewatch/watch.go].

    A watcher holds the last good snapshot of a file.  One reload is a function of the state of the
    watcher and of what the operating system answers during it; the poller, explicit reloads, readers
    and [Close] interleave as the steps of a transition system. *)

From S2P Require Import Prelude GoStrings.

(** What [os.FileInfo] and [os.SameFile] compare. *)
Record FileInfo := { dev : Z; ino : Z; fsize : Z; mtime : Z }.

#[global] Instance FileInfo_eq_dec : EqDecision FileInfo.
Proof. solve_decision. Defined.

Definition SameFile (a b : FileInfo) : bool := (dev a =? dev b) && (ino a =? ino b).

Definition FileChanged (a b : FileInfo) : bool :=
  negb (SameFile a b) || negb (fsize a =? fsize b) || negb (mtime a =? mtime b).

(** [DefaultPollInterval], in nanoseconds. *)
Definition DefaultPollInterval : Z := 30 * 10 ^ 9.

(** What the watcher logs. *)
Inductive log_event :=
| LogWarn (msg : bytes)
| LogInfo
| LogError (msg : string).

(** ** CloseContext

    The context handed to a validation, and the goroutine that cancels it when the watcher closes.
    [bridge_done] is the channel of the watcher, if it has one, and whether it is closed. *)

Record bridge := { bridge_done : option bool; bridge_cancelled : bool; bridge_running : bool }.

Definition CloseContext (done : option bool) : bridge :=
  match done with
  | None => {| bridge_done := None; bridge_cancelled := false; bridge_running := false |}
  | Some d => {| bridge_done := Some d; bridge_cancelled := false; bridge_running := true |}
  end.

Inductive bridge_step : bridge → bridge → Prop :=
| bridge_close d c r :
    bridge_step {| bridge_done := Some d; bridge_cancelled := c; bridge_running := r |}
                {| bridge_done := Some true; bridge_cancelled := c; bridge_running := r |}
| bridge_cancel d c r :
    bridge_step {| bridge_done := d; bridge_cancelled := c; bridge_running := r |}
                {| bridge_done := d; bridge_cancelled := true; bridge_running := r |}
| bridge_sees_close c :
    bridge_step {| bridge_done := Some true; bridge_cancelled := c; bridge_running := true |}
                {| bridge_done := Some true; bridge_cancelled := true; bridge_running := false |}
| bridge_sees_cancel d :
    bridge_step {| bridge_done := d; bridge_cancelled := true; bridge_running := true |}
                {| bridge_done := d; bridge_cancelled := true; bridge_running := false |}.

(** Neither side is left waiting: while the goroutine is there it can return as soon as the watcher is
    closed or the context cancelled, and once it is gone the context is cancelled. *)
Lemma CloseContext_released done b :
  rtc bridge_step (CloseContext done) b → bridge_done b ≠ None →
  (bridge_running b = false → bridge_cancelled b = true) ∧
  (bridge_running b = true → bridge_done b = Some true ∨ bridge_cancelled b = true →
   ∃ b', bridge_step b b' ∧ bridge_running b' = false ∧ bridge_cancelled b' = true).
Proof.
  intros Hr Hd. split.
  - revert Hd. assert (H0 : bridge_done (CloseContext done) ≠ None →
      bridge_running (CloseContext done) = false → bridge_cancelled (CloseContext done) = true)
      by by destruct done.
    revert H0. generalize (CloseContext done) Hr. clear. intros b0 Hr.
    induction Hr as [b|b b1 b2 Hst _ IH]; [done|]. intros H0. apply IH. destruct Hst; cbn in *; auto.
  - destruct b as [d c r]. cbn. intros -> [->| ->]; eexists; split.
    + apply bridge_sees_close.
    + done.
    + apply bridge_sees_cancel.
    + done.
Qed.

Section filewatch.
(** The snapshot type, and the state of the world a validator consults (name resolution, the context
    cancelled by [Close]). *)
Context {T World : Type}.

(** [Parser[T]] and [Validator[T]]: the pointer a parser returns may be nil. *)
Definition Parser := bufio.Reader → result (option T * list bytes).
Definition Validator := World → T → result unit.

(** [Config[T]]: the hooks that are functions may be nil. *)
Record Config := {
  cfg_Log : bool;
  cfg_Parse : option Parser;
  cfg_Validate : option Validator;
  cfg_Interval : Z
}.

(** [Watcher[T]]: its immutable hooks and the state that changes. *)
Record Watcher := {
  parse : Parser;
  validate : option Validator;
  interval : Z;
  snap : option T;
  lastInfo : option FileInfo;
  done : bool;
  logged : list log_event
}.

Definition set_state (w : Watcher) (s : option T) (i : option FileInfo) (l : list log_event) : Watcher :=
  {| parse := parse w; validate := validate w; interval := interval w; snap := s; lastInfo := i;
     done := done w; logged := logged w ++ l |}.

(** What the operating system answers during one reload: the open, the two stats of the open file
    and the bytes read between them. *)
Record Answers := {
  ans_open : result unit;
  ans_stat : result FileInfo;
  ans_read : bufio.Reader;
  ans_stat_after : result FileInfo;
  ans_world : World
}.

(** [Reload]. *)
Definition Reload (w : Watcher) (os : Answers) : Watcher * result unit :=
  match wrap "open: " (ans_open os) with
  | Err e => (w, Err e)
  | Ok _ =>
  match wrap "stat: " (ans_stat os) with
  | Err e => (w, Err e)
  | Ok info =>
  match parse w (ans_read os) with
  | Err e => (w, Err e)
  | Ok (None, _) => (w, Err "parser returned a nil snapshot")
  | Ok (Some s, warnings) =>
  match wrap "stat: " (ans_stat_after os) with
  | Err e => (w, Err e)
  | Ok after =>
  if FileChanged info after then (w, Err "changed during reload")
  else
    match match validate w with Some v => v (ans_world os) s | None => Ok () end with
    | Err e => (w, Err e)
    | Ok _ => (set_state w (Some s) (Some info) (map LogWarn warnings ++ [LogInfo]), Ok ())
    end
  end
  end
  end
  end.

(** [New]: the first load fails fast. *)
Definition New (cfg : Config) (abs : result unit) (os : Answers) : result Watcher :=
  match cfg_Parse cfg with
  | None => Err "Parse is required"
  | Some p =>
      if negb (cfg_Log cfg) then Err "Log is required"
      else
        match wrap "resolve path: " abs with
        | Err e => Err e
        | Ok _ =>
            let w := {| parse := p; validate := cfg_Validate cfg;
                        interval := if cfg_Interval cfg <=? 0 then DefaultPollInterval
                                    else cfg_Interval cfg;
                        snap := None; lastInfo := None; done := false; logged := [] |} in
            match Reload w os with
            | (_, Err e) => Err e
            | (w, Ok _) => Ok w
            end
        end
  end.

Definition Snapshot (w : Watcher) : option T := snap w.

(** The decision of [poll] from its stat of the path: reload, or not.  A failed stat is logged. *)
Definition poll_decide (w : Watcher) (stat : result FileInfo) : Watcher * bool :=
  match stat with
  | Err e => (set_state w (snap w) (lastInfo w) [LogError ("stat failed, keeping previous: " +:+ e)], false)
  | Ok info =>
      match lastInfo w with
      | Some last => (w, FileChanged last info)
      | None => (w, true)
      end
  end.

(** The reload of [poll]; an error is logged. *)
Definition poll_reload (w : Watcher) (os : Answers) : Watcher :=
  match Reload w os with
  | (w, Err e) => set_state w (snap w) (lastInfo w) [LogError ("reload failed, keeping previous: " +:+ e)]
  | (w, Ok _) => w
  end.

(** One uninterrupted [poll]. *)
Definition poll (w : Watcher) (stat : result FileInfo) (os : Answers) : Watcher :=
  let '(w, go) := poll_decide w stat in
  if go then poll_reload w os else w.

(** [close(w.done)] under [closeOnce]. *)
Definition close_done (w : Watcher) : Watcher :=
  {| parse := parse w; validate := validate w; interval := interval w; snap := snap w;
     lastInfo := lastInfo w; done := true; logged := logged w |}.

(** ** Interleaving

    The poller is a thread: waiting in [select], between its look at [lastInfo] and its reload, or
    returned.  [Close] is two steps: closing [done], then waiting for the poller to return. *)

Inductive poller := Waiting | Reloading | Returned.

Record state := { watcher : Watcher; thread : poller; close_returned : bool }.

Inductive step : state → state → Prop :=
| step_tick w stat w' go c :
    poll_decide w stat = (w', go) →
    step {| watcher := w; thread := Waiting; close_returned := c |}
         {| watcher := w'; thread := if go then Reloading else Waiting; close_returned := c |}
| step_poll_reload w os c :
    step {| watcher := w; thread := Reloading; close_returned := c |}
         {| watcher := poll_reload w os; thread := Waiting; close_returned := c |}
| step_reload w os th c :
    step {| watcher := w; thread := th; close_returned := c |}
         {| watcher := (Reload w os).1; thread := th; close_returned := c |}
| step_close w th c :
    step {| watcher := w; thread := th; close_returned := c |}
         {| watcher := close_done w; thread := th; close_returned := c |}
| step_return w c :
    done w = true →
    step {| watcher := w; thread := Waiting; close_returned := c |}
         {| watcher := w; thread := Returned; close_returned := c |}
| step_close_returns w c :
    done w = true →
    step {| watcher := w; thread := Returned; close_returned := c |}
         {| watcher := w; thread := Returned; close_returned := true |}.

(** ** Lemmas *)

Lemma FileChanged_refl a : FileChanged a a = false.
Proof. unfold FileChanged, SameFile. by rewrite !Z.eqb_refl. Qed.

Lemma FileChanged_eq a b : FileChanged a b = false ↔ a = b.
Proof.
  split; [|intros ->; apply FileChanged_refl]. unfold FileChanged, SameFile. intros H. reflect_bools.
  destruct a, b; simpl in *; congruence.
Qed.

(** A snapshot that may be published: parsed from bytes that did not change while they were read, and
    accepted by the validator. *)
Definition publishable (p : Parser) (v : option Validator) (s : T) (info : FileInfo) : Prop :=
  ∃ os ws, ans_open os = Ok () ∧ ans_stat os = Ok info ∧ ans_stat_after os = Ok info ∧
    p (ans_read os) = Ok (Some s, ws) ∧
    match v with Some f => f (ans_world os) s = Ok () | None => True end.

Lemma Reload_cases w os :
  (∃ e, Reload w os = (w, Err e)) ∨
  (∃ s info ws, Reload w os = (set_state w (Some s) (Some info) (map LogWarn ws ++ [LogInfo]), Ok ()) ∧
     publishable (parse w) (validate w) s info ∧ ans_stat os = Ok info ∧
     parse w (ans_read os) = Ok (Some s, ws)).
Proof.
  unfold Reload, wrap. destruct (ans_open os) as [[]|] eqn:Eo; [|left; by eexists].
  destruct (ans_stat os) as [info|] eqn:Es; [|left; by eexists].
  destruct (parse w (ans_read os)) as [[[s|] ws]|] eqn:Ep; [|left; by eexists..].
  destruct (ans_stat_after os) as [after|] eqn:Ea; [|left; by eexists].
  destruct (FileChanged info after) eqn:Ec; [left; by eexists|].
  destruct (match validate w with Some v => _ | None => _ end) as [[]|] eqn:Ev; [|left; by eexists].
  right. exists s, info, ws. split; [done|]. split; [|done].
  apply FileChanged_eq in Ec as <-. exists os, ws. repeat split; try done.
  by destruct (validate w).
Qed.

Lemma Reload_hooks w os :
  parse (Reload w os).1 = parse w ∧ validate (Reload w os).1 = validate w ∧
  done (Reload w os).1 = done w.
Proof. destruct (Reload_cases w os) as [[e ->]|(s & i & ws & -> & _)]; done. Qed.

Lemma poll_reload_snap w os :
  snap (poll_reload w os) = snap (Reload w os).1 ∧
  lastInfo (poll_reload w os) = lastInfo (Reload w os).1 ∧
  parse (poll_reload w os) = parse w ∧ validate (poll_reload w os) = validate w ∧
  done (poll_reload w os) = done w.
Proof.
  unfold poll_reload. pose proof (Reload_hooks w os) as (H1 & H2 & H3).
  destruct (Reload w os) as [w' [[]|e]]; simpl in *; done.
Qed.

Lemma poll_decide_state w stat w' go :
  poll_decide w stat = (w', go) →
  snap w' = snap w ∧ lastInfo w' = lastInfo w ∧ parse w' = parse w ∧ validate w' = validate w ∧
  done w' = done w.
Proof.
  unfold poll_decide. destruct stat; [|intros [= <- <-]; done].
  destruct (lastInfo w) eqn:E; intros [= <- <-]; by rewrite E.
Qed.

(** The invariant of a live watcher: it holds a publishable snapshot and the stat of its bytes. *)
Definition live (p : Parser) (v : option Validator) (w : Watcher) : Prop :=
  parse w = p ∧ validate w = v ∧
  ∃ s info, snap w = Some s ∧ lastInfo w = Some info ∧ publishable p v s info.

Lemma live_same p v w w' :
  live p v w → snap w' = snap w → lastInfo w' = lastInfo w → parse w' = parse w →
  validate w' = validate w → live p v w'.
Proof.
  intros (Hp & Hv & s & i & Hs & Hi & Hpub) E1 E2 E3 E4.
  split; [congruence|]. split; [congruence|]. exists s, i. repeat split; congruence.
Qed.

Lemma live_Reload p v w os : live p v w → live p v (Reload w os).1.
Proof.
  intros Hl. destruct (Reload_cases w os) as [[e ->]|(s & i & ws & -> & Hpub & _)]; [done|].
  destruct Hl as (Hp & Hv & _). split; [done|]. split; [done|].
  exists s, i. simpl. repeat split; [done..|]. by rewrite <- Hp, <- Hv.
Qed.

Lemma live_step p v st st' :
  live p v (watcher st) → step st st' → live p v (watcher st').
Proof.
  intros Hl Hstep. destruct Hstep as [w stat w' go c Hd|w os c|w os th c|w th c|w c _|w c _]; simpl in *;
    try done.
  - apply poll_decide_state in Hd as (? & ? & ? & ? & ?). by eapply live_same.
  - pose proof (poll_reload_snap w os) as (H1 & H2 & H3 & H4 & _).
    pose proof (Reload_hooks w os) as (H5 & H6 & _).
    eapply live_same; [by apply (live_Reload p v w os)|congruence..].
  - by apply live_Reload.
Qed.

Lemma live_steps p v st st' :
  live p v (watcher st) → rtc step st st' → live p v (watcher st').
Proof. intros Hl Hr. revert Hl. induction Hr; [done|]. eauto using live_step. Qed.

Lemma New_live cfg abs os w :
  New cfg abs os = Ok w →
  ∃ p, cfg_Parse cfg = Some p ∧ live p (cfg_Validate cfg) w ∧ 0 < interval w ∧ done w = false.
Proof.
  unfold New. destruct (cfg_Parse cfg) as [p|]; [|done]. destruct (cfg_Log cfg); [|done]. simpl.
  destruct (wrap _ abs); [|done].
  match goal with |- context [Reload ?w0 os] => set (w0' := w0) end.
  intros H. exists p. split; [done|].
  assert (0 < interval w0') as Hint by (simpl; destruct (Z.leb_spec (cfg_Interval cfg) 0); lia || done).
  destruct (Reload_cases w0' os) as [[e E]|(s & i & ws & E & Hpub & _)]; rewrite E in H; [done|].
  simplify_eq. split; [|done]. split; [done|]. split; [done|]. by exists s, i.
Qed.

(** Once the poller has returned it does not come back, so only explicit reloads publish. *)
Lemma returned_step st st' :
  thread st = Returned → step st st' →
  thread st' = Returned ∧
  (snap (watcher st') = snap (watcher st) ∨ ∃ os, watcher st' = (Reload (watcher st) os).1).
Proof.
  intros Ht Hstep. destruct Hstep; simpl in *; simplify_eq; split; try done; try by left.
  right. by eexists.
Qed.

End filewatch.

Arguments Parser : clear implicits.
Arguments Validator : clear implicits.
Arguments Config : clear implicits.
Arguments Watcher : clear implicits.
Arguments Answers : clear implicits.
Arguments state : clear implicits.

(** ** Properties *)

Section properties.
Context {T World : Type}.
Implicit Types w : Watcher T World.

(** The state after [New]: the poller waits. *)
Definition initial (w : Watcher T World) : state T World :=
  {| watcher := w; thread := Waiting; close_returned := false |}.

Lemma close_returned_thread w st :
  rtc step (initial w) st → close_returned st = true → thread st = Returned.
Proof.
  intros Hr. remember (initial w) as st0 eqn:E.
  assert (H0 : close_returned st0 = true → thread st0 = Returned) by (by subst).
  clear E. induction Hr as [|x y z Hxy _ IH]; [done|]. apply IH. clear IH.
  destruct Hxy; simpl in *; try done; intros Hc; specialize (H0 Hc); done.
Qed.

(** a reload is all or nothing.  If it reports an error the watcher is exactly as before, the log
    included; if it succeeds the published snapshot was parsed from bytes whose file did not change
    between the two stats, passed the validator, is not nil, and [lastInfo] is the stat of exactly
    those bytes. *)
Theorem reload_all_or_nothing w (os : Answers World) :
  (∃ e, Reload w os = (w, Err e)) ∨
  (∃ w' s info, Reload w os = (w', Ok ()) ∧ snap w' = Some s ∧ lastInfo w' = Some info ∧
     ans_stat os = Ok info ∧ publishable (parse w) (validate w) s info).
Proof.
  destruct (Reload_cases w os) as [H|(s & i & ws & -> & Hp & Hi & _)]; [by left|right].
  by eexists _, s, i.
Qed.

(** C12: a watcher that [New] returns never serves nil again: in every state reachable by any
    interleaving of polls, explicit reloads and [Close] its snapshot is one that was parsed from an
    untorn read and validated, whatever the operating system answers and however often reloads
    fail. *)
Theorem watcher_always_live cfg abs (os : Answers World) w st :
  New cfg abs os = Ok w → rtc step (initial w) st →
  ∃ p s info, cfg_Parse cfg = Some p ∧ Snapshot (watcher st) = Some s ∧
    publishable p (cfg_Validate cfg) s info.
Proof.
  intros Hnew Hr. destruct (New_live _ _ _ _ Hnew) as (p & Hp & Hl & _).
  apply (live_steps p (cfg_Validate cfg)) in Hr; [|done].
  destruct Hr as (_ & _ & s & i & Hs & _ & Hpub). by exists p, s, i.
Qed.

(** a poll leaves the watcher alone when the stat of the path equals the stat of the bytes behind
    the snapshot; otherwise it reloads, and when that reload fails the snapshot and the remembered
    stat stay, so the next poll that sees the same stat tries again. *)
Theorem poll_reloads_on_change w info (os os' : Answers World) :
  lastInfo w = Some info →
  poll w (Ok info) os = w ∧
  (∀ info', info' ≠ info →
     poll w (Ok info') os = poll_reload w os ∧
     (∀ e w', Reload w os = (w', Err e) →
        snap (poll w (Ok info') os) = snap w ∧
        poll (poll w (Ok info') os) (Ok info') os' = poll_reload (poll w (Ok info') os) os')).
Proof.
  intros Hi. split; [unfold poll, poll_decide; by rewrite Hi, FileChanged_refl|].
  intros info' Hne. assert (Hc : FileChanged info info' = true).
  { apply not_false_is_true. intros H%FileChanged_eq. congruence. }
  assert (Hpoll : ∀ w0 os0, lastInfo w0 = Some info → poll w0 (Ok info') os0 = poll_reload w0 os0).
  { intros w0 os0 H0. unfold poll, poll_decide. by rewrite H0, Hc. }
  rewrite (Hpoll w os Hi). split; [done|]. intros e w' He.
  destruct (poll_reload_snap w os) as (H1 & H2 & _). rewrite He in H1, H2.
  destruct (Reload_cases w os) as [[e' E]|(? & ? & ? & E & _)]; rewrite E in He; simplify_eq.
  split; [done|]. apply Hpoll. by rewrite H2.
Qed.

(** when [Close] has returned the poller is gone: no later step publishes a snapshot except an
    explicit [Reload]. *)
Theorem close_stops_poller w st st' :
  rtc step (initial w) st → close_returned st = true → step st st' →
  thread st' = Returned ∧
  (snap (watcher st') = snap (watcher st) ∨ ∃ os, watcher st' = (Reload (watcher st) os).1).
Proof.
  intros Hr Hc Hs. eapply returned_step; [|exact Hs]. by eapply close_returned_thread.
Qed.

End properties.

(** ** Witnesses: a parser that takes the number of bytes of the file, one changing file. *)

Module WatchExample.

Definition parser : Parser Z := λ r, Ok (Some (len (bufio.content r)), []).

Definition cfg : Config Z unit :=
  {| cfg_Log := true; cfg_Parse := Some parser; cfg_Validate := None; cfg_Interval := 0 |}.

Definition info (n : Z) : FileInfo := {| dev := 1; ino := 2; fsize := n; mtime := n |}.

Definition answers (s : string) : Answers unit :=
  let i := info (len (lit s)) in
  {| ans_open := Ok (); ans_stat := Ok i; ans_read := bufio.of_string (lit s);
     ans_stat_after := Ok i; ans_world := () |}.

(** A read torn by a concurrent write. *)
Definition torn : Answers unit :=
  {| ans_open := Ok (); ans_stat := Ok (info 3); ans_read := bufio.of_string (lit "abc");
     ans_stat_after := Ok (info 4); ans_world := () |}.

Definition w0 : Watcher Z unit :=
  {| parse := parser; validate := None; interval := DefaultPollInterval; snap := Some 2; lastInfo := Some (info 2);
     done := false; logged := [LogInfo] |}.

Lemma new_ok : New cfg (Ok ()) (answers "ab") = Ok w0.
Proof. reflexivity. Qed.

End WatchExample.

Lemma watcher_always_live_witness :
  New WatchExample.cfg (Ok ()) (WatchExample.answers "ab") = Ok WatchExample.w0 ∧
  ∃ p s info, Some WatchExample.parser = Some p ∧
    Snapshot (poll_reload WatchExample.w0 WatchExample.torn) = Some s ∧
    publishable p (None : option (Validator Z unit)) s info.
Proof.
  split; [reflexivity|].
  apply (watcher_always_live WatchExample.cfg (Ok ()) (WatchExample.answers "ab") WatchExample.w0
    {| watcher := poll_reload WatchExample.w0 WatchExample.torn; thread := Waiting;
       close_returned := false |}); [reflexivity|].
  eapply rtc_l; [apply (step_tick WatchExample.w0 (Ok (WatchExample.info 3)) WatchExample.w0 true);
                 reflexivity|].
  eapply rtc_l; [apply (step_poll_reload WatchExample.w0 WatchExample.torn)|].
  apply rtc_refl.
Defined.

Lemma poll_reloads_on_change_witness :
  poll WatchExample.w0 (Ok (WatchExample.info 2)) (WatchExample.answers "xyz") = WatchExample.w0 ∧
  snap (poll WatchExample.w0 (Ok (WatchExample.info 3)) (WatchExample.answers "xyz")) = Some 3 ∧
  snap (poll WatchExample.w0 (Ok (WatchExample.info 3)) WatchExample.torn) = Some 2.
Proof.
  split; [|split; reflexivity].
  apply (poll_reloads_on_change WatchExample.w0 (WatchExample.info 2) (WatchExample.answers "xyz")
    WatchExample.torn). reflexivity.
Defined.

Lemma close_stops_poller_witness :
  thread {| watcher := close_done WatchExample.w0; thread := Returned; close_returned := true |} =
    Returned ∧
  (snap (close_done WatchExample.w0) = snap (close_done WatchExample.w0) ∨
   ∃ os, close_done WatchExample.w0 = (Reload (close_done WatchExample.w0) os).1).
Proof.
  apply (close_stops_poller WatchExample.w0
    {| watcher := close_done WatchExample.w0; thread := Returned; close_returned := true |}).
  - eapply rtc_l; [apply step_close|]. eapply rtc_l; [apply step_return; reflexivity|].
    eapply rtc_l; [apply step_close_returns; reflexivity|]. apply rtc_refl.
  - reflexivity.
  - exact (step_close (close_done WatchExample.w0) Returned true).
Defined.
