(* ===== verification/LinkMap.v ===== *)
(** * The link map: [pkg/linkmap/linkmap.go].

    Maps an ingress interface to the client subnet announced with the Link Selection sub-option. *)

From S2P Require Import Prelude GoStrings GoNet Glob CfgMatch FileWatch.

(** [numFields]. *)
Definition numFields : Z := 2.

Record Entry := { Subnet : bytes; Sel : Selector }.

(** [Table]: the entries in file order. *)
Record Table := { entries : list Entry }.

Section linkmap.
Context `{UnicodeTables}.

(** [Table.Lookup]: the first entry that matches; [None] is [(nil, false)]. *)
Definition Table_Lookup (t : Table) (name mac : bytes) : option bytes :=
  match find_first (λ e, Selector_Match (Sel e) name mac) (entries t) with
  | Some e => Some (Subnet e)
  | None => None
  end.

Definition ParseSubnet (token : bytes) : result bytes :=
  match wrap "invalid subnet: " (ParseCIDR token) with
  | Err e => Err e
  | Ok ipnet =>
      let v4 := IP.To4 (ipnet_IP ipnet) in
      if bool_decide (v4 = []) then Err "subnet is not IPv4" else Ok v4
  end.

(** One line: no entry, an entry, or an error. *)
Definition parse_line (line : bytes) : result (option Entry) :=
  let fields := CfgMatch.Fields line in
  if len fields =? 0 then Ok None
  else if negb (len fields =? numFields) then Err "line: expected '<nic-selector> <subnet-cidr>'"
  else
    match wrap "line: " (ParseSelector (nth 0 fields [])) with
    | Err e => Err e
    | Ok sel =>
        match wrap "line: " (ParseSubnet (nth 1 fields [])) with
        | Err e => Err e
        | Ok subnet => Ok (Some {| Subnet := subnet; Sel := sel |})
        end
    end.

Fixpoint parse_lines (acc : list Entry) (lines : list bytes) : result (list Entry) :=
  match lines with
  | [] => Ok acc
  | line :: lines =>
      match parse_line line with
      | Err e => Err e
      | Ok None => parse_lines acc lines
      | Ok (Some e) => parse_lines (acc ++ [e]) lines
      end
  end.

Definition no_entries_warning : bytes :=
  lit "no entries: every unnumbered ingress request will be dropped".

(** [Parse]. *)
Definition Parse (r : bufio.Reader) : result (option Table * list bytes) :=
  let '(lines, scan_err) := bufio.Scan r in
  match parse_lines [] lines with
  | Err e => Err e
  | Ok es =>
      match scan_err with
      | Some e => Err ("read error: " +:+ e)
      | None => Ok (Some {| entries := es |}, if bool_decide (es = []) then [no_entries_warning] else [])
      end
  end.

(** [linkmap.New]: the file watcher with this parser and no validator. *)
Definition linkmap_config (Interval : Z) : Config Table unit :=
  {| cfg_Log := true; cfg_Parse := Some Parse; cfg_Validate := None; cfg_Interval := Interval |}.

Definition linkmap_New (Interval : Z) (abs : result unit) (os : Answers unit) :
    result (Watcher Table unit) :=
  FileWatch.New (linkmap_config Interval) abs os.

(** [Map.Lookup]: through the current snapshot. *)
Definition Map_Lookup (m : Watcher Table unit) (name mac : bytes) : option bytes :=
  match Snapshot m with
  | None => None
  | Some t => Table_Lookup t name mac
  end.

Definition Map_Reload (m : Watcher Table unit) (os : Answers unit) : Watcher Table unit * result unit :=
  Reload m os.

(** [Map.Close]: the closing of [done]; the wait for the poller is a step of the watcher. *)
Definition Map_Close (m : Watcher Table unit) : Watcher Table unit := close_done m.

(** ** Lemmas *)

Lemma ParseSubnet_v4 token subnet : ParseSubnet token = Ok subnet → length subnet = 4%nat.
Proof.
  unfold ParseSubnet, wrap. destruct (ParseCIDR token); [|done].
  case_bool_decide as E; [done|]. intros [= <-]. by apply IP.To4_length.
Qed.

(** The entries come from the lines that are not blank, in order. *)
Lemma linkmap_lines_spec acc lines es :
  parse_lines acc lines = Ok es →
  ∃ new, es = acc ++ new ∧
    Forall2 (λ fields e, ∃ f0 f1, fields = [f0; f1] ∧ ParseSelector f0 = Ok (Sel e) ∧
                                  ParseSubnet f1 = Ok (Subnet e))
      (List.filter (λ fs, negb (bool_decide (fs = []))) (map CfgMatch.Fields lines)) new.
Proof.
  revert acc. induction lines as [|l lines IH]; intros acc; simpl.
  { intros [= ->]. exists []. by rewrite app_nil_r. }
  unfold parse_line. destruct (CfgMatch.Fields l) as [|f0 [|f1 [|f2 fs]]]; [apply IH|done|..].
  2: { rewrite (proj2 (Z.eqb_neq (len (f0 :: f1 :: f2 :: fs)) numFields))
         by (unfold numFields; cbn [length]; lia). done. }
  simpl.
  destruct (ParseSelector f0) as [sel|] eqn:E0; simpl; [|done].
  destruct (ParseSubnet f1) as [sub|] eqn:E1; simpl; [|done].
  intros (new & -> & Hall)%IH. exists ({| Subnet := sub; Sel := sel |} :: new).
  rewrite <- app_assoc. split; [done|]. constructor; [|done]. by exists f0, f1.
Qed.

Lemma Parse_entries r t ws :
  Parse r = Ok (Some t, ws) →
  Forall2 (λ fields e, ∃ f0 f1, fields = [f0; f1] ∧ ParseSelector f0 = Ok (Sel e) ∧
                                ParseSubnet f1 = Ok (Subnet e))
    (List.filter (λ fs, negb (bool_decide (fs = []))) (map CfgMatch.Fields (bufio.Scan r).1))
    (entries t) ∧
  (bufio.Scan r).2 = None ∧ (ws ≠ [] ↔ entries t = []).
Proof.
  unfold Parse. destruct (bufio.Scan r) as [lines serr]. simpl.
  destruct (parse_lines [] lines) as [es|] eqn:E; [|done]. destruct serr; [done|].
  intros [= <- <-]. apply linkmap_lines_spec in E as (new & -> & H'). simpl.
  repeat split; [done|..]; case_bool_decide; done.
Qed.

Lemma Forall2_elem_of_r {A B} (P : A → B → Prop) l k y :
  Forall2 P l k → y ∈ k → ∃ x, x ∈ l ∧ P x y.
Proof.
  induction 1 as [|x y' l k Hxy _ IH]; [by intros ?%elem_of_nil|].
  intros [->|Hy]%elem_of_cons; [exists x; split; [left|done]|].
  destruct (IH Hy) as (x' & ? & ?). exists x'. split; [by right|done].
Qed.

(** Every subnet of a parsed table is an IPv4 address, so it always makes a Link Selection
    sub-option. *)
Lemma Parse_subnets r t ws e :
  Parse r = Ok (Some t, ws) → e ∈ entries t → length (Subnet e) = 4%nat ∧ valid_selector (Sel e).
Proof.
  intros Hp He. apply Parse_entries in Hp as (Hall & _ & _).
  destruct (Forall2_elem_of_r _ _ _ _ Hall He) as (fs & _ & f0 & f1 & _ & Hs & Hsub).
  split; [by eapply ParseSubnet_v4|by eapply ParseSelector_valid].
Qed.

Lemma Parse_not_nil r ws : Parse r ≠ Ok (None, ws).
Proof. unfold Parse. by repeat case_match. Qed.

Lemma Table_Lookup_first t name mac subnet :
  Table_Lookup t name mac = Some subnet ↔
  ∃ pre e post, entries t = pre ++ e :: post ∧ Subnet e = subnet ∧
    Selector_Match (Sel e) name mac = true ∧
    Forall (λ e', Selector_Match (Sel e') name mac = false) pre.
Proof.
  unfold Table_Lookup. destruct t as [es]. simpl. induction es as [|e es IH]; simpl.
  { split; [done|]. by intros ([|] & ? & ? & ? & _). }
  destruct (Selector_Match (Sel e) name mac) eqn:E.
  - split.
    + intros [= <-]. by exists [], e, es.
    + intros ([|e1 pre] & e' & post & Heq & Hs & Hm & Hall); simplify_eq/=; [done|].
      apply Forall_cons in Hall as [? _]. congruence.
  - rewrite IH. split.
    + intros (pre & e' & post & -> & ? & ? & ?). exists (e :: pre), e', post.
      repeat split; try done. by constructor.
    + intros ([|e1 pre] & e' & post & Heq & Hs & Hm & Hall); simplify_eq/=; [congruence|].
      apply Forall_cons in Hall as [_ Hall]. by exists pre, e', post.
Qed.

End linkmap.

(** ** Properties *)

(** a link map that parses has exactly one entry per non blank line, in file order, each made of
    the selector and the subnet of the line's two fields; the whole input was read without a scanner
    error; every subnet is a four byte IPv4 address and every pattern well formed; and the warning
    about an empty map is raised exactly for the empty map. *)
Theorem linkmap_parse_correct `{UnicodeTables} (r : bufio.Reader) (t : Table) (ws : list bytes) :
  Parse r = Ok (Some t, ws) →
  Forall2 (λ fields e, ∃ f0 f1, fields = [f0; f1] ∧ ParseSelector f0 = Ok (Sel e) ∧
                                ParseSubnet f1 = Ok (Subnet e))
    (List.filter (λ fs, negb (bool_decide (fs = []))) (map CfgMatch.Fields (bufio.Scan r).1))
    (entries t) ∧
  (bufio.Scan r).2 = None ∧ (ws ≠ [] ↔ entries t = []) ∧
  (∀ e, e ∈ entries t → length (Subnet e) = 4%nat ∧ valid_selector (Sel e)).
Proof.
  intros Hp. destruct (Parse_entries r t ws Hp) as (H1 & H2 & H3).
  split; [done|]. split; [done|]. split; [done|]. intros e. by eapply Parse_subnets.
Qed.

Definition example_map : bufio.Reader :=
  bufio.of_string (lit "# map
name=eth0   192.168.50.7/24
mac=02:00:00:*,name=br-* 10.1.2.3/8  # lan

* ::ffff:172.16.9.9/112
").

Definition example_table : Table :=
  {| entries := [
       {| Subnet := [192; 168; 50; 0];
          Sel := {| NameGlobs := [lit "eth0"]; MACGlobs := []; All := false |} |};
       {| Subnet := [10; 0; 0; 0];
          Sel := {| NameGlobs := [lit "br-*"]; MACGlobs := [lit "02:00:00:*"]; All := false |} |};
       {| Subnet := [172; 16; 0; 0];
          Sel := {| NameGlobs := []; MACGlobs := []; All := true |} |}] |}.

Lemma linkmap_parse_correct_witness :
  @Parse ascii_tables example_map = Ok (Some example_table, []) ∧
  (∀ e, e ∈ entries example_table → length (Subnet e) = 4%nat ∧ valid_selector (Sel e)).
Proof.
  split; [vm_compute; reflexivity|].
  apply (@linkmap_parse_correct ascii_tables example_map example_table []).
  vm_compute. reflexivity.
Defined.

(** a lookup returns the subnet of the first entry whose selector accepts the interface, and
    fails exactly when no entry accepts it; before the first load the map answers nothing. *)
Theorem linkmap_lookup_first_match `{UnicodeTables} (t : Table) (name mac subnet : bytes) :
  (Table_Lookup t name mac = Some subnet ↔
   ∃ pre e post, entries t = pre ++ e :: post ∧ Subnet e = subnet ∧
     Selector_Match (Sel e) name mac = true ∧
     Forall (λ e', Selector_Match (Sel e') name mac = false) pre) ∧
  (Table_Lookup t name mac = None ↔
   ∀ e, e ∈ entries t → Selector_Match (Sel e) name mac = false).
Proof.
  split; [apply Table_Lookup_first|]. unfold Table_Lookup. rewrite <- find_first_None.
  by destruct (find_first _ (entries t)).
Qed.
