(* ===== verification/MacPolicy.v ===== *)
(** * The per client policy: [pkg/macpolicy/macpolicy.go] and [reply.go].

    A policy file maps client identifiers to a forward action and a reverse path action, with a
    fallback for unmatched clients. *)

From S2P Require Import Prelude GoStrings GoNet Specs Layers Option82 Glob CfgMatch FileWatch.

(** ** Syntax *)

Definition HexPrefix : bytes := lit "0x".
Definition ActionPrefix : bytes := lit "@".
Definition ActionDefaultKeyword : bytes := lit "@default".
Definition ActionBlackholeKeyword : bytes := lit "@blackhole".

Definition fieldKey : nat := 0.
Definition fieldAction : nat := 1.
Definition fieldReply : nat := 2.
Definition maxFields : Z := 3.

(** ** Actions *)

(** [ActionKind]: [ActionBlackhole] is the zero value. *)
Inductive ActionKind := ActionBlackhole | ActionDefault | ActionServer.

(** [ReplyActionKind]: [ReplyIngress] is the zero value. *)
Inductive ReplyActionKind := ReplyIngress | ReplyBlackhole | ReplyMatch.

#[global] Instance ActionKind_eq_dec : EqDecision ActionKind.
Proof. solve_decision. Defined.
#[global] Instance ReplyActionKind_eq_dec : EqDecision ReplyActionKind.
Proof. solve_decision. Defined.

Record ReplyAction := { rep_Selector : Selector; rep_Kind : ReplyActionKind }.
Record Action := { act_Server : bytes; act_Reply : ReplyAction; act_Kind : ActionKind }.

Definition zero_reply : ReplyAction := {| rep_Selector := zero_selector; rep_Kind := ReplyIngress |}.

(** [Action{Kind: k, Server: s}], and [Action{}]. *)
Definition mkAction (k : ActionKind) (s : bytes) : Action :=
  {| act_Server := s; act_Reply := zero_reply; act_Kind := k |}.
Definition zero_action : Action := mkAction ActionBlackhole [].

Definition set_Reply (a : Action) (r : ReplyAction) : Action :=
  {| act_Server := act_Server a; act_Reply := r; act_Kind := act_Kind a |}.

(** [Action.String]. *)
Definition Action_String (a : Action) : bytes :=
  match act_Kind a with
  | ActionServer => lit "server " ++ act_Server a
  | ActionDefault => lit "default"
  | ActionBlackhole => lit "blackhole"
  end.

(** ** Tables *)

Record Table := { entries : gmap bytes Action; fallback : Action }.

(** [Table.LookupID]: the second result is nil when no identifier matched. *)
Fixpoint Table_LookupID (t : Table) (ids : list bytes) : Action * bytes :=
  match ids with
  | [] => (fallback t, [])
  | id :: ids =>
      if len id =? 0 then Table_LookupID t ids
      else match entries t !! id with
           | Some a => (a, id)
           | None => Table_LookupID t ids
           end
  end.

Definition Table_Lookup (t : Table) (ids : list bytes) : Action := (Table_LookupID t ids).1.

(** ** Validation

    [resolve] is what [LookupHost] answers for a name.  One pass asks for a name at most once
    ([policy_validate_correct]), so a function of the name loses nothing although the answers of a
    resolver change over time.  The state is the [serverSet] of the pass and, for the theorems, the
    names it looked up. *)

Record validation := { seen : gset bytes; lookups : list bytes }.

Definition ValidateServerContext (resolve : bytes → result unit) (a : Action) (v : validation) :
    validation * result unit :=
  if negb (bool_decide (act_Kind a = ActionServer)) then (v, Ok ())
  else if bool_decide (act_Server a ∈ seen v) then (v, Ok ())
  else if negb (bool_decide (ParseIP (act_Server a) = [])) then
    ({| seen := {[act_Server a]} ∪ seen v; lookups := lookups v |}, Ok ())
  else
    match wrap "server is not a valid IP or resolvable host: " (resolve (act_Server a)) with
    | Err e => ({| seen := seen v; lookups := lookups v ++ [act_Server a] |}, Err e)
    | Ok _ => ({| seen := {[act_Server a]} ∪ seen v; lookups := lookups v ++ [act_Server a] |}, Ok ())
    end.

(** The loop over the entries, in the order the runtime iterates the map. *)
Fixpoint validate_actions (resolve : bytes → result unit) (actions : list Action) (v : validation) :
    validation * result unit :=
  match actions with
  | [] => (v, Ok ())
  | a :: actions =>
      match ValidateServerContext resolve a v with
      | (v, Err e) => (v, Err e)
      | (v, Ok _) => validate_actions resolve actions v
      end
  end.

(** [Table.ValidateContext] when the map is iterated in the given order. *)
Definition ValidateContext_in (order : list Action) (resolve : bytes → result unit) (t : Table) :
    validation * result unit :=
  match validate_actions resolve order {| seen := ∅; lookups := [] |} with
  | (v, Err e) => (v, Err e)
  | (v, Ok _) => ValidateServerContext resolve (fallback t) v
  end.

Definition actions_of (t : Table) : list Action := (map_to_list (entries t)).*2.

Definition ValidateContext (resolve : bytes → result unit) (t : Table) : result unit :=
  (ValidateContext_in (actions_of t) resolve t).2.

(** The entry points without a context, which nothing cuts short. *)
Definition ValidateServer (resolve : bytes → result unit) (a : Action) (v : validation) :
    validation * result unit := ValidateServerContext resolve a v.

Definition Validate (resolve : bytes → result unit) (t : Table) : result unit := ValidateContext resolve t.

(** The world a validation consults is the resolver, cut short when the watcher is closed. *)
Abbreviation Map := (Watcher Table (bytes → result unit)).

(** ** Parsing *)

Section parse.
Context `{UnicodeTables}.

Definition ParseAction (token : bytes) : result Action :=
  if bool_decide (token = []) || bool_decide (token = ActionDefaultKeyword) then
    Ok (mkAction ActionDefault [])
  else if bool_decide (token = ActionBlackholeKeyword) then Ok (mkAction ActionBlackhole [])
  else if strings.HasPrefix token ActionPrefix then Err "unknown action"
  else Ok (mkAction ActionServer token).

Definition ParseReplyAction (token : bytes) : result ReplyAction :=
  if bool_decide (token = []) || bool_decide (token = ActionDefaultKeyword) then
    Ok {| rep_Selector := zero_selector; rep_Kind := ReplyIngress |}
  else if bool_decide (token = ActionBlackholeKeyword) then
    Ok {| rep_Selector := zero_selector; rep_Kind := ReplyBlackhole |}
  else if strings.HasPrefix token ActionPrefix then Err "unknown reply action"
  else
    match ParseSelector token with
    | Err e => Err e
    | Ok sel => Ok {| rep_Selector := sel; rep_Kind := ReplyMatch |}
    end.

Definition ParseIdentifier (token : bytes) : result bytes :=
  if strings.HasPrefix token HexPrefix || strings.HasPrefix token (lit "0X") then
    match wrap "invalid hex identifier: " (hex.DecodeString (drop (length HexPrefix) token)) with
    | Err e => Err e
    | Ok id =>
        if len id =? 0 then Err "empty hex identifier"
        else if MaxPolicyTagSize <? len id then Err "hex identifier does not fit the Option 82 policy tag"
        else Ok id
    end
  else
    match wrap "invalid identifier: " (HardwareAddr.ParseMAC token) with
    | Err e => Err e
    | Ok id =>
        if negb (len id =? EthernetMACLengthBytes) then Err "identifier must be a 6 byte MAC" else Ok id
    end.

(** The state of the loop of [Parse]. *)
Record pstate := { p_table : Table; p_warnings : list bytes; p_sawCatchAll : bool }.

Definition line_text (lineNum : Z) (msg : bytes) : bytes :=
  lit "line " ++ strconv.FormatUint lineNum ++ lit ": " ++ msg.

(** The fields of one line: the key and the whole action. *)
Definition parse_fields (fields : list bytes) : result (bytes * Action) :=
  let actionToken := nth fieldAction fields [] in
  let replyToken := nth fieldReply fields [] in
  match wrap "line: " (ParseAction actionToken) with
  | Err e => Err e
  | Ok action =>
      match wrap "line: " (ParseReplyAction replyToken) with
      | Err e => Err e
      | Ok reply => Ok (nth fieldKey fields [], set_Reply action reply)
      end
  end.

(** One round of the loop. *)
Definition parse_line (lineNum : Z) (line : bytes) (s : pstate) : result pstate :=
  let fields := CfgMatch.Fields line in
  let t := p_table s in
  if len fields =? 0 then Ok s
  else if maxFields <? len fields then Err "line: expected '<key> [action] [reply]'"
  else
    match parse_fields fields with
    | Err e => Err e
    | Ok (key, action) =>
        if bool_decide (key = CatchAllKey) then
          Ok {| p_table := {| entries := entries t; fallback := action |};
                p_warnings := p_warnings s ++
                  if p_sawCatchAll s then
                    [line_text lineNum (lit "duplicate " ++ [34] ++ CatchAllKey ++ [34] ++
                                        lit " entry, last one wins")]
                  else [];
                p_sawCatchAll := true |}
        else
          match wrap "line: " (ParseIdentifier key) with
          | Err e => Err e
          | Ok k =>
              Ok {| p_table := {| entries := <[k := action]> (entries t); fallback := fallback t |};
                    p_warnings := p_warnings s ++
                      match entries t !! k with
                      | Some _ => [line_text lineNum (lit "duplicate identifier " ++ key ++
                                                      lit ", last entry wins")]
                      | None => []
                      end;
                    p_sawCatchAll := p_sawCatchAll s |}
          end
    end.

Fixpoint parse_lines (lineNum : Z) (lines : list bytes) (s : pstate) : result pstate :=
  match lines with
  | [] => Ok s
  | line :: lines =>
      match parse_line lineNum line s with
      | Err e => Err e
      | Ok s => parse_lines (lineNum + 1) lines s
      end
  end.

Definition parse_start : pstate :=
  {| p_table := {| entries := ∅; fallback := zero_action |}; p_warnings := []; p_sawCatchAll := false |}.

Definition no_relayable_text : bytes := lit "no relayable entries: every DHCPv4 message will be dropped".

Definition Parse (r : bufio.Reader) : result (option Table * list bytes) :=
  let '(lines, scan_err) := bufio.Scan r in
  match parse_lines 1 lines parse_start with
  | Err e => Err e
  | Ok s =>
      match scan_err with
      | Some e => Err ("read error: " +:+ e)
      | None =>
          Ok (Some (p_table s),
              p_warnings s ++
              if bool_decide (entries (p_table s) = ∅) &&
                 bool_decide (act_Kind (fallback (p_table s)) = ActionBlackhole)
              then [no_relayable_text] else [])
      end
  end.

(** ** The live policy *)

(** [macpolicy.New]. *)
Definition policy_config (Interval : Z) : Config Table (bytes → result unit) :=
  {| cfg_Log := true; cfg_Parse := Some Parse; cfg_Validate := Some ValidateContext;
     cfg_Interval := Interval |}.

Definition policy_New (Interval : Z) (abs : result unit) (os : Answers (bytes → result unit)) :
    result Map :=
  FileWatch.New (policy_config Interval) abs os.

Definition Map_LookupID (m : Map) (ids : list bytes) : Action * bytes :=
  match Snapshot m with
  | None => (zero_action, [])
  | Some t => Table_LookupID t ids
  end.

Definition Map_Lookup (m : Map) (ids : list bytes) : Action := (Map_LookupID m ids).1.

Definition Map_Reload (m : Map) (os : Answers (bytes → result unit)) : Map * result unit := Reload m os.

Definition Map_Close (m : Map) : Map := close_done m.

Definition Map_CloseContext (m : Map) : bridge := CloseContext (Some (done m)).

End parse.

(** ** Lemmas: lookup *)

Lemma LookupID_cases t ids :
  (∃ pre id post a, ids = pre ++ id :: post ∧ id ≠ [] ∧ entries t !! id = Some a ∧
     Forall (λ i, i = [] ∨ entries t !! i = None) pre ∧ Table_LookupID t ids = (a, id)) ∨
  (Forall (λ i, i = [] ∨ entries t !! i = None) ids ∧ Table_LookupID t ids = (fallback t, [])).
Proof.
  induction ids as [|i ids IH]; [by right|]. simpl. destruct (Z.eqb_spec (len i) 0) as [E|E].
  - apply len_zero in E as ->. destruct IH as [(pre & id & post & a & -> & ? & ? & ? & ?)|[? ?]].
    + left. exists ([] :: pre), id, post, a. repeat split; try done. constructor; [by left|done].
    + right. split; [|done]. constructor; [by left|done].
  - assert (i ≠ []) by (intros ->; done). destruct (entries t !! i) as [a|] eqn:Ei.
    + left. by exists [], i, ids, a.
    + destruct IH as [(pre & id & post & a & -> & ? & ? & ? & ?)|[? ?]].
      * left. exists (i :: pre), id, post, a. repeat split; try done. constructor; [by right|done].
      * right. split; [|done]. constructor; [by right|done].
Qed.

(** A matched key is an entry, and looking it up alone finds the same action again. *)
Lemma LookupID_key t ids a k :
  Table_LookupID t ids = (a, k) → k ≠ [] →
  entries t !! k = Some a ∧ Table_LookupID t [k] = (a, k).
Proof.
  intros Hl Hk. destruct (LookupID_cases t ids) as [(? & id & ? & a' & ? & Hne & He & _ & E)|[_ E]];
    rewrite E in Hl; simplify_eq. split; [done|]. simpl.
  destruct (Z.eqb_spec (len k) 0) as [?%len_zero|]; [done|]. by rewrite He.
Qed.

(** ** Lemmas: identifiers *)

Lemma HexPrefix_String hw :
  wf_bytes hw → length hw = 6%nat →
  strings.HasPrefix (HardwareAddr.String hw) HexPrefix = false ∧
  strings.HasPrefix (HardwareAddr.String hw) (lit "0X") = false.
Proof.
  intros Hwf Hl. pose proof (HardwareAddr.String_chars hw Hwf) as Hc.
  destruct hw as [|a [|b hw]]; [done..|]. rewrite HardwareAddr.String_cons in * by done.
  apply Forall_cons in Hc as [_ Hc]. apply Forall_cons in Hc as [Hc _].
  unfold strings.HasPrefix. change HexPrefix with [48; 120]. change (lit "0X") with [48; 88].
  split; apply bool_decide_eq_false; intros E; injection E as _ E; lia.
Qed.

Lemma ParseIdentifier_mac hw :
  wf_bytes hw → length hw = 6%nat → ParseIdentifier (HardwareAddr.String hw) = Ok hw.
Proof.
  intros Hwf Hl. unfold ParseIdentifier. destruct (HexPrefix_String hw) as [-> ->]; [done..|]. simpl.
  rewrite HardwareAddr.ParseMAC_String by done. simpl. by rewrite Hl.
Qed.

Lemma ParseIdentifier_hex id :
  wf_bytes id → id ≠ [] → len id ≤ MaxPolicyTagSize →
  ParseIdentifier (HexPrefix ++ hex.EncodeToString id) = Ok id.
Proof.
  intros Hwf Hne Hl. unfold ParseIdentifier. rewrite strings.HasPrefix_app. cbn [orb].
  rewrite drop_app_len, hex.DecodeString_EncodeToString by done. cbn [wrap].
  destruct (Z.eqb_spec (len id) 0) as [?%len_zero|]; [done|].
  by rewrite (proj2 (Z.ltb_ge MaxPolicyTagSize (len id))) by done.
Qed.

Lemma ParseIdentifier_bound token id :
  ParseIdentifier token = Ok id → id ≠ [] ∧ len id ≤ MaxPolicyTagSize.
Proof.
  unfold ParseIdentifier, wrap. change MaxPolicyTagSize with 241. intros Hp.
  assert (0 < len id ≤ 241); [|split; [intros ->; simpl in *|]; lia].
  destruct (_ || _).
  - destruct (hex.DecodeString _) as [id'|]; [|done].
    destruct (Z.eqb_spec (len id') 0); [done|]. destruct (Z.ltb_spec 241 (len id')); [done|].
    simplify_eq. lia.
  - destruct (HardwareAddr.ParseMAC token) as [id'|]; [|done].
    destruct (len id' =? EthernetMACLengthBytes) eqn:E; simplify_eq/=.
    unfold EthernetMACLengthBytes in E. reflect_bools. lia.
Qed.

(** ** Lemmas: parsing

    The rules of a file are its non blank lines: a key, [None] for the catch-all, and an action.  The
    table is the last rule of each key. *)

Abbreviation rule := (option bytes * Action)%type.

Definition last_rule (k : option bytes) (rules : list rule) : option Action :=
  foldl (λ acc r, if bool_decide (r.1 = k) then Some r.2 else acc) None rules.

Lemma last_rule_snoc k rules r :
  last_rule k (rules ++ [r]) = if bool_decide (r.1 = k) then Some r.2 else last_rule k rules.
Proof. unfold last_rule. by rewrite foldl_app. Qed.

Lemma last_rule_elem k rules : is_Some (last_rule k rules) ↔ k ∈ rules.*1.
Proof.
  induction rules as [|r rules IH] using rev_ind.
  { split; [by intros [? ?]|by intros ?%elem_of_nil]. }
  rewrite last_rule_snoc, fmap_app, elem_of_app. simpl. rewrite list_elem_of_singleton.
  case_bool_decide as E; [split; [intros _; by right|done]|]. rewrite IH.
  split; [by left|]. intros [?|?]; [done|congruence].
Qed.

Lemma NoDup_snoc {A} (l : list A) x : NoDup (l ++ [x]) ↔ NoDup l ∧ x ∉ l.
Proof.
  rewrite NoDup_app. setoid_rewrite list_elem_of_singleton.
  split; [intros (? & Hx & _); split; [done|]; intros ?; by eapply Hx|].
  intros [? ?]. split; [done|]. split; [by intros y ? ->|apply NoDup_singleton].
Qed.

Section parse_lemmas.
Context `{UnicodeTables}.

(** The rule the fields of a line stand for. *)
Definition rule_of (fields : list bytes) (r : rule) : Prop :=
  len fields ≤ maxFields ∧
  ∃ key, parse_fields fields = Ok (key, r.2) ∧
    match r.1 with
    | None => key = CatchAllKey
    | Some id => key ≠ CatchAllKey ∧ ParseIdentifier key = Ok id
    end.

(** What the loop state says of the rules read so far. *)
Definition table_of (t : Table) (rules : list rule) : Prop :=
  (∀ id, entries t !! id = last_rule (Some id) rules) ∧
  fallback t = default zero_action (last_rule None rules).

(** A warning that names a line, not the file. *)
Definition about_line (w : bytes) : Prop := ∃ n msg, w = line_text n msg.

Definition pstate_ok (s : pstate) (rules : list rule) : Prop :=
  table_of (p_table s) rules ∧
  (p_sawCatchAll s = true ↔ None ∈ rules.*1) ∧
  (p_warnings s = [] ↔ NoDup rules.*1) ∧
  Forall (about_line) (p_warnings s).

Lemma app_nil_iff {A} (l k : list A) : l ++ k = [] ↔ l = [] ∧ k = [].
Proof. split; [apply app_nil|by intros [-> ->]]. Qed.

Lemma pstate_ok_snoc s rules t saw dup r :
  pstate_ok s rules → table_of t (rules ++ [r]) →
  (saw = true ↔ p_sawCatchAll s = true ∨ r.1 = None) → (dup = [] ↔ r.1 ∉ rules.*1) →
  Forall about_line dup →
  pstate_ok {| p_table := t; p_warnings := p_warnings s ++ dup; p_sawCatchAll := saw |} (rules ++ [r]).
Proof.
  intros (_ & Hc & Hw & Hl) Ht Hsaw Hdup Hdl. split; [done|]. cbn [p_sawCatchAll p_warnings].
  rewrite fmap_app. cbn. split.
  - rewrite Hsaw, Hc, elem_of_app, list_elem_of_singleton. split; intros [?|?]; auto.
  - split; [by rewrite app_nil_iff, NoDup_snoc, Hw, Hdup|by apply Forall_app].
Qed.

(** What the warning about the file says in terms of the rules: no line names an identifier, and the
    action that is left for everybody drops. *)
Definition drops_all (rules : list rule) : Prop :=
  (∀ id, Some id ∉ rules.*1) ∧
  act_Kind (default zero_action (last_rule None rules)) = ActionBlackhole.

Lemma drops_all_table t rules :
  table_of t rules → (entries t = ∅ ∧ act_Kind (fallback t) = ActionBlackhole ↔ drops_all rules).
Proof.
  intros [He Hf]. unfold drops_all. rewrite Hf. split; intros [Hn Ha]; (split; [|done]).
  - intros id Hin. apply last_rule_elem in Hin. rewrite <- He, Hn, lookup_empty in Hin. by destruct Hin.
  - apply map_empty. intros id. rewrite He. apply eq_None_not_Some. by rewrite last_rule_elem.
Qed.

Lemma table_of_catch_all t rules action :
  table_of t rules →
  table_of {| entries := entries t; fallback := action |} (rules ++ [(None, action)]).
Proof. intros [He Hf]. split; [intros id|]; simpl; by rewrite last_rule_snoc. Qed.

Lemma table_of_entry t rules k action :
  table_of t rules →
  table_of {| entries := <[k := action]> (entries t); fallback := fallback t |}
    (rules ++ [(Some k, action)]).
Proof.
  intros [He Hf]. split; [intros id|]; simpl; rewrite last_rule_snoc; simpl; [|done].
  case_bool_decide; simplify_eq; [by rewrite lookup_insert_eq|].
  rewrite lookup_insert_ne by congruence. apply He.
Qed.

Lemma parse_line_spec n line s s' rules :
  parse_line n line s = Ok s' → pstate_ok s rules →
  (CfgMatch.Fields line = [] ∧ s' = s) ∨
  (CfgMatch.Fields line ≠ [] ∧
   ∃ r, rule_of (CfgMatch.Fields line) r ∧ pstate_ok s' (rules ++ [r])).
Proof.
  intros Hp Hok. pose proof Hok as (Ht & Hc & _). unfold parse_line in Hp.
  destruct (Z.eqb_spec (len (CfgMatch.Fields line)) 0) as [E|E].
  { apply len_zero in E. left. by simplify_eq. }
  right. split; [intros E0; by rewrite E0 in E|].
  destruct (Z.ltb_spec maxFields (len (CfgMatch.Fields line))); [done|].
  destruct (parse_fields _) as [[key action]|] eqn:Epf; [|done]. case_bool_decide as Ek.
  - injection Hp as <-. exists (None, action). split; [split; [done|by eexists]|].
    apply pstate_ok_snoc; [done|by apply table_of_catch_all|split; auto|
      |destruct (p_sawCatchAll s); repeat constructor; by eexists _, _]. simpl. rewrite <- Hc.
    by destruct (p_sawCatchAll s); split; intros; try done.
  - destruct (ParseIdentifier key) as [k|] eqn:Ei; [|done]. injection Hp as <-.
    exists (Some k, action). split; [split; [done|by eexists]|].
    apply pstate_ok_snoc; [done|by apply table_of_entry|split; [by left|by intros [?|?]]|
      |destruct (entries (p_table s) !! k); repeat constructor; by eexists _, _].
    simpl. rewrite <- last_rule_elem, <- (proj1 Ht).
    destruct (entries (p_table s) !! k); split; intros Hx; first [done|by destruct Hx|by intros [? ?]].
Qed.

Lemma policy_lines_spec lines : ∀ n s s' rules,
  parse_lines n lines s = Ok s' → pstate_ok s rules →
  ∃ new, Forall2 rule_of
           (List.filter (λ fs, negb (bool_decide (fs = []))) (map CfgMatch.Fields lines)) new ∧
         pstate_ok s' (rules ++ new).
Proof.
  induction lines as [|l lines IH]; intros n s s' rules; simpl.
  { intros [= ->] ?. exists []. by rewrite app_nil_r. }
  destruct (parse_line n l s) as [s1|] eqn:E; [|done]. intros Hp Hok.
  destruct (parse_line_spec _ _ _ _ _ E Hok) as [[-> ->]|(Hne & r & Hr & Hok')]; simpl.
  { by eapply IH. }
  destruct (IH _ _ _ _ Hp Hok') as (new & Hall & Hok''). rewrite <- app_assoc in Hok''.
  exists (r :: new). rewrite bool_decide_eq_false_2 by done. simpl. split; [by constructor|done].
Qed.

Lemma parse_start_ok : pstate_ok parse_start [].
Proof.
  repeat split; simpl; try done; [by intros ?%elem_of_nil|constructor].
Qed.

Lemma Parse_rules r t ws :
  Parse r = Ok (Some t, ws) →
  (bufio.Scan r).2 = None ∧
  ∃ rules, Forall2 rule_of
      (List.filter (λ fs, negb (bool_decide (fs = []))) (map CfgMatch.Fields (bufio.Scan r).1)) rules ∧
    table_of t rules ∧ (ws = [] ↔ NoDup rules.*1 ∧ ¬ drops_all rules) ∧
    (no_relayable_text ∈ ws ↔ drops_all rules).
Proof.
  unfold Parse. destruct (bufio.Scan r) as [lines serr]. simpl.
  destruct (parse_lines 1 lines parse_start) as [s|] eqn:E; [|done]. destruct serr; [done|].
  intros [= <- <-]. split; [done|].
  destruct (policy_lines_spec _ _ _ _ _ E parse_start_ok) as (rules & Hall & Ht & _ & Hw & Hl).
  exists rules. split; [done|]. split; [done|].
  assert (Hnl : no_relayable_text ∉ p_warnings s).
  { intros Hin. rewrite Forall_forall in Hl. by destruct (Hl _ Hin) as (n & msg & E'). }
  rewrite app_nil_iff, Hw, elem_of_app, <- (drops_all_table _ _ Ht).
  repeat case_bool_decide; cbn [andb]; rewrite ?list_elem_of_singleton, ?elem_of_nil; naive_solver.
Qed.

(** Every key of a parsed table fits the policy tag sub-option. *)
Lemma Parse_keys r t ws k a :
  Parse r = Ok (Some t, ws) → entries t !! k = Some a → k ≠ [] ∧ len k ≤ MaxPolicyTagSize.
Proof.
  intros (_ & rules & Hall & [He _] & _)%Parse_rules Hk.
  assert (Hin : Some k ∈ rules.*1) by (apply last_rule_elem; by rewrite <- He, Hk).
  apply list_elem_of_fmap in Hin as (r' & Heq & Hin).
  apply list_elem_of_lookup in Hin as [i Hi].
  destruct (Forall2_lookup_r _ _ _ _ _ Hall Hi) as (fs & _ & _ & key & _ & Hm).
  rewrite <- Heq in Hm. destruct Hm as [_ Hm]. by eapply ParseIdentifier_bound.
Qed.

End parse_lemmas.

(** ** Lemmas: validation *)

Section validation_lemmas.
Variable resolve : bytes → result unit.

(** The server of an action is an address or resolves. *)
Definition server_valid (a : Action) : Prop :=
  act_Kind a = ActionServer → ParseIP (act_Server a) ≠ [] ∨ resolve (act_Server a) = Ok ().

(** The set of a pass holds checked servers, among them every name already looked up. *)
Definition validation_ok (v : validation) : Prop :=
  (∀ s, s ∈ seen v → ParseIP s ≠ [] ∨ resolve s = Ok ()) ∧
  (∀ s, s ∈ lookups v → s ∈ seen v) ∧ NoDup (lookups v).

(** The outcome of a part of a pass that checks [P]. *)
Definition checked (P : Prop) (out : validation * result unit) : Prop :=
  NoDup (lookups out.1) ∧
  match out.2 with Ok _ => P ∧ validation_ok out.1 | Err _ => ¬ P end.

Lemma ValidateServerContext_spec a v :
  validation_ok v → checked (server_valid a) (ValidateServerContext resolve a v).
Proof.
  intros Hok. pose proof Hok as (Hs & Hl & Hn). unfold ValidateServerContext, checked, server_valid.
  case_bool_decide as Ek; cbn [negb]; [|done]. case_bool_decide as Es.
  { split; [done|]. split; [|done]. intros _. by apply Hs. }
  assert (Hnew : NoDup (lookups v ++ [act_Server a])).
  { apply NoDup_snoc. split; [done|]. auto. }
  case_bool_decide as Ei; cbn [negb]; [destruct (resolve (act_Server a)) as [[]|e] eqn:Er; cbn|cbn].
  - split; [done|]. split; [by right|]. split; [set_solver|]. split; [set_solver|done].
  - split; [done|]. intros Hv. destruct (Hv Ek); [done|congruence].
  - split; [done|]. split; [by left|]. split; [set_solver|]. split; [set_solver|done].
Qed.

Lemma validate_actions_spec actions v :
  validation_ok v → checked (Forall server_valid actions) (validate_actions resolve actions v).
Proof.
  revert v. induction actions as [|a actions IH]; intros v Hok; simpl.
  { split; [by apply Hok|]. by split. }
  pose proof (ValidateServerContext_spec a v Hok) as [Hn Ha].
  destruct (ValidateServerContext resolve a v) as [v' [[]|e]]; simpl in *.
  - destruct Ha as [Ha Hok']. destruct (IH v' Hok') as [Hn' Hr]. split; [done|].
    destruct (validate_actions resolve actions v') as [v'' [[]|e]]; simpl in *.
    + destruct Hr as [? ?]. split; [by constructor|done].
    + intros [_ ?]%Forall_cons. done.
  - split; [done|]. intros [? _]%Forall_cons. done.
Qed.

Lemma ValidateContext_in_spec order t :
  checked (Forall server_valid order ∧ server_valid (fallback t)) (ValidateContext_in order resolve t).
Proof.
  unfold ValidateContext_in.
  destruct (validate_actions_spec order {| seen := ∅; lookups := [] |}) as [Hn Hr].
  { split; [set_solver|]. split; [set_solver|constructor]. }
  destruct (validate_actions _ _ _) as [v [[]|e]]; simpl in *; [|by split; [|intros [? _]]].
  destruct Hr as [Hall Hok]. destruct (ValidateServerContext_spec (fallback t) v Hok) as [Hn' Hr'].
  split; [done|]. destruct (ValidateServerContext _ _ _) as [v' [[]|e]]; simpl in *; [by destruct Hr'|by intros [_ ?]].
Qed.

Lemma actions_of_Forall (P : Action → Prop) t :
  Forall P (actions_of t) ↔ ∀ k a, entries t !! k = Some a → P a.
Proof.
  unfold actions_of. rewrite Forall_fmap, Forall_forall. split.
  - intros Hall k a Hk. apply (Hall (k, a)). by apply elem_of_map_to_list.
  - intros Hall [k a] Hin%elem_of_map_to_list. by eapply Hall.
Qed.

End validation_lemmas.

(** ** Properties *)

(** C26: a policy that parses is the last rule of each key.  Each non blank line is one rule, in file
    order; an identifier maps to the action of the last line that names it, the fallback is the last
    catch-all line or, without one, the blackhole; every key is non empty and fits the policy tag.  The
    warning that every message will be dropped is given exactly when no line names an identifier and the
    fallback is the blackhole, and then every lookup is dropped; there is no warning at all exactly when,
    besides, no key is repeated. *)
Theorem policy_parse_correct `{UnicodeTables} (r : bufio.Reader) (t : Table) (ws : list bytes) :
  Parse r = Ok (Some t, ws) →
  ∃ rules,
    Forall2 rule_of
      (List.filter (λ fs, negb (bool_decide (fs = []))) (map CfgMatch.Fields (bufio.Scan r).1)) rules ∧
    (∀ id, entries t !! id = last_rule (Some id) rules) ∧
    fallback t = default zero_action (last_rule None rules) ∧
    (∀ id a, entries t !! id = Some a → id ≠ [] ∧ len id ≤ MaxPolicyTagSize) ∧
    (no_relayable_text ∈ ws ↔ drops_all rules) ∧
    (no_relayable_text ∈ ws → ∀ ids, act_Kind (Table_LookupID t ids).1 = ActionBlackhole) ∧
    (ws = [] ↔ NoDup rules.*1 ∧ ¬ drops_all rules).
Proof.
  intros Hp. destruct (Parse_rules r t ws Hp) as (_ & rules & Hall & Ht & Hw & Hn).
  exists rules. split; [done|]. split; [by apply Ht|]. split; [by apply Ht|].
  split; [intros id a; by eapply Parse_keys|]. split; [done|]. split; [|done].
  intros Hd%Hn%(drops_all_table _ _ Ht) ids. destruct Hd as [He Hf].
  destruct (LookupID_cases t ids) as [(? & id & ? & a & _ & _ & Hid & _)|[_ ->]]; [|done].
  by rewrite He, lookup_empty in Hid.
Qed.

(** The warning looks at the identifiers, not at their actions: a file whose only line drops its client
    relays nothing, and parses without a warning. *)
Example only_blackhole_no_warning :
  ∃ t, @Parse ascii_tables (bufio.of_string (lit "02:00:00:00:00:01 @blackhole")) = Ok (Some t, []) ∧
    ∀ ids, act_Kind (Table_LookupID t ids).1 = ActionBlackhole.
Proof.
  eexists. split; [vm_compute; reflexivity|]. intros ids.
  match goal with |- context [Table_LookupID ?t _] => destruct (LookupID_cases t ids)
    as [(? & id & ? & a & _ & _ & Hid & _ & ->)|[_ ->]] end; [|done].
  destruct (decide (id = [2; 0; 0; 0; 0; 1])) as [->|Hne]; [by injection Hid as <-|].
  match type of Hid with entries ?t !! _ = _ =>
    change (entries t) with (<[[2; 0; 0; 0; 0; 1] := zero_action]> (∅ : gmap bytes Action)) in Hid end.
  by rewrite lookup_insert_ne, lookup_empty in Hid.
Qed.

Definition example_policy : bufio.Reader :=
  bufio.of_string (lit "# clients
02:00:00:00:00:01 @blackhole
0x01AAbb 10.0.0.9 name=eth*
* @default
02-00-00-00-00-01 relay.example @blackhole
").

Definition example_table : Table :=
  {| entries := <[[2; 0; 0; 0; 0; 1] :=
         {| act_Server := lit "relay.example";
            act_Reply := {| rep_Selector := zero_selector; rep_Kind := ReplyBlackhole |};
            act_Kind := ActionServer |}]>
       (<[[1; 170; 187] :=
         {| act_Server := lit "10.0.0.9";
            act_Reply := {| rep_Selector := {| NameGlobs := [lit "eth*"]; MACGlobs := []; All := false |};
                            rep_Kind := ReplyMatch |};
            act_Kind := ActionServer |}]> ∅);
     fallback := mkAction ActionDefault [] |}.

Definition example_warnings : list bytes :=
  [lit "line 5: duplicate identifier 02-00-00-00-00-01, last entry wins"].

Lemma policy_parse_correct_witness :
  @Parse ascii_tables example_policy = Ok (Some example_table, example_warnings) ∧
  ∃ rules,
    Forall2 (@rule_of ascii_tables)
      (List.filter (λ fs, negb (bool_decide (fs = [])))
         (map CfgMatch.Fields (bufio.Scan example_policy).1)) rules ∧
    (∀ id, entries example_table !! id = last_rule (Some id) rules) ∧
    fallback example_table = default zero_action (last_rule None rules) ∧
    (∀ id a, entries example_table !! id = Some a → id ≠ [] ∧ len id ≤ MaxPolicyTagSize) ∧
    (no_relayable_text ∈ example_warnings ↔ drops_all rules) ∧
    (no_relayable_text ∈ example_warnings →
     ∀ ids, act_Kind (Table_LookupID example_table ids).1 = ActionBlackhole) ∧
    (example_warnings = [] ↔ NoDup rules.*1 ∧ ¬ drops_all rules).
Proof.
  split; [vm_compute; reflexivity|].
  apply (@policy_parse_correct ascii_tables example_policy example_table example_warnings).
  vm_compute. reflexivity.
Defined.

(** keys round trip.  The text of a six byte MAC and the [0x] text of a client identifier of at
    most [MaxPolicyTagSize] bytes parse back to exactly those bytes, and whatever parses is non empty
    and fits the policy tag. *)
Theorem policy_identifier_roundtrip (id : bytes) :
  wf_bytes id →
  (length id = 6%nat → ParseIdentifier (HardwareAddr.String id) = Ok id) ∧
  (id ≠ [] → len id ≤ MaxPolicyTagSize →
   ParseIdentifier (HexPrefix ++ hex.EncodeToString id) = Ok id) ∧
  (∀ token, ParseIdentifier token = Ok id → id ≠ [] ∧ len id ≤ MaxPolicyTagSize).
Proof.
  intros Hwf. split; [intros; by apply ParseIdentifier_mac|].
  split; [intros; by apply ParseIdentifier_hex|]. intros token. apply ParseIdentifier_bound.
Qed.

Lemma policy_identifier_roundtrip_witness :
  ParseIdentifier (HardwareAddr.String [2; 0; 0; 0; 171; 255]) = Ok [2; 0; 0; 0; 171; 255] ∧
  ParseIdentifier (HexPrefix ++ hex.EncodeToString [2; 0; 0; 0; 171; 255]) = Ok [2; 0; 0; 0; 171; 255].
Proof.
  destruct (policy_identifier_roundtrip [2; 0; 0; 0; 171; 255]) as (H1 & H2 & _).
  - repeat (apply Forall_cons_2; [unfold is_byte; lia|]). apply Forall_nil_2.
  - split; [apply H1; reflexivity|]. apply H2; [discriminate|]. vm_compute. discriminate.
Defined.

(** a lookup returns the action of the first non empty identifier that has an entry, with that
    identifier; otherwise the fallback and nil.  The identifier it returns is a key whose own lookup
    gives the same action. *)
Theorem policy_lookup_correct (t : Table) (ids : list bytes) :
  ((∃ pre id post a, ids = pre ++ id :: post ∧ id ≠ [] ∧ entries t !! id = Some a ∧
      Forall (λ i, i = [] ∨ entries t !! i = None) pre ∧ Table_LookupID t ids = (a, id)) ∨
   (Forall (λ i, i = [] ∨ entries t !! i = None) ids ∧ Table_LookupID t ids = (fallback t, []))) ∧
  (∀ a k, Table_LookupID t ids = (a, k) → k ≠ [] → Table_LookupID t [k] = (a, k)).
Proof. split; [apply LookupID_cases|]. intros a k Hl Hk. by apply (LookupID_key t ids). Qed.

(** C36: validation accepts a table exactly when the server of every entry and of the fallback is an
    address or resolves, in whatever order the map is iterated, and one pass never looks a name up
    twice. *)
Theorem policy_validate_correct (resolve : bytes → result unit) (order : list Action) (t : Table) :
  order ≡ₚ actions_of t →
  ((ValidateContext_in order resolve t).2 = Ok () ↔
   (∀ k a, entries t !! k = Some a → server_valid resolve a) ∧ server_valid resolve (fallback t)) ∧
  NoDup (lookups (ValidateContext_in order resolve t).1).
Proof.
  intros Ho. destruct (ValidateContext_in_spec resolve order t) as [Hn Hr]. split; [|done].
  rewrite <- actions_of_Forall.
  assert (Hp : Forall (server_valid resolve) order ↔ Forall (server_valid resolve) (actions_of t))
    by (by rewrite Ho).
  rewrite <- Hp. clear Hp. destruct (ValidateContext_in order resolve t) as [v [[]|e]];
    simpl in *; [by destruct Hr|by split].
Qed.

Lemma policy_validate_correct_witness :
  let resolve h := if bool_decide (h = lit "relay.example") then Ok () else Err "no such host" in
  let order := reverse (actions_of example_table) in
  ((ValidateContext_in order resolve example_table).2 = Ok () ↔
   (∀ k a, entries example_table !! k = Some a → server_valid resolve a) ∧
   server_valid resolve (fallback example_table)) ∧
  (ValidateContext_in order resolve example_table).2 = Ok () ∧
  NoDup (lookups (ValidateContext_in order resolve example_table).1).
Proof.
  intros resolve order.
  destruct (policy_validate_correct resolve order example_table) as [H1 H2].
  - apply reverse_Permutation.
  - split; [exact H1|]. split; [vm_compute; reflexivity|exact H2].
Defined.
