(* ===== verification/ConfigSpec.v ===== *)
(** * What a configuration file means.

    The link map as its documentation describes it, from the text of the file to the subnet an interface
    gets: a selector is a star or a comma separated list of [name=] and [mac=] patterns, a pattern
    matches as its tokens say ([GlobSpec]), and the first line that selects the interface decides. *)

From S2P Require Import Prelude GoStrings GoNet Glob GlobSpec CfgMatch FileWatch LinkMap.

Section meaning.
Context `{UnicodeTables}.

(** A pattern accepts a text. *)
Definition accepts (pattern text : bytes) : Prop := ∃ ts, GlobSpec.parse pattern = Some ts ∧ matches ts text.

(** A term of a selector, and a selector as written in the file. *)
Definition term_selects (term name mac : bytes) : Prop :=
  (∃ g, term = NameDim ++ g ∧ accepts g name) ∨
  (∃ g, term = MACDim ++ g ∧ accepts (strings.ToLower g) (strings.ToLower mac)).

Definition selects (token name mac : bytes) : Prop :=
  token = CatchAllKey ∨ ∃ term, term ∈ strings.Split token 44 ∧ term_selects term name mac.

(** ** Lemmas *)

Lemma accepts_Match g text :
  glob.Validate g = Ok () → plain text → glob.Match g text = true ↔ accepts g text.
Proof.
  intros Hv Hp. destruct (glob_spec g) as [Hval Hm]. apply Hval in Hv as [_ [ts Hts]].
  destruct (Hm ts text Hts) as [_ ->]; [|done]. unfold accepts. split; [by exists ts|].
  intros (ts' & E & ?). congruence.
Qed.

Lemma plain_ToLower s : plain s → plain (strings.ToLower s).
Proof.
  intros Hp. unfold strings.ToLower. rewrite (proj2 (strings.is_ascii_Forall s)).
  - apply Forall_map. eapply Forall_impl; [exact Hp|]. intros b [Hb Hs]. split; [by apply strings.lower_byte_ascii|].
    cbn. unfold strings.lower_byte, utf8.in_range, filepath.Separator in *. case_zs.
  - eapply Forall_impl; [exact Hp|]. by intros b [? _].
Qed.

Lemma dims_differ g g' : NameDim ++ g ≠ MACDim ++ g'.
Proof. done. Qed.

Lemma exists_snoc {A} (P : A → Prop) l x : (∃ y, y ∈ l ++ [x] ∧ P y) ↔ (∃ y, y ∈ l ∧ P y) ∨ P x.
Proof. set_solver. Qed.

Lemma exists_cons {A} (P : A → Prop) x l : (∃ y, y ∈ x :: l ∧ P y) ↔ P x ∨ ∃ y, y ∈ l ∧ P y.
Proof. set_solver. Qed.

(** The terms that were parsed select what the selector matches. *)
Lemma parse_terms_selects s terms s' name mac :
  parse_terms s terms = Ok s' → plain name → plain mac →
  Selector_Match s' name mac = true ↔
    Selector_Match s name mac = true ∨ ∃ term, term ∈ terms ∧ term_selects term name mac.
Proof.
  intros Hp Hn Hm. apply plain_ToLower in Hm. rewrite !Selector_Match_spec. revert s Hp.
  induction terms as [|term terms IH]; intros s; cbn [parse_terms].
  { intros [= <-]. split; [by left|]. intros [?|(? & []%elem_of_nil & _)]; done. }
  destruct (strings.HasPrefix term NameDim) eqn:En.
  - apply strings.HasPrefix_split in En. set (g := drop (length NameDim) term) in *.
    destruct (glob.Validate g) as [[]|] eqn:Ev; [|done]. intros Hp. rewrite (IH _ Hp). cbn [All NameGlobs MACGlobs].
    rewrite exists_snoc, exists_cons.
    assert (Ht : term_selects term name mac ↔ glob.Match g name = true).
    { rewrite (accepts_Match g name Ev Hn). unfold term_selects. rewrite En. split; [|by left; exists g].
      intros [(g' & E & Ha)|(g' & E & _)]; [|by apply dims_differ in E]. apply app_inv_head in E. by rewrite E. }
    rewrite Ht. tauto.
  - destruct (strings.HasPrefix term MACDim) eqn:Em; [|done].
    apply strings.HasPrefix_split in Em. set (g := drop (length MACDim) term) in *.
    destruct (glob.Validate (strings.ToLower g)) as [[]|] eqn:Ev; [|done]. intros Hp. rewrite (IH _ Hp).
    cbn [All NameGlobs MACGlobs].
    rewrite exists_snoc, exists_cons.
    assert (Ht : term_selects term name mac ↔ glob.Match (strings.ToLower g) (strings.ToLower mac) = true).
    { rewrite (accepts_Match _ _ Ev Hm). unfold term_selects. rewrite Em. split; [|by right; exists g].
      intros [(g' & E & _)|(g' & E & Ha)]; [by symmetry in E; apply dims_differ in E|].
      apply app_inv_head in E. by rewrite E. }
    rewrite Ht. tauto.
Qed.

(** A selector matches the interfaces its text selects. *)
Lemma selector_meaning token s name mac :
  ParseSelector token = Ok s → plain name → plain mac →
  Selector_Match s name mac = true ↔ selects token name mac.
Proof.
  unfold ParseSelector, selects. intros Hp Hn Hm. case_bool_decide as E.
  - injection Hp as <-. split; [by left|done].
  - rewrite (parse_terms_selects _ _ _ _ _ Hp Hn Hm). split; [|intros [?|?]; [done|by right]].
    intros [Hz|?]; [|by right]. done.
Qed.

(** The fields of the lines that are neither blank nor comments. *)
Definition file_lines (r : bufio.Reader) : list (list bytes) :=
  List.filter (λ fs, negb (bool_decide (fs = []))) (map CfgMatch.Fields (bufio.Scan r).1).

(** The first line that selects the interface. *)
Definition first_selecting (lines : list (list bytes)) (name mac f0 f1 : bytes) : Prop :=
  ∃ pre post, lines = pre ++ [f0; f1] :: post ∧ selects f0 name mac ∧
    ∀ fs, fs ∈ pre → ∃ f, fs !! 0%nat = Some f ∧ ¬ selects f name mac.

Lemma first_selecting_unique lines name mac f0 f1 g0 g1 :
  first_selecting lines name mac f0 f1 → first_selecting lines name mac g0 g1 → f1 = g1.
Proof.
  intros (pre & post & -> & Hf & Hpre) (pre' & post' & E & Hg & Hpre').
  revert pre' E Hpre'. induction pre as [|x pre IH]; intros [|y pre'] E Hpre'; cbn in E.
  - by injection E as _ <-.
  - injection E as <- _. destruct (Hpre' [f0; f1]) as (f & [= <-] & Hn); [left|done].
  - injection E as -> _. destruct (Hpre [g0; g1]) as (f & [= <-] & Hn); [left|done].
  - injection E as _ E. apply (IH (λ fs Hin, Hpre fs (list_elem_of_further _ _ _ Hin)) pre' E).
    intros fs Hin. apply Hpre'. by right.
Qed.

(** The lookup among the entries follows the lines they were parsed from. *)
Lemma lookup_lines lines es name mac :
  Forall2 (λ fields e, ∃ f0 f1, fields = [f0; f1] ∧ ParseSelector f0 = Ok (Sel e) ∧
                                ParseSubnet f1 = Ok (Subnet e)) lines es →
  plain name → plain mac →
  match find_first (λ e, Selector_Match (Sel e) name mac) es with
  | Some e => ∃ f0 f1, first_selecting lines name mac f0 f1 ∧ ParseSubnet f1 = Ok (Subnet e)
  | None => ∀ fs, fs ∈ lines → ∃ f, fs !! 0%nat = Some f ∧ ¬ selects f name mac
  end.
Proof.
  intros Hall Hn Hm. induction Hall as [|fs e lines es (f0 & f1 & -> & Hsel & Hsub) Hall IH]; cbn [find_first].
  { intros fs Hin. by apply elem_of_nil in Hin. }
  pose proof (selector_meaning f0 (Sel e) name mac Hsel Hn Hm) as Hmean.
  destruct (Selector_Match (Sel e) name mac) eqn:E.
  - exists f0, f1. split; [|done]. exists [], lines. split; [done|]. split; [by apply Hmean|].
    intros fs Hin. by apply elem_of_nil in Hin.
  - assert (Hno : ¬ selects f0 name mac) by (intros Hs; apply Hmean in Hs; congruence).
    destruct (find_first _ es) as [e'|].
    + destruct IH as (g0 & g1 & (pre & post & -> & Hg & Hpre) & Hsub'). exists g0, g1. split; [|done].
      exists ([f0; f1] :: pre), post. split; [done|]. split; [done|].
      intros fs [->|Hin]%elem_of_cons; [by exists f0|by apply Hpre].
    + intros fs [->|Hin]%elem_of_cons; [by exists f0|by apply IH].
Qed.

End meaning.

(** ** Properties *)

(** C18: a link map file means what its documentation says.  When the file loads, an interface with an ordinary
    name and MAC gets a subnet exactly when a line of the file selects it, by a star or by one of its
    [name=] and [mac=] patterns read token by token; and it gets the subnet of the first such line. *)
Theorem linkmap_file_meaning `{UnicodeTables} (r : bufio.Reader) (t : LinkMap.Table) (ws : list bytes)
    (name mac : bytes) :
  LinkMap.Parse r = Ok (Some t, ws) → plain name → plain mac →
  (∀ subnet, LinkMap.Table_Lookup t name mac = Some subnet ↔
     ∃ f0 f1, first_selecting (file_lines r) name mac f0 f1 ∧ ParseSubnet f1 = Ok subnet) ∧
  (LinkMap.Table_Lookup t name mac = None ↔
     ∀ fs, fs ∈ file_lines r → ∃ f, fs !! 0%nat = Some f ∧ ¬ selects f name mac).
Proof.
  intros Hp Hn Hm. destruct (Parse_entries r t ws Hp) as (Hall & _ & _).
  pose proof (lookup_lines _ _ name mac Hall Hn Hm) as Hl. fold (file_lines r) in Hl. unfold LinkMap.Table_Lookup.
  destruct (find_first _ (LinkMap.entries t)) as [e|].
  - destruct Hl as (f0 & f1 & Hf & Hsub). split.
    + intros subnet. split; [intros [= <-]; by exists f0, f1|]. intros (g0 & g1 & Hg & Hs).
      rewrite (first_selecting_unique _ _ _ _ _ _ _ Hf Hg) in Hsub. congruence.
    + split; [done|]. intros Hno. destruct Hf as (pre & post & E & Hs & _).
      destruct (Hno [f0; f1]) as (f & [= <-] & ?); [rewrite E; set_solver|done].
  - split; [|by split]. intros subnet. split; [done|]. intros (f0 & f1 & (pre & post & E & Hs & _) & _).
    destruct (Hl [f0; f1]) as (f & [= <-] & ?); [rewrite E; set_solver|done].
Qed.

(** ** Witnesses *)

(** A bridge gets the subnet of the second line, whose selector names bridges. *)
Lemma linkmap_file_meaning_witness :
  ∃ f0 f1, @first_selecting ascii_tables (file_lines example_map) (lit "br-lan") (lit "aa:bb:cc:00:11:22") f0 f1 ∧
    ParseSubnet f1 = Ok [10; 0; 0; 0].
Proof.
  refine (proj1 (proj1 (@linkmap_file_meaning ascii_tables example_map example_table []
    (lit "br-lan") (lit "aa:bb:cc:00:11:22") _ _ _) [10; 0; 0; 0]) _).
  - vm_compute. reflexivity.
  - vm_compute. repeat constructor; discriminate.
  - vm_compute. repeat constructor; discriminate.
  - vm_compute. reflexivity.
Defined.
