(* ===== verification/Host.v ===== *)
(** * The host and the packet handler's effects.

    What a handler asks of the operating system and of name resolution is the class [Host]; what it
    does (datagrams, frames, log lines) is a trace of events.  A handler runs in a state and error
    monad over the trace, the DHCPv4 layer it mutates, and the interface cache. *)

From S2P Require Import Prelude GoStrings GoNet Layers.

(** ** Interfaces *)

(** [net.Interface], the fields the relay reads.  [FlagUp] is bit 0 of [Flags]. *)
Record Interface := { Index : Z; Name : bytes; HardwareAddr : bytes; IfFlags : Z }.

#[global] Instance Interface_eq_dec : EqDecision Interface.
Proof. solve_decision. Defined.

Definition FlagUp : Z := 1.

(** The dynamic types behind a [net.Addr] of an interface; the standard library never stores a nil
    pointer in one. *)
Inductive Addr :=
| AddrIPNet (n : IPNet)
| AddrIPAddr
| AddrOther.

(** ** Events *)

Inductive level := Debug | Info | Warn | Error.

Inductive event :=
| Log (lvl : level) (msg : string)
| UDPWrite (dst : bytes) (port : Z) (payload : bytes)
| FrameWrite (ifindex : Z) (hwaddr : bytes) (frame : bytes).

Abbreviation trace := (list event).

Definition is_send (e : event) : bool := match e with Log _ _ => false | _ => true end.

(** The packets a trace attempts to send, in order. *)
Definition sends (t : trace) : trace := List.filter is_send t.

(** ** The interface cache: the state of [InterfaceCache], see [IfCache] *)

Record interfaceSnapshot := { fetched : Z; ifaces : list Interface }.

Record InterfaceCache := { cache_snap : option interfaceSnapshot; cache_ttl : Z }.

(** ** The host

    Within the handling of one packet each question is asked at most once, except name resolution and
    sending, which are repeated; their answers may depend on everything done before. *)

Class Host := {
  (** [net.InterfaceByIndex] and [Interface.Addrs]. *)
  InterfaceByIndex : Z → result Interface;
  Addrs : Interface → result (list Addr);
  (** [net.InterfaceAddrs] and [net.Interfaces]. *)
  InterfaceAddrs : result (list Addr);
  Interfaces : result (list Interface);
  (** The clock at the first and the second look of the cache and at its store. *)
  now1 : Z;
  now2 : Z;
  now3 : Z;
  (** [net.ResolveUDPAddr] to an address of the server port; [PacketConn.WriteTo]. *)
  ResolveUDPAddr : trace → bytes → result bytes;
  WriteTo : trace → bytes → bytes → result unit;
  (** The local address of a UDP socket connected to the server; [None] is a type assertion that
      fails. *)
  DialLocalAddr : bytes → result (option bytes);
  (** The raw socket: creation, filter, [Sendto]. *)
  RawCreate : result unit;
  RawAttach : result unit;
  RawSendto : trace → Z → bytes → bytes → result unit;
  (** The two random bytes of [GenerateRandomIPv4ID]. *)
  RandomID : Z;
  (** The native byte order. *)
  little_endian : bool
}.

(** ** The handler monad *)

Record st := mkSt { tr : trace; msg : DHCPv4; cache : option InterfaceCache }.

Definition M (A : Type) : Type := st → st * result A.

#[global] Instance M_ret : MRet M := λ A a s, (s, Ok a).
#[global] Instance M_bind : MBind M := λ A B f m s,
  match m s with
  | (s, Ok a) => f a s
  | (s, Err e) => (s, Err e)
  end.

(** [return err]. *)
Definition fail {A} (e : string) : M A := λ s, (s, Err e).

(** [if err != nil { return err }] around a pure call. *)
Definition lift {A} (r : result A) : M A := λ s, (s, r).

(** [fmt.Errorf("prefix: %w", err)] around an effectful call. *)
Definition wrapM {A} (prefix : string) (m : M A) : M A := λ s, let '(s, r) := m s in (s, wrap prefix r).

(** A call whose error the caller inspects. *)
Definition attempt {A} (m : M A) : M (result A) := λ s, let '(s, r) := m s in (s, Ok r).

Definition emit (e : event) : M unit := λ s, (mkSt (tr s ++ [e]) (msg s) (cache s), Ok ()).
Definition get_trace : M trace := λ s, (s, Ok (tr s)).
Definition get_msg : M DHCPv4 := λ s, (s, Ok (msg s)).
Definition put_msg (m : DHCPv4) : M unit := λ s, (mkSt (tr s) m (cache s), Ok ()).
Definition get_cache : M (option InterfaceCache) := λ s, (s, Ok (cache s)).
Definition put_cache (c : InterfaceCache) : M unit := λ s, (mkSt (tr s) (msg s) (Some c), Ok ()).

(** A Go range loop whose body may return an error. *)
Fixpoint for_each {A} (l : list A) (body : A → M unit) : M unit :=
  match l with
  | [] => mret ()
  | x :: l => body x ≫= λ _, for_each l body
  end.

(** ** Lemmas *)

Lemma sends_app t u : sends (t ++ u) = sends t ++ sends u.
Proof. apply List.filter_app. Qed.

Lemma sends_snoc_log t l m : sends (t ++ [Log l m]) = sends t.
Proof. by rewrite sends_app, app_nil_r. Qed.

Lemma sends_snoc_udp t d p b : sends (t ++ [UDPWrite d p b]) = sends t ++ [UDPWrite d p b].
Proof. by rewrite sends_app. Qed.

Lemma sends_snoc_frame t i h b : sends (t ++ [FrameWrite i h b]) = sends t ++ [FrameWrite i h b].
Proof. by rewrite sends_app. Qed.

Create Rewrite HintDb sends.
#[export] Hint Rewrite sends_snoc_log sends_snoc_udp sends_snoc_frame : sends.

(** One step of a handler. *)
Lemma bind_ok {A B} (m : M A) (k : A → M B) s s' a : m s = (s', Ok a) → (m ≫= k) s = k a s'.
Proof. intros E. unfold mbind, M_bind. by rewrite E. Qed.

Lemma bind_err {A B} (m : M A) (k : A → M B) s s' e : m s = (s', Err e) → (m ≫= k) s = (s', Err e).
Proof. intros E. unfold mbind, M_bind. by rewrite E. Qed.

(** Run the monadic steps of the goal. *)
Ltac run_M :=
  cbv beta iota zeta delta
    [mbind M_bind mret M_ret emit get_trace get_msg put_msg get_cache put_cache lift fail wrapM attempt
     wrap];
  cbn [tr msg cache].

(** A concrete host for the witnesses: a numbered interface, an unnumbered one, one facing the
    server, and one that is down. *)
Module TestHost.

Definition net24 (a b c d : Z) : IPNet :=
  {| ipnet_IP := IP.IPv4 a b c d; ipnet_Mask := [255; 255; 255; 0] |}.

Definition eth0 : Interface :=
  {| Index := 2; Name := lit "eth0"; HardwareAddr := [2; 0; 0; 0; 1; 0]; IfFlags := 3 |}.
Definition eth1 : Interface :=
  {| Index := 3; Name := lit "eth1"; HardwareAddr := [2; 0; 0; 0; 1; 1]; IfFlags := 3 |}.
Definition wan : Interface :=
  {| Index := 4; Name := lit "wan"; HardwareAddr := [2; 0; 0; 0; 1; 2]; IfFlags := 3 |}.
Definition down : Interface :=
  {| Index := 5; Name := lit "eth9"; HardwareAddr := [2; 0; 0; 0; 1; 9]; IfFlags := 0 |}.

Definition addrs_of (ifi : Interface) : list Addr :=
  if Index ifi =? 2 then
    [AddrIPNet (net24 192 168 50 1); AddrOther; AddrIPNet (net24 169 254 1 1);
     AddrIPNet (net24 192 168 51 1)]
  else if Index ifi =? 4 then [AddrIPNet (net24 10 0 0 2)]
  else [].

Definition all_interfaces : list Interface := [eth0; eth1; wan; down].

Definition test_host : Host := {|
  InterfaceByIndex i :=
    match find_first (λ ifi, Index ifi =? i) all_interfaces with
    | Some ifi => Ok ifi
    | None => Err "no such network interface"
    end;
  Addrs ifi := Ok (addrs_of ifi);
  InterfaceAddrs := Ok (concat (map addrs_of all_interfaces));
  Interfaces := Ok all_interfaces;
  now1 := 10; now2 := 10; now3 := 10;
  ResolveUDPAddr _ host :=
    let ip := IP.To4 (ParseIP host) in
    if bool_decide (ip = []) then Err "no such host" else Ok ip;
  WriteTo _ _ _ := Ok ();
  DialLocalAddr _ := Ok (Some (IP.IPv4 10 0 0 2));
  RawCreate := Ok ();
  RawAttach := Ok ();
  RawSendto _ _ _ _ := Ok ();
  RandomID := 4660;
  little_endian := true
|}.

End TestHost.
