(* ===== verification/Addrs.v ===== *)
(** * Addresses of this host: [pkg/dhcp4/addrs.go]. *)

From S2P Require Import Prelude GoStrings GoNet Layers Host.

Definition IsGlobalUnicastIPv4 (ip : bytes) : bool :=
  negb (bool_decide (IP.To4 ip = [])) && IP.IsGlobalUnicast ip.

(** The loop of [InterfaceGlobalUnicastAddrs4]. *)
Fixpoint global_unicast_nets (addrs : list Addr) : list IPNet :=
  match addrs with
  | [] => []
  | AddrIPNet v :: addrs =>
      if negb (IsGlobalUnicastIPv4 (ipnet_IP v)) then global_unicast_nets addrs
      else v :: global_unicast_nets addrs
  | _ :: addrs => global_unicast_nets addrs
  end.

(** The loop of [IsRelayLocalAddr]. *)
Fixpoint carries_addr (v4 : bytes) (addrs : list Addr) : bool :=
  match addrs with
  | [] => false
  | AddrIPNet ipnet :: addrs =>
      let a4 := IP.To4 (ipnet_IP ipnet) in
      if bool_decide (a4 = []) || negb (IP.IsGlobalUnicast (ipnet_IP ipnet)) then carries_addr v4 addrs
      else if IP.Equal a4 v4 then true
      else carries_addr v4 addrs
  | _ :: addrs => carries_addr v4 addrs
  end.

Section addrs.
Context `{Host}.

Definition InterfaceGlobalUnicastAddrs4 (ifi : Interface) : result (list IPNet) :=
  match Addrs ifi with
  | Err e => Err e
  | Ok addrs => Ok (global_unicast_nets addrs)
  end.

Definition GetInterfaceGlobalUnicastAddrs4 (ifIndex : Z) : result (list IPNet) :=
  if ifIndex =? 0 then Ok []
  else match InterfaceByIndex ifIndex with
       | Err e => Err e
       | Ok ifi => InterfaceGlobalUnicastAddrs4 ifi
       end.

Definition IsRelayLocalAddr (ip : bytes) : bool :=
  let v4 := IP.To4 ip in
  if bool_decide (v4 = []) || IP.IsUnspecified v4 then false
  else match InterfaceAddrs with
       | Err _ => false
       | Ok addrs => carries_addr v4 addrs
       end.

(** [HandleOptions.GiaddrIsLocal], from the configured override. *)
Definition GiaddrIsLocal (Giaddr : bytes) (ip : bytes) : bool :=
  IsRelayLocalAddr ip || (negb (bool_decide (Giaddr = [])) && IP.Equal Giaddr ip).

End addrs.

(** [BestUnicastSrc]; [[]] is nil. *)
Definition BestUnicastSrc (addrs : list IPNet) (yiaddr : bytes) : bytes :=
  match addrs with
  | [] => []
  | a0 :: _ =>
      let yi4 := IP.To4 yiaddr in
      let found :=
        if negb (len yiaddr =? 0) && negb (bool_decide (yi4 = [])) then
          find_first (λ a, negb (bool_decide (IP.To4 (ipnet_IP a) = [])) && Net.Contains a yi4) addrs
        else None in
      match found with
      | Some a => IP.To4 (ipnet_IP a)
      | None => IP.To4 (ipnet_IP a0)
      end
  end.

(** ** Lemmas *)

Lemma IsGlobalUnicastIPv4_true ip :
  IsGlobalUnicastIPv4 ip = true ↔ IP.To4 ip ≠ [] ∧ IP.IsGlobalUnicast ip = true.
Proof.
  unfold IsGlobalUnicastIPv4. rewrite andb_true_iff, negb_true_iff, bool_decide_eq_false. done.
Qed.

Lemma elem_of_global_unicast_nets n addrs :
  n ∈ global_unicast_nets addrs ↔
  AddrIPNet n ∈ addrs ∧ IsGlobalUnicastIPv4 (ipnet_IP n) = true.
Proof.
  induction addrs as [|a addrs IH]; simpl; [split; [by intros ?%elem_of_nil|by intros [?%elem_of_nil _]]|].
  rewrite elem_of_cons. destruct a as [v| |]; [|rewrite IH; split; [tauto|intros [[?|?] ?]; done]..].
  destruct (IsGlobalUnicastIPv4 (ipnet_IP v)) eqn:E; simpl.
  - rewrite elem_of_cons, IH. split; [intros [->|[? ?]]; auto|].
    intros [[[= ->]|?] ?]; auto.
  - rewrite IH. split; [tauto|]. intros [[[= ->]|?] ?]; [congruence|done].
Qed.

Lemma carries_addr_true v4 addrs :
  carries_addr v4 addrs = true ↔
  ∃ n, AddrIPNet n ∈ addrs ∧ IsGlobalUnicastIPv4 (ipnet_IP n) = true ∧
       IP.Equal (IP.To4 (ipnet_IP n)) v4 = true.
Proof.
  induction addrs as [|a addrs IH]; cbn [carries_addr].
  { split; [done|]. by intros (n & ?%elem_of_nil & _). }
  setoid_rewrite elem_of_cons.
  destruct a as [v| |]; [|rewrite IH; split; [intros (n & ? & ?); eauto|]..];
    [|intros (n & [?|?] & ?); [done|eauto]..].
  destruct (bool_decide (IP.To4 (ipnet_IP v) = []) || negb (IP.IsGlobalUnicast (ipnet_IP v))) eqn:E.
  - rewrite IH. split; [intros (n & ? & ?); eauto|]. intros (n & [[= ->]|?] & Hg & ?); [|eauto].
    apply IsGlobalUnicastIPv4_true in Hg as [Hne Hg]. rewrite Hg, orb_false_r in E.
    by apply bool_decide_eq_true in E.
  - apply orb_false_iff in E as [E1%bool_decide_eq_false E2%negb_false_iff].
    destruct (IP.Equal (IP.To4 (ipnet_IP v)) v4) eqn:Eq.
    + split; [|done]. intros _. exists v. split; [by left|]. split; [|done].
      by apply IsGlobalUnicastIPv4_true.
    + rewrite IH. split; [intros (n & ? & ?); eauto|].
      intros (n & [[= ->]|?] & ? & ?); [congruence|eauto].
Qed.

Lemma IsUnspecified_To4 ip : IP.To4 ip ≠ [] → IP.IsUnspecified (IP.To4 ip) = IP.Equal ip IP.IPv4zero.
Proof.
  intros Hne. unfold IP.IsUnspecified, IP.IPv4zero. rewrite IP.Equal_IPv4_To4 by done.
  assert (IP.Equal (IP.To4 ip) IP.IPv6unspecified = false) as ->; [|apply orb_false_r].
  unfold IP.Equal. by rewrite (IP.To4_length ip Hne).
Qed.

Lemma IsGlobalUnicast_facts ip :
  IsGlobalUnicastIPv4 ip = true →
  IP.To4 ip ≠ [] ∧ IP.Equal ip IP.IPv4zero = false ∧ IP.Equal ip IP.IPv4bcast = false ∧
  IP.IsLoopback ip = false ∧ IP.IsUnspecified (IP.To4 ip) = false.
Proof.
  intros [Hne Hg]%IsGlobalUnicastIPv4_true. rewrite IsUnspecified_To4 by done.
  unfold IP.IsGlobalUnicast in Hg. unfold IP.IsUnspecified in Hg.
  repeat (apply andb_true_iff in Hg as [Hg ?]). rewrite ?negb_true_iff, ?orb_false_iff in *. naive_solver.
Qed.

Lemma IsGlobalUnicastIPv4_To4 ip : IsGlobalUnicastIPv4 ip = true → IsGlobalUnicastIPv4 (IP.To4 ip) = true.
Proof.
  intros Hg. pose proof (IsGlobalUnicast_facts ip Hg) as (Hne & _ & Hb & Hlo & Hu).
  apply IsGlobalUnicastIPv4_true in Hg as [_ Hg]. pose proof (IP.To4_length ip Hne) as H4.
  apply IsGlobalUnicastIPv4_true. rewrite IP.To4_idemp. split; [done|].
  unfold IP.IsGlobalUnicast in *. repeat (apply andb_true_iff in Hg as [Hg ?]).
  unfold IP.IsLoopback, IP.IsMulticast, IP.IsLinkLocalUnicast in *. rewrite IP.To4_idemp, H4, Hu in *.
  unfold IP.IPv4bcast in *. rewrite IP.Equal_IPv4_To4 by done.
  rewrite bool_decide_eq_true_2 in * by done. rewrite Hb. by repeat (apply andb_true_iff; split).
Qed.

(** An address with an IPv4 form equals that form. *)
Lemma Equal_To4_self ip : IP.To4 ip ≠ [] → IP.Equal ip (IP.To4 ip) = true.
Proof.
  intros Hne. pose proof (IP.To4_length ip Hne) as H4.
  destruct (IP.To4_some_length ip Hne) as [E|E]; [rewrite IP.To4_v4 by done; apply IP.Equal_refl|].
  rewrite IP.Equal_16_4, IP.Equal_To4 by auto. by apply bool_decide_eq_true.
Qed.

Lemma IsRelayLocalAddr_true `{Host} ip addrs n :
  InterfaceAddrs = Ok addrs → AddrIPNet n ∈ addrs → IsGlobalUnicastIPv4 (ipnet_IP n) = true →
  IP.To4 ip = IP.To4 (ipnet_IP n) → IsRelayLocalAddr ip = true.
Proof.
  intros Ha Hin Hg Heq. pose proof (IsGlobalUnicast_facts _ Hg) as (Hne & _ & _ & _ & Hu).
  unfold IsRelayLocalAddr. rewrite Heq, Hu, bool_decide_eq_false_2, Ha by done.
  apply carries_addr_true. exists n. split; [done|]. split; [done|]. apply IP.Equal_refl.
Qed.

(** ** Properties *)

(** C35: the giaddr the relay stamps is the giaddr it recognises.  If the host lists the addresses of an
    interface among its own, then a reply that echoes any giaddr taken from that interface, in either
    byte form, or the configured override, is delivered locally and not forwarded; and what the relay
    accepts as local is a global unicast IPv4 address of this host or the override. *)
Theorem stamped_giaddr_is_local `{Host} (ifi : Interface) (nets : list IPNet) (own all : list Addr)
    (Giaddr : bytes) :
  InterfaceGlobalUnicastAddrs4 ifi = Ok nets → Addrs ifi = Ok own → InterfaceAddrs = Ok all →
  own ⊆ all →
  (∀ n ip, n ∈ nets → IP.To4 ip = IP.To4 (ipnet_IP n) → GiaddrIsLocal Giaddr ip = true) ∧
  (IP.To4 Giaddr ≠ [] → GiaddrIsLocal Giaddr (IP.To4 Giaddr) = true) ∧
  (∀ ip, GiaddrIsLocal Giaddr ip = true →
     (∃ n, AddrIPNet n ∈ all ∧ IsGlobalUnicastIPv4 (ipnet_IP n) = true ∧
           IP.Equal (IP.To4 (ipnet_IP n)) (IP.To4 ip) = true) ∨
     IP.Equal Giaddr ip = true).
Proof.
  unfold InterfaceGlobalUnicastAddrs4. intros Hn Ho Ha Hsub. rewrite Ho in Hn. injection Hn as <-.
  split; [|split].
  - intros n ip [Hin Hg]%elem_of_global_unicast_nets Heq. unfold GiaddrIsLocal.
    by rewrite (IsRelayLocalAddr_true ip all n) by auto.
  - intros Hne. unfold GiaddrIsLocal. rewrite Equal_To4_self, andb_true_r by done.
    rewrite (bool_decide_eq_false_2 (Giaddr = [])); [apply orb_true_r|]. by intros ->.
  - intros ip [Hl|[_ He]%andb_true_iff]%orb_true_iff; [left|by right].
    unfold IsRelayLocalAddr in Hl. destruct (_ || _); [done|]. rewrite Ha in Hl.
    by apply carries_addr_true.
Qed.

(** the source of a unicast reply copy is an address of the chosen interface in four byte form, on
    the subnet of the client whenever the interface has an address there. *)
Theorem best_unicast_src_correct (addrs : list IPNet) (yiaddr : bytes) :
  addrs ≠ [] → Forall (λ a, IP.To4 (ipnet_IP a) ≠ []) addrs →
  ∃ a, a ∈ addrs ∧ BestUnicastSrc addrs yiaddr = IP.To4 (ipnet_IP a) ∧
    length (BestUnicastSrc addrs yiaddr) = 4%nat ∧
    (IP.To4 yiaddr ≠ [] → (∃ b, b ∈ addrs ∧ Net.Contains b (IP.To4 yiaddr) = true) →
     Net.Contains a (IP.To4 yiaddr) = true).
Proof.
  intros Hne Hall. rewrite Forall_forall in Hall. destruct addrs as [|a0 addrs]; [done|].
  unfold BestUnicastSrc.
  assert (Hy : IP.To4 yiaddr ≠ [] → negb (len yiaddr =? 0) = true).
  { intros Hy. by destruct yiaddr. }
  destruct (if _ && _ then _ else _) as [a|] eqn:E.
  - destruct (_ && _) in E; [|done]. apply find_first_Some in E as [Hin Hp].
    apply andb_true_iff in Hp as [_ Hc]. exists a.
    split; [done|]. split; [done|]. split; [by apply IP.To4_length, Hall|done].
  - exists a0. split; [left|]. split; [done|]. split; [apply IP.To4_length, Hall; left|].
    intros Hy4 (b & Hb & Hc). rewrite Hy, bool_decide_eq_false_2 in E by done. simpl negb in E.
    cbn [andb] in E. rewrite find_first_None in E. specialize (E b Hb). rewrite Hc, andb_true_r in E.
    apply negb_false_iff, bool_decide_eq_true in E. by apply Hall in Hb.
Qed.

Lemma stamped_giaddr_is_local_witness :
  @GiaddrIsLocal TestHost.test_host [] [192; 168; 50; 1] = true ∧
  @GiaddrIsLocal TestHost.test_host [203; 0; 113; 9] [203; 0; 113; 9] = true.
Proof.
  assert (Hsub : TestHost.addrs_of TestHost.eth0 ⊆
                 concat (map TestHost.addrs_of TestHost.all_interfaces)).
  { intros a Ha. apply elem_of_app. left. exact Ha. }
  split.
  - destruct (@stamped_giaddr_is_local TestHost.test_host TestHost.eth0
      [TestHost.net24 192 168 50 1; TestHost.net24 192 168 51 1] (TestHost.addrs_of TestHost.eth0)
      (concat (map TestHost.addrs_of TestHost.all_interfaces)) []) as (Hl & _ & _);
      [vm_compute; reflexivity|reflexivity|reflexivity|exact Hsub|].
    apply (Hl (TestHost.net24 192 168 50 1)); [left|vm_compute; reflexivity].
  - destruct (@stamped_giaddr_is_local TestHost.test_host TestHost.eth0
      [TestHost.net24 192 168 50 1; TestHost.net24 192 168 51 1] (TestHost.addrs_of TestHost.eth0)
      (concat (map TestHost.addrs_of TestHost.all_interfaces)) [203; 0; 113; 9]) as (_ & Hg & _);
      [vm_compute; reflexivity|reflexivity|reflexivity|exact Hsub|].
    apply Hg. vm_compute. discriminate.
Defined.

Lemma best_unicast_src_correct_witness :
  ∃ a, a ∈ [TestHost.net24 192 168 50 1; TestHost.net24 192 168 51 1] ∧
    [192; 168; 51; 1] = IP.To4 (ipnet_IP a) ∧ length ([192; 168; 51; 1] : bytes) = 4%nat ∧
    (IP.To4 [192; 168; 51; 77] ≠ [] →
     (∃ b, b ∈ [TestHost.net24 192 168 50 1; TestHost.net24 192 168 51 1] ∧
           Net.Contains b (IP.To4 [192; 168; 51; 77]) = true) →
     Net.Contains a (IP.To4 [192; 168; 51; 77]) = true).
Proof.
  apply (best_unicast_src_correct [TestHost.net24 192 168 50 1; TestHost.net24 192 168 51 1]
    [192; 168; 51; 77]).
  - discriminate.
  - repeat (apply Forall_cons_2; [vm_compute; discriminate|]). apply Forall_nil_2.
Defined.
