(* ===== verification/IfCache.v ===== *)
(** * The interface cache: [pkg/dhcp4/ifcache.go].

    The cache is modelled twice: as the function one caller executes, and as the transition system of
    many callers that share the snapshot pointer and the mutex. *)

From S2P Require Import Prelude GoStrings GoNet Layers Host.

(** [DefaultInterfaceCacheTTL], in nanoseconds. *)
Definition DefaultInterfaceCacheTTL : Z := 1000000000.

Definition NewInterfaceCache (ttl : Z) : InterfaceCache := {| cache_snap := None; cache_ttl := ttl |}.

(** [s != nil && time.Since(s.fetched) < c.ttl]. *)
Definition fresh (now : Z) (c : InterfaceCache) : option (list Interface) :=
  match cache_snap c with
  | Some s => if now - fetched s <? cache_ttl c then Some (ifaces s) else None
  | None => None
  end.

Definition store (now : Z) (l : list Interface) (c : InterfaceCache) : InterfaceCache :=
  {| cache_snap := Some {| fetched := now; ifaces := l |}; cache_ttl := cache_ttl c |}.

(** What is returned when the refetch fails: the stale snapshot, if any, with the error. *)
Definition stale (c : InterfaceCache) : list Interface :=
  match cache_snap c with Some s => ifaces s | None => [] end.

(** [InterfaceCache.Interfaces]: both results are returned together. *)
Definition InterfaceCache_Interfaces `{Host} (c : InterfaceCache) :
    InterfaceCache * (list Interface * option string) :=
  if cache_ttl c <=? 0 then
    (c, match Interfaces with Ok l => (l, None) | Err e => ([], Some e) end)
  else
    match fresh now1 c with
    | Some l => (c, (l, None))
    | None =>
        match fresh now2 c with
        | Some l => (c, (l, None))
        | None =>
            match Interfaces with
            | Err e => (c, (stale c, Some e))
            | Ok l => (store now3 l c, (l, None))
            end
        end
    end.

(** ** Many callers *)

(** Where a caller is: outside, past its first look, holding the mutex, past its second look, or
    returned. *)
Inductive pc :=
| Outside
| Expired
| Holding
| Refetching
| Returned (l : list Interface) (err : option string).

Record system := {
  clock : Z;
  shared : InterfaceCache;
  holder : option nat;
  callers : nat → pc;
  (** The times of the enumerations published, newest first. *)
  published : list Z
}.

Definition set_caller (f : nat → pc) (i : nat) (p : pc) : nat → pc :=
  λ j, if bool_decide (j = i) then p else f j.

Inductive step : system → system → Prop :=
| step_time s t :
    clock s ≤ t →
    step s {| clock := t; shared := shared s; holder := holder s; callers := callers s;
              published := published s |}
| step_hit s i l :
    callers s i = Outside → fresh (clock s) (shared s) = Some l →
    step s {| clock := clock s; shared := shared s; holder := holder s;
              callers := set_caller (callers s) i (Returned l None); published := published s |}
| step_miss s i :
    callers s i = Outside → fresh (clock s) (shared s) = None →
    step s {| clock := clock s; shared := shared s; holder := holder s;
              callers := set_caller (callers s) i Expired; published := published s |}
| step_lock s i :
    callers s i = Expired → holder s = None →
    step s {| clock := clock s; shared := shared s; holder := Some i;
              callers := set_caller (callers s) i Holding; published := published s |}
| step_hit_locked s i l :
    callers s i = Holding → fresh (clock s) (shared s) = Some l →
    step s {| clock := clock s; shared := shared s; holder := None;
              callers := set_caller (callers s) i (Returned l None); published := published s |}
| step_miss_locked s i :
    callers s i = Holding → fresh (clock s) (shared s) = None →
    step s {| clock := clock s; shared := shared s; holder := holder s;
              callers := set_caller (callers s) i Refetching; published := published s |}
| step_fetch_error s i e :
    callers s i = Refetching →
    step s {| clock := clock s; shared := shared s; holder := None;
              callers := set_caller (callers s) i (Returned (stale (shared s)) (Some e));
              published := published s |}
| step_fetch s i l :
    callers s i = Refetching →
    step s {| clock := clock s; shared := store (clock s) l (shared s); holder := None;
              callers := set_caller (callers s) i (Returned l None);
              published := clock s :: published s |}
| step_again s i l err :
    callers s i = Returned l err →
    step s {| clock := clock s; shared := shared s; holder := holder s;
              callers := set_caller (callers s) i Outside; published := published s |}.

Definition start (ttl t : Z) : system :=
  {| clock := t; shared := NewInterfaceCache ttl; holder := None; callers := λ _, Outside;
     published := [] |}.

(** Consecutive times are at least [ttl] apart. *)
Fixpoint spaced (ttl : Z) (l : list Z) : Prop :=
  match l with
  | a :: (b :: _) as l' => ttl ≤ a - b ∧ spaced ttl l'
  | _ => True
  end.

(** ** Lemmas *)

Definition in_section (p : pc) : Prop := p = Holding ∨ p = Refetching.

(** The invariant: the mutex admits one caller to its section; the snapshot is the newest published
    enumeration; and while a caller refetches, the snapshot stays expired. *)
Record inv (ttl : Z) (s : system) : Prop := {
  inv_ttl : cache_ttl (shared s) = ttl;
  inv_mutex : ∀ i, in_section (callers s i) → holder s = Some i;
  inv_newest : fetched <$> cache_snap (shared s) = head (published s);
  inv_expired : ∀ i, callers s i = Refetching → fresh (clock s) (shared s) = None;
  inv_spaced : spaced ttl (published s)
}.

Lemma fresh_mono t t' c : t ≤ t' → fresh t c = None → fresh t' c = None.
Proof.
  unfold fresh. intros Ht. destruct (cache_snap c) as [s|]; [|done].
  destruct (Z.ltb_spec (t - fetched s) (cache_ttl c)); [done|].
  by rewrite (proj2 (Z.ltb_ge (t' - fetched s) (cache_ttl c))) by lia.
Qed.

Lemma set_caller_cases f i p j : (j = i ∧ set_caller f i p j = p) ∨ (j ≠ i ∧ set_caller f i p j = f j).
Proof. unfold set_caller. case_bool_decide; auto. Qed.

Lemma spaced_fetch ttl t c l :
  cache_ttl c = ttl → fetched <$> cache_snap c = head l → fresh t c = None → spaced ttl l →
  spaced ttl (t :: l).
Proof.
  unfold fresh. intros Ht Hn Hf Hs. destruct l as [|b l]; [done|]. simpl in Hn.
  destruct (cache_snap c) as [s|]; [|done]. injection Hn as <-.
  destruct (Z.ltb_spec (t - fetched s) (cache_ttl c)); [done|]. split; [lia|done].
Qed.

(** Case on whether a caller is the one that moved. *)
Ltac case_caller :=
  match goal with
  | H : context [set_caller ?f ?i ?p ?j] |- _ =>
      destruct (set_caller_cases f i p j) as [[-> E]|[? E]]; rewrite E in H; clear E
  end.

Lemma inv_step ttl s s' : inv ttl s → step s s' → inv ttl s'.
Proof.
  intros [Ht Hm Hn He Hs] Hstep.
  unfold in_section in *.
  destruct Hstep as [s t|s i l Hi|s i Hi|s i Hi Hh|s i l Hi|s i Hi Hf|s i e Hi|s i l Hi|s i l e Hi];
    split; cbn [shared holder clock published callers] in *; try done;
    try (intros j Hj; case_caller); eauto using fresh_mono.
  all: unfold in_section in *; try discriminate; try (by destruct Hj).
  all: try (pose proof (Hm j ltac:(auto)); pose proof (Hm i ltac:(auto)); congruence).
  - apply Hm in Hj. congruence.
  - eapply spaced_fetch; eauto.
Qed.

Lemma inv_start ttl t : inv ttl (start ttl t).
Proof. split; simpl; try done. by intros i [?|?]. Qed.

Lemma inv_reachable ttl t s : rtc step (start ttl t) s → inv ttl s.
Proof.
  intros Hr. assert (H0 : inv ttl (start ttl t)) by apply inv_start. revert H0.
  induction Hr; eauto using inv_step.
Qed.

(** ** Properties *)

(** C30: concurrent callers enumerate the interfaces once per lifetime.  In every reachable state of any
    number of callers, two enumerations that were published one after the other are at least the
    lifetime apart, at most one caller is between the lock and the unlock, and a caller that refetches
    does so only while the snapshot is expired. *)
Theorem ifcache_one_refetch_per_ttl (ttl t : Z) (s : system) :
  0 < ttl → rtc step (start ttl t) s →
  spaced ttl (published s) ∧
  (∀ i j, in_section (callers s i) → in_section (callers s j) → i = j) ∧
  (∀ i, callers s i = Refetching → fresh (clock s) (shared s) = None).
Proof.
  intros _ [Ht Hm Hn He Hs]%inv_reachable. split; [done|]. split; [|done].
  intros i j Hi%Hm Hj%Hm. congruence.
Qed.

(** one call returns a snapshot younger than the lifetime, or a new enumeration, which it stores;
    when the enumeration fails it returns the error together with the stale snapshot and leaves the
    cache alone; with a lifetime that is not positive it never reads or writes the cache. *)
Theorem ifcache_call_correct `{Host} (c c' : InterfaceCache) (l : list Interface) (err : option string) :
  InterfaceCache_Interfaces c = (c', (l, err)) →
  (cache_ttl c ≤ 0 → c' = c ∧ (Interfaces = Ok l ∧ err = None ∨ l = [] ∧ is_Some err)) ∧
  (0 < cache_ttl c →
     (c' = c ∧ err = None ∧ (fresh now1 c = Some l ∨ fresh now2 c = Some l)) ∨
     (c' = store now3 l c ∧ err = None ∧ Interfaces = Ok l ∧ fresh now1 c = None ∧ fresh now2 c = None) ∨
     (c' = c ∧ (∃ e, Interfaces = Err e ∧ err = Some e) ∧ l = stale c)).
Proof.
  unfold InterfaceCache_Interfaces. destruct (Z.leb_spec (cache_ttl c) 0) as [Hle|Hlt].
  - intros Heq. split; [intros _|lia]. destruct Interfaces; simplify_eq; eauto 6.
  - intros Heq. split; [lia|intros _].
    destruct (fresh now1 c) eqn:E1; [simplify_eq; eauto 6|].
    destruct (fresh now2 c) eqn:E2; [simplify_eq; eauto 6|].
    destruct Interfaces; simplify_eq; eauto 9.
Qed.

(** A caller that finds nothing fresh and no one else refetching publishes what it finds. *)
Lemma refetch_run s i l :
  callers s i = Outside → holder s = None → fresh (clock s) (shared s) = None →
  ∃ s', rtc step s s' ∧ clock s' = clock s ∧ shared s' = store (clock s) l (shared s) ∧ holder s' = None ∧
    published s' = clock s :: published s ∧ ∀ j, j ≠ i → callers s' j = callers s j.
Proof.
  intros Ho Hh Hf.
  assert (Hset : ∀ f p, set_caller f i p i = p) by (intros f p; unfold set_caller; by rewrite bool_decide_eq_true_2).
  eexists. split.
  - eapply rtc_l; [by apply (step_miss s i)|]. eapply rtc_l; [apply step_lock with (i := i); [apply Hset|done]|].
    eapply rtc_l; [apply step_miss_locked with (i := i); [apply Hset|done]|].
    eapply rtc_l; [apply step_fetch with (i := i) (l := l); apply Hset|apply rtc_refl].
  - repeat (split; [done|]). intros j Hj. cbn. unfold set_caller. by rewrite !bool_decide_eq_false_2.
Qed.

(** Two handlers refetch, one lifetime apart. *)
Lemma ifcache_one_refetch_per_ttl_witness :
  ∃ s, rtc step (start 10 5) s ∧ published s = [15; 5] ∧ spaced 10 (published s).
Proof.
  destruct (refetch_run (start 10 5) 7 []) as (s1 & Hr1 & Ec1 & Es1 & Eh1 & Ep1 & Ho1); [reflexivity..|].
  set (s2 := {| clock := 15; shared := shared s1; holder := holder s1; callers := callers s1; published := published s1 |}).
  destruct (refetch_run s2 8 []) as (s3 & Hr3 & _ & _ & _ & Ep3 & _).
  - cbn. rewrite Ho1; [reflexivity|discriminate].
  - exact Eh1.
  - cbn. rewrite Es1. reflexivity.
  - assert (Hr : rtc step (start 10 5) s3).
    { etransitivity; [exact Hr1|]. eapply rtc_l; [apply (step_time s1 15); rewrite Ec1; cbn; lia|exact Hr3]. }
    exists s3. split; [exact Hr|]. split; [rewrite Ep3; cbn; rewrite Ep1; reflexivity|].
    apply (ifcache_one_refetch_per_ttl 10 5 s3); [lia|exact Hr].
Defined.

Lemma ifcache_call_correct_witness :
  let c := {| cache_snap := Some {| fetched := 1; ifaces := [TestHost.eth0] |}; cache_ttl := 5 |} in
  let c' := store 10 TestHost.all_interfaces c in
  let fresh' t := fresh t c in
  (c' = c ∧ (None : option string) = None ∧
   (fresh' 10 = Some TestHost.all_interfaces ∨ fresh' 10 = Some TestHost.all_interfaces)) ∨
  (c' = store 10 TestHost.all_interfaces c ∧ (None : option string) = None ∧
   @Interfaces TestHost.test_host = Ok TestHost.all_interfaces ∧ fresh' 10 = None ∧ fresh' 10 = None) ∨
  (c' = c ∧ (∃ e, @Interfaces TestHost.test_host = Err e ∧ (None : option string) = Some e) ∧
   TestHost.all_interfaces = stale c).
Proof.
  intros c c' fresh'.
  apply (@ifcache_call_correct TestHost.test_host c c' TestHost.all_interfaces None);
    [vm_compute; reflexivity|]. simpl. lia.
Defined.
