(* ===== verification/CmdLine.v ===== *)
(** * The command line: the flags of [main.go].

    The variables the flags set, their registration and defaults, what [main] checks before it starts,
    and the version requests. *)

From S2P Require Import Prelude GoStrings GoNet GoFlag Specs Layers FileWatch Host Addrs IfCache Version.

(** ** The variables *)

Definition MaxUint8 : Z := 255.
Definition MaxUint16 : Z := 65535.
Definition MaxInt32 : Z := 2147483647.
Definition DefaultMaxHandlers : Z := 65535.
Definition vcsAbbRevisionNum : Z := 8.

(** Numbers are 64 bit unsigned, durations nanoseconds. *)
Record Flags := mkFlags {
  flagUpstreamDHCPServerAddr : bytes;
  flagMACPolicy : bytes;
  flagMACPolicyInterval : Z;
  flagLinkMap : bytes;
  flagLinkMapInterval : Z;
  flagGiaddr : bytes;
  flagLogWithoutDatetime : bool;
  flagReplyTTL : Z;
  flagMTU : Z;
  flagDebug : bool;
  flagDebugServerAddr : bytes;
  flagVerifyChecksums : bool;
  flagBroadcastReplyL2Unicast : bool;
  flagReplyNICCacheTTL : Z;
  flagVersion : bool;
  flagMaxHandlers : Z;
  flagMaxHops : Z
}.

#[global] Instance Flags_eq_dec : EqDecision Flags.
Proof. solve_decision. Defined.

(** The assignment to one variable, by its position. *)
Definition set_flagUpstreamDHCPServerAddr (v : bytes) (fl : Flags) : Flags :=
  let '(mkFlags _ x2 x3 x4 x5 x6 x7 x8 x9 x10 x11 x12 x13 x14 x15 x16 x17) := fl in
  mkFlags v x2 x3 x4 x5 x6 x7 x8 x9 x10 x11 x12 x13 x14 x15 x16 x17.
Definition set_flagMACPolicy (v : bytes) (fl : Flags) : Flags :=
  let '(mkFlags x1 _ x3 x4 x5 x6 x7 x8 x9 x10 x11 x12 x13 x14 x15 x16 x17) := fl in
  mkFlags x1 v x3 x4 x5 x6 x7 x8 x9 x10 x11 x12 x13 x14 x15 x16 x17.
Definition set_flagMACPolicyInterval (v : Z) (fl : Flags) : Flags :=
  let '(mkFlags x1 x2 _ x4 x5 x6 x7 x8 x9 x10 x11 x12 x13 x14 x15 x16 x17) := fl in
  mkFlags x1 x2 v x4 x5 x6 x7 x8 x9 x10 x11 x12 x13 x14 x15 x16 x17.
Definition set_flagLinkMap (v : bytes) (fl : Flags) : Flags :=
  let '(mkFlags x1 x2 x3 _ x5 x6 x7 x8 x9 x10 x11 x12 x13 x14 x15 x16 x17) := fl in
  mkFlags x1 x2 x3 v x5 x6 x7 x8 x9 x10 x11 x12 x13 x14 x15 x16 x17.
Definition set_flagLinkMapInterval (v : Z) (fl : Flags) : Flags :=
  let '(mkFlags x1 x2 x3 x4 _ x6 x7 x8 x9 x10 x11 x12 x13 x14 x15 x16 x17) := fl in
  mkFlags x1 x2 x3 x4 v x6 x7 x8 x9 x10 x11 x12 x13 x14 x15 x16 x17.
Definition set_flagGiaddr (v : bytes) (fl : Flags) : Flags :=
  let '(mkFlags x1 x2 x3 x4 x5 _ x7 x8 x9 x10 x11 x12 x13 x14 x15 x16 x17) := fl in
  mkFlags x1 x2 x3 x4 x5 v x7 x8 x9 x10 x11 x12 x13 x14 x15 x16 x17.
Definition set_flagLogWithoutDatetime (v : bool) (fl : Flags) : Flags :=
  let '(mkFlags x1 x2 x3 x4 x5 x6 _ x8 x9 x10 x11 x12 x13 x14 x15 x16 x17) := fl in
  mkFlags x1 x2 x3 x4 x5 x6 v x8 x9 x10 x11 x12 x13 x14 x15 x16 x17.
Definition set_flagReplyTTL (v : Z) (fl : Flags) : Flags :=
  let '(mkFlags x1 x2 x3 x4 x5 x6 x7 _ x9 x10 x11 x12 x13 x14 x15 x16 x17) := fl in
  mkFlags x1 x2 x3 x4 x5 x6 x7 v x9 x10 x11 x12 x13 x14 x15 x16 x17.
Definition set_flagMTU (v : Z) (fl : Flags) : Flags :=
  let '(mkFlags x1 x2 x3 x4 x5 x6 x7 x8 _ x10 x11 x12 x13 x14 x15 x16 x17) := fl in
  mkFlags x1 x2 x3 x4 x5 x6 x7 x8 v x10 x11 x12 x13 x14 x15 x16 x17.
Definition set_flagDebug (v : bool) (fl : Flags) : Flags :=
  let '(mkFlags x1 x2 x3 x4 x5 x6 x7 x8 x9 _ x11 x12 x13 x14 x15 x16 x17) := fl in
  mkFlags x1 x2 x3 x4 x5 x6 x7 x8 x9 v x11 x12 x13 x14 x15 x16 x17.
Definition set_flagDebugServerAddr (v : bytes) (fl : Flags) : Flags :=
  let '(mkFlags x1 x2 x3 x4 x5 x6 x7 x8 x9 x10 _ x12 x13 x14 x15 x16 x17) := fl in
  mkFlags x1 x2 x3 x4 x5 x6 x7 x8 x9 x10 v x12 x13 x14 x15 x16 x17.
Definition set_flagVerifyChecksums (v : bool) (fl : Flags) : Flags :=
  let '(mkFlags x1 x2 x3 x4 x5 x6 x7 x8 x9 x10 x11 _ x13 x14 x15 x16 x17) := fl in
  mkFlags x1 x2 x3 x4 x5 x6 x7 x8 x9 x10 x11 v x13 x14 x15 x16 x17.
Definition set_flagBroadcastReplyL2Unicast (v : bool) (fl : Flags) : Flags :=
  let '(mkFlags x1 x2 x3 x4 x5 x6 x7 x8 x9 x10 x11 x12 _ x14 x15 x16 x17) := fl in
  mkFlags x1 x2 x3 x4 x5 x6 x7 x8 x9 x10 x11 x12 v x14 x15 x16 x17.
Definition set_flagReplyNICCacheTTL (v : Z) (fl : Flags) : Flags :=
  let '(mkFlags x1 x2 x3 x4 x5 x6 x7 x8 x9 x10 x11 x12 x13 _ x15 x16 x17) := fl in
  mkFlags x1 x2 x3 x4 x5 x6 x7 x8 x9 x10 x11 x12 x13 v x15 x16 x17.
Definition set_flagVersion (v : bool) (fl : Flags) : Flags :=
  let '(mkFlags x1 x2 x3 x4 x5 x6 x7 x8 x9 x10 x11 x12 x13 x14 _ x16 x17) := fl in
  mkFlags x1 x2 x3 x4 x5 x6 x7 x8 x9 x10 x11 x12 x13 x14 v x16 x17.
Definition set_flagMaxHandlers (v : Z) (fl : Flags) : Flags :=
  let '(mkFlags x1 x2 x3 x4 x5 x6 x7 x8 x9 x10 x11 x12 x13 x14 x15 _ x17) := fl in
  mkFlags x1 x2 x3 x4 x5 x6 x7 x8 x9 x10 x11 x12 x13 x14 x15 v x17.
Definition set_flagMaxHops (v : Z) (fl : Flags) : Flags :=
  let '(mkFlags x1 x2 x3 x4 x5 x6 x7 x8 x9 x10 x11 x12 x13 x14 x15 x16 _) := fl in
  mkFlags x1 x2 x3 x4 x5 x6 x7 x8 x9 x10 x11 x12 x13 x14 x15 x16 v.

(** ** Registration *)

(** The flags of [main], in the order of their registration. *)
Definition formal : list (flag.Flag Flags) :=
  [flag.StringVar "dhcp-server-address" set_flagUpstreamDHCPServerAddr;
   flag.StringVar "mac-policy" set_flagMACPolicy;
   flag.DurationVar "mac-policy-interval" set_flagMACPolicyInterval;
   flag.StringVar "link-map" set_flagLinkMap;
   flag.DurationVar "link-map-interval" set_flagLinkMapInterval;
   flag.StringVar "giaddr" set_flagGiaddr;
   flag.BoolVar "log-no-datetime" set_flagLogWithoutDatetime;
   flag.Uint64Var "reply-ttl" set_flagReplyTTL;
   flag.Uint64Var "mtu" set_flagMTU;
   flag.BoolVar "debug" set_flagDebug;
   flag.StringVar "debug-server" set_flagDebugServerAddr;
   flag.BoolVar "verify-checksums" set_flagVerifyChecksums;
   flag.BoolVar "broadcast-reply-l2-unicast" set_flagBroadcastReplyL2Unicast;
   flag.DurationVar "reply-nic-cache-ttl" set_flagReplyNICCacheTTL;
   flag.BoolVar "version" set_flagVersion;
   flag.Uint64Var "max-handlers" set_flagMaxHandlers;
   flag.Uint64Var "max-hops" set_flagMaxHops].

Definition defaults : Flags :=
  {| flagUpstreamDHCPServerAddr := [];
     flagMACPolicy := [];
     flagMACPolicyInterval := DefaultPollInterval;
     flagLinkMap := [];
     flagLinkMapInterval := DefaultPollInterval;
     flagGiaddr := [];
     flagLogWithoutDatetime := false;
     flagReplyTTL := 1;
     flagMTU := EthernetCommonMTU;
     flagDebug := false;
     flagDebugServerAddr := lit "localhost:8080";
     flagVerifyChecksums := false;
     flagBroadcastReplyL2Unicast := false;
     flagReplyNICCacheTTL := DefaultInterfaceCacheTTL;
     flagVersion := false;
     flagMaxHandlers := DefaultMaxHandlers;
     flagMaxHops := DHCPv4MaxHops |}.

(** [flag.Parse] over the arguments after the program name. *)
Definition parse_flags (args : list bytes) : flag.outcome Flags := flag.Parse formal args defaults.

(** The first line of the usage text. *)
Definition usage_header (argv0 : bytes) (buildInfo : option (list BuildSetting)) : bytes :=
  lit "Usage of " ++ argv0 ++ lit " (version: " ++ VCS buildInfo vcsAbbRevisionNum ++ lit "):" ++ [10].

(** A command line that sets every flag. *)
Definition arg (name : string) (value : bytes) : bytes := 45 :: lit name ++ 61 :: value.
Definition format_bool (b : bool) : bytes := lit (if b then "true" else "false").

Definition command_line (fl : Flags) : list bytes :=
  [arg "dhcp-server-address" (flagUpstreamDHCPServerAddr fl);
   arg "mac-policy" (flagMACPolicy fl);
   arg "mac-policy-interval" (format_ns (flagMACPolicyInterval fl));
   arg "link-map" (flagLinkMap fl);
   arg "link-map-interval" (format_ns (flagLinkMapInterval fl));
   arg "giaddr" (flagGiaddr fl);
   arg "log-no-datetime" (format_bool (flagLogWithoutDatetime fl));
   arg "reply-ttl" (strconv.FormatUint (flagReplyTTL fl));
   arg "mtu" (strconv.FormatUint (flagMTU fl));
   arg "debug" (format_bool (flagDebug fl));
   arg "debug-server" (flagDebugServerAddr fl);
   arg "verify-checksums" (format_bool (flagVerifyChecksums fl));
   arg "broadcast-reply-l2-unicast" (format_bool (flagBroadcastReplyL2Unicast fl));
   arg "reply-nic-cache-ttl" (format_ns (flagReplyNICCacheTTL fl));
   arg "version" (format_bool (flagVersion fl));
   arg "max-handlers" (strconv.FormatUint (flagMaxHandlers fl));
   arg "max-hops" (strconv.FormatUint (flagMaxHops fl))].

(** The values Go can hold in the variables. *)
Definition in_range (fl : Flags) : Prop :=
  - 2 ^ 63 ≤ flagMACPolicyInterval fl < 2 ^ 63 ∧
  - 2 ^ 63 ≤ flagLinkMapInterval fl < 2 ^ 63 ∧
  0 ≤ flagReplyTTL fl < 2 ^ 64 ∧
  0 ≤ flagMTU fl < 2 ^ 64 ∧
  - 2 ^ 63 ≤ flagReplyNICCacheTTL fl < 2 ^ 63 ∧
  0 ≤ flagMaxHandlers fl < 2 ^ 64 ∧
  0 ≤ flagMaxHops fl < 2 ^ 64.

(** ** What [main] checks *)

(** The checks of [main], in order; an error is fatal.  The result is the parsed giaddr. *)
Definition check_flags (fl : Flags) : result bytes :=
  if bool_decide (flagUpstreamDHCPServerAddr fl = []) then
    Err "Upstream DHCPv4 server value must be specified."
  else if (flagReplyTTL fl <? 1) || (MaxUint8 <? flagReplyTTL fl) then
    Err "Reply TTL must be in range of 1...255."
  else if (flagMTU fl <? DHCPv4MinMessageSize) || (MaxUint16 <? flagMTU fl) then
    Err "MTU must be in range of 244...65535."
  else if (flagMaxHandlers fl <? 1) || (MaxInt32 <? flagMaxHandlers fl) then
    Err "Max handlers must be in range of 1...2147483647."
  else if (flagMaxHops fl <? 1) || (MaxUint8 <? flagMaxHops fl) then
    Err "Max hops must be in range of 1...255."
  else if negb (bool_decide (flagGiaddr fl = [])) then
    let giaddr := IP.To4 (ParseIP (flagGiaddr fl)) in
    if negb (IsGlobalUnicastIPv4 giaddr) then Err "giaddr must be a global unicast IPv4 address"
    else Ok giaddr
  else Ok [].

(** ** Lemmas *)

Lemma check_flags_ok fl giaddr :
  check_flags fl = Ok giaddr →
  flagUpstreamDHCPServerAddr fl ≠ [] ∧ 1 ≤ flagReplyTTL fl ≤ 255 ∧ 244 ≤ flagMTU fl ≤ 65535 ∧
  1 ≤ flagMaxHandlers fl ≤ MaxInt32 ∧ 1 ≤ flagMaxHops fl ≤ 255 ∧
  (giaddr = [] ∧ flagGiaddr fl = [] ∨
   length giaddr = 4%nat ∧ IsGlobalUnicastIPv4 giaddr = true ∧ giaddr = IP.To4 (ParseIP (flagGiaddr fl))).
Proof.
  unfold check_flags, MaxUint8, MaxUint16, DHCPv4MinMessageSize.
  case_bool_decide as Es; [done|]. intros Hc.
  destruct (_ || _) eqn:E1 in Hc; [done|]. destruct (_ || _) eqn:E2 in Hc; [done|].
  destruct (_ || _) eqn:E3 in Hc; [done|]. destruct (_ || _) eqn:E4 in Hc; [done|].
  reflect_bools. split; [done|]. do 4 (split; [lia|]).
  case_bool_decide as Eg; cbn [negb] in Hc; [left; by simplify_eq|right].
  destruct (IsGlobalUnicastIPv4 (IP.To4 (ParseIP (flagGiaddr fl)))) eqn:Eu; [|done].
  simplify_eq/=. split; [|done]. apply IsGlobalUnicastIPv4_true in Eu as [Hne _].
  rewrite IP.To4_idemp in Hne. by apply IP.To4_length.
Qed.

(** One argument of the form [-name=value]. *)
Lemma Parse_arg name value args fl f :
  bool_decide (lit name = []) = false → head (lit name) ≠ Some 45 → head (lit name) ≠ Some 61 →
  bool_decide (61 ∈ lit name) = false →
  find_first (λ f, bool_decide (flag.fl_name f = lit name)) formal = Some f →
  flag.Parse formal (arg name value :: args) fl =
  match flag.fl_set f value fl with
  | Some fl => flag.Parse formal args fl
  | None => flag.Exited 2
  end.
Proof.
  intros Hne H45 H61 Heq Hf. apply bool_decide_eq_false in Hne, Heq. unfold arg.
  destruct (lit name) as [|c r] eqn:E; [done|]. simpl in H45, H61.
  assert (Hc : (c =? 45) = false ∧ (c =? 61) = false) by (split; apply Z.eqb_neq; congruence).
  destruct Hc as [Hc1 Hc2]. cbn [app flag.Parse Z.eqb Pos.eqb negb]. rewrite Hc1, Hc2. cbn [andb orb].
  unfold flag.cut_name. rewrite not_elem_of_cons in Heq. rewrite cut_eq_app by tauto. rewrite Hf.
  rewrite Hc1. destruct (flag.fl_bool f); by destruct args.
Qed.

(** ** Properties *)

(** C38: the command line can express every configuration and is read as it is written: for any values Go
    can hold, the arguments that set every flag parse back to exactly those values, with nothing left
    over. *)
Theorem flags_roundtrip (fl : Flags) :
  in_range fl → parse_flags (command_line fl) = flag.Parsed fl [].
Proof.
  intros (H1 & H2 & H3 & H4 & H5 & H6 & H7). unfold parse_flags, command_line.
  repeat (erewrite Parse_arg;
    [|vm_compute; first [reflexivity | discriminate]..|reflexivity]; cbn [flag.fl_set flag.StringVar
      flag.BoolVar flag.Uint64Var flag.DurationVar];
    rewrite ?ParseUint_FormatUint, ?ParseDuration_format_ns by done;
    unfold format_bool; rewrite ?ParseBool_format).
  by destruct fl.
Qed.

(** the minimal command line starts the relay: with the server address alone every other flag has its
    default, and the checks of [main] accept any non empty address. *)
Theorem minimal_command_line (server : bytes) :
  server ≠ [] →
  parse_flags [arg "dhcp-server-address" server] =
    flag.Parsed (set_flagUpstreamDHCPServerAddr server defaults) [] ∧
  check_flags (set_flagUpstreamDHCPServerAddr server defaults) = Ok [].
Proof.
  intros Hs. split.
  - unfold parse_flags.
    erewrite Parse_arg; [|vm_compute; first [reflexivity | discriminate]..|reflexivity]. done.
  - unfold check_flags. cbn. by rewrite bool_decide_eq_false_2.
Qed.

(** ** Witnesses *)

Lemma flags_roundtrip_witness :
  in_range defaults ∧ parse_flags (command_line defaults) = flag.Parsed defaults [].
Proof.
  assert (Hr : in_range defaults).
  { unfold in_range. cbn. unfold DefaultPollInterval, DefaultInterfaceCacheTTL, DefaultMaxHandlers,
      EthernetCommonMTU, DHCPv4MaxHops. lia. }
  split; [exact Hr|]. exact (flags_roundtrip defaults Hr).
Defined.

Lemma minimal_command_line_witness :
  parse_flags [lit "-dhcp-server-address=10.0.0.9"] =
    flag.Parsed (set_flagUpstreamDHCPServerAddr (lit "10.0.0.9") defaults) [].
Proof. apply (minimal_command_line (lit "10.0.0.9")). discriminate. Defined.
