(* ===== verification/Request.v ===== *)
(** * The request path: [pkg/dhcp4/request.go], with the configuration and decision records of
    [pkg/dhcp4/dhcp4.go].

    A client request leaves once per address of a numbered ingress interface, or once under the
    override or derived giaddr of an unnumbered one, with Option 82 set and the hop counted. *)

From S2P Require Import Prelude GoStrings GoNet Specs Layers DhcpOptions Option82 Host Addrs.

(** ** Configuration and decision *)

(** [HandleOptions]: the logger and the UDP socket are always present; the interface cache is part of
    the handler state.  A nil [Giaddr] is [[]], a nil [LinkMap] is [None]. *)
Record HandleOptions := {
  LinkMap : option (bytes → bytes → option bytes);
  DHCPServerAddress : bytes;
  Giaddr : bytes;
  MaxHops : Z;
  BroadcastReplyL2Unicast : bool;
  ReplyTTL : Z
}.

(** [Decision]. *)
Record Decision := {
  ServerAddress : bytes;
  PolicyTag : bytes;
  ReplyNICMatch : option (bytes → bytes → bool);
  ReplySubOpts : list DHCPOption;
  DropReply : bool
}.

Definition zero_decision : Decision :=
  {| ServerAddress := []; PolicyTag := []; ReplyNICMatch := None; ReplySubOpts := [];
     DropReply := false |}.

Definition EffectiveServerAddress (cfg : HandleOptions) (dec : option Decision) : bytes :=
  match dec with
  | Some d => if bool_decide (ServerAddress d = []) then DHCPServerAddress cfg else ServerAddress d
  | None => DHCPServerAddress cfg
  end.

Definition policy_tag (dec : option Decision) : bytes :=
  match dec with Some d => PolicyTag d | None => [] end.

Section request.
Context `{Gopacket} `{Host}.

Definition SendToServer (serverAddr buf : bytes) : M unit :=
  t ← get_trace;
  to ← lift (ResolveUDPAddr t serverAddr);
  t ← get_trace;
  emit (UDPWrite to DHCPv4ServerPort buf) ;;
  lift (WriteTo t to buf) ;;
  emit (Log Debug "Sent bytes of data to socket").

(** [ServerFacingAddr]. *)
Definition ServerFacingAddr (serverAddr : bytes) : result bytes :=
  match DialLocalAddr serverAddr with
  | Err e => Err e
  | Ok local =>
      match local with
      | Some ip =>
          if negb (IsGlobalUnicastIPv4 ip) then Err "no global unicast IPv4 route to server"
          else Ok (IP.To4 ip)
      | None => Err "no global unicast IPv4 route to server"
      end
  end.

(** [ResolveGiaddr]: addresses, override, link subnet. *)
Definition ResolveGiaddr (cfg : HandleOptions) (dec : option Decision) (ifIndex : Z) :
    result (list IPNet * bytes * bytes) :=
  match wrap "interface address lookup error: " (InterfaceByIndex ifIndex) with
  | Err e => Err e
  | Ok ifi =>
  match wrap "interface address lookup error: " (InterfaceGlobalUnicastAddrs4 ifi) with
  | Err e => Err e
  | Ok addrs =>
  if 0 <? len addrs then Ok (addrs, [], [])
  else
    match LinkMap cfg with
    | None => Err "no IPv4 addresses"
    | Some lookup =>
        match lookup (Name ifi) (HardwareAddr.String (HardwareAddr ifi)) with
        | None => Err "no IPv4 and no link-map entry"
        | Some subnet =>
            if bool_decide (Giaddr cfg = []) then
              match wrap "giaddr auto-derive: " (ServerFacingAddr (EffectiveServerAddress cfg dec)) with
              | Err e => Err e
              | Ok giaddr => Ok ([], giaddr, subnet)
              end
            else Ok ([], Giaddr cfg, subnet)
        end
    end
  end
  end.

(** The closure [send] of [HandleGenericRequest]: one copy under [giaddr]. *)
Definition send (serverAddr giaddr : bytes) : M unit :=
  m ← get_msg;
  put_msg (set_RelayAgentIP giaddr m) ;;
  emit (Log Debug "Relaying under giaddr") ;;
  m ← get_msg;
  buffer ← lift (wrap "layer encoding error: " (SerializeDHCPv4 m));
  r ← attempt (SendToServer serverAddr buffer);
  match r with
  | Err e => emit (Log Error "Error sending DHCPv4 relayed message")
  | Ok _ => emit (Log Info "<--")
  end.

(** The sub-options: circuit id, link selection, and the optional policy tag. *)
Definition routing_subs (ifIndex : Z) (linkSubnet : bytes) : list DHCPOption :=
  CreateAgentCircuitIDSubOption (u32 ifIndex) ::
  (if bool_decide (linkSubnet = []) then [] else [CreateLinkSelectionSubOption linkSubnet]).

Definition full_subs (dec : option Decision) (routing : list DHCPOption) : list DHCPOption :=
  if 0 <? len (policy_tag dec) then routing ++ [CreatePolicyTagSubOption (policy_tag dec)] else routing.

Definition HandleGenericRequest (cfg : HandleOptions) (dec : option Decision) (ifIndex : Z) : M unit :=
  m ← get_msg;
  if MaxHops cfg <=? RelayHops m then fail "hop count reaches maximum"
  else
    '(addrs, override, linkSubnet) ← lift (ResolveGiaddr cfg dec ifIndex);
    if negb (IsOption (CreateAgentCircuitIDSubOption (u32 ifIndex))) then
      fail "invalid Agent Circuit ID sub-option"
    else
      emit (Log Debug "Option 82 -> Sub-option") ;;
      let routing := routing_subs ifIndex linkSubnet in
      opt82 ←
        (let opt82 := EncodeRelayAgentInformationOption (full_subs dec routing) in
         if negb (IsOption opt82) then
           emit (Log Debug "Policy tag too large for Option 82, relaying without it") ;;
           mret (EncodeRelayAgentInformationOption routing)
         else mret opt82);
      if negb (IsOption opt82) then fail "could not encode Option 82"
      else
        put_msg (set_RelayHops (u8 (RelayHops m + 1)) (SetOption m opt82)) ;;
        let serverAddr := EffectiveServerAddress cfg dec in
        if negb (bool_decide (override = [])) then send serverAddr override
        else for_each addrs (λ addr, send serverAddr (ipnet_IP addr)).

(** [RelayToServer]. *)
Definition RelayToServer (dst : bytes) : M unit :=
  m ← get_msg;
  buffer ← lift (wrap "layer encoding error: " (SerializeDHCPv4 m));
  SendToServer dst buffer ;;
  emit (Log Info "<--").

Definition ForwardRelayedRequest (cfg : HandleOptions) (dec : option Decision) : M unit :=
  m ← get_msg;
  if MaxHops cfg <=? RelayHops m then fail "hop count reaches maximum"
  else
    put_msg (set_RelayHops (u8 (RelayHops m + 1)) m) ;;
    r ← attempt (RelayToServer (EffectiveServerAddress cfg dec));
    match r with
    | Err e => emit (Log Error "Error sending DHCPv4 relayed message")
    | Ok _ => mret ()
    end.

End request.

(** ** What a request should become *)

(** The sub-options that are sent: the tag is left out when it does not fit. *)
Definition request_subs (dec : option Decision) (ifIndex : Z) (linkSubnet : bytes) : list DHCPOption :=
  let routing := routing_subs ifIndex linkSubnet in
  let tag := policy_tag dec in
  if bool_decide (tag = []) || (255 <? len (subs_bytes routing) + 2 + len tag) then routing
  else routing ++ [mkOption PolicyTagSubOption (len tag) tag].

Definition relayed_request `{Gopacket} (m : DHCPv4) (subs : list DHCPOption) : DHCPv4 :=
  set_RelayHops (RelayHops m + 1) (SetOption m (EncodeRelayAgentInformationOption subs)).

(** The giaddrs of the copies. *)
Definition giaddrs (addrs : list IPNet) (override : bytes) : list bytes :=
  if bool_decide (override = []) then map ipnet_IP addrs else [override].

(** The datagram that sends [m] to the name [server]: the address is an answer of the resolver for that
    name, the port the server port, the payload [m]. *)
Definition sent_to `{Gopacket} `{Host} (server : bytes) (m : DHCPv4) (e : event) : Prop :=
  ∃ t to buf, ResolveUDPAddr t server = Ok to ∧ SerializeDHCPv4 m = Ok buf ∧
    e = UDPWrite to DHCPv4ServerPort buf.

(** An event that sends a copy of [m] under [g] to [server]. *)
Definition copy_of `{Gopacket} `{Host} (server : bytes) (m : DHCPv4) (g : bytes) (e : event) : Prop :=
  sent_to server (set_RelayAgentIP g m) e.

(** What a request becomes on its way to the server: one more hop, and, when this relay is the first one,
    the relay's Option 82, with or without the policy tag, and one of the giaddrs of the ingress
    interface. *)
Definition relayed_as `{Gopacket} `{Host} (cfg : HandleOptions) (dec : option Decision) (ifIndex : Z)
    (m m' : DHCPv4) : Prop :=
  if 0 <? RelayHops m then m' = set_RelayHops (RelayHops m + 1) m
  else ∃ addrs override link subs g,
    ResolveGiaddr cfg dec ifIndex = Ok (addrs, override, link) ∧ g ∈ giaddrs addrs override ∧
    (subs = full_subs dec (routing_subs ifIndex link) ∨ subs = routing_subs ifIndex link) ∧
    m' = set_RelayAgentIP g (relayed_request m subs).

(** ** Lemmas: the sub-options *)

Definition good_link (linkSubnet : bytes) : Prop := linkSubnet = [] ∨ length linkSubnet = 4%nat.

Lemma routing_subs_wf ifIndex linkSubnet :
  good_link linkSubnet →
  routing_subs ifIndex linkSubnet ≠ [] ∧
  Forall (λ s, wf_sub s ∧ opt_Data s ≠ []) (routing_subs ifIndex linkSubnet) ∧
  len (subs_bytes (routing_subs ifIndex linkSubnet)) ≤ 18.
Proof.
  intros Hl. assert (Hv : 0 ≤ u32 ifIndex < 2 ^ 32) by (unfold u32; by apply Z.mod_pos_bound).
  destruct (circuit_id_wf _ Hv) as [Hw Hc]. change MaxAgentCircuitIDSize with 10 in Hc.
  assert (Hd : opt_Data (CreateAgentCircuitIDSubOption (u32 ifIndex)) ≠ []).
  { intros E. unfold wf_sub in Hw. rewrite E in Hw. cbn [length] in Hw. lia. }
  unfold routing_subs. split; [done|]. unfold wf_sub in Hw. case_bool_decide as Eb.
  - split; [by apply Forall_singleton|]. rewrite len_subs_cons, len_subs_nil. lia.
  - destruct Hl as [?|Hl]; [done|].
    destruct (link_selection_wf linkSubnet) as [E Hw']; [by apply IP.To4_nonempty_v4|].
    split.
    + apply Forall_cons_2; [done|]. apply Forall_singleton. split; [done|]. rewrite E. simpl.
      by rewrite IP.To4_v4 by done.
    + rewrite !len_subs_cons, len_subs_nil, E. cbn [opt_Data]. rewrite IP.To4_v4 by done. lia.
Qed.

Lemma len_subs_app l k : len (subs_bytes (l ++ k)) = len (subs_bytes l) + len (subs_bytes k).
Proof. rewrite subs_bytes_app, length_app. lia. Qed.

Lemma request_subs_wf dec ifIndex linkSubnet :
  good_link linkSubnet →
  request_subs dec ifIndex linkSubnet ≠ [] ∧
  Forall (λ s, wf_sub s ∧ opt_Data s ≠ []) (request_subs dec ifIndex linkSubnet) ∧
  len (subs_bytes (request_subs dec ifIndex linkSubnet)) ≤ 255.
Proof.
  intros Hl. destruct (routing_subs_wf ifIndex linkSubnet Hl) as (Hne & Hall & Hlen).
  unfold request_subs. case_bool_decide as Et; cbn [orb]; [split; [done|]; split; [done|lia]|].
  destruct (Z.ltb_spec 255 (len (subs_bytes (routing_subs ifIndex linkSubnet)) + 2 + len (policy_tag dec)));
    [split; [done|]; split; [done|lia]|].
  split; [by destruct (routing_subs ifIndex linkSubnet)|]. split.
  - apply Forall_app. split; [done|]. by apply Forall_singleton.
  - rewrite len_subs_app, len_subs_cons, len_subs_nil. cbn [opt_Data]. lia.
Qed.

(** What the reply path extracts. *)
Lemma request_subs_extract dec ifIndex link :
  0 < ifIndex < 2 ^ 31 → good_link link →
  let subs := request_subs dec ifIndex link in
  ExtractAgentCircuitIDSubOptionData subs = ifIndex ∧
  ExtractLinkSelectionSubOptionData subs = link ∧
  (ExtractPolicyTagSubOptionData subs = policy_tag dec ∨
   ExtractPolicyTagSubOptionData subs = [] ∧ MaxPolicyTagSize - 6 < len (policy_tag dec)) ∧
  (link = [] → len (policy_tag dec) ≤ MaxPolicyTagSize →
   ExtractPolicyTagSubOptionData subs = policy_tag dec).
Proof.
  intros Hi Hl subs. unfold subs, request_subs, routing_subs. change MaxPolicyTagSize with 241.
  assert (Hu : u32 ifIndex = ifIndex) by (apply u32_small; lia). rewrite Hu.
  destruct (circuit_id_wf ifIndex ltac:(lia)) as [Hw Hc]. change MaxAgentCircuitIDSize with 10 in Hc.
  unfold wf_sub in Hw. set (c := CreateAgentCircuitIDSubOption ifIndex) in *.
  assert (Hcirc : ∀ ss, ExtractAgentCircuitIDSubOptionData (c :: ss) = ifIndex)
    by (intros ss; apply Extract_circuit_id; lia).
  assert (Hsel : link ≠ [] → CreateLinkSelectionSubOption link = mkOption LinkSelectionSubOption 4 link).
  { intros Hne. destruct Hl as [?|H4]; [done|].
    destruct (link_selection_wf link) as [-> _]; [by apply IP.To4_nonempty_v4|].
    by rewrite IP.To4_v4. }
  assert (H4 : link ≠ [] → length link = 4%nat) by (destruct Hl; done).
  unfold ExtractLinkSelectionSubOptionData, ExtractPolicyTagSubOptionData.
  destruct (bool_decide (link = [])) eqn:El; reflect_bools.
  - destruct (bool_decide (policy_tag dec = [])) eqn:Et; reflect_bools; cbn [orb].
    + rewrite Et. subst link. split; [done|]. split; [done|]. split; [by left|done].
    + rewrite len_subs_cons, len_subs_nil.
      destruct (Z.ltb_spec 255 (2 + len (opt_Data c) + 0 + 2 + len (policy_tag dec))); cbn [app];
        (split; [done|]; split; [by subst|]; cbn; split; [|]; first [by left | by right; split; [|lia] | lia | done]).
  - assert (len link = 4) by (rewrite H4 by done; lia). rewrite Hsel by done.
    destruct (bool_decide (policy_tag dec = [])) eqn:Et; reflect_bools; cbn [orb].
    + rewrite Et. split; [done|]. cbn. rewrite (proj2 (Z.eqb_eq (len link) 4)) by done.
      split; [done|]. split; [by left|done].
    + rewrite !len_subs_cons, len_subs_nil. cbn [opt_Data].
      destruct (Z.ltb_spec 255 (2 + len (opt_Data c) + (2 + len link + 0) + 2 + len (policy_tag dec)));
        cbn [app]; (split; [done|]; cbn; rewrite (proj2 (Z.eqb_eq (len link) 4)) by done;
          split; [done|]; split; [|done]; first [by left | by right; split; [|lia]]).
Qed.

(** The encoding the code settles on: with the tag, or without it after the retry. *)
Lemma encode_request_subs `{GopacketLaws} dec ifIndex linkSubnet :
  good_link linkSubnet →
  let routing := routing_subs ifIndex linkSubnet in
  let full := EncodeRelayAgentInformationOption (full_subs dec routing) in
  IsOption (EncodeRelayAgentInformationOption (request_subs dec ifIndex linkSubnet)) = true ∧
  (if IsOption full then full else EncodeRelayAgentInformationOption routing) =
  EncodeRelayAgentInformationOption (request_subs dec ifIndex linkSubnet).
Proof.
  intros Hl. cbv zeta. destruct (request_subs_wf dec ifIndex linkSubnet Hl) as (Hne & Hall & Hlen).
  destruct (routing_subs_wf ifIndex linkSubnet Hl) as (Hne' & Hall' & Hlen').
  destruct (wf_nonzero _ Hall) as [_ Hnz].
  assert (Hopt : IsOption (EncodeRelayAgentInformationOption (request_subs dec ifIndex linkSubnet)) = true)
    by (by apply IsOption_Encode).
  split; [done|]. unfold request_subs in *. unfold full_subs. set (tag := policy_tag dec) in *.
  set (routing := routing_subs ifIndex linkSubnet) in *.
  destruct (bool_decide (tag = [])) eqn:Et; cbn [orb] in *.
  { apply bool_decide_eq_true in Et. rewrite Et. simpl. by destruct (IsOption _). }
  apply bool_decide_eq_false in Et. assert (Hpos : 0 < len tag) by (destruct tag; [done|simpl; lia]).
  rewrite (proj2 (Z.ltb_lt 0 (len tag)) Hpos).
  destruct (Z.ltb_spec 255 (len (subs_bytes routing) + 2 + len tag)) as [Hbig|Hfit].
  - destruct (IsOption (EncodeRelayAgentInformationOption (routing ++ [CreatePolicyTagSubOption tag]))) eqn:E;
      [|done].
    apply IsOption_Encode in E as (_ & Hz & Hlt). exfalso. apply Forall_app in Hz as [_ Hz].
    destruct (decide (len tag ≤ DHCPv4MaxSubOptionSize)) as [Hs|Hs].
    + destruct (policy_tag_wf tag Et Hs) as [Etag _]. rewrite Etag in Hlt.
      rewrite len_subs_app, len_subs_cons, len_subs_nil in Hlt. cbn [opt_Data] in Hlt.
      change DHCPv4MaxOptionSize with 255 in Hlt. lia.
    + rewrite policy_tag_zero in Hz by (right; lia). apply Forall_cons in Hz as [Hz _]. by apply Hz.
  - destruct (policy_tag_wf tag Et) as [-> _]; [change DHCPv4MaxSubOptionSize with 253; lia|].
    by rewrite Hopt.
Qed.

(** ** Lemmas: sending *)

Section run.
Context `{Gopacket} `{Host}.

(** What one attempt to send leaves behind: at most one datagram, exactly one when the name resolves;
    the message and the cache stay. *)
Lemma SendToServer_run srv buf s :
  ∃ s' r new, SendToServer srv buf s = (s', r) ∧ msg s' = msg s ∧ cache s' = cache s ∧
    sends (tr s') = sends (tr s) ++ new ∧
    match ResolveUDPAddr (tr s) srv with
    | Ok to => new = [UDPWrite to DHCPv4ServerPort buf]
    | Err _ => new = []
    end.
Proof.
  unfold SendToServer. run_M. destruct (ResolveUDPAddr (tr s) srv) as [to|e]; run_M.
  - destruct (WriteTo (tr s) to buf) as [[]|e]; run_M;
      (eexists _, _, [UDPWrite to DHCPv4ServerPort buf]; split; [done|]; cbn [tr msg cache]);
      by autorewrite with sends.
  - eexists _, _, []. split; [done|]. cbn [tr msg cache]. by rewrite app_nil_r.
Qed.

Lemma send_run srv g s :
  ∃ s' r new, send srv g s = (s', r) ∧ msg s' = set_RelayAgentIP g (msg s) ∧ cache s' = cache s ∧
    sends (tr s') = sends (tr s) ++ new ∧ Forall (copy_of srv (msg s) g) new ∧
    (∀ buf to, SerializeDHCPv4 (set_RelayAgentIP g (msg s)) = Ok buf →
       (∀ t, ResolveUDPAddr t srv = Ok to) →
       r = Ok () ∧ new = [UDPWrite to DHCPv4ServerPort buf]) ∧
    (is_ok (SerializeDHCPv4 (set_RelayAgentIP g (msg s))) = false → is_ok r = false).
Proof.
  unfold send. run_M.
  destruct (SerializeDHCPv4 (set_RelayAgentIP g (msg s))) as [buf|e] eqn:Es; run_M.
  2: { eexists _, _, []. split; [done|]. cbn [tr msg cache]. autorewrite with sends.
       rewrite app_nil_r. by repeat split. }
  match goal with |- context [SendToServer srv buf ?s0] => set (s1 := s0) end.
  destruct (SendToServer_run srv buf s1) as (s' & r & new & -> & Hm & Hc & Ht & Hnew). run_M.
  assert (Hs1 : sends (tr s1) = sends (tr s)) by (unfold s1; cbn [tr]; by autorewrite with sends).
  destruct r as [[]|e]; run_M; eexists _, _, new; (split; [done|]); cbn [tr msg cache];
    autorewrite with sends; rewrite Ht, Hs1, Hm, Hc;
    (split; [done|]; split; [done|]; split; [done|]; split;
     [ destruct (ResolveUDPAddr (tr s1) srv) eqn:Er; subst new; [|done]; apply Forall_singleton; by eexists _, _, _
     | split; [|done]; intros buf' to [= <-] Hres; rewrite Hres in Hnew; done ]).
Qed.

(** All copies: the message only ever changes its giaddr. *)
Lemma sends_copies srv gs M0 s :
  (∀ g, set_RelayAgentIP g (msg s) = set_RelayAgentIP g M0) →
  ∃ s' r new, for_each gs (send srv) s = (s', r) ∧
    (∀ g, set_RelayAgentIP g (msg s') = set_RelayAgentIP g M0) ∧
    sends (tr s') = sends (tr s) ++ new ∧
    Forall (λ e, ∃ g, g ∈ gs ∧ copy_of srv M0 g e) new ∧
    (∀ ser to, (∀ g, g ∈ gs → SerializeDHCPv4 (set_RelayAgentIP g M0) = Ok (ser g)) →
       (∀ t, ResolveUDPAddr t srv = Ok to) →
       r = Ok () ∧ new = map (λ g, UDPWrite to DHCPv4ServerPort (ser g)) gs).
Proof.
  revert s. induction gs as [|g gs IH]; intros s HM; cbn [for_each].
  { eexists _, _, []. split; [done|]. rewrite app_nil_r. by repeat split. }
  destruct (send_run srv g s) as (s1 & r1 & new1 & E1 & Hm1 & Hc1 & Ht1 & Hn1 & Hok1 & _).
  run_M. rewrite E1. rewrite HM in *.
  assert (Hcopy : Forall (λ e, ∃ g', g' ∈ g :: gs ∧ copy_of srv M0 g' e) new1).
  { eapply Forall_impl; [exact Hn1|]. unfold copy_of. rewrite HM. intros e He. exists g. by split; [left|]. }
  destruct r1 as [[]|e1].
  - destruct (IH s1) as (s2 & r2 & new2 & E2 & Hm2 & Ht2 & Hn2 & Hok2).
    { intros g'. by rewrite Hm1. }
    rewrite E2. exists s2, r2, (new1 ++ new2). split; [done|]. split; [done|].
    split; [by rewrite Ht2, Ht1, app_assoc|]. split.
    + apply Forall_app. split; [done|]. eapply Forall_impl; [exact Hn2|].
      intros e (g' & Hg & He). exists g'. split; [by right|done].
    + intros ser to Hser Hres. destruct (Hok1 (ser g) to) as [_ ->]; [apply Hser; left|done|].
      destruct (Hok2 ser to) as [-> ->]; [intros; apply Hser; by right|done|]. done.
  - exists s1, (Err e1), new1. split; [done|]. split; [intros g'; by rewrite Hm1|].
    split; [done|]. split; [done|].
    intros ser to Hser Hres. destruct (Hok1 (ser g) to) as [? _]; [apply Hser; left|done|done].
Qed.

(** The two ways of the handler to send are one loop over the giaddrs. *)
Lemma send_giaddrs srv addrs override s :
  (if negb (bool_decide (override = [])) then send srv override
   else for_each addrs (λ addr, send srv (ipnet_IP addr))) s =
  for_each (giaddrs addrs override) (send srv) s.
Proof.
  unfold giaddrs. case_bool_decide; cbn [negb].
  - revert s. induction addrs as [|a addrs IH]; intros s; [done|]. cbn [for_each map]. run_M.
    destruct (send srv (ipnet_IP a) s) as [s2 [[]|e]]; [apply IH|done].
  - cbn [for_each]. run_M. by destruct (send srv override s) as [s2 [[]|e]].
Qed.

(** The handler up to its sends. *)
Lemma HandleGenericRequest_run `{!GopacketLaws} cfg dec ifIndex s addrs override link :
  0 ≤ RelayHops (msg s) < MaxHops cfg → MaxHops cfg ≤ 255 →
  ResolveGiaddr cfg dec ifIndex = Ok (addrs, override, link) → good_link link →
  ∃ s0, sends (tr s0) = sends (tr s) ∧ cache s0 = cache s ∧
    msg s0 = relayed_request (msg s) (request_subs dec ifIndex link) ∧
    HandleGenericRequest cfg dec ifIndex s =
      for_each (giaddrs addrs override) (send (EffectiveServerAddress cfg dec)) s0.
Proof.
  intros Hh Hmax HR Hl. unfold HandleGenericRequest. run_M.
  rewrite (proj2 (Z.leb_gt (MaxHops cfg) (RelayHops (msg s)))) by lia. rewrite HR.
  assert (Hv : 0 ≤ u32 ifIndex < 2 ^ 32) by (unfold u32; by apply Z.mod_pos_bound).
  destruct (circuit_id_wf _ Hv) as [_ [Hc _]].
  assert (IsOption (CreateAgentCircuitIDSubOption (u32 ifIndex)) = true) as ->
    by (apply Z.ltb_lt; lia). cbn [negb].
  destruct (encode_request_subs dec ifIndex link Hl) as [Hopt Henc]. cbv zeta in Henc.
  unfold relayed_request. rewrite u8_small by lia.
  destruct (IsOption (EncodeRelayAgentInformationOption (full_subs dec (routing_subs ifIndex link)))) eqn:Ef;
    cbn [negb]; rewrite Henc, Hopt; cbn [negb]; rewrite send_giaddrs; eexists; (split; [|split; [|split; [|done]]]);
    cbn [tr msg cache]; by autorewrite with sends.
Qed.

(** Without any assumption on the answers of the system: only relayed copies leave, for the server, and only
    below the hop limit. *)
Lemma HandleGenericRequest_any cfg dec ifIndex s :
  0 ≤ RelayHops (msg s) < 256 → MaxHops cfg ≤ 255 → (0 <? RelayHops (msg s)) = false →
  ∃ s' r new, HandleGenericRequest cfg dec ifIndex s = (s', r) ∧ sends (tr s') = sends (tr s) ++ new ∧
    (new ≠ [] → RelayHops (msg s) < MaxHops cfg) ∧
    Forall (λ e, ∃ m', relayed_as cfg dec ifIndex (msg s) m' ∧
      sent_to (EffectiveServerAddress cfg dec) m' e) new.
Proof.
  intros Hh256 Hmax Hfirst. unfold HandleGenericRequest, relayed_as. rewrite Hfirst. run_M.
  destruct (Z.leb_spec (MaxHops cfg) (RelayHops (msg s))) as [Hh|Hh].
  { eexists _, _, []. split; [done|]. by rewrite app_nil_r. }
  destruct (ResolveGiaddr cfg dec ifIndex) as [[[addrs override] link]|e].
  2: { eexists _, _, []. split; [done|]. by rewrite app_nil_r. }
  destruct (negb (IsOption (CreateAgentCircuitIDSubOption (u32 ifIndex)))).
  { eexists _, _, []. split; [done|]. by rewrite app_nil_r. }
  rewrite u8_small by lia.
  assert (Hlast : ∀ s1 subs, sends (tr s1) = sends (tr s) → msg s1 = relayed_request (msg s) subs →
    subs = full_subs dec (routing_subs ifIndex link) ∨ subs = routing_subs ifIndex link →
    ∃ s' r new, (if negb (bool_decide (override = [])) then send (EffectiveServerAddress cfg dec) override
       else for_each addrs (λ addr, send (EffectiveServerAddress cfg dec) (ipnet_IP addr))) s1 = (s', r) ∧
      sends (tr s') = sends (tr s) ++ new ∧ (new ≠ [] → RelayHops (msg s) < MaxHops cfg) ∧
      Forall (λ e, ∃ m', (∃ addrs' override' link' subs' g, Ok (addrs, override, link) = Ok (addrs', override', link') ∧
        g ∈ giaddrs addrs' override' ∧
        (subs' = full_subs dec (routing_subs ifIndex link') ∨ subs' = routing_subs ifIndex link') ∧
        m' = set_RelayAgentIP g (relayed_request (msg s) subs')) ∧
        sent_to (EffectiveServerAddress cfg dec) m' e) new).
  { intros s1 subs Ht1 Hm1 Hsubs. rewrite send_giaddrs.
    destruct (sends_copies (EffectiveServerAddress cfg dec) (giaddrs addrs override) (msg s1) s1)
      as (s' & r & new & E & Hm & Ht & Hn & _); [done|].
    exists s', r, new. split; [done|]. split; [by rewrite Ht, Ht1|]. split; [done|].
    eapply Forall_impl; [exact Hn|]. intros e (g & Hg & He). eexists. split; [|exact He].
    exists addrs, override, link, subs, g. by rewrite Hm1. }
  destruct (negb (IsOption (EncodeRelayAgentInformationOption (full_subs dec _))));
    match goal with |- context [negb (IsOption ?o)] => destruct (negb (IsOption o)) end;
    try (eexists _, _, []; (split; [done|]); cbn [tr]; autorewrite with sends; by rewrite app_nil_r);
    (eapply Hlast; cbn [tr msg]; [by autorewrite with sends|done|auto]).
Qed.

Lemma RelayToServer_run dst s :
  ∃ s' r new, RelayToServer dst s = (s', r) ∧ msg s' = msg s ∧ cache s' = cache s ∧
    sends (tr s') = sends (tr s) ++ new ∧
    match SerializeDHCPv4 (msg s), ResolveUDPAddr (tr s) dst with
    | Ok buf, Ok to => new = [UDPWrite to DHCPv4ServerPort buf]
    | _, _ => new = [] ∧ is_ok r = false
    end.
Proof.
  unfold RelayToServer. run_M. destruct (SerializeDHCPv4 (msg s)) as [buf|e]; run_M.
  2: { eexists _, _, []. split; [done|]. by rewrite app_nil_r. }
  destruct (SendToServer_run dst buf s) as (s' & r & new & E & Hm & Hc & Ht & Hnew).
  assert (Hr : is_ok (ResolveUDPAddr (tr s) dst) = false → is_ok r = false).
  { clear - E. revert E. unfold SendToServer. run_M. destruct (ResolveUDPAddr (tr s) dst); [done|].
    intros [= <- <-]. done. }
  rewrite E. destruct r as [[]|e]; eexists _, _, new; (split; [done|]); cbn [tr msg cache];
    autorewrite with sends; (split; [done|]; split; [done|]; split; [done|]);
    destruct (ResolveUDPAddr (tr s) dst); try done; by specialize (Hr eq_refl).
Qed.

End run.

(** ** Lemmas: giaddr *)

(** What [ResolveGiaddr] promises when the override is empty or valid and the link map holds IPv4
    subnets. *)
Definition good_config (cfg : HandleOptions) : Prop :=
  (Giaddr cfg = [] ∨ length (Giaddr cfg) = 4%nat ∧ IsGlobalUnicastIPv4 (Giaddr cfg) = true) ∧
  (∀ lookup name mac subnet,
     LinkMap cfg = Some lookup → lookup name mac = Some subnet → length subnet = 4%nat).

(** The giaddr and the link selection subnet of an unnumbered interface: the subnet is what the link map
    has for the name and the hardware address of the interface, and the giaddr is the configured override
    or, without one, the local address of a connection to the server that the decision selects. *)
Definition unnumbered_giaddr `{Host} (cfg : HandleOptions) (dec : option Decision) (ifi : Interface)
    (override link : bytes) : Prop :=
  (∃ lookup, LinkMap cfg = Some lookup ∧
     lookup (Name ifi) (HardwareAddr.String (HardwareAddr ifi)) = Some link) ∧
  (Giaddr cfg ≠ [] → override = Giaddr cfg) ∧
  (Giaddr cfg = [] → ∃ local, DialLocalAddr (EffectiveServerAddress cfg dec) = Ok (Some local) ∧
     override = IP.To4 local).

Lemma ResolveGiaddr_spec `{Host} cfg dec ifIndex addrs override link :
  good_config cfg → ResolveGiaddr cfg dec ifIndex = Ok (addrs, override, link) →
  good_link link ∧ giaddrs addrs override ≠ [] ∧
  Forall (λ g, IsGlobalUnicastIPv4 g = true) (giaddrs addrs override) ∧
  ∃ ifi own, InterfaceByIndex ifIndex = Ok ifi ∧ Addrs ifi = Ok own ∧
    (global_unicast_nets own ≠ [] ∧ addrs = global_unicast_nets own ∧ override = [] ∧ link = [] ∨
     global_unicast_nets own = [] ∧ addrs = [] ∧ length override = 4%nat ∧ link ≠ [] ∧
     unnumbered_giaddr cfg dec ifi override link).
Proof.
  intros [Hg Hlm]. unfold ResolveGiaddr, InterfaceGlobalUnicastAddrs4, wrap.
  destruct (InterfaceByIndex ifIndex) as [ifi|]; [|done]. destruct (Addrs ifi) as [own|] eqn:Ea; [|done].
  destruct (Z.ltb_spec 0 (len (global_unicast_nets own))) as [Hpos|Hz].
  { intros [= <- <- <-]. assert (global_unicast_nets own ≠ []) by (intros E; by rewrite E in Hpos).
    split; [by left|]. unfold giaddrs. simpl. split; [by destruct (global_unicast_nets own)|]. split.
    - apply Forall_map, Forall_forall. intros n [_ ?]%elem_of_global_unicast_nets. done.
    - exists ifi, own. auto 10. }
  assert (Hnil : global_unicast_nets own = []) by (apply len_zero; lia).
  destruct (LinkMap cfg) as [lookup|] eqn:El; [|done].
  destruct (lookup _ _) as [subnet|] eqn:Es; [|done].
  assert (Hsub : length subnet = 4%nat) by (by eapply Hlm).
  assert (subnet ≠ []) by (by destruct subnet).
  assert (Hfin : ∀ g, length g = 4%nat → IsGlobalUnicastIPv4 g = true →
            unnumbered_giaddr cfg dec ifi g subnet →
            good_link subnet ∧ giaddrs [] g ≠ [] ∧
            Forall (λ g, IsGlobalUnicastIPv4 g = true) (giaddrs [] g) ∧
            ∃ ifi' own', Ok ifi = Ok ifi' ∧ Addrs ifi' = Ok own' ∧
              (global_unicast_nets own' ≠ [] ∧ [] = global_unicast_nets own' ∧ g = [] ∧ subnet = [] ∨
               global_unicast_nets own' = [] ∧ ([] : list IPNet) = [] ∧ length g = 4%nat ∧ subnet ≠ [] ∧
               unnumbered_giaddr cfg dec ifi' g subnet)).
  { intros g Hg4 Hgu Hov. assert (g ≠ []) by (by destruct g). split; [by right|].
    unfold giaddrs. rewrite bool_decide_eq_false_2 by done. split; [done|].
    split; [by apply Forall_singleton|]. exists ifi, own. auto 10. }
  case_bool_decide as Egi.
  - destruct (ServerFacingAddr _) as [g|] eqn:Esf; [|done]. intros [= <- <- <-].
    unfold ServerFacingAddr in Esf. destruct (DialLocalAddr _) as [[ip|]|] eqn:Ed; [|done..].
    destruct (IsGlobalUnicastIPv4 ip) eqn:Eu; [|done]. injection Esf as <-.
    pose proof Eu as [Hne Hu]%IsGlobalUnicastIPv4_true.
    apply Hfin; [by apply IP.To4_length|by apply IsGlobalUnicastIPv4_To4|].
    split; [eauto|]. split; [done|]. intros _. by exists ip.
  - intros [= <- <- <-]. destruct Hg as [?|[Hg4 Hgu]]; [done|]. apply Hfin; [done..|]. split; [eauto|]. by split.
Qed.

(** ** Properties *)

(** C1: a client request is relayed once under each giaddr of its ingress interface.  Every datagram the
    handler writes is a copy of the request with Option 82 set, the hop counted and one of those
    giaddrs, addressed to the server selected for the client, on the server port; and when the message serialises and the server resolves,
    exactly one copy per giaddr leaves, in order, even if writes fail. *)
Theorem request_relayed_per_giaddr `{GopacketLaws} `{Host} (cfg : HandleOptions)
    (dec : option Decision) (ifIndex : Z) (s : st) (addrs : list IPNet) (override link : bytes) :
  0 ≤ RelayHops (msg s) < MaxHops cfg → MaxHops cfg ≤ 255 →
  ResolveGiaddr cfg dec ifIndex = Ok (addrs, override, link) → good_link link →
  let m' := relayed_request (msg s) (request_subs dec ifIndex link) in
  let gs := giaddrs addrs override in
  ∃ s' r new, HandleGenericRequest cfg dec ifIndex s = (s', r) ∧ sends (tr s') = sends (tr s) ++ new ∧
    Forall (λ e, ∃ g, g ∈ gs ∧ copy_of (EffectiveServerAddress cfg dec) m' g e) new ∧
    (∀ ser to, (∀ g, g ∈ gs → SerializeDHCPv4 (set_RelayAgentIP g m') = Ok (ser g)) →
       (∀ t, ResolveUDPAddr t (EffectiveServerAddress cfg dec) = Ok to) →
       r = Ok () ∧ new = map (λ g, UDPWrite to DHCPv4ServerPort (ser g)) gs).
Proof.
  intros Hh Hmax HR Hl m' gs.
  destruct (HandleGenericRequest_run cfg dec ifIndex s addrs override link) as (s0 & Ht & _ & Hm & ->);
    [done..|].
  destruct (sends_copies (EffectiveServerAddress cfg dec) gs m' s0) as (s' & r & new & E & _ & Hs & Hn & Hok).
  { intros g. by rewrite Hm. }
  exists s', r, new. rewrite <- Ht. auto.
Qed.

(** a request at or above the hop limit, or whose ingress cannot be resolved to a giaddr, is dropped
    with an error and without a trace: nothing is sent and the message is unchanged. *)
Theorem request_dropped `{Gopacket} `{Host} (cfg : HandleOptions) (dec : option Decision)
    (ifIndex : Z) (s : st) :
  (MaxHops cfg ≤ RelayHops (msg s) →
   (∃ e, HandleGenericRequest cfg dec ifIndex s = (s, Err e)) ∧
   (∃ e, ForwardRelayedRequest cfg dec s = (s, Err e))) ∧
  (∀ e, ResolveGiaddr cfg dec ifIndex = Err e →
   ∃ e', HandleGenericRequest cfg dec ifIndex s = (s, Err e')).
Proof.
  split.
  - intros Hh. unfold HandleGenericRequest, ForwardRelayedRequest. run_M.
    rewrite (proj2 (Z.leb_le (MaxHops cfg) (RelayHops (msg s)))) by done. eauto.
  - intros e He. unfold HandleGenericRequest. run_M. destruct (MaxHops cfg <=? _); [eauto|].
    rewrite He. eauto.
Qed.

(** What the Option 82 of the relayed message says. *)
Lemma relayed_request_readback `{GopacketLaws} (m : DHCPv4) (dec : option Decision) (ifIndex : Z)
    (link : bytes) :
  0 < ifIndex < 2 ^ 31 → good_link link →
  let m' := relayed_request m (request_subs dec ifIndex link) in
  let subs := DecodeRelayAgentInformationOption (GetRelayAgentInformationOption m') in
  IsOption (GetRelayAgentInformationOption m') = true ∧ subs = request_subs dec ifIndex link ∧
  ExtractAgentCircuitIDSubOptionData subs = ifIndex ∧
  ExtractLinkSelectionSubOptionData subs = link ∧
  (ExtractPolicyTagSubOptionData subs = policy_tag dec ∨
   ExtractPolicyTagSubOptionData subs = [] ∧ MaxPolicyTagSize - 6 < len (policy_tag dec)) ∧
  (link = [] → len (policy_tag dec) ≤ MaxPolicyTagSize →
   ExtractPolicyTagSubOptionData subs = policy_tag dec) ∧
  RelayHops m' = RelayHops m + 1 ∧
  (∀ t, t ≠ RelayAgentInformation → GetOption m' t = GetOption m t).
Proof.
  intros Hi Hl m' subs. destruct (request_subs_wf dec ifIndex link Hl) as (Hne & Hall & Hlen).
  destruct (Get_Set_relay_info m _ Hall Hne Hlen) as [Hopt Hdec].
  assert (Hsubs : subs = request_subs dec ifIndex link) by exact Hdec.
  split; [exact Hopt|]. split; [done|]. rewrite Hsubs.
  destruct (request_subs_extract dec ifIndex link Hi Hl) as (H1 & H2 & H3 & H4).
  split; [done|]. split; [done|]. split; [done|]. split; [done|]. split; [done|].
  intros t Ht. unfold m', relayed_request.
  destruct (wf_nonzero _ Hall) as [_ Hnz]. rewrite Encode_ok by done.
  change (GetOption (SetOption m (mkOption RelayAgentInformation
    (len (subs_bytes (request_subs dec ifIndex link))) (subs_bytes (request_subs dec ifIndex link)))) t =
    GetOption m t). by apply GetOption_SetOption_ne.
Qed.

(** C19: every datagram of a relayed request carries what the reply path reads back.  The message the
    handler sends has an Option 82 that decodes to the circuit id with the ingress interface index, the
    link selection exactly for an unnumbered ingress, and the policy tag; the tag is left out only when it
    is longer than the longest key less the six bytes of a link selection, and never for a policy key of a
    numbered ingress.  The hop count grew by one
    without overflow and the other options are kept. *)
Theorem request_option82_readback `{GopacketLaws} `{Host} (cfg : HandleOptions) (dec : option Decision)
    (ifIndex : Z) (s : st) (addrs : list IPNet) (override link : bytes) :
  0 ≤ RelayHops (msg s) < MaxHops cfg → MaxHops cfg ≤ 255 → 0 < ifIndex < 2 ^ 31 →
  ResolveGiaddr cfg dec ifIndex = Ok (addrs, override, link) → good_link link →
  ∃ s' r new, HandleGenericRequest cfg dec ifIndex s = (s', r) ∧ sends (tr s') = sends (tr s) ++ new ∧
    let m' := msg s' in
    let subs := DecodeRelayAgentInformationOption (GetRelayAgentInformationOption m') in
    Forall (λ e, ∃ g, g ∈ giaddrs addrs override ∧ copy_of (EffectiveServerAddress cfg dec) m' g e) new ∧
    ExtractAgentCircuitIDSubOptionData subs = ifIndex ∧
    ExtractLinkSelectionSubOptionData subs = link ∧
    (ExtractPolicyTagSubOptionData subs = policy_tag dec ∨
     ExtractPolicyTagSubOptionData subs = [] ∧ MaxPolicyTagSize - 6 < len (policy_tag dec)) ∧
    (link = [] → len (policy_tag dec) ≤ MaxPolicyTagSize →
     ExtractPolicyTagSubOptionData subs = policy_tag dec) ∧
    RelayHops m' = RelayHops (msg s) + 1 ∧
    (∀ t, t ≠ RelayAgentInformation → GetOption m' t = GetOption (msg s) t).
Proof.
  intros Hh Hmax Hi HR Hl.
  destruct (HandleGenericRequest_run cfg dec ifIndex s addrs override link) as (s0 & Ht & _ & Hm & ->);
    [done..|].
  set (m0 := relayed_request (msg s) (request_subs dec ifIndex link)) in *.
  destruct (sends_copies (EffectiveServerAddress cfg dec) (giaddrs addrs override) m0 s0)
    as (s' & r & new & E & Heq & Hs & Hn & _); [intros g; by rewrite Hm|].
  destruct (relayed_request_readback (msg s) dec ifIndex link Hi Hl) as (_ & _ & Hb1 & Hb2 & Hb3 & Hb4 & Hb5 & Hb6).
  fold m0 in Hb1, Hb2, Hb3, Hb4, Hb5, Hb6. pose proof (f_equal Options (Heq [])) as Ho. cbn in Ho.
  assert (Hg : ∀ t, GetOption (msg s') t = GetOption m0 t) by (intros t; unfold GetOption; by rewrite Ho).
  assert (Hr : GetRelayAgentInformationOption (msg s') = GetRelayAgentInformationOption m0)
    by (unfold GetRelayAgentInformationOption; by rewrite Hg).
  exists s', r, new. split; [done|]. split; [by rewrite Hs, Ht|]. cbv zeta. rewrite Hr. split.
  { eapply Forall_impl; [exact Hn|]. unfold copy_of. intros e (g & Hin & He). exists g. by rewrite Heq. }
  split; [done|]. split; [done|]. split; [done|]. split; [done|].
  split; [by rewrite <- Hb5; exact (f_equal RelayHops (Heq []))|]. intros t Hne. rewrite Hg. by apply Hb6.
Qed.

(** C27: the giaddrs of a request are usable and never missing.  With a valid configuration there is at
    least one and each is a global unicast IPv4 address.  They are the addresses of a numbered ingress.  An
    unnumbered ingress takes its link selection subnet from the link map entry for its own name and hardware
    address, and its giaddr is the configured override or, without one, the local address of a connection to
    the server selected for this client. *)
Theorem giaddr_resolution_correct `{Host} (cfg : HandleOptions) (dec : option Decision) (ifIndex : Z)
    (addrs : list IPNet) (override link : bytes) :
  good_config cfg → ResolveGiaddr cfg dec ifIndex = Ok (addrs, override, link) →
  good_link link ∧ giaddrs addrs override ≠ [] ∧
  Forall (λ g, IsGlobalUnicastIPv4 g = true) (giaddrs addrs override) ∧
  ∃ ifi own, InterfaceByIndex ifIndex = Ok ifi ∧ Addrs ifi = Ok own ∧
    (global_unicast_nets own ≠ [] ∧ addrs = global_unicast_nets own ∧ override = [] ∧ link = [] ∨
     global_unicast_nets own = [] ∧ addrs = [] ∧ length override = 4%nat ∧ link ≠ [] ∧
     (∃ lookup, LinkMap cfg = Some lookup ∧
        lookup (Name ifi) (HardwareAddr.String (HardwareAddr ifi)) = Some link) ∧
     (Giaddr cfg ≠ [] → override = Giaddr cfg) ∧
     (Giaddr cfg = [] → ∃ local, DialLocalAddr (EffectiveServerAddress cfg dec) = Ok (Some local) ∧
        override = IP.To4 local)).
Proof. apply ResolveGiaddr_spec. Qed.

(** C34: a request that was already relayed is forwarded as it is, except that its hop count grows by one:
    giaddr and every option are kept, at most one datagram leaves, to the server, and a forwarding loop
    ends because the hop count reaches the limit. *)
Theorem relayed_request_forwarded `{Gopacket} `{Host} (cfg : HandleOptions) (dec : option Decision)
    (s : st) :
  0 ≤ RelayHops (msg s) < MaxHops cfg → MaxHops cfg ≤ 255 →
  let m' := set_RelayHops (RelayHops (msg s) + 1) (msg s) in
  ∃ s' new, ForwardRelayedRequest cfg dec s = (s', Ok ()) ∧ msg s' = m' ∧
    sends (tr s') = sends (tr s) ++ new ∧
    match SerializeDHCPv4 m', ResolveUDPAddr (tr s) (EffectiveServerAddress cfg dec) with
    | Ok buf, Ok to => new = [UDPWrite to DHCPv4ServerPort buf]
    | _, _ => new = []
    end ∧
    MaxHops cfg - RelayHops m' < MaxHops cfg - RelayHops (msg s).
Proof.
  intros Hh Hmax m'. unfold ForwardRelayedRequest. run_M.
  rewrite (proj2 (Z.leb_gt (MaxHops cfg) (RelayHops (msg s)))), u8_small by lia.
  fold m'. destruct (RelayToServer_run (EffectiveServerAddress cfg dec) (mkSt (tr s) m' (cache s)))
    as (s' & r & new & -> & Hm & _ & Ht & Hnew). cbn [msg tr] in *.
  assert (Hnew' : match SerializeDHCPv4 m', ResolveUDPAddr (tr s) (EffectiveServerAddress cfg dec) with
    | Ok buf, Ok to => new = [UDPWrite to DHCPv4ServerPort buf] | _, _ => new = [] end)
    by (destruct (SerializeDHCPv4 m'); [destruct (ResolveUDPAddr (tr s) (EffectiveServerAddress cfg dec))|];
        try done; by destruct Hnew).
  destruct r as [[]|e]; eexists _, new; (split; [done|]); cbn [msg tr]; autorewrite with sends;
    repeat (split; [done|]); simpl; lia.
Qed.

(** ** Witnesses *)

Module RequestExample.

Definition cfg : HandleOptions :=
  {| LinkMap := Some (λ name _, if bool_decide (name = lit "eth1") then Some [10; 1; 2; 0] else None);
     DHCPServerAddress := lit "10.0.0.9"; Giaddr := []; MaxHops := 16;
     BroadcastReplyL2Unicast := false; ReplyTTL := 1 |}.

Definition dec : Decision :=
  {| ServerAddress := []; PolicyTag := [2; 0; 0; 0; 0; 1]; ReplyNICMatch := None; ReplySubOpts := [];
     DropReply := false |}.

Definition discover : DHCPv4 :=
  {| Operation := 1; HardwareType := 1; HardwareLen := 6; RelayHops := 0; Xid := 7; Flags := 0;
     ClientIP := [0; 0; 0; 0]; YourClientIP := [0; 0; 0; 0]; RelayAgentIP := [0; 0; 0; 0];
     ClientHWAddr := [2; 0; 0; 0; 0; 1]; File := []; Options := [mkOption 53 1 [1]]; Rest := [] |}.

Definition s0 : st := mkSt [] discover None.

Definition nets : list IPNet := [TestHost.net24 192 168 50 1; TestHost.net24 192 168 51 1].

End RequestExample.

Lemma request_relayed_per_giaddr_witness :
  let m' := @relayed_request TestPacket.test_gopacket RequestExample.discover
              (request_subs (Some RequestExample.dec) 2 []) in
  ∃ s' r new,
    @HandleGenericRequest TestPacket.test_gopacket TestHost.test_host RequestExample.cfg
      (Some RequestExample.dec) 2 RequestExample.s0 = (s', r) ∧
    sends (tr s') = [] ++ new ∧ r = Ok () ∧
    new = map (λ g, UDPWrite [10; 0; 0; 9] DHCPv4ServerPort
                      (TestPacket.serialize (set_RelayAgentIP g m')))
            (giaddrs RequestExample.nets []).
Proof.
  intros m'.
  destruct (@request_relayed_per_giaddr TestPacket.test_gopacket TestPacket.test_gopacket_laws
    TestHost.test_host RequestExample.cfg (Some RequestExample.dec) 2 RequestExample.s0
    RequestExample.nets [] []) as (s' & r & new & E & Ht & _ & Hok).
  - cbn. lia.
  - cbn. lia.
  - vm_compute. reflexivity.
  - left. reflexivity.
  - exists s', r, new. split; [exact E|]. split; [exact Ht|].
    apply (Hok (λ g, TestPacket.serialize (set_RelayAgentIP g m'))); [reflexivity|].
    intros t. vm_compute. reflexivity.
Defined.

Lemma request_option82_readback_witness :
  ∃ s' r, @HandleGenericRequest TestPacket.test_gopacket TestHost.test_host RequestExample.cfg
            (Some RequestExample.dec) 3 RequestExample.s0 = (s', r) ∧
    let subs := DecodeRelayAgentInformationOption (GetRelayAgentInformationOption (msg s')) in
    ExtractAgentCircuitIDSubOptionData subs = 3 ∧ ExtractLinkSelectionSubOptionData subs = [10; 1; 2; 0] ∧
    RelayHops (msg s') = 1.
Proof.
  destruct (@request_option82_readback TestPacket.test_gopacket TestPacket.test_gopacket_laws
    TestHost.test_host RequestExample.cfg (Some RequestExample.dec) 3 RequestExample.s0 [] [10; 0; 0; 2]
    [10; 1; 2; 0]) as (s' & r & new & E & _ & _ & H1 & H2 & _ & _ & H3 & _).
  - cbn. lia.
  - cbn. lia.
  - lia.
  - vm_compute. reflexivity.
  - right. reflexivity.
  - exists s', r. split; [exact E|]. split; [exact H1|]. split; [exact H2|exact H3].
Defined.

Lemma giaddr_resolution_correct_witness :
  @ResolveGiaddr TestHost.test_host RequestExample.cfg None 3 = Ok ([], [10; 0; 0; 2], [10; 1; 2; 0]) ∧
  Forall (λ g, IsGlobalUnicastIPv4 g = true) (giaddrs [] [10; 0; 0; 2]).
Proof.
  split; [vm_compute; reflexivity|].
  destruct (@giaddr_resolution_correct TestHost.test_host RequestExample.cfg None 3 [] [10; 0; 0; 2]
    [10; 1; 2; 0]) as (_ & _ & Hg & _).
  - split; [left; reflexivity|]. intros lookup name mac subnet Hlm Hs. injection Hlm as <-. simpl in Hs.
    destruct (bool_decide (name = lit "eth1")); [|discriminate]. injection Hs as <-. reflexivity.
  - vm_compute. reflexivity.
  - exact Hg.
Defined.

Lemma relayed_request_forwarded_witness :
  ∃ s' new,
    @ForwardRelayedRequest TestPacket.test_gopacket TestHost.test_host RequestExample.cfg None
      RequestExample.s0 = (s', Ok ()) ∧
    RelayHops (msg s') = 1 ∧ sends (tr s') = [] ++ new.
Proof.
  destruct (@relayed_request_forwarded TestPacket.test_gopacket TestHost.test_host RequestExample.cfg
    None RequestExample.s0) as (s' & new & E & Hm & Ht & _).
  - cbn. lia.
  - cbn. lia.
  - exists s', new. split; [exact E|]. rewrite Hm. split; [reflexivity|exact Ht].
Defined.
