(* ===== verification/Reply.v ===== *)
(** * The reply path: [pkg/dhcp4/reply.go] and [random.go].

    A server reply is stripped of relay state and framed out of the ingress interface its circuit id
    names, or of the interfaces the policy selects; a reply for another relay is forwarded to it. *)

From S2P Require Import Prelude GoStrings GoNet Specs Layers DhcpOptions Option82 Bpf Sockets Host.
From S2P Require Import Addrs IfCache Request.

(** [ReplyType]: the two named values and any other. *)
Inductive ReplyType := UnicastReply | BroadcastReply | OtherReply.

#[global] Instance ReplyType_eq_dec : EqDecision ReplyType.
Proof. solve_decision. Defined.

Definition ETH_P_ALL : Z := 3.

(** An interface that can carry an Ethernet reply. *)
Definition can_carry (ni : Interface) : bool :=
  negb (Z.land (IfFlags ni) FlagUp =? 0) && negb (len (HardwareAddr ni) =? 0).

Fixpoint select_interfaces (match_ : bytes → bytes → bool) (ifaces : list Interface) : list Interface :=
  match ifaces with
  | [] => []
  | ni :: ifaces =>
      if (Z.land (IfFlags ni) FlagUp =? 0) || (len (HardwareAddr ni) =? 0) then
        select_interfaces match_ ifaces
      else if match_ (Name ni) (HardwareAddr.String (HardwareAddr ni)) then
        ni :: select_interfaces match_ ifaces
      else select_interfaces match_ ifaces
  end.

Definition SelectReplyInterfaces (match_ : option (bytes → bytes → bool)) (ifaces : list Interface) :
    list Interface :=
  match match_ with
  | None => []
  | Some f => select_interfaces f ifaces
  end.

(** [ReplyAddressing]: the addresses of the IPv4 layer, the Ethernet destination and the flags. *)
Definition ReplyAddressing (replyType : ReplyType) (srcIP : bytes) (m : DHCPv4) (layerIPv4 : IPv4)
    (broadcastL2Unicast : bool) : result (bytes * IPv4 * DHCPv4) :=
  match replyType with
  | UnicastReply =>
      let l := set_SrcIP (IP.To4 srcIP) layerIPv4 in
      let yi := IP.To4 (YourClientIP m) in
      let dstIP := if bool_decide (yi = []) || IP.IsUnspecified yi then IP.To4 (ClientIP m) else yi in
      if bool_decide (dstIP = []) then Err "invalid client IP address for unicast reply"
      else Ok (ClientHWAddr m, set_DstIP dstIP l, clear_broadcast m)
  | BroadcastReply =>
      let l := set_DstIP IP.IPv4bcast (set_SrcIP IP.IPv4zero layerIPv4) in
      Ok (if broadcastL2Unicast then ClientHWAddr m else EthernetBroadcast, l, set_broadcast m)
  | OtherReply => Err "unsupported reply type"
  end.

Section reply.
Context `{Gopacket} `{Host}.

(** [GenerateRandomIPv4ID]: two random bytes, big endian. *)
Definition GenerateRandomIPv4ID : Z := u16 RandomID.

(** [ReplyTargets]. *)
Definition ReplyTargets (match_ : option (bytes → bytes → bool)) (ingress : Interface) :
    M (list Interface) :=
  match match_ with
  | None => mret [ingress]
  | Some f =>
      oc ← get_cache;
      match oc with
      | None => emit (Log Error "Reply NIC match has no interface cache, using ingress") ;; mret [ingress]
      | Some c =>
          let '(c, (ifaces, err)) := InterfaceCache_Interfaces c in
          put_cache c ;;
          (match err with
           | Some _ =>
               if 0 <? len ifaces then emit (Log Error "Reply NIC enumeration degraded to a stale snapshot")
               else mret ()
           | None => mret ()
           end) ;;
          if len ifaces =? 0 then
            emit (Log Error "Reply NIC enumeration failed, using ingress") ;; mret [ingress]
          else
            let matched := SelectReplyInterfaces (Some f) ifaces in
            if len matched =? 0 then
              emit (Log Error "Reply NIC match selected no live interface, using ingress") ;;
              mret [ingress]
            else
              (if negb (existsb (λ ni, Index ni =? Index ingress) matched) then
                 emit (Log Warn "Reply NIC match does not include the ingress")
               else mret ()) ;;
              mret matched
      end
  end.

(** [SendReply]: one frame out of [nic]. *)
Definition SendReply (nic : Interface) (dstMAC : bytes) (layerIPv4 : IPv4) (layerUDP : UDP) : M unit :=
  if len (HardwareAddr nic) =? 0 then fail "interface has no hardware address for L2 framing"
  else
    m ← get_msg;
    let layerEthernet :=
      {| SrcMAC := HardwareAddr nic; DstMAC := dstMAC; EthernetType := EthernetTypeIPv4 |} in
    buffer ← lift (wrap "layer encoding error: " (SerializeFrame layerEthernet layerIPv4 layerUDP m));
    sa ← lift (wrap "socket write error: "
                 (setLinkLayerAddr (new_sockaddr (Htons little_endian ETH_P_ALL) (Index nic))
                    (HardwareAddr nic)));
    t ← get_trace;
    let hw := take (Z.to_nat (sa_Halen sa)) (sa_Addr sa) in
    emit (FrameWrite (sa_Ifindex sa) hw buffer) ;;
    lift (wrap "socket write error: " (RawSendto t (sa_Ifindex sa) hw buffer)) ;;
    emit (Log Debug "Sent bytes of data to socket") ;;
    emit (Log Info "<--").

(** The source address of the copy out of [nic]; the IPv4 layer is shared by all copies, so an
    address set for one copy stays set unless the next one replaces it. *)
Definition copy_source (replyType : ReplyType) (ingress nic : Interface) (srcIP yiaddr : bytes)
    (l : IPv4) : result IPv4 :=
  if bool_decide (replyType = UnicastReply) && negb (Index nic =? Index ingress) then
    match wrap "interface address lookup error: " (InterfaceGlobalUnicastAddrs4 nic) with
    | Err e => Err e
    | Ok addrs =>
        if len addrs =? 0 then Err "no IPv4 address for a unicast reply copy"
        else Ok (set_SrcIP (BestUnicastSrc addrs yiaddr) l)
    end
  else if bool_decide (replyType = UnicastReply) then Ok (set_SrcIP srcIP l)
  else Ok l.

(** The loop over the targets: the errors of the copies are collected. *)
Fixpoint send_copies (replyType : ReplyType) (ingress : Interface) (srcIP dstMAC : bytes)
    (l : IPv4) (u : UDP) (targets : list Interface) : M (list string) :=
  match targets with
  | [] => mret []
  | nic :: targets =>
      m ← get_msg;
      match copy_source replyType ingress nic srcIP (YourClientIP m) l with
      | Err e =>
          errs ← send_copies replyType ingress srcIP dstMAC l u targets;
          mret (e :: errs)
      | Ok l =>
          r ← attempt (SendReply nic dstMAC l u);
          errs ← send_copies replyType ingress srcIP dstMAC l u targets;
          mret (match r with Err e => e :: errs | Ok _ => errs end)
      end
  end.

(** [HandleGenericReply].  [SetNetworkLayerForChecksum] does not fail for an IPv4 layer. *)
Definition HandleGenericReply (cfg : HandleOptions) (dec : option Decision) (replyType : ReplyType) :
    M unit :=
  let dec := default zero_decision dec in
  if DropReply dec then emit (Log Debug "Dropping DHCPv4 reply (reply blackhole)")
  else
    m ← get_msg;
    let srcIP := IP.To4 (RelayAgentIP m) in
    if bool_decide (srcIP = []) || IP.IsLoopback srcIP || IP.Equal srcIP IP.IPv4zero ||
       IP.Equal srcIP IP.IPv4bcast
    then fail "invalid Relay Agent address value"
    else
      subOpts ←
        (if bool_decide (ReplySubOpts dec = []) then
           let opt82 := GetRelayAgentInformationOption m in
           if negb (IsOption opt82) then fail "no Relay Agent Information"
           else mret (DecodeRelayAgentInformationOption opt82)
         else mret (ReplySubOpts dec));
      if len subOpts =? 0 then fail "no Relay Agent Information"
      else
        for_each subOpts (λ _, emit (Log Debug "Option 82 -> Sub-option")) ;;
        let ifIndex := ExtractAgentCircuitIDSubOptionData subOpts in
        if ifIndex =? 0 then fail "invalid Agent Circuit ID sub-option value"
        else
          ifi ← lift (wrap "invalid interface data in Agent Circuit ID: " (InterfaceByIndex ifIndex));
          if (Z.land (IfFlags ifi) FlagUp =? 0) || (len (HardwareAddr ifi) =? 0) then
            fail "ingress interface is down or has no hardware address"
          else
            let layerIPv4 :=
              {| ip_Version := IPv4Version; ip_IHL := 0; ip_Id := GenerateRandomIPv4ID;
                 ip_Flags := IPv4DontFragment; ip_FragOffset := 0; ip_TTL := ReplyTTL cfg;
                 ip_Protocol := IPProtocolUDP; ip_SrcIP := []; ip_DstIP := [] |} in
            let layerUDP := {| udp_SrcPort := DHCPv4ServerPort; udp_DstPort := DHCPv4ClientPort |} in
            let m := set_RelayAgentIP [] (DeleteRelayAgentInformationOption m) in
            put_msg m ;;
            '(dstMAC, layerIPv4, m) ←
              lift (wrap "reply addressing error: "
                      (ReplyAddressing replyType srcIP m layerIPv4 (BroadcastReplyL2Unicast cfg)));
            put_msg m ;;
            targets ← ReplyTargets (ReplyNICMatch dec) ifi;
            lift (wrap "socket create error: " RawCreate) ;;
            lift (wrap "socket attach BPF error: " RawAttach) ;;
            errs ← send_copies replyType ifi srcIP dstMAC layerIPv4 layerUDP targets;
            lift (errors_Join errs).

(** [ForwardRelayedReply]. *)
Definition ForwardRelayedReply : M unit :=
  m ← get_msg;
  let giaddr := IP.To4 (RelayAgentIP m) in
  if bool_decide (giaddr = []) || IP.IsUnspecified giaddr || IP.IsLoopback giaddr ||
     IP.Equal giaddr IP.IPv4bcast
  then fail "invalid Relay Agent address for reply forwarding"
  else if RelayHops m <? 1 then fail "hop count below minimum for reply forwarding"
  else
    put_msg (set_RelayHops (u8 (RelayHops m - 1)) m) ;;
    RelayToServer (IP.String4 giaddr).

End reply.

(** ** What a reply should become *)

(** The message the client sees: no relay state, and the flag of the chosen addressing. *)
Definition clean_reply (replyType : ReplyType) (m : DHCPv4) : DHCPv4 :=
  let m := set_RelayAgentIP [] (DeleteRelayAgentInformationOption m) in
  if bool_decide (replyType = UnicastReply) then clear_broadcast m else set_broadcast m.

(** Where a unicast reply goes: yiaddr, or ciaddr when yiaddr is unset. *)
Definition reply_dst (m : DHCPv4) : bytes :=
  let yi := IP.To4 (YourClientIP m) in
  if bool_decide (yi = []) || IP.IsUnspecified yi then IP.To4 (ClientIP m) else yi.

(** The sub-options the reply is routed by. *)
Definition reply_subs (dec : option Decision) (m : DHCPv4) : list DHCPOption :=
  let d := default zero_decision dec in
  if bool_decide (ReplySubOpts d = []) then
    let opt82 := GetRelayAgentInformationOption m in
    if negb (IsOption opt82) then [] else DecodeRelayAgentInformationOption opt82
  else ReplySubOpts d.

(** The Ethernet destination. *)
Definition reply_mac (cfg : HandleOptions) (replyType : ReplyType) (m : DHCPv4) : bytes :=
  if bool_decide (replyType = BroadcastReply) && negb (BroadcastReplyL2Unicast cfg)
  then EthernetBroadcast else ClientHWAddr m.

Definition reply_udp : UDP := {| udp_SrcPort := DHCPv4ServerPort; udp_DstPort := DHCPv4ClientPort |}.

(** The IPv4 header of a copy, from its addresses. *)
Definition reply_ip `{Host} (cfg : HandleOptions) (src dst : bytes) : IPv4 :=
  {| ip_Version := IPv4Version; ip_IHL := 0; ip_Id := GenerateRandomIPv4ID; ip_Flags := IPv4DontFragment;
     ip_FragOffset := 0; ip_TTL := ReplyTTL cfg; ip_Protocol := IPProtocolUDP; ip_SrcIP := src;
     ip_DstIP := dst |}.

Definition reply_eth (cfg : HandleOptions) (replyType : ReplyType) (m : DHCPv4) (nic : Interface) :
    Ethernet :=
  {| SrcMAC := HardwareAddr nic; DstMAC := reply_mac cfg replyType m; EthernetType := EthernetTypeIPv4 |}.

(** The source of the copy out of [nic]: the giaddr on the ingress, an address of [nic] elsewhere. *)
Definition good_source `{Host} (ingress nic : Interface) (m : DHCPv4) (src : bytes) : Prop :=
  (Index nic = Index ingress ∧ src = IP.To4 (RelayAgentIP m)) ∨
  (Index nic ≠ Index ingress ∧
   ∃ nets, InterfaceGlobalUnicastAddrs4 nic = Ok nets ∧ nets ≠ [] ∧
           src = BestUnicastSrc nets (YourClientIP m)).

(** An event that sends a correct copy of the reply [m] out of [nic]. *)
Definition reply_copy `{Gopacket} `{Host} (cfg : HandleOptions) (replyType : ReplyType) (m : DHCPv4)
    (ingress nic : Interface) (e : event) : Prop :=
  ∃ src dst frame,
    e = FrameWrite (Index nic) (HardwareAddr nic) frame ∧
    SerializeFrame (reply_eth cfg replyType m nic) (reply_ip cfg src dst) reply_udp
      (clean_reply replyType m) = Ok frame ∧
    match replyType with
    | UnicastReply => dst = reply_dst m ∧ dst ≠ [] ∧ good_source ingress nic m src
    | _ => src = IP.IPv4zero ∧ dst = IP.IPv4bcast
    end.

(** ** Lemmas: targets *)

Lemma select_interfaces_filter g l :
  select_interfaces g l =
  List.filter (λ ni, can_carry ni && g (Name ni) (HardwareAddr.String (HardwareAddr ni))) l.
Proof.
  unfold can_carry. induction l as [|ni l IH]; [done|]. cbn [select_interfaces List.filter].
  rewrite <- negb_orb. destruct (_ || _); simpl; [done|]. destruct (g _ _); simpl; by rewrite IH.
Qed.

Section run.
Context `{Gopacket} `{Host}.

(** The targets are the ingress alone, or a non empty selection of live interfaces the match accepts. *)
Definition good_targets (match_ : option (bytes → bytes → bool)) (ingress : Interface)
    (targets : list Interface) : Prop :=
  targets = [ingress] ∨
  (targets ≠ [] ∧ ∃ g, match_ = Some g ∧
     Forall (λ ni, can_carry ni = true ∧ g (Name ni) (HardwareAddr.String (HardwareAddr ni)) = true)
       targets).

Lemma select_interfaces_good g l :
  Forall (λ ni, can_carry ni = true ∧ g (Name ni) (HardwareAddr.String (HardwareAddr ni)) = true)
    (select_interfaces g l).
Proof.
  rewrite select_interfaces_filter. apply Forall_forall. intros ni Hin.
  apply list_elem_of_In, filter_In in Hin as [_ Hin]. by apply andb_true_iff.
Qed.

Lemma ReplyTargets_run match_ ingress s :
  ∃ s' targets, ReplyTargets match_ ingress s = (s', Ok targets) ∧ msg s' = msg s ∧
    sends (tr s') = sends (tr s) ∧ good_targets match_ ingress targets ∧
    (match_ = None → targets = [ingress]).
Proof.
  unfold ReplyTargets. destruct match_ as [g|].
  2: { eexists _, _. split; [done|]. repeat split; by left. }
  run_M. destruct (cache s) as [c|].
  2: { eexists _, _. split; [done|]. cbn [tr msg]. autorewrite with sends. repeat split; try done. by left. }
  destruct (InterfaceCache_Interfaces c) as [c' [ifs err]].
  set (s1 := mkSt (tr s) (msg s) (Some c')).
  assert (Hlog : ∃ s2, (match err with
            | Some _ => if 0 <? len ifs then emit (Log Error "Reply NIC enumeration degraded to a stale snapshot")
                        else mret ()
            | None => mret ()
            end) s1 = (s2, Ok ()) ∧ msg s2 = msg s ∧ sends (tr s2) = sends (tr s)).
  { destruct err; [destruct (0 <? len ifs)|]; run_M; eexists; (split; [done|]); cbn [tr msg];
      by autorewrite with sends. }
  destruct Hlog as (s2 & E2 & Hm2 & Ht2). revert E2. run_M. intros ->.
  destruct (len ifs =? 0).
  { eexists _, _. split; [done|]. cbn [tr msg]. autorewrite with sends. repeat split; try done. by left. }
  cbn [SelectReplyInterfaces]. destruct (len (select_interfaces g ifs) =? 0) eqn:El.
  { eexists _, _. split; [done|]. cbn [tr msg]. autorewrite with sends. repeat split; try done. by left. }
  destruct (negb _); (eexists _, _; split; [done|]; cbn [tr msg]; autorewrite with sends;
    repeat split; try done; right; split;
    [ intros E; rewrite E in El; done | exists g; split; [done|apply select_interfaces_good] ]).
Qed.

(** ** Lemmas: one copy *)

Definition nic_eth (nic : Interface) (dstMAC : bytes) : Ethernet :=
  {| SrcMAC := HardwareAddr nic; DstMAC := dstMAC; EthernetType := EthernetTypeIPv4 |}.

Lemma SendReply_run nic dstMAC l u s :
  ∃ s' r new, SendReply nic dstMAC l u s = (s', r) ∧ msg s' = msg s ∧ cache s' = cache s ∧
    sends (tr s') = sends (tr s) ++ new ∧
    (new = [] ∨ ∃ frame, SerializeFrame (nic_eth nic dstMAC) l u (msg s) = Ok frame ∧
       new = [FrameWrite (Index nic) (HardwareAddr nic) frame]) ∧
    (∀ frame, HardwareAddr nic ≠ [] → len (HardwareAddr nic) ≤ sa_capacity →
       SerializeFrame (nic_eth nic dstMAC) l u (msg s) = Ok frame →
       new = [FrameWrite (Index nic) (HardwareAddr nic) frame]).
Proof.
  unfold SendReply.
  destruct (Z.eqb_spec (len (HardwareAddr nic)) 0) as [E%len_zero|E].
  { run_M. eexists _, _, []. split; [done|]. rewrite app_nil_r. repeat split; [by left|done]. }
  assert (Hne : HardwareAddr nic ≠ []) by (by rewrite <- len_zero).
  run_M. fold (nic_eth nic dstMAC).
  destruct (SerializeFrame (nic_eth nic dstMAC) l u (msg s)) as [frame|e] eqn:Es; run_M.
  2: { eexists _, _, []. split; [done|]. rewrite app_nil_r. repeat split; [by left|done]. }
  destruct (decide (len (HardwareAddr nic) ≤ sa_capacity)) as [Hl|Hl].
  2: { destruct (setLinkLayerAddr _ _) as [sa|e] eqn:Esa.
       - exfalso. apply Hl. by eapply setLinkLayerAddr_fits.
       - run_M. eexists _, _, []. split; [done|]. rewrite app_nil_r. repeat split; [by left|done]. }
  rewrite setLinkLayerAddr_ok by done. cbn [sa_Halen sa_Addr sa_Ifindex].
  rewrite Nat2Z.id, take_app_len.
  destruct (RawSendto _ _ _ _); run_M; eexists _, _, [FrameWrite (Index nic) (HardwareAddr nic) frame];
    (split; [done|]; cbn [tr msg cache]; autorewrite with sends;
     split; [done|]; split; [done|]; split; [done|]; split;
     [ right; by exists frame | by intros frame' _ _ [= <-] ]).
Qed.

(** ** Lemmas: all copies *)

(** A target whose copy cannot fail before the frame is written. *)
Definition sendable (cfg : HandleOptions) (replyType : ReplyType) (m : DHCPv4) (ingress nic : Interface) :
    Prop :=
  HardwareAddr nic ≠ [] ∧ len (HardwareAddr nic) ≤ sa_capacity ∧
  (∀ src dst, ∃ frame, SerializeFrame (reply_eth cfg replyType m nic) (reply_ip cfg src dst) reply_udp
                        (clean_reply replyType m) = Ok frame) ∧
  (Index nic ≠ Index ingress →
   ∃ nets, InterfaceGlobalUnicastAddrs4 nic = Ok nets ∧ nets ≠ []).

(** The frames of a loop are those of a subsequence of the targets that has every sendable one. *)
Definition copies_sent (cfg : HandleOptions) (replyType : ReplyType) (m : DHCPv4) (ingress : Interface)
    (targets : list Interface) (new : trace) : Prop :=
  ∃ sub, sub `sublist_of` targets ∧ Forall2 (reply_copy cfg replyType m ingress) sub new ∧
    (∀ nic, nic ∈ targets → sendable cfg replyType m ingress nic → nic ∈ sub).

(** The addresses of the shared IPv4 layer that every copy starts from. *)
Definition good_addresses (replyType : ReplyType) (m : DHCPv4) (src dst : bytes) : Prop :=
  (replyType = UnicastReply ∧ dst = reply_dst m ∧ dst ≠ []) ∨
  (replyType = BroadcastReply ∧ src = IP.IPv4zero ∧ dst = IP.IPv4bcast).

Lemma clean_reply_yiaddr replyType m : YourClientIP (clean_reply replyType m) = YourClientIP m.
Proof. unfold clean_reply. by case_bool_decide. Qed.

Lemma copy_source_spec cfg replyType m ingress nic src dst :
  good_addresses replyType m src dst →
  (∃ src', copy_source replyType ingress nic (IP.To4 (RelayAgentIP m)) (YourClientIP m)
             (reply_ip cfg src dst) = Ok (reply_ip cfg src' dst) ∧
     good_addresses replyType m src' dst ∧
     match replyType with
     | UnicastReply => dst = reply_dst m ∧ dst ≠ [] ∧ good_source ingress nic m src'
     | _ => src' = IP.IPv4zero ∧ dst = IP.IPv4bcast
     end) ∨
  (¬ sendable cfg replyType m ingress nic ∧
   ∃ e, copy_source replyType ingress nic (IP.To4 (RelayAgentIP m)) (YourClientIP m)
          (reply_ip cfg src dst) = Err e).
Proof.
  intros [(-> & Hdst & Hne)|(-> & Hsrc & Hdst)]; unfold copy_source; cbn.
  - destruct (Z.eqb_spec (Index nic) (Index ingress)) as [Ei|Ei]; cbn.
    { left. eexists. split; [done|]. split; [by left|]. split; [done|]. split; [done|]. by left. }
    destruct (InterfaceGlobalUnicastAddrs4 nic) as [nets|e] eqn:En; cbn.
    2: { right. split; [|eauto]. intros (_ & _ & _ & Hs). destruct (Hs Ei) as (? & ? & _). congruence. }
    destruct (Z.eqb_spec (len nets) 0) as [Ez%len_zero|Ez].
    { right. split; [|eauto]. intros (_ & _ & _ & Hs). destruct (Hs Ei) as (? & ? & ?). congruence. }
    left. eexists. split; [done|]. split; [by left|]. split; [done|]. split; [done|]. right.
    split; [done|]. exists nets. split; [done|]. split; [|done]. by intros ->.
  - left. exists src. split; [done|]. split; [by right|]. done.
Qed.

Lemma send_copies_run cfg replyType m ingress targets : ∀ src dst s,
  msg s = clean_reply replyType m → good_addresses replyType m src dst →
  ∃ s' errs new,
    send_copies replyType ingress (IP.To4 (RelayAgentIP m)) (reply_mac cfg replyType m)
      (reply_ip cfg src dst) reply_udp targets s = (s', Ok errs) ∧
    msg s' = msg s ∧ sends (tr s') = sends (tr s) ++ new ∧
    copies_sent cfg replyType m ingress targets new.
Proof.
  induction targets as [|nic targets IH]; intros src dst s Hm Hgood; cbn [send_copies].
  { eexists _, _, []. split; [done|]. split; [done|]. split; [by rewrite app_nil_r|].
    exists []. split; [done|]. split; [done|]. by intros nic ?%elem_of_nil. }
  run_M. rewrite Hm, clean_reply_yiaddr.
  destruct (copy_source_spec cfg replyType m ingress nic src dst Hgood)
    as [(src' & -> & Hgood' & Hrt)|(Hns & e & ->)].
  - destruct (SendReply_run nic (reply_mac cfg replyType m) (reply_ip cfg src' dst) reply_udp s)
      as (s1 & r & new1 & E1 & Hm1 & _ & Ht1 & Hn1 & Hok1). rewrite E1.
    destruct (IH src' dst s1) as (s2 & errs & new2 & E2 & Hm2 & Ht2 & sub & Hsub & Hall & Hin);
      [congruence|done|]. rewrite E2. eexists _, _, (new1 ++ new2). split; [done|].
    split; [congruence|]. split; [by rewrite Ht2, Ht1, app_assoc|].
    change (nic_eth nic (reply_mac cfg replyType m)) with (reply_eth cfg replyType m nic) in *.
    rewrite Hm in *. destruct Hn1 as [->|(frame & Hser & ->)].
    + exists sub. split; [by apply sublist_cons|]. split; [done|].
      intros nic' [->|Hnic]%elem_of_cons Hs; [|by apply Hin].
      destruct Hs as (Hne & Hlen & Hser & _). destruct (Hser src' dst) as [frame Hf].
      by specialize (Hok1 frame Hne Hlen Hf).
    + exists (nic :: sub). split; [by apply sublist_skip|]. split.
      * constructor; [|done]. by exists src', dst, frame.
      * intros nic' [->|Hnic]%elem_of_cons Hs; [left|right; by apply Hin].
  - destruct (IH src dst s) as (s2 & errs & new2 & E2 & Hm2 & Ht2 & sub & Hsub & Hall & Hin);
      [done..|]. rewrite E2. eexists _, _, new2. split; [done|]. split; [congruence|]. split; [done|].
    exists sub. split; [by apply sublist_cons|]. split; [done|].
    intros nic' [->|Hnic]%elem_of_cons Hs; [done|by apply Hin].
Qed.

(** ** Lemmas: the handler *)

Lemma log_each_run {A} (l : list A) lvl txt s :
  ∃ s', for_each l (λ _, emit (Log lvl txt)) s = (s', Ok ()) ∧ msg s' = msg s ∧ cache s' = cache s ∧
    sends (tr s') = sends (tr s).
Proof.
  revert s. induction l as [|x l IH]; intros s; cbn [for_each]; [by eexists|]. run_M.
  destruct (IH (mkSt (tr s ++ [Log lvl txt]) (msg s) (cache s))) as (s' & E & Hm & Hc & Ht).
  revert E. run_M. intros ->. exists s'. cbn [tr msg cache] in *. autorewrite with sends in Ht. done.
Qed.

(** The relay address of a reply that this relay delivers. *)
Definition valid_giaddr (m : DHCPv4) : Prop :=
  let srcIP := IP.To4 (RelayAgentIP m) in
  bool_decide (srcIP = []) || IP.IsLoopback srcIP || IP.Equal srcIP IP.IPv4zero ||
  IP.Equal srcIP IP.IPv4bcast = false.

(** Everything the handler checks before it opens a socket. *)
Record deliverable (dec : option Decision) (replyType : ReplyType) (m : DHCPv4) (ifi : Interface) :
    Prop := {
  del_kept : DropReply (default zero_decision dec) = false;
  del_giaddr : valid_giaddr m;
  del_subs : reply_subs dec m ≠ [];
  del_index : ExtractAgentCircuitIDSubOptionData (reply_subs dec m) ≠ 0;
  del_ifi : InterfaceByIndex (ExtractAgentCircuitIDSubOptionData (reply_subs dec m)) = Ok ifi;
  del_up : can_carry ifi = true;
  del_type : replyType ≠ OtherReply;
  del_dst : replyType = UnicastReply → reply_dst m ≠ []
}.

(** The copies of a deliverable reply. *)
Definition delivered (cfg : HandleOptions) (dec : option Decision) (replyType : ReplyType) (m : DHCPv4)
    (ifi : Interface) (new : trace) : Prop :=
  ∃ targets, good_targets (ReplyNICMatch (default zero_decision dec)) ifi targets ∧
    (ReplyNICMatch (default zero_decision dec) = None → targets = [ifi]) ∧
    copies_sent cfg replyType m ifi targets new.

Lemma ReplyAddressing_spec cfg replyType m l :
  replyType ≠ OtherReply → (replyType = UnicastReply → reply_dst m ≠ []) →
  l = reply_ip cfg [] [] →
  ∃ src dst,
    ReplyAddressing replyType (IP.To4 (RelayAgentIP m))
      (set_RelayAgentIP [] (DeleteRelayAgentInformationOption m)) l (BroadcastReplyL2Unicast cfg) =
    Ok (reply_mac cfg replyType m, reply_ip cfg src dst, clean_reply replyType m) ∧
    good_addresses replyType m src dst.
Proof.
  intros Ht Hd ->. unfold good_addresses. destruct replyType; [| |done].
  - specialize (Hd eq_refl). exists (IP.To4 (IP.To4 (RelayAgentIP m))), (reply_dst m).
    split; [|by left]. unfold ReplyAddressing.
    fold (reply_dst (set_RelayAgentIP [] (DeleteRelayAgentInformationOption m))).
    change (reply_dst (set_RelayAgentIP [] (DeleteRelayAgentInformationOption m))) with (reply_dst m).
    by rewrite bool_decide_eq_false_2.
  - exists IP.IPv4zero, IP.IPv4bcast. split; [|by right]. unfold ReplyAddressing, reply_mac.
    by destruct (BroadcastReplyL2Unicast cfg).
Qed.

Lemma ReplyAddressing_err cfg replyType m l :
  ¬ (replyType ≠ OtherReply ∧ (replyType = UnicastReply → reply_dst m ≠ [])) →
  ∃ e, ReplyAddressing replyType (IP.To4 (RelayAgentIP m))
         (set_RelayAgentIP [] (DeleteRelayAgentInformationOption m)) l (BroadcastReplyL2Unicast cfg) = Err e.
Proof.
  intros Hn. destruct replyType; [|exfalso; by apply Hn|by eexists].
  assert (Hd : reply_dst m = []).
  { destruct (decide (reply_dst m = [])) as [|Hne]; [done|]. exfalso. by apply Hn. }
  unfold ReplyAddressing.
  fold (reply_dst (set_RelayAgentIP [] (DeleteRelayAgentInformationOption m))).
  change (reply_dst (set_RelayAgentIP [] (DeleteRelayAgentInformationOption m))) with (reply_dst m).
  rewrite bool_decide_eq_true_2 by done. by eexists.
Qed.

(** Close a branch that returns before the socket is used. *)
Ltac not_sent :=
  eexists _, _, []; (split; [done|]); (split; [cbn [tr]; autorewrite with sends; by rewrite app_nil_r|]);
  left; (split; [done|]); intros [[? D] [? ?]]; destruct D;
  repeat match goal with x := _ : _ |- _ => subst x end; try congruence.

Definition socket_ready : Prop := RawCreate = Ok () ∧ RawAttach = Ok ().

Lemma HandleGenericReply_run cfg dec replyType s :
  ∃ s' r new, HandleGenericReply cfg dec replyType s = (s', r) ∧ sends (tr s') = sends (tr s) ++ new ∧
    (new = [] ∧ ¬ ((∃ ifi, deliverable dec replyType (msg s) ifi) ∧ socket_ready) ∨
     ∃ ifi, deliverable dec replyType (msg s) ifi ∧ delivered cfg dec replyType (msg s) ifi new).
Proof.
  unfold HandleGenericReply.
  destruct (DropReply (default zero_decision dec)) eqn:Edrop; [run_M; not_sent|].
  cbv beta iota zeta. rewrite (bind_ok get_msg _ s s (msg s)) by done. set (m := msg s).
  destruct (bool_decide (IP.To4 (RelayAgentIP m) = []) || _ || _ || _) eqn:Egi.
  { run_M. not_sent. }
  match goal with |- context [(?c ≫= _) s] => assert (Hsubs :
    c s = (s, Ok (reply_subs dec m)) ∨ (reply_subs dec m = [] ∧ ∃ e, c s = (s, Err e))) end.
  { unfold reply_subs. destruct (bool_decide (ReplySubOpts (default zero_decision dec) = [])); [|by left]. cbv zeta.
    destruct (negb (IsOption (GetRelayAgentInformationOption m))); [right; split; [done|by eexists]|by left]. }
  destruct Hsubs as [Hsubs|(Hnil & e & Hsubs)]; [|rewrite (bind_err _ _ _ _ _ Hsubs); not_sent].
  rewrite (bind_ok _ _ _ _ _ Hsubs). clear Hsubs.
  destruct (Z.eqb_spec (len (reply_subs dec m)) 0) as [Ez%len_zero|Ez]; [run_M; not_sent|].
  destruct (log_each_run (reply_subs dec m) Debug "Option 82 -> Sub-option" s) as (s1 & E1 & Hm1 & Hc1 & Ht1).
  rewrite (bind_ok _ _ _ _ _ E1). set (ix := ExtractAgentCircuitIDSubOptionData (reply_subs dec m)) in *.
  rewrite <- Ht1. destruct (Z.eqb_spec ix 0) as [Ei|Ei]; [run_M; not_sent|].
  run_M. destruct (InterfaceByIndex ix) as [ifi|e] eqn:Eifi; run_M; [|not_sent].
  destruct ((Z.land (IfFlags ifi) FlagUp =? 0) || (len (HardwareAddr ifi) =? 0)) eqn:Eup.
  { not_sent. rewrite Eifi in *. simplify_eq. unfold can_carry in *.
    match goal with H : negb _ && negb _ = true |- _ => by rewrite <- negb_orb, Eup in H end. }
  destruct (decide (replyType ≠ OtherReply ∧ (replyType = UnicastReply → reply_dst m ≠ []))) as [[Hty Hdst]|Hn].
  2: { destruct (ReplyAddressing_err cfg replyType m (reply_ip cfg [] []) Hn) as [e He].
       unfold reply_ip in He. rewrite He. not_sent. exfalso. by apply Hn. }
  destruct (ReplyAddressing_spec cfg replyType m _ Hty Hdst eq_refl) as (src & dst & Hra & Hgood).
  unfold reply_ip at 1 in Hra. rewrite Hra.
  assert (Hdel : deliverable dec replyType m ifi).
  { split; try done; [by intros E; rewrite E in Ez|]. unfold can_carry. by rewrite <- negb_orb, Eup. }
  match goal with |- context [ReplyTargets _ _ ?s0] => set (s2 := s0) end.
  destruct (ReplyTargets_run (ReplyNICMatch (default zero_decision dec)) ifi s2) as (s3 & targets & -> & Hm3 & Ht3 & Hgt & Hdef).
  destruct RawCreate as [[]|e] eqn:Erc; [|not_sent; by rewrite Ht3].
  destruct RawAttach as [[]|e] eqn:Era; [|not_sent; by rewrite Ht3].
  destruct (send_copies_run cfg replyType m ifi targets src dst s3) as (s4 & errs & new & E4 & _ & Ht4 & Hcs);
    [by rewrite Hm3|done|]. unfold reply_udp in E4. rewrite E4.
  assert (Hout : sends (tr s4) = sends (tr s1) ++ new) by (by rewrite Ht4, Ht3).
  destruct errs; eexists _, _, new; (split; [done|]; split; [done|]; right; exists ifi; split; [done|]);
    by exists targets.
Qed.

End run.

(** ** Lemmas: consequences *)

Lemma delivered_default `{Gopacket} `{Host} cfg dec replyType m ifi new :
  delivered cfg dec replyType m ifi new → ReplyNICMatch (default zero_decision dec) = None →
  sendable cfg replyType m ifi ifi →
  ∃ e, new = [e] ∧ reply_copy cfg replyType m ifi ifi e.
Proof.
  intros (targets & _ & Hdef & sub & Hsub & Hall & Hin) Hnone Hs. specialize (Hdef Hnone) as ->.
  specialize (Hin ifi ltac:(left) Hs).
  assert (sub = [ifi]) as ->.
  { pose proof (sublist_length _ _ Hsub) as Hlen. simpl in Hlen.
    destruct sub as [|x [|y sub]]; [by apply elem_of_nil in Hin| |simpl in Hlen; lia].
    apply list_elem_of_singleton in Hin. by subst. }
  apply Forall2_cons_inv_l in Hall as (e & new' & He & Hn & ->). apply Forall2_nil_inv_l in Hn as ->.
  by exists e.
Qed.

Lemma clean_reply_options replyType m :
  Options (clean_reply replyType m) = delete_type RelayAgentInformation (Options m).
Proof. unfold clean_reply. by case_bool_decide. Qed.

(** ** Properties *)

(** C4: a reply is sent only when everything needed to route it back was checked, and then only as
    correct copies: the reply is not dropped by policy, its giaddr is usable, Option 82 decodes, the
    circuit id names an interface that is up; the targets are the ingress alone or live interfaces the
    policy accepts; and each frame is the cleaned message with the right Ethernet, IPv4 and UDP headers
    for its target, at most one per target, whose failure does not stop the others. *)
Theorem reply_copies_correct `{Gopacket} `{Host} (cfg : HandleOptions) (dec : option Decision)
    (replyType : ReplyType) (s : st) :
  ∃ s' r new, HandleGenericReply cfg dec replyType s = (s', r) ∧ sends (tr s') = sends (tr s) ++ new ∧
    (new = [] ∧ ¬ ((∃ ifi, deliverable dec replyType (msg s) ifi) ∧ socket_ready) ∨
     ∃ ifi targets sub, deliverable dec replyType (msg s) ifi ∧
       good_targets (ReplyNICMatch (default zero_decision dec)) ifi targets ∧
       sub `sublist_of` targets ∧ Forall2 (reply_copy cfg replyType (msg s) ifi) sub new ∧
       (∀ nic, nic ∈ targets → sendable cfg replyType (msg s) ifi nic → nic ∈ sub)).
Proof.
  destruct (HandleGenericReply_run cfg dec replyType s) as (s' & r & new & E & Ht & Hc).
  exists s', r, new. split; [done|]. split; [done|]. destruct Hc as [Hc|(ifi & Hd & targets & Hg & _ & sub & Hs)];
    [by left|right]. by exists ifi, targets, sub.
Qed.

(** the client sees a clean reply: no Option 82, no giaddr, every other option as the server sent it,
    and the broadcast flag that matches the addressing. *)
Theorem reply_clean (replyType : ReplyType) (m : DHCPv4) :
  GetOption (clean_reply replyType m) RelayAgentInformation = zero_option ∧
  (∀ o, o ∈ Options (clean_reply replyType m) ↔ o ∈ Options m ∧ opt_Type o ≠ RelayAgentInformation) ∧
  (∀ t, t ≠ RelayAgentInformation → GetOption (clean_reply replyType m) t = GetOption m t) ∧
  RelayAgentIP (clean_reply replyType m) = [] ∧
  YourClientIP (clean_reply replyType m) = YourClientIP m ∧
  Xid (clean_reply replyType m) = Xid m ∧
  IsUnicast (Some (clean_reply replyType m)) = bool_decide (replyType = UnicastReply).
Proof.
  split; [|split; [|split]].
  - unfold GetOption. by rewrite clean_reply_options, find_first_delete_eq.
  - intros o. rewrite clean_reply_options. apply elem_of_delete_type.
  - intros t Ht. unfold GetOption. by rewrite clean_reply_options, find_first_delete_ne.
  - unfold clean_reply. case_bool_decide; rewrite IsUnicast_bit, ?clear_broadcast_bit, ?set_broadcast_bit;
      repeat split; cbn; by rewrite ?andb_false_r, ?orb_true_r.
Qed.

(** C2: without a policy for its way back a reply leaves through the interface its request came in on.  If a
    server echoes the Option 82 of a relayed request, the policy neither drops the reply nor selects other
    interfaces for it, the ingress interface is still there and up, the giaddr and the client address are
    usable, the frame serialises and the raw socket can be opened, then the reply handler finds the ingress
    index in the option and sends exactly one frame, out of that interface. *)
Theorem reply_returns_to_ingress `{GopacketLaws} `{Host} (cfg : HandleOptions)
    (dec rdec : option Decision) (replyType : ReplyType) (m : DHCPv4) (s : st) (ifIndex : Z)
    (link : bytes) (ifi : Interface) :
  0 < ifIndex < 2 ^ 31 → good_link link →
  GetRelayAgentInformationOption (msg s) =
    GetRelayAgentInformationOption (relayed_request m (request_subs dec ifIndex link)) →
  InterfaceByIndex ifIndex = Ok ifi → can_carry ifi = true →
  DropReply (default zero_decision rdec) = false → ReplyNICMatch (default zero_decision rdec) = None →
  (ReplySubOpts (default zero_decision rdec) = [] ∨
   ReplySubOpts (default zero_decision rdec) =
     DecodeRelayAgentInformationOption (GetRelayAgentInformationOption (msg s))) →
  valid_giaddr (msg s) → replyType ≠ OtherReply → (replyType = UnicastReply → reply_dst (msg s) ≠ []) →
  sendable cfg replyType (msg s) ifi ifi → socket_ready →
  ∃ s' r e, HandleGenericReply cfg rdec replyType s = (s', r) ∧ sends (tr s') = sends (tr s) ++ [e] ∧
    reply_copy cfg replyType (msg s) ifi ifi e.
Proof.
  intros Hi Hl Heq Hifi Hup Hdrop Hnone Hsub Hgi Hty Hdst Hs Hsock.
  destruct (request_subs_wf dec ifIndex link Hl) as (Hne & Hall & Hlen).
  destruct (Get_Set_relay_info m _ Hall Hne Hlen) as [Hopt Hdec].
  change (GetRelayAgentInformationOption (SetOption m _)) with
    (GetRelayAgentInformationOption (relayed_request m (request_subs dec ifIndex link))) in Hopt, Hdec.
  rewrite <- Heq in Hopt, Hdec.
  assert (Hsubs : reply_subs rdec (msg s) = request_subs dec ifIndex link).
  { unfold reply_subs. rewrite Hopt, <- Hdec. cbn [negb].
    case_bool_decide; [done|]. by destruct Hsub. }
  destruct (request_subs_extract dec ifIndex link Hi Hl) as (Hix & _).
  destruct (HandleGenericReply_run cfg rdec replyType s) as (s' & r & new & E & Ht & Hc).
  assert (Hd : deliverable rdec replyType (msg s) ifi).
  { split; rewrite ?Hsubs, ?Hix; try done; lia. }
  destruct Hc as [[_ Hc]|(ifi' & Hd' & Hdel)]; [exfalso; apply Hc; eauto|].
  assert (ifi' = ifi) as -> by (pose proof (del_ifi _ _ _ _ Hd'); pose proof (del_ifi _ _ _ _ Hd); congruence).
  destruct (delivered_default _ _ _ _ _ _ Hdel Hnone Hs) as (e & -> & He). by exists s', r, e.
Qed.

(** C33: a reply for a downstream relay is forwarded to its giaddr as it came, with one hop less: at most
    one datagram leaves, to that address on the server port; a giaddr that cannot be a relay or a hop
    count of zero is refused without effect, so a reply that loops drains after at most its hop count. *)
Theorem reply_forwarded `{Gopacket} `{Host} (s : st) :
  let g := IP.To4 (RelayAgentIP (msg s)) in
  let bad := bool_decide (g = []) || IP.IsUnspecified g || IP.IsLoopback g || IP.Equal g IP.IPv4bcast in
  0 ≤ RelayHops (msg s) < 256 →
  (bad = true ∨ RelayHops (msg s) = 0 → ∃ e, ForwardRelayedReply s = (s, Err e)) ∧
  (bad = false → 0 < RelayHops (msg s) →
   let m' := set_RelayHops (RelayHops (msg s) - 1) (msg s) in
   ∃ s' r new, ForwardRelayedReply s = (s', r) ∧ msg s' = m' ∧
     sends (tr s') = sends (tr s) ++ new ∧
     match SerializeDHCPv4 m', ResolveUDPAddr (tr s) (IP.String4 g) with
     | Ok buf, Ok to => new = [UDPWrite to DHCPv4ServerPort buf]
     | _, _ => new = [] ∧ is_ok r = false
     end).
Proof.
  intros g bad Hh. unfold ForwardRelayedReply. run_M. fold g. fold bad. split.
  - intros [Hb|Hz]; [rewrite Hb; eauto|]. destruct bad; [eauto|]. rewrite Hz. cbn. eauto.
  - intros Hb Hpos. set (m' := set_RelayHops (RelayHops (msg s) - 1) (msg s)). rewrite Hb, (proj2 (Z.ltb_ge (RelayHops (msg s)) 1)), u8_small by lia. fold m'.
    destruct (RelayToServer_run (IP.String4 g) (mkSt (tr s) m' (cache s)))
      as (s' & r & new & -> & Hm & _ & Ht & Hnew). by exists s', r, new.
Qed.

(** ** Witnesses *)

Module ReplyExample.

(** The offer a server sends for [RequestExample.discover] received on eth1. *)
Definition offer : DHCPv4 :=
  {| Operation := 2; HardwareType := 1; HardwareLen := 6; RelayHops := 1; Xid := 7; Flags := 0;
     ClientIP := [0; 0; 0; 0]; YourClientIP := [10; 1; 2; 77]; RelayAgentIP := [10; 0; 0; 2];
     ClientHWAddr := [2; 0; 0; 0; 0; 1]; File := [];
     Options := [mkOption 53 1 [2];
       @EncodeRelayAgentInformationOption TestPacket.test_gopacket
         (request_subs (Some RequestExample.dec) 3 [10; 1; 2; 0])];
     Rest := [] |}.

Definition s0 : st := mkSt [] offer None.

End ReplyExample.

Lemma reply_returns_to_ingress_witness :
  ∃ s' r e,
    @HandleGenericReply TestPacket.test_gopacket TestHost.test_host RequestExample.cfg None UnicastReply
      ReplyExample.s0 = (s', r) ∧
    sends (tr s') = [] ++ [e] ∧
    @reply_copy TestPacket.test_gopacket TestHost.test_host RequestExample.cfg UnicastReply
      ReplyExample.offer TestHost.eth1 TestHost.eth1 e.
Proof.
  apply (@reply_returns_to_ingress TestPacket.test_gopacket TestPacket.test_gopacket_laws
    TestHost.test_host RequestExample.cfg (Some RequestExample.dec) None UnicastReply
    RequestExample.discover ReplyExample.s0 3 [10; 1; 2; 0] TestHost.eth1).
  - lia.
  - right. reflexivity.
  - vm_compute. reflexivity.
  - vm_compute. reflexivity.
  - vm_compute. reflexivity.
  - reflexivity.
  - reflexivity.
  - left. reflexivity.
  - vm_compute. reflexivity.
  - discriminate.
  - intros _. vm_compute. discriminate.
  - split; [discriminate|]. split; [vm_compute; discriminate|]. split; [|intros Hne; exfalso; apply Hne; reflexivity].
    intros src dst. eexists. reflexivity.
  - split; reflexivity.
Defined.

Lemma reply_forwarded_witness :
  ∃ s' r new,
    @ForwardRelayedReply TestPacket.test_gopacket TestHost.test_host ReplyExample.s0 = (s', r) ∧
    RelayHops (msg s') = 0 ∧ sends (tr s') = [] ++ new.
Proof.
  destruct (@reply_forwarded TestPacket.test_gopacket TestHost.test_host ReplyExample.s0) as [_ H2].
  - cbn. lia.
  - destruct H2 as (s' & r & new & E & Hm & Ht & _); [vm_compute; reflexivity|cbn; lia|].
    exists s', r, new. split; [exact E|]. rewrite Hm. split; [reflexivity|exact Ht].
Defined.
