(* ===== verification/Dhcp4.v ===== *)
(** * Validation and dispatch: [pkg/dhcp4/validate.go], [pkg/dhcp4/dhcp4.go] and
    [pkg/gpckt/dhcp/utils.go]. *)

From S2P Require Import Prelude GoStrings GoNet Specs Layers DhcpOptions Option82 Host Addrs IfCache.
From S2P Require Import Request Reply.

(** ** validate.go *)

Record ValidateOptions := { MTU : Z; VerifyChecksums : bool }.

(** A nil layer is [None].  [SetNetworkLayerForChecksum] does not fail for an IPv4 layer. *)
Definition ValidateLayers `{Gopacket} (opts : ValidateOptions) (layerEthernet : option Ethernet)
    (layerIPv4 : option IPv4) (layerUDP : option UDP) (layerDHCPv4 : option DHCPv4) : result unit :=
  if negb (MTU opts =? 0) && (MTU opts <? DHCPv4MinMessageSize) then
    Err "invalid ValidateOptions: MTU below minimum DHCPv4 size"
  else
  match layerEthernet with
  | None => Err "invalid Ethernet layer data"
  | Some _ =>
  match layerIPv4 with
  | None => Err "invalid IPv4 layer data"
  | Some ip =>
  if negb (Z.land (ip_Flags ip) IPv4MoreFragments =? 0) || (0 <? ip_FragOffset ip) then
    Err "IPv4 header indicates that packet is fragmented"
  else if IPv4FieldIHLValueMinHeaderNoOptions <? ip_IHL ip then
    Err "IPv4 header has variable-sized Options field"
  else if bool_decide (ip_SrcIP ip = []) || bool_decide (IP.To4 (ip_SrcIP ip) = []) then
    Err "source IP is not valid IPv4"
  else if IP.IsMulticast (ip_SrcIP ip) || IP.IsLinkLocalMulticast (ip_SrcIP ip) then
    Err "source IP is Multicast IPv4"
  else if bool_decide (ip_DstIP ip = []) || bool_decide (IP.To4 (ip_DstIP ip) = []) then
    Err "destination IP is not valid IPv4"
  else if IP.IsMulticast (ip_DstIP ip) || IP.IsLinkLocalMulticast (ip_DstIP ip) then
    Err "destination IP is Multicast IPv4"
  else
  match layerUDP with
  | None => Err "invalid UDP layer data"
  | Some udp =>
  if negb (udp_DstPort udp =? DHCPv4ServerPort) then Err "unexpected UDP Destination port"
  else
  match layerDHCPv4 with
  | None => Err "invalid DHCPv4 layer data"
  | Some m =>
  if negb (HardwareType m =? LinkTypeEthernet) then Err "unexpected HardwareType in DHCPv4 message"
  else if negb (HardwareLen m =? EthernetMACLengthBytes) then
    Err "unexpected size of HardwareLen in DHCPv4 message"
  else if (DHCPv4_Len m <? DHCPv4MinMessageSize) || ((0 <? MTU opts) && (MTU opts <? DHCPv4_Len m)) then
    Err "unexpected size of DHCPv4 message"
  else if VerifyChecksums opts then
    if negb (IPv4_VerifyChecksum ip) then Err "invalid IPv4 checksum"
    else if negb (UDP_VerifyChecksum ip udp) then Err "invalid UDP checksum"
    else Ok ()
  else Ok ()
  end
  end
  end
  end.

(** ** utils.go *)

Definition GetBootFileName (layerDHCPv4 : option DHCPv4) : bytes :=
  match layerDHCPv4 with
  | None => []
  | Some m => if len (File m) =? 0 then [] else strings.TrimSpace (File m)
  end.

(** ** dhcp4.go *)

Section handle.
Context `{Gopacket} `{Host} `{UnicodeTables}.

(** Log the error of a path. *)
Definition log_errors (lvl : level) (txt : string) (m : M unit) : M unit :=
  r ← attempt m;
  match r with Err _ => emit (Log lvl txt) | Ok _ => mret () end.

(** The deferred function of [Handle].  [panicking] tells whether the body panicked and [hasLogger] whether the
    configuration and its logger are there; it returns what is done, and whether the panic goes on. *)
Definition recover_handler (hasLogger panicking : bool) : trace * bool :=
  if panicking then
    (if hasLogger then [Log Error "Recovered DHCPv4 handler panic"] else [], false)
  else ([], false).

(** The body of [Handle]: nothing is returned; errors are logged. *)
Definition Handle (cfg : HandleOptions) (dec : option Decision) (ifIndex : Z) : M unit :=
  let dec := Some (default zero_decision dec) in
  m ← get_msg;
  if bool_decide (GetMessageType m = []) then emit (Log Debug "Discarding relayed message: invalid type")
  else if Operation m =? DHCPOpRequest then
    emit (Log Info "-->") ;;
    if 0 <? RelayHops m then
      emit (Log Debug "Forwarding relayed message") ;;
      log_errors Error "Error handling relayed message" (ForwardRelayedRequest cfg dec)
    else log_errors Error "Error handling relayed message" (HandleGenericRequest cfg dec ifIndex)
  else if Operation m =? DHCPOpReply then
    if (RelayHops m <? 1) || (MaxHops cfg <? RelayHops m) then
      emit (Log Debug "Discarding relayed message: unexpected hops count")
    else
      emit (Log Info "-->") ;;
      if DropReply (default zero_decision dec) then emit (Log Debug "Dropping reply (reply blackhole)")
      else
        (if bool_decide (GetBootFileName (Some m) = []) then mret ()
         else emit (Log Debug "Boot File Name")) ;;
        if negb (GiaddrIsLocal (Giaddr cfg) (RelayAgentIP m)) then
          log_errors Warn "Error forwarding reply to relay agent" ForwardRelayedReply
        else if IsUnicast (Some m) then
          log_errors Warn "Error handling unicast relayed message" (HandleGenericReply cfg dec UnicastReply)
        else if IsBroadcast (Some m) then
          log_errors Warn "Error handling broadcast relayed message" (HandleGenericReply cfg dec BroadcastReply)
        else emit (Log Debug "Discarding reply: unsupported flags")
  else emit (Log Debug "Discarding message: unsupported operation").

End handle.

(** ** Lemmas *)

Lemma valid_v4_address ip :
  IP.To4 ip ≠ [] → bool_decide (ip = []) || bool_decide (IP.To4 ip = []) = false.
Proof. intros Hne. rewrite !bool_decide_eq_false_2; [done|done|]. by intros ->. Qed.

(** The link local multicast block is multicast, so the second test never decides. *)
Lemma not_multicast ip :
  IP.To4 ip ≠ [] → IP.IsMulticast ip = false → IP.IsMulticast ip || IP.IsLinkLocalMulticast ip = false.
Proof.
  intros Hne Hm. rewrite Hm. unfold IP.IsMulticast, IP.IsLinkLocalMulticast in *.
  rewrite bool_decide_eq_true_2 in * by done. destruct (Z.eqb_spec (IP.byte_at (IP.To4 ip) 0) 224) as [E|]; [|done].
  by rewrite E in Hm.
Qed.

Section run.
Context `{Gopacket} `{Host} `{UnicodeTables}.

Lemma logged_run lvl txt (m : M unit) s s' r :
  m s = (s', r) →
  ∃ s'', log_errors lvl txt m s = (s'', Ok ()) ∧ msg s'' = msg s' ∧ sends (tr s'') = sends (tr s').
Proof.
  intros E. unfold log_errors. run_M. rewrite E. destruct r as [[]|e]; eexists; (split; [done|]); [done|].
  cbn [tr msg]. by autorewrite with sends.
Qed.

(** A relay to [dst] sends at most the current message. *)
Lemma RelayToServer_sent dst s :
  ∃ s' r new, RelayToServer dst s = (s', r) ∧ msg s' = msg s ∧ sends (tr s') = sends (tr s) ++ new ∧
    (new = [] ∨ ∃ e, new = [e] ∧ sent_to dst (msg s) e).
Proof.
  destruct (RelayToServer_run dst s) as (s' & r & new & E & Hm & _ & Ht & Hnew).
  exists s', r, new. split; [done|]. split; [done|]. split; [done|].
  destruct (SerializeDHCPv4 (msg s)) as [buf|] eqn:Es; [|left; by destruct Hnew].
  destruct (ResolveUDPAddr (tr s) dst) as [to|] eqn:Er; [|left; by destruct Hnew].
  right. eexists. split; [exact Hnew|]. by exists (tr s), to, buf.
Qed.

Lemma ForwardRelayedReply_any s :
  0 ≤ RelayHops (msg s) < 256 →
  let g := IP.To4 (RelayAgentIP (msg s)) in
  ∃ s' r new, ForwardRelayedReply s = (s', r) ∧ sends (tr s') = sends (tr s) ++ new ∧
    (new = [] ∨ ∃ e, new = [e] ∧ g ≠ [] ∧
       sent_to (IP.String4 g) (set_RelayHops (RelayHops (msg s) - 1) (msg s)) e).
Proof.
  intros Hh g. unfold ForwardRelayedReply. run_M. fold g.
  destruct (bool_decide (g = [])) eqn:Eg; cbn [orb];
    [eexists _, _, []; split; [done|]; rewrite app_nil_r; auto|]. apply bool_decide_eq_false in Eg.
  destruct (_ || _ || _); [eexists _, _, []; split; [done|]; rewrite app_nil_r; auto|].
  destruct (Z.ltb_spec (RelayHops (msg s)) 1);
    [eexists _, _, []; split; [done|]; rewrite app_nil_r; auto|].
  rewrite u8_small by lia. set (m' := set_RelayHops (RelayHops (msg s) - 1) (msg s)).
  destruct (RelayToServer_sent (IP.String4 g) (mkSt (tr s) m' (cache s)))
    as (s' & r & new & -> & _ & Ht & Hnew). exists s', r, new. split; [done|]. split; [done|].
  destruct Hnew as [->|(e & -> & He)]; [by left|right]. by exists e.
Qed.

Lemma ForwardRelayedRequest_any cfg dec s :
  0 ≤ RelayHops (msg s) < 256 → MaxHops cfg ≤ 255 →
  ∃ s' r new, ForwardRelayedRequest cfg dec s = (s', r) ∧ sends (tr s') = sends (tr s) ++ new ∧
    (new ≠ [] → RelayHops (msg s) < MaxHops cfg) ∧
    (new = [] ∨ ∃ e, new = [e] ∧
       sent_to (EffectiveServerAddress cfg dec) (set_RelayHops (RelayHops (msg s) + 1) (msg s)) e).
Proof.
  intros Hh256 Hmax. unfold ForwardRelayedRequest. run_M.
  destruct (Z.leb_spec (MaxHops cfg) (RelayHops (msg s))) as [Hh|Hh].
  { eexists _, _, []. split; [done|]. rewrite app_nil_r. split; [done|]. split; [done|by left]. }
  rewrite u8_small by lia. set (m' := set_RelayHops (RelayHops (msg s) + 1) (msg s)).
  destruct (RelayToServer_sent (EffectiveServerAddress cfg dec) (mkSt (tr s) m' (cache s)))
    as (s' & r & new & -> & Hm & Ht & Hnew). cbn [tr msg] in *.
  destruct r as [[]|e]; eexists _, _, new; (split; [done|]); cbn [tr msg]; autorewrite with sends; done.
Qed.

End run.

(** What a run adds to the packets of [s]: nothing, or packets that satisfy [P]. *)
Definition leaves (s : st) (P : trace → st → Prop) (out : st * result unit) : Prop :=
  ∃ s' new, out = (s', Ok ()) ∧ sends (tr s') = sends (tr s) ++ new ∧ (new ≠ [] → P new s').

Definition log_st (lvl : level) (txt : string) (s : st) : st := mkSt (tr s ++ [Log lvl txt]) (msg s) (cache s).

Lemma log_st_sends lvl txt s : sends (tr (log_st lvl txt s)) = sends (tr s).
Proof. unfold log_st. cbn [tr]. by autorewrite with sends. Qed.

Lemma leaves_log s s1 P lvl txt : sends (tr s1) = sends (tr s) → leaves s P (emit (Log lvl txt) s1).
Proof.
  intros Ht. exists (log_st lvl txt s1), []. split; [done|]. by rewrite log_st_sends, app_nil_r.
Qed.

Lemma leaves_logged s s1 P lvl txt (m : M unit) s' r new :
  m s1 = (s', r) → sends (tr s1) = sends (tr s) → sends (tr s') = sends (tr s1) ++ new →
  (new ≠ [] → ∀ s'', msg s'' = msg s' → P new s'') → leaves s P (log_errors lvl txt m s1).
Proof.
  intros E H1 H2 HP. destruct (logged_run lvl txt m s1 s' r E) as (s'' & -> & Hm & Ht).
  exists s'', new. split; [done|]. split; [congruence|]. eauto.
Qed.

Lemma emit_bind {A} lvl txt (k : unit → M A) s : (emit (Log lvl txt) ≫= k) s = k () (log_st lvl txt s).
Proof. done. Qed.

(** What may leave for a request [m], below the hop limit: datagrams to the server the decision selects, each
    with the request as this relay relays it; one at most when another relay was there before. *)
Definition request_leaves `{Gopacket} `{Host} (cfg : HandleOptions) (dec : option Decision) (ifIndex : Z)
    (m : DHCPv4) (new : trace) : Prop :=
  Operation m = DHCPOpRequest ∧ RelayHops m < MaxHops cfg ∧
  Forall (λ e, ∃ m', relayed_as cfg dec ifIndex m m' ∧ sent_to (EffectiveServerAddress cfg dec) m' e) new ∧
  (0 < RelayHops m → (length new ≤ 1)%nat).

(** What may leave for a reply [m]: when its giaddr is ours, the copies of a deliverable reply, by the kind of
    addressing its flags ask for; else one datagram, to the giaddr, with the reply and one hop less. *)
Definition reply_leaves `{Gopacket} `{Host} (cfg : HandleOptions) (dec : option Decision) (m : DHCPv4)
    (new : trace) : Prop :=
  Operation m = DHCPOpReply ∧ 1 ≤ RelayHops m ≤ MaxHops cfg ∧
  DropReply (default zero_decision dec) = false ∧
  if GiaddrIsLocal (Giaddr cfg) (RelayAgentIP m) then
    let replyType := if IsUnicast (Some m) then UnicastReply else BroadcastReply in
    ∃ ifi, deliverable dec replyType m ifi ∧ delivered cfg dec replyType m ifi new
  else
    let g := IP.To4 (RelayAgentIP m) in
    ∃ e, new = [e] ∧ g ≠ [] ∧ sent_to (IP.String4 g) (set_RelayHops (RelayHops m - 1) m) e.

Lemma leaves_request `{Gopacket} `{Host} cfg dec ifIndex s s1 lvl txt :
  Operation (msg s) = DHCPOpRequest → 0 ≤ RelayHops (msg s) < 256 → MaxHops cfg ≤ 255 →
  msg s1 = msg s → sends (tr s1) = sends (tr s) →
  leaves s (λ new _, request_leaves cfg dec ifIndex (msg s) new)
    (log_errors lvl txt (if 0 <? RelayHops (msg s) then ForwardRelayedRequest cfg dec
                         else HandleGenericRequest cfg dec ifIndex) s1).
Proof.
  intros Ho Hh Hmax Hm1 Ht1. destruct (0 <? RelayHops (msg s)) eqn:Eh.
  - destruct (ForwardRelayedRequest_any cfg dec s1) as (s' & r & new & E & Ht & Hlt & Hn); [by rewrite ?Hm1..|].
    rewrite Hm1 in *. eapply leaves_logged; [exact E|done|exact Ht|]. intros Hne s'' _.
    destruct Hn as [->|(e & -> & He)]; [done|]. split; [done|]. split; [auto|]. split; [|simpl; lia].
    apply Forall_singleton. eexists. split; [|exact He]. unfold relayed_as. by rewrite Eh.
  - destruct (HandleGenericRequest_any cfg dec ifIndex s1) as (s' & r & new & E & Ht & Hlt & Hn); [by rewrite ?Hm1..|].
    rewrite Hm1 in *. eapply leaves_logged; [exact E|done|exact Ht|]. intros Hne s'' _.
    split; [done|]. split; [auto|]. split; [done|]. apply Z.ltb_ge in Eh. lia.
Qed.

Lemma leaves_reply `{Gopacket} `{Host} cfg dec s s1 :
  Operation (msg s) = DHCPOpReply → 1 ≤ RelayHops (msg s) ≤ MaxHops cfg → MaxHops cfg ≤ 255 →
  DropReply (default zero_decision dec) = false →
  msg s1 = msg s → sends (tr s1) = sends (tr s) →
  (GiaddrIsLocal (Giaddr cfg) (RelayAgentIP (msg s)) = false → ∀ lvl txt,
     leaves s (λ new _, reply_leaves cfg dec (msg s) new) (log_errors lvl txt ForwardRelayedReply s1)) ∧
  (GiaddrIsLocal (Giaddr cfg) (RelayAgentIP (msg s)) = true → ∀ lvl txt rt,
     rt = (if IsUnicast (Some (msg s)) then UnicastReply else BroadcastReply) →
     leaves s (λ new _, reply_leaves cfg dec (msg s) new)
       (log_errors lvl txt (HandleGenericReply cfg (Some (default zero_decision dec)) rt) s1)).
Proof.
  intros Ho Hh Hmax Hd Hm1 Ht1. unfold reply_leaves. split; intros -> lvl txt.
  - destruct (ForwardRelayedReply_any s1) as (s' & r & new & E & Ht & Hn); [rewrite Hm1; lia|].
    rewrite Hm1 in *. eapply leaves_logged; [exact E|done|exact Ht|]. intros Hne s'' Hm.
    by destruct Hn as [->|Hn].
  - intros rt ->. destruct (HandleGenericReply_run cfg (Some (default zero_decision dec))
      (if IsUnicast (Some (msg s)) then UnicastReply else BroadcastReply) s1) as (s' & r & new & E & Ht & Hn).
    rewrite Hm1 in *. eapply leaves_logged; [exact E|done|exact Ht|]. intros Hne s'' Hm.
    destruct Hn as [[-> _]|(ifi & [] & Hn)]; [done|]. split; [done|]. split; [done|]. split; [done|].
    exists ifi. by split.
Qed.

(** A missing decision is the zero one. *)
Lemma request_leaves_default `{Gopacket} `{Host} cfg dec ifIndex m new :
  request_leaves cfg (Some (default zero_decision dec)) ifIndex m new → request_leaves cfg dec ifIndex m new.
Proof. by destruct dec. Qed.

Lemma leaves_impl s (P Q : trace → st → Prop) out :
  (∀ new s', P new s' → Q new s') → leaves s P out → leaves s Q out.
Proof. intros HPQ (s' & new & ? & ? & HP). exists s', new. auto. Qed.

(** What one run of the dispatcher lets out. *)
Lemma Handle_leaves `{Gopacket} `{Host} `{UnicodeTables} (cfg : HandleOptions) (dec : option Decision)
    (ifIndex : Z) (s : st) :
  0 ≤ RelayHops (msg s) < 256 → MaxHops cfg ≤ 255 →
  ∃ s' new, Handle cfg dec ifIndex s = (s', Ok ()) ∧ sends (tr s') = sends (tr s) ++ new ∧
    (new ≠ [] → GetMessageType (msg s) ≠ [] ∧
       (request_leaves cfg dec ifIndex (msg s) new ∨ reply_leaves cfg dec (msg s) new)).
Proof.
  intros Hh Hmax. change (leaves s (λ new _, GetMessageType (msg s) ≠ [] ∧
    (request_leaves cfg dec ifIndex (msg s) new ∨ reply_leaves cfg dec (msg s) new)) (Handle cfg dec ifIndex s)).
  unfold Handle. rewrite (bind_ok get_msg _ s s (msg s)) by done. cbv zeta.
  destruct (bool_decide (GetMessageType (msg s) = [])) eqn:Et; [by apply leaves_log|].
  apply bool_decide_eq_false in Et. destruct (Z.eqb_spec (Operation (msg s)) DHCPOpRequest) as [Eo|_].
  - eapply leaves_impl; [intros new s' HP; split; [exact Et|left; apply request_leaves_default; exact HP]|].
    rewrite emit_bind.
    pose proof (λ s1 lvl txt, leaves_request cfg (Some (default zero_decision dec)) ifIndex s s1 lvl txt Eo Hh Hmax)
      as Hreq. destruct (0 <? RelayHops (msg s)); [rewrite emit_bind|]; apply Hreq; rewrite ?log_st_sends; done.
  - destruct (Z.eqb_spec (Operation (msg s)) DHCPOpReply) as [Eo|_]; [|by apply leaves_log].
    destruct (Z.ltb_spec (RelayHops (msg s)) 1) as [?|Hlo]; [by apply leaves_log|].
    destruct (Z.ltb_spec (MaxHops cfg) (RelayHops (msg s))) as [?|Hhi]; [by apply leaves_log|].
    cbn [orb]. rewrite emit_bind. change (default zero_decision (Some (default zero_decision dec))) with
      (default zero_decision dec).
    destruct (DropReply (default zero_decision dec)) eqn:Ed; [apply leaves_log, log_st_sends|].
    assert (Hboot : ∃ s1, (if bool_decide (GetBootFileName (Some (msg s)) = []) then mret ()
                            else emit (Log Debug "Boot File Name"))
              (log_st Info "-->" s) = (s1, Ok ()) ∧ msg s1 = msg s ∧ sends (tr s1) = sends (tr s)).
    { destruct (bool_decide (GetBootFileName _ = [])); eexists; (split; [done|]); unfold log_st;
        cbn [tr msg]; by rewrite ?sends_snoc_log. }
    destruct Hboot as (s1 & E1 & Hm1 & Ht1). rewrite (bind_ok _ _ _ _ _ E1).
    destruct (leaves_reply cfg dec s s1) as [Hfwd Hloc]; [done..|].
    eapply leaves_impl; [intros new s' HP; split; [exact Et|right; exact HP]|].
    destruct (GiaddrIsLocal (Giaddr cfg) (RelayAgentIP (msg s))); cbn [negb]; [|by apply Hfwd].
    destruct (IsUnicast (Some (msg s))); [by apply Hloc|].
    destruct (IsBroadcast (Some (msg s))); [by apply Hloc|by apply leaves_log].
Qed.

(** ** Properties *)

(** C32: [ValidateLayers] accepts exactly the packets a relay may handle: all four layers are present, the
    IPv4 packet is whole and has no options, both addresses are IPv4 and not multicast, the datagram is
    for the server port, the hardware address is a six byte Ethernet one, the message size is between
    the minimum and the MTU, and the checksums hold when they are verified. *)
Theorem validate_accepts_exactly `{Gopacket} (opts : ValidateOptions) (eth : option Ethernet)
    (ip : option IPv4) (udp : option UDP) (m : option DHCPv4) :
  0 ≤ MTU opts →
  ValidateLayers opts eth ip udp m = Ok () ↔
  (MTU opts = 0 ∨ DHCPv4MinMessageSize ≤ MTU opts) ∧
  ∃ e i u d, eth = Some e ∧ ip = Some i ∧ udp = Some u ∧ m = Some d ∧
    Z.land (ip_Flags i) IPv4MoreFragments = 0 ∧ ip_FragOffset i ≤ 0 ∧ ip_IHL i ≤ 5 ∧
    IP.To4 (ip_SrcIP i) ≠ [] ∧ IP.IsMulticast (ip_SrcIP i) = false ∧
    IP.To4 (ip_DstIP i) ≠ [] ∧ IP.IsMulticast (ip_DstIP i) = false ∧
    udp_DstPort u = DHCPv4ServerPort ∧ HardwareType d = LinkTypeEthernet ∧ HardwareLen d = 6 ∧
    DHCPv4MinMessageSize ≤ DHCPv4_Len d ∧ (MTU opts = 0 ∨ DHCPv4_Len d ≤ MTU opts) ∧
    (VerifyChecksums opts = true → IPv4_VerifyChecksum i = true ∧ UDP_VerifyChecksum i u = true).
Proof.
  intros Hmtu. split.
  - unfold ValidateLayers. intros Hv.
    destruct (negb (MTU opts =? 0) && (MTU opts <? DHCPv4MinMessageSize)) eqn:E0; [done|].
    apply andb_false_iff in E0. split; [destruct E0; reflect_bools; auto|].
    destruct eth as [e|]; [|done]. destruct ip as [i|]; [|done]. repeat (case_match; [done|]).
    destruct udp as [u|]; [|done]. case_match; [done|]. destruct m as [d|]; [|done].
    exists e, i, u, d. do 4 (split; [done|]). repeat (case_match; try done); reflect_bools.
    all: unfold IPv4FieldIHLValueMinHeaderNoOptions, EthernetMACLengthBytes in *.
    all: repeat match goal with H : _ && _ = false |- _ => apply andb_false_iff in H as [?|?] end;
      reflect_bools; repeat split; try done; try lia.
  - intros (HM & e & i & u & d & -> & -> & -> & -> & Hfl & Hfo & Hihl & Hs & Hsm & Hd & Hdm & Hp & Ht & Hl &
      Hmin & Hmax & Hck). unfold ValidateLayers.
    assert (H0' : negb (MTU opts =? 0) && (MTU opts <? DHCPv4MinMessageSize) = false).
    { apply andb_false_iff. rewrite negb_false_iff, Z.eqb_eq, Z.ltb_ge. done. }
    assert (Hlen : (DHCPv4_Len d <? DHCPv4MinMessageSize) || ((0 <? MTU opts) && (MTU opts <? DHCPv4_Len d)) = false).
    { apply orb_false_iff. rewrite andb_false_iff, !Z.ltb_ge. split; [done|]. destruct Hmax; [left; lia|by right]. }
    rewrite H0', Hfl, (proj2 (Z.ltb_ge 0 (ip_FragOffset i)) Hfo).
    rewrite (proj2 (Z.ltb_ge IPv4FieldIHLValueMinHeaderNoOptions (ip_IHL i)) Hihl).
    rewrite (valid_v4_address (ip_SrcIP i)), (valid_v4_address (ip_DstIP i)) by done.
    rewrite (not_multicast (ip_SrcIP i)), (not_multicast (ip_DstIP i)) by done.
    rewrite Hp, Ht, Hl, Hlen. cbn.
    destruct (VerifyChecksums opts); [|done]. by destruct (Hck eq_refl) as [-> ->].
Qed.

Lemma validate_accepts_exactly_witness :
  @ValidateLayers TestPacket.test_gopacket {| MTU := 1500; VerifyChecksums := true |}
    (Some {| SrcMAC := [2; 0; 0; 0; 0; 1]; DstMAC := EthernetBroadcast; EthernetType := EthernetTypeIPv4 |})
    (Some {| ip_Version := 4; ip_IHL := 5; ip_Id := 1; ip_Flags := 2; ip_FragOffset := 0; ip_TTL := 64;
             ip_Protocol := 17; ip_SrcIP := [0; 0; 0; 0]; ip_DstIP := [255; 255; 255; 255] |})
    (Some {| udp_SrcPort := 68; udp_DstPort := 67 |}) (Some RequestExample.discover) = Ok ().
Proof.
  apply (@validate_accepts_exactly TestPacket.test_gopacket {| MTU := 1500; VerifyChecksums := true |});
    [cbn; lia|].
  split; [right; vm_compute; discriminate|]. eexists _, _, _, _.
  do 4 (split; [reflexivity|]).
  repeat split; first [reflexivity | vm_compute; discriminate | right; vm_compute; discriminate].
Defined.

(** C7: [Handle] always returns, and what leaves is fixed by the kind of message.  Nothing leaves for a
    message without a valid type or with an unknown operation.  A request leaves only below the hop limit
    and only as datagrams to the server selected for its client, on the server port, each carrying the
    request with one hop more; a first relay adds Option 82 and a giaddr of the ingress, and sends one
    datagram at most when the request was relayed before.  A reply leaves only with a hop count from one to
    the limit, the limit included, and not when the policy drops it: as the copies of a deliverable reply
    when its giaddr is ours, else as one datagram to the giaddr carrying the reply with one hop less. *)
Theorem handle_correct `{Gopacket} `{Host} `{UnicodeTables} (cfg : HandleOptions) (dec : option Decision)
    (ifIndex : Z) (s : st) :
  0 ≤ RelayHops (msg s) < 256 → MaxHops cfg ≤ 255 →
  ∃ s' new, Handle cfg dec ifIndex s = (s', Ok ()) ∧ sends (tr s') = sends (tr s) ++ new ∧
    (new ≠ [] → GetMessageType (msg s) ≠ [] ∧
       (request_leaves cfg dec ifIndex (msg s) new ∨ reply_leaves cfg dec (msg s) new)).
Proof. apply Handle_leaves. Qed.

(** The discover leaves, to the configured server, with one hop more. *)
Lemma handle_correct_witness :
  let run := @Handle TestPacket.test_gopacket TestHost.test_host ascii_tables RequestExample.cfg None in
  ∃ s' e new, run 2 RequestExample.s0 = (s', Ok ()) ∧ sends (tr s') = e :: new ∧
    ∃ m', @sent_to TestPacket.test_gopacket TestHost.test_host (lit "10.0.0.9") m' e ∧ RelayHops m' = 1.
Proof.
  intros run.
  destruct (@handle_correct TestPacket.test_gopacket TestHost.test_host ascii_tables RequestExample.cfg
    None 2 RequestExample.s0) as (s' & new & E & Ht & Hn); [cbn; lia..|].
  assert (Hlen : length (sends (tr (run 2 RequestExample.s0).1)) = 2%nat) by (vm_compute; reflexivity).
  unfold run in *. rewrite E in *. cbn [fst] in Hlen. rewrite Ht in *. cbn [tr RequestExample.s0] in *.
  destruct new as [|e new]; [done|]. exists s', e, new. split; [done|]. split; [done|].
  destruct (Hn ltac:(done)) as [_ [(_ & _ & Hall & _)|(Ho & _)]]; [|done].
  apply Forall_cons in Hall as [(m' & Hm & He) _]. exists m'. split; [exact He|].
  unfold relayed_as in Hm. cbn in Hm. destruct Hm as (? & ? & ? & ? & ? & _ & _ & _ & ->). reflexivity.
Defined.

(** *** Corner cases *)

Definition set_File (f : bytes) (m : DHCPv4) : DHCPv4 :=
  {| Operation := Operation m; HardwareType := HardwareType m; HardwareLen := HardwareLen m;
     RelayHops := RelayHops m; Xid := Xid m; Flags := Flags m; ClientIP := ClientIP m;
     YourClientIP := YourClientIP m; RelayAgentIP := RelayAgentIP m; ClientHWAddr := ClientHWAddr m;
     File := f; Options := Options m; Rest := Rest m |}.

(** The NUL padding of the fixed width file field is not white space, so a message without a boot file
    has a "name" of 128 NULs, and one with a boot file a name that ends in them. *)
Example boot_file_name_keeps_padding :
  GetBootFileName (Some (set_File (replicate 128 0) RequestExample.discover)) = replicate 128 0 ∧
  GetBootFileName (Some (set_File (lit "pxelinux.0" ++ replicate 118 0) RequestExample.discover)) =
    lit "pxelinux.0" ++ replicate 118 0 ∧
  GetBootFileName (Some (set_File (lit " pxelinux.0  ") RequestExample.discover)) = lit "pxelinux.0" ∧
  GetBootFileName (Some (set_File (lit "   ") RequestExample.discover)) = [].
Proof. split_and!; vm_compute; reflexivity. Qed.

(** The hop limit is exclusive for requests and inclusive for replies. *)
Example hop_limit_by_direction :
  let run := @Handle TestPacket.test_gopacket TestHost.test_host ascii_tables RequestExample.cfg None 2 in
  let request := set_RelayHops (MaxHops RequestExample.cfg) RequestExample.discover in
  let reply := set_RelayHops (MaxHops RequestExample.cfg) ReplyExample.offer in
  sends (tr (run (mkSt [] request None)).1) = [] ∧ length (sends (tr (run (mkSt [] reply None)).1)) = 1%nat.
Proof. split; vm_compute; reflexivity. Qed.
