(* ===== verification/WellTyped.v ===== *)
(** * The type of a message on its way through the relay.

    What makes a DHCPv4 message serialisable: counters that fit their bytes, options whose length byte is
    the length of their data, each option once, and a giaddr that is an IP address.  Every handler keeps
    it, and every packet it writes is the serialisation of such a message. *)

From S2P Require Import Prelude GoStrings GoNet Specs Layers DhcpOptions Option82 Host Addrs IfCache.
From S2P Require Import Request Reply Dhcp4.

(** ** The type *)

Definition typed_option (o : DHCPOption) : Prop :=
  0 ≤ opt_Type o < 256 ∧ opt_Length o = len (opt_Data o) ∧ len (opt_Data o) ≤ DHCPv4MaxOptionSize.

Record typed (m : DHCPv4) : Prop := {
  typed_hops : 0 ≤ RelayHops m < 2 ^ 8;
  typed_flags : 0 ≤ Flags m < 2 ^ 16;
  typed_giaddr : length (RelayAgentIP m) ∈ [0; 4; 16]%nat;
  typed_options : Forall typed_option (Options m);
  typed_unique : NoDup (map opt_Type (Options m))
}.

(** What every message off the wire satisfies; its options may still repeat. *)
Record representable (m : DHCPv4) : Prop := {
  rep_hops : 0 ≤ RelayHops m < 2 ^ 8;
  rep_flags : 0 ≤ Flags m < 2 ^ 16;
  rep_giaddr : length (RelayAgentIP m) ∈ [0; 4; 16]%nat;
  rep_options : Forall typed_option (Options m)
}.

(** A packet is the serialisation of a message of the type, sent to the server port or framed for a
    link address of at most eight bytes. *)
Definition typed_event `{Gopacket} (e : event) : Prop :=
  match e with
  | Log _ _ => True
  | UDPWrite _ port payload => port = DHCPv4ServerPort ∧ ∃ m, typed m ∧ SerializeDHCPv4 m = Ok payload
  | FrameWrite _ hw frame =>
      (1 ≤ length hw ≤ 8)%nat ∧
      ∃ eth ip m, typed m ∧ EthernetType eth = EthernetTypeIPv4 ∧ SrcMAC eth = hw ∧
        SerializeFrame eth ip reply_udp m = Ok frame
  end.

(** ** A small logic for handlers *)

Section logic.
Context `{Gopacket}.

Definition typed_st (s : st) : Prop := typed (msg s) ∧ Forall typed_event (tr s).

(** From a typed state the computation ends in one, and what it returns satisfies [Q]. *)
Definition keeps {A} (c : M A) (Q : A → Prop) : Prop :=
  ∀ s, typed_st s → typed_st (c s).1 ∧ ∀ a, (c s).2 = Ok a → Q a.

Lemma keeps_bind {A B} (c : M A) (k : A → M B) Q R :
  keeps c Q → (∀ a, Q a → keeps (k a) R) → keeps (c ≫= k) R.
Proof.
  intros Hc Hk s Hs. destruct (Hc s Hs) as [Hs' Hq]. unfold mbind, M_bind.
  destruct (c s) as [s' [a|e]]; [|by split]. apply (Hk a); [by apply Hq|done].
Qed.

Lemma keeps_weaken {A} (c : M A) (Q R : A → Prop) : (∀ a, Q a → R a) → keeps c Q → keeps c R.
Proof. intros HQR Hc s Hs. destruct (Hc s Hs). split; [done|]. auto. Qed.

Lemma keeps_ret {A} (a : A) (Q : A → Prop) : Q a → keeps (mret a) Q.
Proof. intros Hq s Hs. split; [done|]. by intros ? [= <-]. Qed.

Lemma keeps_fail {A} e (Q : A → Prop) : keeps (fail e) Q.
Proof. intros s Hs. by split. Qed.

Lemma keeps_lift {A} (r : result A) (Q : A → Prop) : (∀ a, r = Ok a → Q a) → keeps (lift r) Q.
Proof. intros Hq s Hs. by split. Qed.

Lemma keeps_lift_eq {A} (r : result A) : keeps (lift r) (λ a, r = Ok a).
Proof. by apply keeps_lift. Qed.

Lemma keeps_attempt {A} (c : M A) Q : keeps c Q → keeps (attempt c) (λ _, True).
Proof. intros Hc s Hs. destruct (Hc s Hs) as [Hs' _]. unfold attempt. by destruct (c s). Qed.

Lemma keeps_get_msg : keeps get_msg typed.
Proof. intros s Hs. split; [done|]. intros ? [= <-]. apply Hs. Qed.

Lemma keeps_get_trace : keeps get_trace (λ _, True).
Proof. intros s Hs. by split. Qed.

Lemma keeps_get_cache : keeps get_cache (λ _, True).
Proof. intros s Hs. by split. Qed.

Lemma keeps_put_cache c : keeps (put_cache c) (λ _, True).
Proof. intros s Hs. by split. Qed.

Lemma keeps_put_msg m : typed m → keeps (put_msg m) (λ _, True).
Proof. intros Hm s [_ Ht]. by split. Qed.

Lemma keeps_emit e : typed_event e → keeps (emit e) (λ _, True).
Proof. intros He s [Hm Ht]. split; [|done]. split; [done|]. apply Forall_app. split; [done|by constructor]. Qed.

Lemma typed_log lvl txt : typed_event (Log lvl txt).
Proof. done. Qed.

Lemma keeps_for_each {A} (l : list A) (body : A → M unit) :
  (∀ x, x ∈ l → keeps (body x) (λ _, True)) → keeps (for_each l body) (λ _, True).
Proof.
  induction l as [|x l IH]; intros Hb; [by apply keeps_ret|]. cbn [for_each].
  eapply keeps_bind; [apply Hb; left|]. intros _ _. apply IH. intros y Hy. apply Hb. by right.
Qed.

End logic.

(** One step of a handler: the rule its first action has. *)
Create HintDb keeps.
#[export] Hint Resolve keeps_get_msg keeps_get_trace keeps_get_cache keeps_put_cache keeps_lift_eq typed_log : keeps.

Ltac keep_step :=
  match goal with
  | |- keeps (mret _) _ => apply keeps_ret
  | |- keeps (fail _) _ => apply keeps_fail
  | |- keeps (emit _) _ => apply keeps_emit
  | |- keeps (emit _ ≫= _) _ => eapply keeps_bind; [apply keeps_emit|intros _ _]
  | |- keeps (attempt _ ≫= _) _ => eapply keeps_bind; [eapply keeps_attempt|intros ? _]
  | |- keeps (put_msg _ ≫= _) _ => eapply keeps_bind; [apply keeps_put_msg|intros _ _]
  | |- keeps (_ ≫= _) _ => eapply keeps_bind; [solve [eauto with keeps]|intros ? ?; cbv beta in *]
  | |- keeps (match ?x with _ => _ end) _ => destruct x eqn:?
  end.

(** ** Messages *)

(** [handlePacket] drops split options before the handler sees the message. *)
Lemma typed_unsplit m : representable m → typed (set_Options (DeleteSplitOptions (Options m)) m).
Proof.
  intros [Hh Hf Hg Ho]. destruct (DeleteSplitOptions_normal (Options m)) as (Hd & Hs & _).
  split; cbn; try done. apply Forall_forall. intros o Hin. rewrite Forall_forall in Ho.
  apply Ho. eapply elem_of_submseteq; [exact Hin|]. by apply sublist_submseteq.
Qed.

Lemma typed_set_hops h m : 0 ≤ h < 2 ^ 8 → typed m → typed (set_RelayHops h m).
Proof. intros Hh [? ? ? ? ?]. by split. Qed.

Lemma typed_set_giaddr g m : length g ∈ [0; 4; 16]%nat → typed m → typed (set_RelayAgentIP g m).
Proof. intros Hg [? ? ? ? ?]. by split. Qed.

Lemma typed_SetOption o m : typed_option o → typed m → typed (SetOption m o).
Proof.
  intros Ho [? ? ? Hos Hu]. split; try done; [|by apply SetOption_NoDup].
  rewrite SetOption_options, sort_by_type_perm, Forall_app, Forall_singleton. split; [|done].
  apply Forall_forall. intros x [Hx _]%elem_of_delete_type. by eapply Forall_forall in Hos.
Qed.

Lemma typed_DeleteOption t m : typed m → typed (DeleteOption m t).
Proof.
  intros [? ? ? Hos Hu]. split; try done; [|by apply delete_type_NoDup].
  apply Forall_forall. intros x [Hx _]%elem_of_delete_type. by eapply Forall_forall in Hos.
Qed.

Lemma typed_set_Flags m f :
  (∀ n, 16 ≤ n → Z.testbit (Flags m) n = false → Z.testbit f n = false) → 0 ≤ f → typed m →
  typed (set_Flags f m).
Proof.
  intros Hf H0 [? Hfl ? ? ?]. split; try done. split; [done|]. apply Z.bounded_iff_bits_nonneg; [lia|done|].
  intros n Hn. apply Hf; [done|].
  apply (proj1 (Z.bounded_iff_bits_nonneg 16 (Flags m) ltac:(lia) ltac:(lia))); lia.
Qed.

Lemma typed_clear_broadcast m : typed m → typed (clear_broadcast m).
Proof.
  intros Hm. apply typed_set_Flags; [|apply Z.ldiff_nonneg; left; apply Hm|done].
  intros n Hn Hb. by rewrite Z.ldiff_spec, Hb.
Qed.

Lemma typed_set_broadcast m : typed m → typed (set_broadcast m).
Proof.
  intros Hm. apply typed_set_Flags; [|apply Z.lor_nonneg; split; [apply Hm|done]|done].
  intros n Hn Hb. rewrite Z.lor_spec, Hb, broadcast_bit. by rewrite bool_decide_eq_false_2 by lia.
Qed.

(** Whatever the encoder makes an option of is well formed. *)
Lemma Encode_typed `{GopacketLaws} ss :
  IsOption (EncodeRelayAgentInformationOption ss) = true →
  typed_option (EncodeRelayAgentInformationOption ss).
Proof.
  unfold EncodeRelayAgentInformationOption. destruct (encode_subs [] ss) as [data|]; [|done].
  destruct (Z.ltb_spec DHCPv4MaxOptionSize (len data)) as [|Hle]; [done|]. intros _.
  rewrite NewDHCPOption_spec. unfold typed_option, RelayAgentInformation. cbn. split; [lia|].
  unfold DHCPv4MaxOptionSize in *. rewrite u8_small by lia. done.
Qed.

Lemma ReplyAddressing_typed replyType srcIP m l b mac l' m' :
  ReplyAddressing replyType srcIP m l b = Ok (mac, l', m') → typed m → typed m'.
Proof.
  unfold ReplyAddressing. destruct replyType.
  - case_bool_decide; [done|]. intros [= _ _ <-]. apply typed_clear_broadcast.
  - intros [= _ _ <-]. apply typed_set_broadcast.
  - done.
Qed.

Lemma global_unicast_length g : IsGlobalUnicastIPv4 g = true → length g ∈ [0; 4; 16]%nat.
Proof.
  intros [Hg _]%IsGlobalUnicastIPv4_true. unfold IP.To4 in Hg.
  destruct (Z.eqb_spec (len g) 4); [replace (length g) with 4%nat by lia; set_solver|].
  destruct (Z.eqb_spec (len g) 16); [replace (length g) with 16%nat by lia; set_solver|done].
Qed.

(** ** Handlers *)

Section handlers.
Context `{GopacketLaws} `{Host}.

Lemma keeps_SendToServer srv buf :
  (∃ m, typed m ∧ SerializeDHCPv4 m = Ok buf) → keeps (SendToServer srv buf) (λ _, True).
Proof. intros Hm. unfold SendToServer. by repeat keep_step. Qed.

Lemma wrap_Ok {A} prefix (r : result A) a : wrap prefix r = Ok a → r = Ok a.
Proof. by destruct r. Qed.
#[local] Hint Resolve wrap_Ok keeps_SendToServer : keeps.

Lemma keeps_RelayToServer dst : keeps (RelayToServer dst) (λ _, True).
Proof. unfold RelayToServer. repeat keep_step; eauto with keeps. Qed.
#[local] Hint Resolve keeps_RelayToServer typed_set_giaddr typed_set_hops u8_range : keeps.

Lemma keeps_send srv g : length g ∈ [0; 4; 16]%nat → keeps (send srv g) (λ _, True).
Proof. intros Hg. unfold send. repeat keep_step; eauto with keeps. Qed.

Lemma keeps_ForwardRelayedRequest cfg dec : keeps (ForwardRelayedRequest cfg dec) (λ _, True).
Proof. unfold ForwardRelayedRequest. repeat keep_step; eauto with keeps. Qed.

Lemma keeps_ForwardRelayedReply : keeps ForwardRelayedReply (λ _, True).
Proof. unfold ForwardRelayedReply. repeat keep_step; eauto with keeps. Qed.

Lemma keeps_HandleGenericRequest cfg dec ifIndex :
  good_config cfg → keeps (HandleGenericRequest cfg dec ifIndex) (λ _, True).
Proof.
  intros Hcfg. unfold HandleGenericRequest. eapply keeps_bind; [apply keeps_get_msg|]. intros m Hm.
  destruct (_ <=? _); [apply keeps_fail|].
  eapply (keeps_bind _ _ (λ r, ResolveGiaddr cfg dec ifIndex = Ok r)); [by apply keeps_lift|].
  intros [[addrs override] link] Hr. destruct (negb _); [apply keeps_fail|].
  eapply keeps_bind; [by apply keeps_emit|]. intros _ _.
  eapply (keeps_bind _ _ (λ o, ∃ ss, o = EncodeRelayAgentInformationOption ss)).
  { cbv zeta. destruct (negb _); [eapply keeps_bind; [by apply keeps_emit|]; intros _ _|];
      apply keeps_ret; by eexists. }
  intros o [ss ->]. destruct (IsOption _) eqn:Eo; [|apply keeps_fail].
  eapply keeps_bind.
  { apply keeps_put_msg, typed_set_hops; [apply u8_range|]. apply typed_SetOption; [|done]. by apply Encode_typed. }
  intros _ _. apply ResolveGiaddr_spec in Hr as (_ & _ & Hg & _); [|done]. unfold giaddrs in Hg.
  case_bool_decide; cbn [negb] in *.
  - apply keeps_for_each. intros x Hx. apply keeps_send, global_unicast_length.
    rewrite Forall_map, Forall_forall in Hg. by apply Hg.
  - apply keeps_send, global_unicast_length. by rewrite Forall_singleton in Hg.
Qed.

Lemma keeps_ReplyTargets match_ ingress : keeps (ReplyTargets match_ ingress) (λ _, True).
Proof.
  unfold ReplyTargets. destruct match_ as [f|]; [|by apply keeps_ret].
  eapply keeps_bind; [apply keeps_get_cache|]. intros [c|] _; [|by repeat keep_step].
  destruct (InterfaceCache_Interfaces c) as [c' [ifaces err]].
  eapply keeps_bind; [apply keeps_put_cache|]. intros _ _.
  eapply keeps_bind; [instantiate (1 := λ _, True); by repeat keep_step|]. intros _ _. cbv zeta.
  repeat case_match; repeat keep_step; try done.
Qed.

Lemma link_address_written protocol i hw sa :
  hw ≠ [] → Sockets.setLinkLayerAddr (Sockets.new_sockaddr protocol i) hw = Ok sa →
  (length hw ≤ 8)%nat ∧ take (Z.to_nat (Sockets.sa_Halen sa)) (Sockets.sa_Addr sa) = hw.
Proof.
  intros Hne Hs. pose proof (Sockets.setLinkLayerAddr_fits _ _ _ _ Hs) as Hl.
  rewrite Sockets.setLinkLayerAddr_ok in Hs by done. injection Hs as <-. cbn [Sockets.sa_Halen Sockets.sa_Addr].
  unfold Sockets.sa_capacity in Hl. split; [lia|]. rewrite Nat2Z.id. apply take_app_length.
Qed.

Lemma keeps_SendReply nic dstMAC l : keeps (SendReply nic dstMAC l reply_udp) (λ _, True).
Proof.
  unfold SendReply. destruct (Z.eqb_spec (len (HardwareAddr nic)) 0) as [|Hne]; [apply keeps_fail|].
  repeat keep_step; try done.
  match goal with Hf : wrap _ (SerializeFrame _ _ _ ?m) = Ok _, Hs : wrap _ (Sockets.setLinkLayerAddr _ _) = _ |- _ =>
    apply wrap_Ok in Hf; apply wrap_Ok in Hs; destruct (link_address_written _ _ _ _ ltac:(by intros E; rewrite E in Hne) Hs)
      as [Hl ->]; split; [split; [destruct (HardwareAddr nic); [done|cbn; lia]|done]|];
    eexists _, l, m; split; [done|]; split; [|split; [|exact Hf]]; done
  end.
Qed.

Lemma keeps_send_copies replyType ingress srcIP dstMAC l targets :
  keeps (send_copies replyType ingress srcIP dstMAC l reply_udp targets) (λ _, True).
Proof.
  revert l. induction targets as [|nic targets IH]; intros l; [by apply keeps_ret|]. cbn [send_copies].
  eapply keeps_bind; [apply keeps_get_msg|]. intros m _. destruct (copy_source _ _ _ _ _ _) as [l'|e].
  - eapply keeps_bind; [eapply keeps_attempt, keeps_SendReply|]. intros r _.
    eapply keeps_bind; [apply IH|]. intros errs _. by apply keeps_ret.
  - eapply keeps_bind; [apply IH|]. intros errs _. by apply keeps_ret.
Qed.

Lemma keeps_HandleGenericReply cfg dec replyType : keeps (HandleGenericReply cfg dec replyType) (λ _, True).
Proof.
  unfold HandleGenericReply. cbv zeta. destruct (DropReply _); [by apply keeps_emit|].
  eapply keeps_bind; [apply keeps_get_msg|]. intros m Hm. destruct (_ || _); [apply keeps_fail|].
  eapply keeps_bind; [instantiate (1 := λ _, True); by repeat keep_step|]. intros subOpts _.
  destruct (len subOpts =? 0); [apply keeps_fail|].
  eapply keeps_bind; [apply keeps_for_each; intros; by apply keeps_emit|]. intros _ _.
  destruct (_ =? 0); [apply keeps_fail|]. keep_step. destruct (_ || _); [apply keeps_fail|].
  set (m' := set_RelayAgentIP [] _). assert (Hm' : typed m')
    by (apply typed_set_giaddr; [left|by apply typed_DeleteOption]).
  keep_step; [done|]. keep_step. destruct a0 as [[mac l'] m2].
  eapply keeps_bind; [apply keeps_put_msg; by eapply ReplyAddressing_typed; [eapply wrap_Ok|]|]. intros _ _.
  eapply keeps_bind; [apply keeps_ReplyTargets|]. intros targets _. keep_step. keep_step.
  eapply keeps_bind; [apply keeps_send_copies|]. intros errs _. by apply keeps_lift.
Qed.

Lemma keeps_log_errors lvl txt c : keeps c (λ _, True) → keeps (log_errors lvl txt c) (λ _, True).
Proof. intros Hc. unfold log_errors. eapply keeps_bind; [by eapply keeps_attempt|]. intros [[]|e] _; by keep_step. Qed.

Lemma keeps_Handle `{UnicodeTables} cfg dec ifIndex :
  good_config cfg → keeps (Handle cfg dec ifIndex) (λ _, True).
Proof.
  intros Hcfg. unfold Handle. cbv zeta. eapply keeps_bind; [apply keeps_get_msg|]. intros m _.
  repeat match goal with
  | |- keeps (log_errors _ _ _) _ => apply keeps_log_errors
  | |- keeps (ForwardRelayedRequest _ _) _ => apply keeps_ForwardRelayedRequest
  | |- keeps (HandleGenericRequest _ _ _) _ => by apply keeps_HandleGenericRequest
  | |- keeps ForwardRelayedReply _ => apply keeps_ForwardRelayedReply
  | |- keeps (HandleGenericReply _ _ _) _ => apply keeps_HandleGenericReply
  | |- keeps ((if _ then _ else _) ≫= _) _ =>
      eapply keeps_bind; [instantiate (1 := λ _, True); by repeat keep_step|intros _ _]
  | _ => keep_step
  end; done.
Qed.

End handlers.

(** ** Properties *)

(** C14: messages keep their type.  From a message whose hop count is a byte, whose flags are sixteen bits,
    whose giaddr is absent or an IP address, and whose options carry their true length and occur once,
    [dhcp4.Handle] leaves such a message on every path, errors included; and every datagram or frame it
    writes is the serialisation of one, to the server port or from the link address of the interface it
    leaves by. *)
Theorem handle_typed `{GopacketLaws} `{Host} `{UnicodeTables} (cfg : HandleOptions) (dec : option Decision)
    (ifIndex : Z) (s : st) :
  good_config cfg → typed (msg s) → tr s = [] →
  let s' := (Handle cfg dec ifIndex s).1 in typed (msg s') ∧ Forall typed_event (tr s').
Proof.
  intros Hcfg Hm Ht. apply (keeps_Handle cfg dec ifIndex Hcfg). split; [done|]. by rewrite Ht.
Qed.

Lemma handle_typed_witness :
  typed RequestExample.discover ∧
  Forall (@typed_event TestPacket.test_gopacket)
    (tr (@Handle TestPacket.test_gopacket TestHost.test_host ascii_tables RequestExample.cfg None 2
           RequestExample.s0).1).
Proof.
  assert (Hm : typed RequestExample.discover).
  { split; cbn; [lia|lia|set_solver| |].
    - apply Forall_singleton. split; [cbn; lia|]. split; [reflexivity|cbn; unfold DHCPv4MaxOptionSize; lia].
    - apply NoDup_singleton. }
  split; [exact Hm|].
  apply (@handle_typed TestPacket.test_gopacket TestPacket.test_gopacket_laws TestHost.test_host ascii_tables
    RequestExample.cfg None 2 RequestExample.s0); [|exact Hm|reflexivity].
  split; [left; reflexivity|]. intros lookup name mac subnet [= <-]. case_bool_decide; [|discriminate].
  intros [= <-]. reflexivity.
Defined.
