(* ===== verification/Relay.v ===== *)
(** * Policy on the packet path: [pkg/relay/relay.go].

    Turns the policy of a client into the decision for one packet, in both directions. *)

From S2P Require Import Prelude GoStrings GoNet Specs Layers DhcpOptions Option82 Glob CfgMatch FileWatch.
From S2P Require Import MacPolicy Host Addrs Request.

(** [RequestConfig]. *)
Definition RequestConfig (action : Action) (key : bytes) : Decision :=
  {| ServerAddress := if bool_decide (act_Kind action = ActionServer) then act_Server action else [];
     PolicyTag := key; ReplyNICMatch := None; ReplySubOpts := []; DropReply := false |}.

(** The client identifier of a packet: the data of Option 61, nil when it is missing. *)
Definition client_id (m : DHCPv4) : bytes :=
  let opt := GetOption m DHCPOptClientID in
  if IsOption opt then opt_Data opt else [].

Definition set_ReplySubOpts (subOpts : list DHCPOption) (d : Decision) : Decision :=
  {| ServerAddress := ServerAddress d; PolicyTag := PolicyTag d; ReplyNICMatch := ReplyNICMatch d;
     ReplySubOpts := subOpts; DropReply := DropReply d |}.

(** The live policy as one packet reads it.  Each lookup loads the current snapshot, and the reply path looks
    up twice, so the poller may publish a new table in between: the two fields are the policy at the first
    and at the second lookup. *)
Record reads := { first_read : Map; second_read : Map }.

(** No reload in between. *)
Definition at_once (policy : Map) : reads := {| first_read := policy; second_read := policy |}.

Section relay.
Context `{UnicodeTables}.

(** [ReplyConfig]: the match of a selector is its bound method. *)
Definition ReplyConfig (action : Action) : Decision :=
  {| ServerAddress := []; PolicyTag := [];
     ReplyNICMatch :=
       match rep_Kind (act_Reply action) with
       | ReplyMatch => Some (Selector_Match (rep_Selector (act_Reply action)))
       | _ => None
       end;
     ReplySubOpts := [];
     DropReply := bool_decide (rep_Kind (act_Reply action) = ReplyBlackhole) |}.

Definition lookupReplyActionFromSubOpts (policy : reads) (m : DHCPv4) (clientID : bytes)
    (subOpts : list DHCPOption) : Action :=
  let base := Map_Lookup (first_read policy) [clientID; ClientHWAddr m] in
  if bool_decide (act_Kind base = ActionBlackhole) then base
  else
    let tag := ExtractPolicyTagSubOptionData subOpts in
    if 0 <? len tag then
      let '(action, id) := Map_LookupID (second_read policy) [tag] in
      if negb (bool_decide (id = [])) then action else base
    else base.

Definition LookupReplyAction (policy : reads) (m : DHCPv4) (clientID : bytes) :
    Action * list DHCPOption :=
  let opt82 := GetRelayAgentInformationOption m in
  let subOpts := if IsOption opt82 then DecodeRelayAgentInformationOption opt82 else [] in
  (lookupReplyActionFromSubOpts policy m clientID subOpts, subOpts).

(** [PolicyForPacket]: [None] is a packet to drop. *)
Definition PolicyForPacket (policy : reads) (m : DHCPv4) : option Decision :=
  let clientID := client_id m in
  if Operation m =? DHCPOpReply then
    let '(action, subOpts) := LookupReplyAction policy m clientID in
    if bool_decide (act_Kind action = ActionBlackhole) then None
    else Some (set_ReplySubOpts subOpts (ReplyConfig action))
  else
    let '(action, key) := Map_LookupID (first_read policy) [clientID; ClientHWAddr m] in
    if bool_decide (act_Kind action = ActionBlackhole) then None
    else Some (RequestConfig action key).

(** ** Lemmas *)

(** The action of a client by its own identifiers. *)
Definition base_action (policy : Map) (m : DHCPv4) : Action :=
  Map_Lookup policy [client_id m; ClientHWAddr m].

Lemma lookupReply_blackhole policy m subOpts :
  act_Kind (base_action (first_read policy) m) = ActionBlackhole →
  lookupReplyActionFromSubOpts policy m (client_id m) subOpts = base_action (first_read policy) m.
Proof.
  intros Hb. unfold lookupReplyActionFromSubOpts. fold (base_action (first_read policy) m).
  by rewrite bool_decide_eq_true_2.
Qed.

Lemma PolicyForPacket_blackhole policy m :
  act_Kind (base_action (first_read policy) m) = ActionBlackhole → PolicyForPacket policy m = None.
Proof.
  intros Hb. unfold PolicyForPacket, LookupReplyAction. destruct (Operation m =? DHCPOpReply).
  - by rewrite lookupReply_blackhole, bool_decide_eq_true_2.
  - unfold base_action, Map_Lookup in Hb. destruct (Map_LookupID _ _) as [a k]. simpl in Hb.
    by rewrite bool_decide_eq_true_2.
Qed.

(** The snapshot lookup of a key that matched. *)
Lemma Map_LookupID_key policy ids a k :
  Map_LookupID policy ids = (a, k) → k ≠ [] → Map_LookupID policy [k] = (a, k).
Proof.
  unfold Map_LookupID. destruct (Snapshot policy) as [t|]; [|intros [= <- <-]; done].
  intros Hl Hk. by apply (LookupID_key t ids).
Qed.

Lemma lookupReply_tag policy m subOpts a k :
  act_Kind (base_action (first_read policy) m) ≠ ActionBlackhole →
  ExtractPolicyTagSubOptionData subOpts = k → k ≠ [] → Map_LookupID (second_read policy) [k] = (a, k) →
  lookupReplyActionFromSubOpts policy m (client_id m) subOpts = a.
Proof.
  intros Hb Hk Hne Hl. unfold lookupReplyActionFromSubOpts. fold (base_action (first_read policy) m).
  rewrite bool_decide_eq_false_2, Hk by done. cbv zeta.
  rewrite (proj2 (Z.ltb_lt 0 (len k))) by (destruct k; [done|simpl; lia]).
  by rewrite Hl, (bool_decide_eq_false_2 (k = [])).
Qed.

Lemma request_decision policy m d :
  Operation m ≠ DHCPOpReply → PolicyForPacket policy m = Some d →
  ∃ a k, Map_LookupID (first_read policy) [client_id m; ClientHWAddr m] = (a, k) ∧ d = RequestConfig a k ∧
    act_Kind a ≠ ActionBlackhole.
Proof.
  intros Ho. unfold PolicyForPacket. rewrite (proj2 (Z.eqb_neq (Operation m) DHCPOpReply)) by done.
  destruct (Map_LookupID _ _) as [a k]. case_bool_decide; [done|]. intros [= <-]. by exists a, k.
Qed.

End relay.

(** ** Properties *)

(** C5: a blackhole cannot be bypassed.  When the identifiers in the packet itself, Option 61 or chaddr,
    select a blackhole in the policy its first lookup reads, the packet is dropped in either direction,
    whatever policy tag or other Option 82 content it carries and whatever a reload in between brings; and
    a request is dropped only then. *)
Theorem blackhole_not_bypassed `{UnicodeTables} (policy : reads) (m : DHCPv4) :
  (act_Kind (base_action (first_read policy) m) = ActionBlackhole → PolicyForPacket policy m = None) ∧
  (Operation m ≠ DHCPOpReply →
   PolicyForPacket policy m = None → act_Kind (base_action (first_read policy) m) = ActionBlackhole).
Proof.
  split; [apply PolicyForPacket_blackhole|]. intros Ho. unfold PolicyForPacket, base_action, Map_Lookup.
  rewrite (proj2 (Z.eqb_neq (Operation m) DHCPOpReply)) by done.
  destruct (Map_LookupID _ _) as [a k]. simpl. by case_bool_decide.
Qed.

(** C6: the reply path reapplies the action the request path matched.  If a request was relayed with its
    policy key as tag, the key is short enough to fit beside a link selection, six bytes less than the
    longest key, and the reply echoes its Option 82, then, as long as the table read for the tag is still the
    one the request was decided by and the reply's own identifiers are not blackholed when it arrives, the
    reply gets the reverse path action of exactly that key, even when it has no Option 61, together with the
    decoded sub-options. *)
Theorem reply_reapplies_policy `{GopacketLaws} `{UnicodeTables} (before after : reads) (req rep : DHCPv4)
    (d : Decision) (ifIndex : Z) (link : bytes) :
  Operation req ≠ DHCPOpReply → Operation rep = DHCPOpReply →
  PolicyForPacket before req = Some d → PolicyTag d ≠ [] →
  0 < ifIndex < 2 ^ 31 → good_link link → len (PolicyTag d) ≤ MaxPolicyTagSize - 6 →
  GetRelayAgentInformationOption rep =
    GetRelayAgentInformationOption (relayed_request req (request_subs (Some d) ifIndex link)) →
  Snapshot (second_read after) = Snapshot (first_read before) →
  act_Kind (base_action (first_read after) rep) ≠ ActionBlackhole →
  ∃ a, Map_LookupID (first_read before) [client_id req; ClientHWAddr req] = (a, PolicyTag d) ∧
    PolicyForPacket after rep =
      Some (set_ReplySubOpts (request_subs (Some d) ifIndex link) (ReplyConfig a)).
Proof.
  intros Hreq Hrep Hd Htag Hi Hl Hlen Heq Hsnap Hbase.
  destruct (request_decision before req d Hreq Hd) as (a & k & Hlk & -> & Hk).
  change (PolicyTag (RequestConfig a k)) with k in *. exists a. split; [done|].
  destruct (request_subs_wf (Some (RequestConfig a k)) ifIndex link Hl) as (Hne & Hall & Hlen').
  destruct (Get_Set_relay_info req _ Hall Hne Hlen') as [Hopt Hdec].
  change (GetRelayAgentInformationOption (SetOption req _)) with (GetRelayAgentInformationOption
    (relayed_request req (request_subs (Some (RequestConfig a k)) ifIndex link))) in Hopt, Hdec.
  rewrite <- Heq in Hopt, Hdec.
  destruct (request_subs_extract (Some (RequestConfig a k)) ifIndex link Hi Hl) as (_ & _ & Htagx & _).
  unfold PolicyForPacket, LookupReplyAction.
  rewrite (proj2 (Z.eqb_eq (Operation rep) DHCPOpReply)), Hopt, Hdec by done.
  rewrite (lookupReply_tag after rep _ a k); [by rewrite bool_decide_eq_false_2|done| |done|].
  - destruct Htagx as [->|[_ Hbig]]; [done|]. cbn [policy_tag PolicyTag RequestConfig] in Hbig. lia.
  - unfold Map_LookupID. rewrite Hsnap. by eapply Map_LookupID_key.
Qed.

(** with a strict allow-list the tag does not stand in for a missing Option 61.  If a request was
    accepted through a client identifier, the fallback is the blackhole and the hardware address has no
    entry, then a reply without Option 61 is dropped although the policy tag it echoes is a valid key. *)
Theorem tag_does_not_replace_client_id `{UnicodeTables} (policy : reads) (t : Table) (rep : DHCPv4) :
  Snapshot (first_read policy) = Some t → act_Kind (fallback t) = ActionBlackhole →
  entries t !! ClientHWAddr rep = None → GetOption rep DHCPOptClientID = zero_option →
  PolicyForPacket policy rep = None.
Proof.
  intros Hs Hf Hc Ho. apply PolicyForPacket_blackhole.
  unfold base_action, Map_Lookup, Map_LookupID, client_id. rewrite Hs, Ho. cbn.
  destruct (len (ClientHWAddr rep) =? 0); [done|]. by rewrite Hc.
Qed.

(** ** Witnesses *)

Module RelayExample.

(** A live policy that serves [t]. *)
Definition live_map (t : Table) : Map :=
  {| parse := @Parse ascii_tables; validate := Some ValidateContext; interval := DefaultPollInterval; snap := Some t;
     lastInfo := None; done := false; logged := [] |}.

Definition policy (t : Table) : reads := at_once (live_map t).

(** A request that names the client identifier of the example policy, and the reply of a server that
    echoes Option 82 but not Option 61. *)
Definition request : DHCPv4 :=
  set_Options [mkOption 53 1 [1]; mkOption 61 3 [1; 170; 187]] RequestExample.discover.

Definition decision : Decision := RequestConfig (Table_Lookup MacPolicy.example_table [[1; 170; 187]]) [1; 170; 187].

Definition reply : DHCPv4 :=
  {| Operation := 2; HardwareType := 1; HardwareLen := 6; RelayHops := 1; Xid := 7; Flags := 0;
     ClientIP := [0; 0; 0; 0]; YourClientIP := [192; 168; 50; 77]; RelayAgentIP := [192; 168; 50; 1];
     ClientHWAddr := [2; 0; 0; 0; 0; 9]; File := [];
     Options := [mkOption 53 1 [2];
       @EncodeRelayAgentInformationOption TestPacket.test_gopacket (request_subs (Some decision) 2 [])];
     Rest := [] |}.

(** An allow-list with one client identifier and nothing else. *)
Definition strict : Table :=
  {| entries := <[[1; 170; 187] := mkAction ActionDefault []]> ∅; fallback := zero_action |}.

End RelayExample.

(** The policy was reloaded when the reply arrives, and again between its two lookups. *)
Lemma reply_reapplies_policy_witness :
  let after := {| first_read := RelayExample.live_map
                    {| entries := ∅; fallback := mkAction ActionDefault [] |};
                  second_read := RelayExample.live_map MacPolicy.example_table |} in
  ∃ a, Map_LookupID (RelayExample.live_map MacPolicy.example_table)
         [client_id RelayExample.request; ClientHWAddr RelayExample.request] = (a, [1; 170; 187]) ∧
    @PolicyForPacket ascii_tables after RelayExample.reply =
      Some (set_ReplySubOpts (request_subs (Some RelayExample.decision) 2 [])
              (@ReplyConfig ascii_tables a)).
Proof.
  intros after.
  apply (@reply_reapplies_policy TestPacket.test_gopacket TestPacket.test_gopacket_laws ascii_tables
    (RelayExample.policy MacPolicy.example_table) after RelayExample.request RelayExample.reply
    RelayExample.decision 2 []).
  - discriminate.
  - reflexivity.
  - vm_compute. reflexivity.
  - discriminate.
  - lia.
  - left. reflexivity.
  - vm_compute. discriminate.
  - vm_compute. reflexivity.
  - reflexivity.
  - vm_compute. discriminate.
Defined.

Lemma tag_does_not_replace_client_id_witness :
  @PolicyForPacket ascii_tables (RelayExample.policy RelayExample.strict) RelayExample.request ≠ None ∧
  ExtractPolicyTagSubOptionData
    (DecodeRelayAgentInformationOption (GetRelayAgentInformationOption RelayExample.reply)) =
    [1; 170; 187] ∧
  @PolicyForPacket ascii_tables (RelayExample.policy RelayExample.strict) RelayExample.reply = None.
Proof.
  split; [vm_compute; discriminate|]. split; [vm_compute; reflexivity|].
  apply (@tag_does_not_replace_client_id ascii_tables (RelayExample.policy RelayExample.strict)
    RelayExample.strict RelayExample.reply).
  - reflexivity.
  - reflexivity.
  - vm_compute. reflexivity.
  - vm_compute. reflexivity.
Defined.
