(* ===== verification/Main.v ===== *)
(** * The program: [main.go].

    Flag validation and the configuration built from it, the path of one received frame up to its
    handler, and the pool of handlers with the drain at shutdown. *)

From S2P Require Import Prelude GoStrings GoNet Specs Layers DhcpOptions Option82 Glob CfgMatch FileWatch.
From S2P Require Import LinkMap MacPolicy Host Addrs IfCache Request Reply Dhcp4 WellTyped Relay LayerAccess CmdLine.

Definition dhcpLayerChainDepth : Z := 4.

(** ** Configuration *)

Section config.
Context `{UnicodeTables}.

(** The [HandleOptions] of [main]; the link map is looked up through its current snapshot. *)
Definition make_config (fl : Flags) (giaddr : bytes) (links : option (Watcher LinkMap.Table unit)) :
    HandleOptions :=
  {| LinkMap := match links with Some lm => Some (LinkMap.Map_Lookup lm) | None => None end;
     DHCPServerAddress := flagUpstreamDHCPServerAddr fl; Giaddr := giaddr;
     MaxHops := u8 (flagMaxHops fl); BroadcastReplyL2Unicast := flagBroadcastReplyL2Unicast fl;
     ReplyTTL := u8 (flagReplyTTL fl) |}.

Definition validate_options (fl : Flags) : ValidateOptions :=
  {| MTU := u16 (flagMTU fl); VerifyChecksums := flagVerifyChecksums fl |}.

End config.

(** ** One received frame *)

(** [DecodingLayerParser.DecodeLayers] of gopacket: the layers it decoded, in order, into the four
    structs. *)
Class Decoder := {
  DecodeLayers : bytes → result (list LayerType * (Ethernet * IPv4 * UDP * DHCPv4))
}.

(** The hop count of a decoded message is an unsigned byte. *)
Class DecoderLaws `{Decoder} : Prop := {
  decoded_representable data decoded eth ip udp m :
    DecodeLayers data = Ok (decoded, (eth, ip, udp, m)) → representable m
}.

(** What becomes of a frame. *)
Inductive outcome :=
| Discarded (reason : string)
| PoolFull
| Spawned (dec : option Decision) (ifIndex : Z) (m : DHCPv4).

Section packet.
Context `{Gopacket} `{UnicodeTables} `{Decoder}.

(** The deferred function of [handlePacket]: what it does, and whether a panic goes on. *)
Definition recover_receive (panicking : bool) : trace * bool :=
  if panicking then ([Log Error "Recovered DHCPv4 receive panic"], false) else ([], false).

(** What [handlePacket] logs. *)
Definition frame_log (o : outcome) : trace :=
  match o with
  | Discarded reason => [Log Debug reason]
  | PoolFull => [Log Warn "Dropping DHCPv4 message: handler pool full"]
  | Spawned _ _ _ => []
  end.

(** The body of [handlePacket]: [free] tells whether the semaphore accepts another handler. *)
Definition handlePacket (fl : Flags) (policy : option reads) (Ifindex : Z) (data : bytes)
    (free : bool) : outcome :=
  if Ifindex <? 1 then Discarded "Invalid IfIndex value"
  else
    match DecodeLayers data with
    | Err e => Discarded "Packet decode error"
    | Ok (decoded, (eth, ip, udp, m)) =>
        if negb (len decoded =? dhcpLayerChainDepth) ||
           negb (bool_decide (last decoded = Some LayerTypeDHCPv4))
        then Discarded "Incomplete DHCPv4 layer chain"
        else
          match ValidateLayers (validate_options fl) (Some eth) (Some ip) (Some udp) (Some m) with
          | Err e => Discarded "Packet validation error"
          | Ok _ =>
              let m := set_Options (DeleteSplitOptions (Options m)) m in
              match
                match policy with
                | Some p => match PolicyForPacket p m with None => None | Some d => Some (Some d) end
                | None => Some None
                end
              with
              | None => Discarded "Dropping DHCPv4 message (blackhole)"
              | Some dec => if free then Spawned dec Ifindex m else PoolFull
              end
          end
    end.

End packet.

(** ** The handler pool

    A handler holds a slot of the semaphore while it runs, frees it when it returns, and then leaves
    the wait group. *)

Record pool := {
  max_handlers : nat;
  running : nat;
  leaving : nat;
  receiving : bool;
  conn_open : bool
}.

(** The counters of the Go values. *)
Definition semaphore (p : pool) : nat := running p.
Definition waitgroup (p : pool) : nat := (running p + leaving p)%nat.

Inductive drainResult := drainCompleted | drainForced | drainTimedOut.

(** [waitForHandlers]: the select takes a case that is ready; completion is ready when the wait group
    has reached zero. *)
Definition drain_possible (p : pool) (r : drainResult) : Prop :=
  match r with drainCompleted => waitgroup p = 0%nat | _ => True end.

Definition start_pool (n : nat) : pool :=
  {| max_handlers := n; running := 0; leaving := 0; receiving := true; conn_open := true |}.

Inductive pool_step : pool → pool → Prop :=
| step_spawn p :
    receiving p = true → (semaphore p < max_handlers p)%nat →
    pool_step p {| max_handlers := max_handlers p; running := S (running p); leaving := leaving p;
                   receiving := true; conn_open := conn_open p |}
| step_full p :
    receiving p = true → ¬ (semaphore p < max_handlers p)%nat → pool_step p p
| step_release p n :
    running p = S n →
    pool_step p {| max_handlers := max_handlers p; running := n; leaving := S (leaving p);
                   receiving := receiving p; conn_open := conn_open p |}
| step_done p n :
    leaving p = S n →
    pool_step p {| max_handlers := max_handlers p; running := running p; leaving := n;
                   receiving := receiving p; conn_open := conn_open p |}
| step_shutdown p :
    receiving p = true →
    pool_step p {| max_handlers := max_handlers p; running := running p; leaving := leaving p;
                   receiving := false; conn_open := conn_open p |}
| step_drain p r :
    receiving p = false → drain_possible p r →
    pool_step p {| max_handlers := max_handlers p; running := running p; leaving := leaving p;
                   receiving := false;
                   conn_open := match r with drainCompleted => false | _ => conn_open p end |}.

(** ** Lemmas *)

(** A live link map only answers with IPv4 subnets. *)
Lemma live_link_map_subnets `{UnicodeTables} (lm : Watcher LinkMap.Table unit) name mac subnet :
  live LinkMap.Parse None lm → LinkMap.Map_Lookup lm name mac = Some subnet → length subnet = 4%nat.
Proof.
  intros (_ & _ & t & info & Hs & _ & os & ws & _ & _ & _ & Hp & _).
  unfold LinkMap.Map_Lookup, Snapshot. rewrite Hs. intros Hl.
  apply Table_Lookup_first in Hl as (pre & e & post & He & <- & _).
  assert (Hin : e ∈ LinkMap.entries t) by (rewrite He; apply elem_of_app; right; left).
  by destruct (Parse_subnets _ _ _ e Hp Hin).
Qed.

(** Accepted flags and a live link map, if any, give a configuration the handlers rely on. *)
Lemma make_config_good `{UnicodeTables} (fl : Flags) (giaddr : bytes)
    (links : option (Watcher LinkMap.Table unit)) :
  check_flags fl = Ok giaddr → (∀ lm, links = Some lm → live LinkMap.Parse None lm) →
  good_config (make_config fl giaddr links).
Proof.
  intros Hc Hl. apply check_flags_ok in Hc as (_ & _ & _ & _ & _ & Hg). split.
  - cbn. destruct Hg as [[-> _]|(? & ? & _)]; auto.
  - intros lookup name mac subnet. cbn. destruct links as [lm|]; [|done].
    intros [= <-]. by apply live_link_map_subnets, Hl.
Qed.

(** The gates a frame has passed when a handler is started for it. *)
Definition passed_gates `{Gopacket} `{UnicodeTables} `{Decoder} (fl : Flags) (policy : option reads)
    (Ifindex : Z) (data : bytes) (dec : option Decision) (ifIndex : Z) (m : DHCPv4) : Prop :=
  ifIndex = Ifindex ∧ 1 ≤ Ifindex ∧ NoDup (map opt_Type (Options m)) ∧
  (∃ decoded eth ip udp m0, DecodeLayers data = Ok (decoded, (eth, ip, udp, m0)) ∧
     length decoded = 4%nat ∧ last decoded = Some LayerTypeDHCPv4 ∧
     ValidateLayers (validate_options fl) (Some eth) (Some ip) (Some udp) (Some m0) = Ok () ∧
     m = set_Options (DeleteSplitOptions (Options m0)) m0) ∧
  match policy with
  | None => dec = None
  | Some p => ∃ d, dec = Some d ∧ PolicyForPacket p m = Some d ∧
                   act_Kind (base_action (first_read p) m) ≠ ActionBlackhole
  end.

Lemma handlePacket_gates `{Gopacket} `{UnicodeTables} `{Decoder} (fl : Flags) (policy : option reads)
    (Ifindex : Z) (data : bytes) (free : bool) (dec : option Decision) (ifIndex : Z) (m : DHCPv4) :
  handlePacket fl policy Ifindex data free = Spawned dec ifIndex m →
  free = true ∧ passed_gates fl policy Ifindex data dec ifIndex m.
Proof.
  unfold handlePacket, passed_gates. destruct (Z.ltb_spec Ifindex 1) as [?|Hi]; [done|].
  destruct (DecodeLayers data) as [[decoded [[[eth ip] udp] m0]]|e]; [|done].
  destruct (Z.eqb_spec (len decoded) dhcpLayerChainDepth) as [Hlen|?]; cbn [negb orb]; [|done].
  case_bool_decide as Hlast; cbn [negb]; [|done].
  destruct (ValidateLayers _ _ _ _ _) as [[]|e] eqn:Ev; [|done].
  set (m' := set_Options (DeleteSplitOptions (Options m0)) m0).
  destruct policy as [p|]; [destruct (PolicyForPacket p m') as [d|] eqn:Ep; [|done]|];
    destruct free; try done; intros [= <- <- <-];
    (split; [done|]; split; [done|]; split; [done|]; split; [apply DeleteSplitOptions_NoDup|]);
    (split; [exists decoded, eth, ip, udp, m0; unfold dhcpLayerChainDepth in Hlen;
             repeat split; try done; lia|]); [|done].
  exists d. split; [done|]. split; [done|]. intros Hb. by rewrite PolicyForPacket_blackhole in Ep.
Qed.

(** The invariant of the pool: never more handlers than slots, and a closed connection has no users. *)
Definition pool_ok (n : nat) (p : pool) : Prop :=
  max_handlers p = n ∧ (semaphore p ≤ n)%nat ∧
  (conn_open p = false → receiving p = false ∧ waitgroup p = 0%nat).

Lemma pool_ok_step n p p' : pool_ok n p → pool_step p p' → pool_ok n p'.
Proof.
  unfold pool_ok, semaphore, waitgroup. intros (Hn & Hs & Hc) Hstep.
  destruct Hstep as [p Hr Hlt|p Hr Hge|p k Hk|p k Hk|p Hr|p r Hr Hd]; unfold semaphore in *;
    cbn [max_handlers running leaving receiving conn_open] in *; (split; [done|]);
    (split; [lia|]); intros Ho.
  - destruct (Hc Ho) as [? _]. congruence.
  - by apply Hc.
  - destruct (Hc Ho) as [? ?]. lia.
  - destruct (Hc Ho) as [? ?]. lia.
  - destruct (Hc Ho) as [? ?]. done.
  - split; [done|]. destruct r; [done|by apply Hc..].
Qed.

Lemma pool_ok_steps n p p' : pool_ok n p → rtc pool_step p p' → pool_ok n p'.
Proof. intros H0 Hr. revert H0. induction Hr; eauto using pool_ok_step. Qed.

(** ** Properties *)

(** C39: accepted flags survive their conversion.  When the checks pass, the eight and sixteen bit values
    of the configuration equal the flags, the hop limit and the TTL are at least one, the MTU admits a
    minimal message so validation never rejects its own options, and the giaddr is absent or a four
    byte global unicast address. *)
Theorem flags_lossless `{UnicodeTables} (fl : Flags) (giaddr : bytes)
    (links : option (Watcher LinkMap.Table unit)) :
  check_flags fl = Ok giaddr →
  let cfg := make_config fl giaddr links in
  MaxHops cfg = flagMaxHops fl ∧ 1 ≤ MaxHops cfg ≤ 255 ∧
  ReplyTTL cfg = flagReplyTTL fl ∧ 1 ≤ ReplyTTL cfg ≤ 255 ∧
  MTU (validate_options fl) = flagMTU fl ∧ DHCPv4MinMessageSize ≤ MTU (validate_options fl) ∧
  DHCPServerAddress cfg ≠ [] ∧
  (Giaddr cfg = [] ∨ length (Giaddr cfg) = 4%nat ∧ IsGlobalUnicastIPv4 (Giaddr cfg) = true).
Proof.
  intros Hc. apply check_flags_ok in Hc as (Hs & Ht & Hm & _ & Hh & Hg). cbv zeta.
  unfold make_config, validate_options, DHCPv4MinMessageSize. cbn.
  rewrite !u8_small, u16_small by lia. repeat (split; [done || lia|]).
  destruct Hg as [[-> _]|(? & ? & _)]; auto.
Qed.

(** the configuration of a running relay is always one the request path relies on: whatever reloads,
    failures and shutdown steps the link map has been through since it was loaded, its lookups answer
    only with four byte subnets, and the giaddr is absent or valid. *)
Theorem running_config_good `{UnicodeTables} (fl : Flags) (giaddr : bytes) (Interval : Z)
    (abs : result unit) (os : Answers unit) (lm : Watcher LinkMap.Table unit) (st : FileWatch.state _ _) :
  check_flags fl = Ok giaddr → linkmap_New Interval abs os = Ok lm → rtc FileWatch.step (initial lm) st →
  good_config (make_config fl giaddr (Some (watcher st))).
Proof.
  intros Hc Hnew Hr. apply make_config_good; [done|]. intros ? [= <-].
  destruct (New_live _ _ _ _ Hnew) as (p & [= <-] & Hl & _).
  by apply (live_steps LinkMap.Parse None (initial lm) st) in Hr.
Qed.

(** C22: a frame reaches a handler only through every gate: a valid interface index, a complete decoded
    chain, accepted layers, a policy that does not drop it, and a free slot; the handler gets the
    decision of the policy and the message with at most one instance of each option. *)
Theorem frame_gates `{Gopacket} `{UnicodeTables} `{Decoder} (fl : Flags) (policy : option reads)
    (Ifindex : Z) (data : bytes) (free : bool) (dec : option Decision) (ifIndex : Z) (m : DHCPv4) :
  handlePacket fl policy Ifindex data free = Spawned dec ifIndex m →
  free = true ∧ ifIndex = Ifindex ∧ 1 ≤ Ifindex ∧ NoDup (map opt_Type (Options m)) ∧
  (∃ decoded eth ip udp m0, DecodeLayers data = Ok (decoded, (eth, ip, udp, m0)) ∧
     length decoded = 4%nat ∧ last decoded = Some LayerTypeDHCPv4 ∧
     ValidateLayers (validate_options fl) (Some eth) (Some ip) (Some udp) (Some m0) = Ok () ∧
     m = set_Options (DeleteSplitOptions (Options m0)) m0) ∧
  match policy with
  | None => dec = None
  | Some p => ∃ d, dec = Some d ∧ PolicyForPacket p m = Some d ∧
                   act_Kind (base_action (first_read p) m) ≠ ActionBlackhole
  end.
Proof. apply handlePacket_gates. Qed.

(** C31: the pool is bounded and the drain is safe: in every reachable state at most the configured number
    of handlers run, and once the UDP socket has been closed no handler is left that could use it and
    none will start. *)
Theorem handler_pool_safe (n : nat) (p : pool) :
  rtc pool_step (start_pool n) p →
  (running p ≤ n)%nat ∧
  (conn_open p = false → running p = 0%nat ∧ leaving p = 0%nat ∧
     ∀ p', rtc pool_step p p' → running p' = 0%nat).
Proof.
  intros Hr. assert (H0 : pool_ok n (start_pool n)) by (unfold pool_ok, semaphore; cbn; repeat split; lia || done).
  pose proof (pool_ok_steps n _ _ H0 Hr) as Hok. pose proof Hok as (_ & Hs & Hc). split; [done|].
  intros Ho. destruct (Hc Ho) as [Hrec Hw]. unfold waitgroup in Hw. split; [lia|]. split; [lia|].
  intros p' Hr'. assert (Hq : running p = 0%nat ∧ receiving p = false) by (split; [lia|done]). clear - Hr' Hq.
  induction Hr' as [p|p q r Hpq _ IH]; [by destruct Hq|]. apply IH. clear IH. destruct Hq as [Hz Hf].
  destruct Hpq; cbn in *; try congruence; split; congruence.
Qed.

(** ** Witnesses *)

Module MainExample.

Definition flags : Flags :=
  set_flagUpstreamDHCPServerAddr (lit "10.0.0.9") (set_flagGiaddr (lit "10.0.0.2")
    (set_flagReplyTTL 64 (set_flagMaxHandlers 2 defaults))).

Definition info : FileInfo := {| dev := 1; ino := 2; fsize := 3; mtime := 4 |}.

Definition answers : Answers unit :=
  {| ans_open := Ok (); ans_stat := Ok info; ans_read := LinkMap.example_map; ans_stat_after := Ok info;
     ans_world := () |}.

Definition live_map : Watcher LinkMap.Table unit :=
  {| parse := @LinkMap.Parse ascii_tables; validate := None; interval := DefaultPollInterval;
     snap := Some LinkMap.example_table; lastInfo := Some info; done := false; logged := [LogInfo] |}.

Definition decoder : Decoder := {|
  DecodeLayers _ := Ok ([LayerTypeEthernet; LayerTypeIPv4; LayerTypeUDP; LayerTypeDHCPv4],
    ({| SrcMAC := [2; 0; 0; 0; 0; 1]; DstMAC := EthernetBroadcast; EthernetType := EthernetTypeIPv4 |},
     {| ip_Version := 4; ip_IHL := 5; ip_Id := 1; ip_Flags := 2; ip_FragOffset := 0; ip_TTL := 64;
        ip_Protocol := 17; ip_SrcIP := [0; 0; 0; 0]; ip_DstIP := [255; 255; 255; 255] |},
     {| udp_SrcPort := 68; udp_DstPort := 67 |}, RelayExample.request))
|}.

Lemma live_map_ok : @linkmap_New ascii_tables 0 (Ok ()) answers = Ok live_map.
Proof.
  assert (Hp : @LinkMap.Parse ascii_tables LinkMap.example_map = Ok (Some LinkMap.example_table, []))
    by (vm_compute; reflexivity).
  unfold linkmap_New, FileWatch.New. cbn [linkmap_config cfg_Parse cfg_Log cfg_Validate cfg_Interval negb].
  unfold Reload. cbn [wrap answers ans_open ans_stat ans_read ans_stat_after parse validate].
  rewrite Hp. reflexivity.
Qed.

End MainExample.

Lemma flags_lossless_witness :
  check_flags MainExample.flags = Ok [10; 0; 0; 2] ∧
  MaxHops (@make_config ascii_tables MainExample.flags [10; 0; 0; 2] None) = 16.
Proof.
  split; [vm_compute; reflexivity|].
  apply (@flags_lossless ascii_tables MainExample.flags [10; 0; 0; 2] None). vm_compute. reflexivity.
Defined.

Lemma running_config_good_witness :
  @linkmap_New ascii_tables 0 (Ok ()) MainExample.answers = Ok MainExample.live_map ∧
  good_config (@make_config ascii_tables MainExample.flags [10; 0; 0; 2] (Some MainExample.live_map)).
Proof.
  split; [exact MainExample.live_map_ok|].
  apply (@running_config_good ascii_tables MainExample.flags [10; 0; 0; 2] 0 (Ok ())
    MainExample.answers MainExample.live_map (initial MainExample.live_map)).
  - vm_compute. reflexivity.
  - exact MainExample.live_map_ok.
  - apply rtc_refl.
Defined.

Lemma frame_gates_witness :
  ∃ d, @handlePacket TestPacket.test_gopacket ascii_tables MainExample.decoder MainExample.flags
         (Some (RelayExample.policy MacPolicy.example_table)) 2 [] true =
         Spawned (Some d) 2 RelayExample.request ∧
    NoDup (map opt_Type (Options RelayExample.request)).
Proof.
  exists RelayExample.decision. split; [vm_compute; reflexivity|].
  apply (@frame_gates TestPacket.test_gopacket ascii_tables MainExample.decoder MainExample.flags
    (Some (RelayExample.policy MacPolicy.example_table)) 2 [] true (Some RelayExample.decision) 2
    RelayExample.request).
  vm_compute. reflexivity.
Defined.

(** One handler ran, the receiver stopped, the drain completed and the socket is closed. *)
Lemma handler_pool_safe_witness :
  let closed := {| max_handlers := 2; running := 0; leaving := 0; receiving := false; conn_open := false |} in
  rtc pool_step (start_pool 2) closed ∧ ∀ p', rtc pool_step closed p' → running p' = 0%nat.
Proof.
  intros closed.
  assert (Hr : rtc pool_step (start_pool 2) closed).
  { eapply rtc_l; [apply (step_spawn (start_pool 2)); [reflexivity|apply Nat.ltb_lt; reflexivity]|].
    eapply rtc_l; [apply (step_release _ 0); reflexivity|]. eapply rtc_l; [apply (step_done _ 0); reflexivity|].
    eapply rtc_l; [apply step_shutdown; reflexivity|].
    eapply rtc_l; [apply (step_drain _ drainCompleted); reflexivity|apply rtc_refl]. }
  split; [exact Hr|].
  destruct (handler_pool_safe 2 closed Hr) as [_ Hc]. destruct (Hc eq_refl) as (_ & _ & Hp). exact Hp.
Defined.
