(* ===== verification/Program.v ===== *)
(** * The program: [main] of [main.go].

    Startup, the receive loop and shutdown as one function over what the operating system answers.  Its
    state is the state of the components it starts; deferred calls run in reverse order when [main]
    returns and not at all when the process exits. *)

From S2P Require Import Prelude GoStrings GoNet Specs Layers LayerAccess Logger DebugServer Bpf Sockets.
From S2P Require Import FileWatch LinkMap MacPolicy Host Addrs IfCache Request Reply Dhcp4 Relay.
From S2P Require Import GoFlag Version CmdLine Main.

(** ** State *)

(** The deferred calls of [main]. *)
Inductive deferred :=
| DebugShutdown (server : nat)
| PolicyClose
| LinkMapClose
| SignalStop
| RawClose
| StopWake.

#[global] Instance deferred_eq_dec : EqDecision deferred.
Proof. solve_decision. Defined.

(** The calls to the logger on the goroutine of [main]. *)
Inductive log_entry :=
| Verbosity (on : bool)
| Line (s : logger.severity) (msg : string).

(** What [main] has built so far: which logger it chose and the calls to it, the debug web server, the two
    watchers, whether signals
    cancel the context, the raw socket, whether the UDP socket is open, whether cancellation wakes the
    receiver, what became of the received frames with the configuration their handlers get, and the
    deferred calls, last first. *)
Record prog := mkProg {
  datetime : bool;
  log : list log_entry;
  debug_web : web;
  policy : option MacPolicy.Map;
  links : option (Watcher LinkMap.Table unit);
  notified : bool;
  sockets : Sockets.world;
  udp_open : bool;
  wake_armed : bool;
  frames : list (HandleOptions * outcome);
  defers : list deferred
}.

(** Assignments to one component. *)
Definition set_datetime (b : bool) (p : prog) : prog :=
  mkProg b (log p) (debug_web p) (policy p) (links p) (notified p) (sockets p) (udp_open p) (wake_armed p)
    (frames p) (defers p).
Definition add_entries (es : list log_entry) (p : prog) : prog :=
  mkProg (datetime p) (log p ++ es) (debug_web p) (policy p) (links p) (notified p) (sockets p) (udp_open p)
    (wake_armed p) (frames p) (defers p).
Definition set_web (w : web) (p : prog) : prog :=
  mkProg (datetime p) (log p) w (policy p) (links p) (notified p) (sockets p) (udp_open p) (wake_armed p)
    (frames p) (defers p).
Definition set_policy (m : option MacPolicy.Map) (p : prog) : prog :=
  mkProg (datetime p) (log p) (debug_web p) m (links p) (notified p) (sockets p) (udp_open p) (wake_armed p)
    (frames p) (defers p).
Definition set_links (m : option (Watcher LinkMap.Table unit)) (p : prog) : prog :=
  mkProg (datetime p) (log p) (debug_web p) (policy p) m (notified p) (sockets p) (udp_open p) (wake_armed p)
    (frames p) (defers p).
Definition set_notified (b : bool) (p : prog) : prog :=
  mkProg (datetime p) (log p) (debug_web p) (policy p) (links p) b (sockets p) (udp_open p) (wake_armed p)
    (frames p) (defers p).
Definition set_sockets (w : Sockets.world) (p : prog) : prog :=
  mkProg (datetime p) (log p) (debug_web p) (policy p) (links p) (notified p) w (udp_open p) (wake_armed p)
    (frames p) (defers p).
Definition set_udp (b : bool) (p : prog) : prog :=
  mkProg (datetime p) (log p) (debug_web p) (policy p) (links p) (notified p) (sockets p) b (wake_armed p)
    (frames p) (defers p).
Definition set_wake (b : bool) (p : prog) : prog :=
  mkProg (datetime p) (log p) (debug_web p) (policy p) (links p) (notified p) (sockets p) (udp_open p) b
    (frames p) (defers p).
Definition add_frame (o : HandleOptions * outcome) (p : prog) : prog :=
  mkProg (datetime p) (log p) (debug_web p) (policy p) (links p) (notified p) (sockets p) (udp_open p)
    (wake_armed p) (frames p ++ [o]) (defers p).
Definition push_defer (d : deferred) (p : prog) : prog :=
  mkProg (datetime p) (log p) (debug_web p) (policy p) (links p) (notified p) (sockets p) (udp_open p)
    (wake_armed p) (frames p) (d :: defers p).

Definition set_verbose (on : bool) (p : prog) : prog := add_entries [Verbosity on] p.
Definition log_line (s : logger.severity) (msg : string) (p : prog) : prog := add_entries [Line s msg] p.

(** The lines of the packages [main] calls: the watchers while they load, the debug server, and
    [handlePacket].  Arguments of the format strings are left out. *)
Definition watch_line (e : log_event) : log_entry :=
  match e with
  | LogWarn _ => Line logger.WRN "warning about a configuration file"
  | LogInfo => Line logger.INF "loaded from"
  | LogError msg => Line logger.ERR msg
  end.

Definition web_line (l : debug_log) : log_entry :=
  match l with DebugError msg => Line logger.ERR msg | DebugWarn msg => Line logger.WRN msg end.

Definition event_line (e : event) : option log_entry :=
  match e with
  | Log lvl msg =>
      Some (Line match lvl with
                 | Debug => logger.DBG | Info => logger.INF | Warn => logger.WRN | Error => logger.ERR
                 end msg)
  | _ => None
  end.

(** The debug server after a call that [main] made to its package. *)
Definition call_web (w : web) (p : prog) : prog :=
  add_entries (map web_line (drop (length (web_log (debug_web p))) (web_log w))) (set_web w p).

(** The process when [main] starts, with the descriptors it inherited. *)
Definition boot (patterns : list bytes) (fds : gset Z) : prog :=
  mkProg true [] (initial_web patterns) None None false (new_world fds) false false [] [].

(** ** Control

    The body of [main] goes on with a value, returns, or exits the process with a status. *)

Inductive control_flow (A : Type) :=
| Next (a : A)
| Return
| Exit (status : Z).
Arguments Next {A} a.
Arguments Return {A}.
Arguments Exit {A} status.

Definition P (A : Type) : Type := prog → prog * control_flow A.

#[global] Instance P_ret : MRet P := λ A a p, (p, Next a).
#[global] Instance P_bind : MBind P := λ A B f m p,
  match m p with
  | (p, Next a) => f a p
  | (p, Return) => (p, Return)
  | (p, Exit s) => (p, Exit s)
  end.

Definition update (f : prog → prog) : P unit := λ p, (f p, Next ()).
Definition get : P prog := λ p, (p, Next p).
Definition return_ {A} : P A := λ p, (p, Return).
Definition os_exit {A} (status : Z) : P A := λ p, (p, Exit status).
Definition say (s : logger.severity) (msg : string) : P unit := update (log_line s msg).

(** [cl.Fatalf]. *)
Definition fatal {A} (msg : string) : P A := say logger.FTL msg ;; os_exit 1.

(** [defer]. *)
Definition defer (d : deferred) : P unit := update (push_defer d).

(** ** What the operating system answers *)

Record Env := {
  buildInfo : option (list BuildSetting);
  debug_listen : bytes → result bytes;
  debug_shutdown : result unit;
  policy_abs : result unit;
  policy_os : Answers (bytes → result unit);
  links_abs : result unit;
  links_os : Answers unit;
  raw_socket : result Z;
  raw_option : sockopt_answer;
  raw_filter : Z → Z → list SockFilter → result unit;
  udp_listen : bytes → Z → result unit;
  udp_filter : result unit
}.

(** One round of the receive loop: the reloads the pollers did before it and, of the policy, between the two
    lookups of the packet, the answers to the receive, the contents of the buffer after it, whether a
    library panics under [handlePacket], whether the context has been cancelled by then, whether the
    semaphore accepts a handler, and how the drain ends. *)
Record round := {
  policy_polls : list (Answers (bytes → result unit));
  links_polls : list (Answers unit);
  midway_polls : list (Answers (bytes → result unit));
  rx_panics : bool;
  answers : list (attempt_answer (result (Z * option SockaddrLinklayer)));
  buffer : bytes;
  cancelled : bool;
  slot_free : bool;
  drain : drainResult
}.

(** ** main *)

Section main.
Context `{Gopacket} `{UnicodeTables} `{Decoder}.
Context (env : Env).

(** [NewWithoutDatetime] or [NewWithDatetime]. *)
Definition choose_logger (fl : Flags) : P unit := update (set_datetime (negb (flagLogWithoutDatetime fl))).

Definition start_debug (fl : Flags) : P unit :=
  if flagDebug fl then
    update (set_verbose true) ;;
    p ← get;
    match DebugServer.Serve (flagDebugServerAddr fl) (debug_listen env) (debug_web p) with
    | None => os_exit 2
    | Some (w, srv) =>
        update (call_web w) ;;
        match srv with Some i => defer (DebugShutdown i) | None => mret () end
    end
  else update (set_verbose false).

Definition load_policy (fl : Flags) : P unit :=
  if bool_decide (flagMACPolicy fl = []) then mret ()
  else
    match policy_New (flagMACPolicyInterval fl) (policy_abs env) (policy_os env) with
    | Err e => fatal "Error loading MAC policy"
    | Ok m => update (λ p, add_entries (map watch_line (logged m)) (set_policy (Some m) p)) ;; defer PolicyClose
    end.

Definition load_links (fl : Flags) : P unit :=
  if bool_decide (flagLinkMap fl = []) then mret ()
  else
    match linkmap_New (flagLinkMapInterval fl) (links_abs env) (links_os env) with
    | Err e => fatal "Error loading link map"
    | Ok lm => update (λ p, add_entries (map watch_line (logged lm)) (set_links (Some lm) p)) ;; defer LinkMapClose
    end.

Definition open_raw : P unit :=
  p ← get;
  let '(w, r) := Sockets.Create (sockets p) (raw_socket env) (raw_option env) in
  update (set_sockets w) ;;
  match r with
  | Err e => fatal "Error creating socket"
  | Ok _ => defer RawClose
  end.

Definition attach_filter (fl : Flags) : P unit :=
  say logger.DBG "BPF bytecode" ;;
  p ← get;
  match AttachBPF (sockets p) (GetBPFSockFilterForDHCPv4Messages (u32 (flagMTU fl))) (raw_filter env) with
  | Err e => say logger.ERR "Error attaching BPF to socket" ;; return_
  | Ok _ => mret ()
  end.

Definition open_udp : P unit :=
  match ListenPacketConn4 (IP.IPv4 0 0 0 0) DHCPv4ServerPort (udp_listen env) with
  | Err e => say logger.ERR "Error binding to UDP4 socket" ;; return_
  | Ok _ =>
      update (set_udp true) ;;
      match udp_filter env with
      | Err e => say logger.ERR "Error attaching BPF to UDP4 socket" ;; return_
      | Ok _ => mret ()
      end
  end.

(** The end of the loop after a cancelled receive. *)
Definition shutdown (d : drainResult) : P unit :=
  say logger.INF "Shutdown signal received, exiting." ;;
  update (set_notified false) ;;
  match d with
  | drainForced => say logger.WRN "Second shutdown signal received, exiting with handler(s) in flight"
  | drainTimedOut => say logger.WRN "Shutdown grace period expired, handler(s) still in flight"
  | drainCompleted => update (set_udp false)
  end ;;
  return_.

(** The pollers of the watchers, between two rounds. *)
Definition polls (r : round) (p : prog) : prog :=
  set_policy ((λ m, foldl poll_reload m (policy_polls r)) <$> policy p)
    (set_links ((λ m, foldl poll_reload m (links_polls r)) <$> links p) p).

(** The policy before and after the poller ran between the two lookups of a packet. *)
Definition policy_reads (r : round) (m : MacPolicy.Map) : reads :=
  {| first_read := m; second_read := foldl poll_reload m (midway_polls r) |}.

(** [handlePacket] on the goroutine of [main]: its body, unless a library panics, and its deferred
    function; a panic that goes on ends the process. *)
Definition receive_frame (fl : Flags) (giaddr : bytes) (r : round) (Ifindex : Z) (data : bytes) : P unit :=
  p ← get;
  update (set_policy (second_read ∘ policy_reads r <$> policy p)) ;;
  (if rx_panics r then mret ()
   else
     let o := handlePacket fl (policy_reads r <$> policy p) Ifindex data (slot_free r) in
     update (add_frame (make_config fl giaddr (links p), o)) ;;
     update (add_entries (omap event_line (frame_log o)))) ;;
  let '(t, panicking) := recover_receive (rx_panics r) in
  update (add_entries (omap event_line t)) ;;
  if panicking then os_exit 2 else mret ().

(** The receive loop over the rounds given; going on with a value means it is still running. *)
Fixpoint receive_loop (fl : Flags) (giaddr : bytes) (rounds : list round) : P unit :=
  match rounds with
  | [] => mret ()
  | r :: rounds =>
      update (polls r) ;;
      p ← get;
      match Sockets.Receive (sockets p) (answers r) with
      | None => mret ()
      | Some (Err e) =>
          if cancelled r then shutdown (drain r)
          else say logger.ERR "Error reading from socket" ;; receive_loop fl giaddr rounds
      | Some (Ok (n, sall)) =>
          say logger.DBG "Received bytes of data from socket" ;;
          receive_frame fl giaddr r (sa_Ifindex sall) (take (Z.to_nat n) (buffer r)) ;;
          receive_loop fl giaddr rounds
      end
  end.

(** [main] after [flag.Parse]. *)
Definition main_body (fl : Flags) (rounds : list round) : P unit :=
  choose_logger fl ;;
  if flagVersion fl then say logger.INF "DHCPv4-Relay version" ;; os_exit 0
  else
    start_debug fl ;;
    match check_flags fl with
    | Err e => fatal e
    | Ok giaddr =>
        (if negb (bool_decide (flagGiaddr fl = [])) && bool_decide (flagLinkMap fl = [])
         then say logger.WRN "-giaddr has no effect without -link-map (a numbered ingress uses its own address as giaddr)" else mret ()) ;;
        say logger.INF "DHCPv4-Relay version" ;;
        say logger.DBG "DEBUG LOG IS ENABLED." ;;
        load_policy fl ;;
        load_links fl ;;
        (update (set_notified true) ;; defer SignalStop) ;;
        open_raw ;;
        attach_filter fl ;;
        open_udp ;;
        (update (set_wake true) ;; defer StopWake) ;;
        receive_loop fl giaddr rounds
    end.

(** One deferred call. *)
Definition run_defer (p : prog) (d : deferred) : prog :=
  match d with
  | DebugShutdown i => call_web (DebugServer.Shutdown (Some i) (debug_shutdown env) (debug_web p)) p
  | PolicyClose => set_policy (MacPolicy.Map_Close <$> policy p) p
  | LinkMapClose => set_links (LinkMap.Map_Close <$> links p) p
  | SignalStop => set_notified false p
  | RawClose =>
      match Sockets.Close (sockets p) with
      | (w, Ok _) => set_sockets w p
      | (w, Err e) => log_line logger.WRN "Error closing socket" (set_sockets w p)
      end
  | StopWake => set_wake false p
  end.

(** The process: its state, and its exit status unless it is still running. *)
Definition main (args : list bytes) (rounds : list round) (p : prog) : prog * option Z :=
  match parse_flags args with
  | flag.Exited status => (p, Some status)
  | flag.Parsed fl _ =>
      match main_body fl rounds p with
      | (p, Next _) => (p, None)
      | (p, Return) => (foldl run_defer p (defers p), Some 0)
      | (p, Exit status) => (p, Some status)
      end
  end.

End main.

(** ** Lemmas: what is held and what releases it *)

(** The resource of a deferred call is not held. *)
Definition released (d : deferred) (p : prog) : Prop :=
  match d with
  | DebugShutdown i => ∀ srv s, servers (debug_web p) !! i = Some (srv, s) → s ≠ Serving
  | PolicyClose => ∀ m, policy p = Some m → done m = true
  | LinkMapClose => ∀ m, links p = Some m → done m = true
  | SignalStop => notified p = false
  | RawClose => held (raw (sockets p)) = ∅
  | StopWake => wake_armed p = false
  end.

(** Every resource is released or its deferred call is pending. *)
Definition covered (p : prog) : Prop := ∀ d, released d p ∨ d ∈ defers p.

Lemma run_defer_releases env p d : released d (run_defer env p d).
Proof.
  destruct d as [i| | | | |]; cbn; try done.
  - intros srv s. unfold DebugServer.Shutdown. destruct (debug_shutdown env); cbn;
      destruct (servers (debug_web p) !! i) eqn:E; rewrite list_lookup_alter_eq, E; intros [= <- <-]; done.
  - intros m. destruct (policy p); [|done]. by intros [= <-].
  - intros m. destruct (links p); [|done]. by intros [= <-].
  - unfold Sockets.Close, file_close. destruct (f (raw (sockets p))) as [[fd []]|] eqn:E; cbn;
      unfold held; cbn; by rewrite ?E.
Qed.

Lemma run_defer_keeps env p d d' : released d p → released d (run_defer env p d').
Proof.
  intros Hd. destruct d' as [j| | | | |]; try (destruct d; done); [| | |].
  - destruct d as [i| | | | |]; try done. cbn in *. intros srv s. unfold DebugServer.Shutdown.
    assert (Hs : servers (set_status j ShutDown (debug_web p)) !! i = Some (srv, s) → s ≠ Serving).
    { cbn. destruct (decide (i = j)) as [->|Hne].
      - rewrite list_lookup_alter_eq. destruct (servers (debug_web p) !! j); [|done]. by intros [= <- <-].
      - rewrite list_lookup_alter_ne by done. apply Hd. }
    by destruct (debug_shutdown env).
  - destruct d; try done. cbn in *. intros m. destruct (policy p); [|done]. by intros [= <-].
  - destruct d; try done. cbn in *. intros m. destruct (links p); [|done]. by intros [= <-].
  - cbn. destruct (Sockets.Close (sockets p)) as [w [[]|e]] eqn:E; destruct d; try done;
      cbn in *; unfold Sockets.Close, file_close in E;
      destruct (f (raw (sockets p))) as [[fd []]|] eqn:Ef; simplify_eq/=; unfold held in *; cbn in *;
      by rewrite ?Ef in *.
Qed.

Lemma run_defers_keep env ds p d : released d p → released d (foldl (run_defer env) p ds).
Proof. revert p. induction ds as [|d' ds IH]; intros p Hd; [done|]. by apply IH, run_defer_keeps. Qed.

Lemma run_defers_release env ds p d : d ∈ ds → released d (foldl (run_defer env) p ds).
Proof.
  revert p. induction ds as [|d' ds IH]; intros p Hin; [by apply not_elem_of_nil in Hin|].
  apply elem_of_cons in Hin as [->|Hin]; [|by apply IH]. cbn [foldl]. apply run_defers_keep. apply run_defer_releases.
Qed.

Lemma covered_all_released env p d :
  covered p → released d (foldl (run_defer env) p (defers p)).
Proof. intros Hc. destruct (Hc d); [by apply run_defers_keep|by apply run_defers_release]. Qed.

(** Deferred calls never touch the UDP socket, and keep the account of the descriptors. *)
Lemma run_defer_udp env p d : udp_open (run_defer env p d) = udp_open p ∧ frames (run_defer env p d) = frames p.
Proof. destruct d; try done. cbn. by destruct (Sockets.Close (sockets p)) as [w [[]|e]]. Qed.

Lemma run_defers_udp env ds p :
  udp_open (foldl (run_defer env) p ds) = udp_open p ∧ frames (foldl (run_defer env) p ds) = frames p.
Proof.
  revert p. induction ds as [|d ds IH]; intros p; [done|]. cbn [foldl].
  destruct (IH (run_defer env p d)) as [-> ->]. apply run_defer_udp.
Qed.

Lemma run_defers_defers env ds p : defers (foldl (run_defer env) p ds) = defers p.
Proof.
  revert p. induction ds as [|d ds IH]; intros p; [done|]. cbn [foldl]. rewrite IH. destruct d; try done.
  cbn. by destruct (Sockets.Close (sockets p)) as [w [[]|e]].
Qed.

Lemma run_defer_accounted env fds p d :
  accounted fds (sockets p) → accounted fds (sockets (run_defer env p d)).
Proof.
  intros Ha. destruct d; try done. pose proof (Sockets.accounted_step fds _ _ Ha (Sockets.step_close (sockets p))) as Hs.
  cbn. by destruct (Sockets.Close (sockets p)) as [w [[]|e]].
Qed.

Lemma run_defers_accounted env fds ds p :
  accounted fds (sockets p) → accounted fds (sockets (foldl (run_defer env) p ds)).
Proof. revert p. induction ds as [|d ds IH]; intros p Ha; [done|]. by apply IH, run_defer_accounted. Qed.

(** ** Lemmas: the body of main

    A run from a state in [I] goes on in [Q], returns in [R] or exits in [E]. *)

Definition triple {A} (I : prog → Prop) (m : P A) (Q R : prog → Prop) (E : Z → prog → Prop) : Prop :=
  ∀ p, I p →
  match m p with
  | (p', Next _) => Q p'
  | (p', Return) => R p'
  | (p', Exit s) => E s p'
  end.

Section triples.
Context {R : prog → Prop} {E : Z → prog → Prop}.

Lemma triple_bind {A B} I Q Q' (m : P A) (k : A → P B) :
  triple I m Q R E → (∀ a, triple Q (k a) Q' R E) → triple I (m ≫= k) Q' R E.
Proof.
  intros Hm Hk p Hp. specialize (Hm p Hp). unfold mbind, P_bind. destruct (m p) as [p' [a| |s]]; auto.
  by apply Hk.
Qed.

Lemma triple_ret {A} (I : prog → Prop) (a : A) : triple I (mret a) I R E.
Proof. by intros p Hp. Qed.

Lemma triple_update (I Q : prog → Prop) f : (∀ p, I p → Q (f p)) → triple I (update f) Q R E.
Proof. intros Hf p Hp. by apply Hf. Qed.

Lemma triple_get {B} I Q (k : prog → P B) :
  (∀ p, I p → triple (λ q, q = p) (k p) Q R E) → triple I (get ≫= k) Q R E.
Proof. intros Hk p Hp. by apply (Hk p Hp p). Qed.

Lemma triple_weaken {A} (I I' Q : prog → Prop) (m : P A) :
  (∀ p, I' p → I p) → triple I m Q R E → triple I' m Q R E.
Proof. intros Hi Hm p Hp. by apply Hm, Hi. Qed.

Lemma triple_return {A} (I Q : prog → Prop) : (∀ p, I p → R p) → triple I (return_ : P A) Q R E.
Proof. intros Hi p Hp. by apply Hi. Qed.

Lemma triple_exit {A} (I Q : prog → Prop) s : (∀ p, I p → E s p) → triple I (os_exit s : P A) Q R E.
Proof. intros Hi p Hp. by apply Hi. Qed.

End triples.

(** The resources are accounted for. *)
Record held_ok (patterns : list bytes) (fds : gset Z) (p : prog) : Prop := {
  held_covered : covered p;
  held_accounted : accounted fds (sockets p);
  held_web : web_ok patterns (debug_web p)
}.

(** Before the sockets: none is open and no frame was received. *)
Record early (patterns : list bytes) (fds : gset Z) (p : prog) : Prop := {
  early_held : held_ok patterns fds p;
  early_raw : sockets p = new_world fds;
  early_udp : udp_open p = false;
  early_frames : frames p = []
}.

(** A change of the log and of what a pending deferred call covers. *)
Lemma covered_change p p' :
  defers p' = defers p → (∀ d, released d p → released d p' ∨ d ∈ defers p') → covered p → covered p'.
Proof.
  intros Hd Hr Hc d. destruct (Hc d) as [Hrel|Hin]; [by apply Hr|right; by rewrite Hd].
Qed.

Lemma covered_push d p p' :
  (∀ d', d' ≠ d → released d' p → released d' p') → defers p' = d :: defers p → covered p → covered p'.
Proof.
  intros Hr Hd Hc d'. rewrite Hd. destruct (decide (d' = d)) as [->|Hne]; [right; left|].
  destruct (Hc d') as [Hrel|Hin]; [left; by apply Hr|right; by right].
Qed.

Lemma boot_released patterns fds d : released d (boot patterns fds).
Proof. by destruct d. Qed.

Lemma boot_early patterns fds : early patterns fds (boot patterns fds).
Proof.
  split; [split|..]; try done.
  - intros d. left. apply boot_released.
  - split; [|set_solver]. cbn. apply set_eq. unfold held. set_solver.
Qed.

(** A line that is not fatal. *)
Definition plain_entry (e : log_entry) : Prop :=
  match e with Line s _ => s ≠ logger.FTL | Verbosity _ => False end.

Lemma event_lines_plain t : Forall plain_entry (omap event_line t).
Proof. induction t as [|[[] ?| | ] t IH]; cbn; by try constructor. Qed.

(** What a frame changes: the policy by the reloads meanwhile, the log by plain lines, and, without a panic,
    the frames handled. *)
Record frame_effect `{Gopacket} `{UnicodeTables} `{Decoder} (fl : Flags) (giaddr : bytes) (r : round) (Ifindex : Z)
    (data : bytes) (p p' : prog) : Prop := {
  fe_policy : policy p' = second_read ∘ policy_reads r <$> policy p;
  fe_frames : frames p' = if rx_panics r then frames p else
    frames p ++ [(make_config fl giaddr (links p),
                  handlePacket fl (policy_reads r <$> policy p) Ifindex data (slot_free r))];
  fe_log : ∃ ls, Forall plain_entry ls ∧ log p' = log p ++ ls;
  fe_rest : datetime p' = datetime p ∧ debug_web p' = debug_web p ∧ links p' = links p ∧
    notified p' = notified p ∧ sockets p' = sockets p ∧ udp_open p' = udp_open p ∧
    wake_armed p' = wake_armed p ∧ defers p' = defers p
}.

(** A frame never stops the loop, whether a library panics or not. *)
Lemma receive_frame_run `{Gopacket} `{UnicodeTables} `{Decoder} fl giaddr r Ifindex data p :
  ∃ p', receive_frame fl giaddr r Ifindex data p = (p', Next ()) ∧ frame_effect fl giaddr r Ifindex data p p'.
Proof.
  unfold receive_frame, recover_receive, mbind, P_bind, update, get, mret, P_ret.
  destruct (rx_panics r) eqn:Er; eexists; (split; [reflexivity|]); split; cbn; rewrite ?Er; try done;
    eexists; (split; [|by rewrite <- ?(assoc_L (++))]); [by repeat constructor|].
  rewrite app_nil_r. apply event_lines_plain.
Qed.

Section body.
Context `{Gopacket} `{UnicodeTables} `{Decoder}.
Context (env : Env) (patterns : list bytes) (fds : gset Z).
Hypothesis Hpat : metrics_pattern ∉ patterns.
Hypothesis Hfresh : ∀ fd, raw_socket env = Ok fd → fd ∉ fds.

(** An exit happens only before the sockets are open, with status zero before anything is started. *)
Definition exits (s : Z) (p : prog) : Prop := early patterns fds p ∧ (s = 0 → ∀ d, released d p).

(** Acquire a resource and defer its release. *)
Lemma triple_acquire (I Q R : prog → Prop) E f d :
  (∀ p, I p → Q (push_defer d (f p))) → triple I (update f ;; defer d) Q R E.
Proof.
  intros Hf. apply (triple_bind _ (λ q, ∃ p, I p ∧ q = f p)).
  - apply triple_update. eauto.
  - intros _. apply triple_update. intros q (p & Hp & ->). by apply Hf.
Qed.

Lemma early_say s msg p : early patterns fds p → early patterns fds (log_line s msg p).
Proof. intros [[Hc Ha Hw] Hr Hu Hf]. split; [split|..]; done. Qed.

Lemma triple_say R E (I : prog → Prop) s msg :
  (∀ p, I p → I (log_line s msg p)) → triple I (say s msg) I R E.
Proof. apply triple_update. Qed.

Lemma triple_fatal {A} R Q msg : triple (early patterns fds) (fatal msg : P A) Q R exits.
Proof.
  apply (triple_bind _ (early patterns fds)).
  - apply triple_update, early_say.
  - intros _. by apply triple_exit.
Qed.

Lemma released_say s msg p d : released d p → released d (log_line s msg p).
Proof. by destruct d. Qed.

Lemma start_debug_ok R fl : triple (early patterns fds) (start_debug env fl) (early patterns fds) R exits.
Proof.
  unfold start_debug. destruct (flagDebug fl).
  - apply (triple_bind _ (early patterns fds)).
    { apply triple_update. intros p [[Hc Ha Hw] Hr Hu Hf]. split; [split|..]; done. }
    intros _. apply triple_get. intros p [[Hc Ha Hw] Hr Hu Hf].
    destruct (Serve_ok patterns (flagDebugServerAddr fl) (debug_listen env) (debug_web p) Hpat Hw)
      as (w & i & -> & Hw' & Hi%serve_answer_servers).
    destruct i as [i|].
    + apply triple_acquire. intros q ->. split; [split|..]; try done.
      apply (covered_push (DebugShutdown i) p); [|done|done].
      destruct Hi as (-> & b & Hs). intros d' Hne Hd'. destruct d' as [j| | | | |]; try done.
      cbn in *. rewrite Hs. intros srv s Hj. rewrite lookup_app in Hj.
      destruct (servers (debug_web p) !! j) as [[srv' s']|] eqn:Ej.
      { simplify_eq. by eapply Hd'. }
      apply lookup_ge_None in Ej. apply list_lookup_singleton_Some in Hj as [Hj _].
      destruct Hne. f_equal. lia.
    + apply (triple_bind _ (early patterns fds)); [|intros _; apply triple_ret].
      apply triple_update. intros q ->. split; [split|..]; try done.
      apply (covered_change p); [done| |done]. intros d Hd. left. destruct d; try done. cbn in *.
      by rewrite Hi.
  - apply triple_update. intros p [[Hc Ha Hw] Hr Hu Hf]. split; [split|..]; done.
Qed.

Lemma load_policy_ok R fl : triple (early patterns fds) (load_policy env fl) (early patterns fds) R exits.
Proof.
  unfold load_policy. case_bool_decide; [apply triple_ret|].
  destruct (policy_New _ _ _) as [m|e]; [|apply triple_fatal]. apply triple_acquire.
  intros p [[Hc Ha Hw] Hr Hu Hf]. split; [split|..]; try done.
  apply (covered_push PolicyClose p); [|done|done]. intros [] Hne Hd; done.
Qed.

Lemma load_links_ok R fl : triple (early patterns fds) (load_links env fl) (early patterns fds) R exits.
Proof.
  unfold load_links. case_bool_decide; [apply triple_ret|].
  destruct (linkmap_New _ _ _) as [m|e]; [|apply triple_fatal]. apply triple_acquire.
  intros p [[Hc Ha Hw] Hr Hu Hf]. split; [split|..]; try done.
  apply (covered_push LinkMapClose p); [|done|done]. intros [] Hne Hd; done.
Qed.

(** The sockets are open one after the other. *)
Definition raw_only (p : prog) : Prop := held_ok patterns fds p ∧ udp_open p = false.
Definition running (p : prog) : Prop := held_ok patterns fds p ∧ udp_open p = true.

(** Why [main] returns with the UDP socket open. *)
Definition udp_left (rounds : list round) : Prop :=
  is_ok (udp_filter env) = false ∨ ∃ r, r ∈ rounds ∧ cancelled r = true ∧ drain r ≠ drainCompleted.

Definition returns (rounds : list round) (p : prog) : Prop :=
  held_ok patterns fds p ∧ (udp_open p = true → udp_left rounds).

Lemma notify_ok R :
  triple (early patterns fds) (update (set_notified true) ;; defer SignalStop) (early patterns fds) R exits.
Proof.
  apply triple_acquire. intros p [[Hc Ha Hw] Hr Hu Hf]. split; [split|..]; try done.
  apply (covered_push SignalStop p); [|done|done]. intros [] Hne Hd; done.
Qed.

Lemma open_raw_ok R : triple (early patterns fds) (open_raw env) raw_only R exits.
Proof.
  unfold open_raw. apply triple_get. intros p [[Hc Ha Hw] Hr Hu Hf]. rewrite Hr in *.
  destruct (Sockets.Create (new_world fds) (raw_socket env) (raw_option env)) as [w r] eqn:Ec.
  assert (Ha' : accounted fds w).
  { change w with (w, r).1. rewrite <- Ec. apply (Sockets.accounted_step fds (new_world fds)); [done|].
    constructor. apply Hfresh. }
  destruct r as [[]|e].
  - apply triple_acquire. intros q ->. split; [|done]. split; [|done|done].
    apply (covered_push RawClose p); [|done|done]. intros [] Hne Hd; done.
  - assert (w = new_world fds) as ->.
    { unfold Sockets.Create in Ec. destruct (raw_socket env) as [fd|] eqn:Es; [|by inversion Ec].
      specialize (Hfresh fd eq_refl). destruct (raw_option env); inversion Ec. unfold new_world. f_equal.
      cbn. apply set_eq. set_solver. }
    eapply triple_bind; [|intros _; apply triple_fatal]. apply triple_update. intros q ->.
    split; [split|..]; try done. apply (covered_change p); [done| |done]. intros [] Hd; by left.
Qed.

Lemma returns_raw_only rounds p : raw_only p → returns rounds p.
Proof. intros [Hh Hu]. split; [done|]. by rewrite Hu. Qed.

(** A logged error, then a return. *)
Lemma triple_error_return {A} rounds (I Q : prog → Prop) E s msg :
  (∀ p, I p → returns rounds (log_line s msg p)) →
  triple I (say s msg ;; return_ : P A) Q (returns rounds) E.
Proof.
  intros Hi. apply (triple_bind _ (returns rounds)); [by apply triple_update|].
  intros _. by apply triple_return.
Qed.

Lemma raw_only_say s msg p : raw_only p → raw_only (log_line s msg p).
Proof. intros [[Hc Ha Hw] Hu]. split; [split|]; done. Qed.

Lemma running_say s msg p : running p → running (log_line s msg p).
Proof. intros [[Hc Ha Hw] Hu]. split; [split|]; done. Qed.

Lemma attach_filter_ok rounds fl : triple raw_only (attach_filter env fl) raw_only (returns rounds) exits.
Proof.
  apply (triple_bind _ raw_only); [apply triple_update, raw_only_say|]. intros _.
  apply triple_get. intros p Hp. destruct (AttachBPF _ _ _); [by intros q ->|].
  apply triple_error_return. intros q ->. by apply returns_raw_only, raw_only_say.
Qed.

Lemma open_udp_ok rounds : triple raw_only (open_udp env) running (returns rounds) exits.
Proof.
  unfold open_udp. destruct (ListenPacketConn4 _ _ _).
  - apply (triple_bind _ running).
    { apply triple_update. intros p [[Hc Ha Hw] Hu]. split; [split|]; done. }
    intros _. destruct (udp_filter env) eqn:Ef; [apply triple_ret|].
    apply triple_error_return. intros p Hp%(running_say logger.ERR "Error attaching BPF to UDP4 socket").
    destruct Hp as [Hh Hu]. split; [done|]. intros _. left. by rewrite Ef.
  - apply triple_error_return. intros p Hp. by apply returns_raw_only, raw_only_say.
Qed.

Lemma shutdown_ok rounds r :
  r ∈ rounds → cancelled r = true → triple running (shutdown (drain r)) running (returns rounds) exits.
Proof.
  intros Hr Hcan. unfold shutdown. apply (triple_bind _ running); [apply triple_update, running_say|].
  intros _. apply (triple_bind _ running).
  { apply triple_update. intros p [[Hc Ha Hw] Hu]. split; [split; [|done|done]|done].
    apply (covered_change p); [done| |done]. intros [] Hd; by left. }
  intros _. apply (triple_bind _ (returns rounds)); [|intros _; by apply triple_return].
  assert (Hleft : drain r ≠ drainCompleted → ∀ p, running p → returns rounds p).
  { intros Hd p [Hh Hu]. split; [done|]. intros _. right. by exists r. }
  destruct (drain r) eqn:Ed; apply triple_update; intros p Hp.
  - destruct Hp as [[Hc Ha Hw] Hu]. split; [split|]; done.
  - by apply Hleft, running_say.
  - by apply Hleft, running_say.
Qed.

Lemma polls_closed {T W} (os : list (Answers W)) (m : Watcher T W) :
  done (foldl poll_reload m os) = done m.
Proof.
  revert m. induction os as [|o os IH]; intros m; [done|]. cbn [foldl]. rewrite IH.
  by destruct (poll_reload_snap m o) as (_ & _ & _ & _ & ->).
Qed.

Lemma polls_running r p : running p → running (polls r p).
Proof.
  intros [[Hc Ha Hw] Hu]. split; [split; [|done|done]|done].
  apply (covered_change p); [done| |done]. intros d Hd. left. destruct d; try done; cbn in *.
  - intros m. destruct (policy p); [|done]. intros [= <-]. rewrite polls_closed. by apply Hd.
  - intros m. destruct (links p); [|done]. intros [= <-]. rewrite polls_closed. by apply Hd.
Qed.

Lemma receive_frame_running R E fl giaddr r Ifindex data :
  triple running (receive_frame fl giaddr r Ifindex data) running R E.
Proof.
  intros p [[Hc Ha Hw] Hu].
  destruct (receive_frame_run fl giaddr r Ifindex data p) as (p' & -> & [Hpol _ _ (_ & E1 & E2 & E3 & E4 & E5 & E6 & E7)]).
  split; [split; [|by rewrite E4|by rewrite E1]|by rewrite E5].
  apply (covered_change p); [done| |done]. intros d Hd. left.
  destruct d; cbn in *; rewrite ?E1, ?E2, ?E3, ?E4, ?E6, ?Hpol; try done.
  intros m. destruct (policy p) as [m0|]; [|done]. cbn. intros [= <-]. rewrite polls_closed. by apply Hd.
Qed.

Lemma receive_loop_ok fl giaddr all rounds :
  (∀ r, r ∈ rounds → r ∈ all) →
  triple running (receive_loop fl giaddr rounds) running (returns all) exits.
Proof.
  induction rounds as [|r rounds IH]; intros Hsub; [apply triple_ret|]. cbn [receive_loop].
  assert (IH' : triple running (receive_loop fl giaddr rounds) running (returns all) exits).
  { apply IH. intros r' Hr'. apply Hsub. by right. }
  apply (triple_bind _ running); [apply triple_update, polls_running|]. intros _.
  apply triple_get. intros p Hp. apply (triple_weaken running); [by intros q ->|].
  destruct (Sockets.Receive _ _) as [[[n sall]|e]|]; [| |apply triple_ret].
  - apply (triple_bind _ running); [apply triple_update, running_say|]. intros _.
    apply (triple_bind _ running); [apply receive_frame_running|done].
  - destruct (cancelled r) eqn:Ec; [apply shutdown_ok; [apply Hsub; left|done]|].
    apply (triple_bind _ running); [apply triple_update, running_say|done].
Qed.

Lemma wake_ok rounds : triple running (update (set_wake true) ;; defer StopWake) running (returns rounds) exits.
Proof.
  apply triple_acquire. intros p [[Hc Ha Hw] Hu]. split; [split; [|done|done]|done].
  apply (covered_push StopWake p); [|done|done]. intros [] Hne Hd; done.
Qed.

Lemma triple_seq {A} (I Q Q' R : prog → Prop) E (m : P unit) (k : P A) :
  triple I m Q R E → triple Q k Q' R E → triple I (m ;; k) Q' R E.
Proof. intros Hm Hk. eapply triple_bind; [done|]. by intros _. Qed.

Lemma main_body_ok fl rounds :
  triple (λ p, early patterns fds p ∧ ∀ d, released d p) (main_body env fl rounds) running
    (returns rounds) exits.
Proof.
  unfold main_body. eapply triple_seq.
  { apply triple_update. instantiate (1 := λ p, early patterns fds p ∧ ∀ d, released d p).
    intros p [[[Hc Ha Hw] Hr Hu Hf] Hd]. split; [split; [split|..]; done|]. intros d. specialize (Hd d). by destruct d. }
  destruct (flagVersion fl).
  { apply (triple_seq _ (λ p, early patterns fds p ∧ ∀ d, released d p));
      [|apply triple_exit; intros p [He Hr]; by split].
    apply triple_update. intros p [He Hr]. split; [by apply early_say|]. intros d. apply released_say, Hr. }
  apply (triple_weaken (early patterns fds)); [by intros p [? _]|]. eapply triple_seq; [apply start_debug_ok|].
  destruct (check_flags fl) as [giaddr|e]; [|apply triple_fatal].
  eapply triple_seq; [destruct (_ && _); [apply triple_update, early_say|apply triple_ret]|].
  do 2 (eapply triple_seq; [apply triple_update, early_say|]).
  eapply triple_seq; [apply load_policy_ok|]. eapply triple_seq; [apply load_links_ok|].
  eapply triple_seq; [apply notify_ok|]. eapply triple_seq; [apply open_raw_ok|].
  eapply triple_seq; [apply attach_filter_ok|]. eapply triple_seq; [apply open_udp_ok|].
  eapply triple_seq; [apply wake_ok|]. by apply receive_loop_ok.
Qed.

End body.

(** ** Lemmas: the loop *)

(** A receive that has answered; with the read deadline expired it answers with an error at once. *)
Definition answered (r : round) : Prop := poll_loop (answers r) ≠ None.
Definition deadline_expired (r : round) : Prop := ∃ e rest, answers r = PollError e :: rest.

Lemma Receive_answered w r : answered r → Sockets.Receive w (answers r) ≠ None.
Proof.
  unfold answered, Sockets.Receive. destruct (f (raw w)) as [[fd []]|]; [|done..].
  destruct (poll_loop (answers r)) as [[[[n [sa|]]|e]|e]|]; done.
Qed.

Lemma Receive_expired w r : deadline_expired r → ∃ e, Sockets.Receive w (answers r) = Some (Err e).
Proof.
  intros (e & rest & E). unfold Sockets.Receive. rewrite E.
  destruct (f (raw w)) as [[fd []]|]; by eexists.
Qed.

Section loop.
Context `{Gopacket} `{UnicodeTables} `{Decoder}.

Lemma receive_loop_returns fl giaddr pre r post p :
  Forall answered pre → cancelled r = true → deadline_expired r →
  ∃ p', receive_loop fl giaddr (pre ++ r :: post) p = (p', Return).
Proof.
  intros Hpre Hc Hd. revert p. induction Hpre as [|r0 pre Ha Hpre IH]; intros p; cbn [app receive_loop].
  - destruct (Receive_expired (sockets (polls r p)) r Hd) as [e E].
    unfold mbind, P_bind, update, get. cbn -[polls Sockets.Receive receive_frame]. rewrite E, Hc.
    unfold shutdown, say, mbind, P_bind, update. destruct (drain r); by eexists.
  - pose proof (Receive_answered (sockets (polls r0 p)) r0 Ha) as Hr.
    unfold mbind, P_bind, update, get. cbn -[polls Sockets.Receive receive_frame].
    destruct (Sockets.Receive (sockets (polls r0 p)) (answers r0)) as [[[n sall]|e]|]; [| |done].
    + unfold say, update.
      match goal with |- context [receive_frame ?a ?b ?c ?d ?e ?q] =>
        destruct (receive_frame_run a b c d e q) as (p' & -> & _) end. apply IH.
    + destruct (cancelled r0); [|apply IH].
      unfold shutdown, say, mbind, P_bind, update. destruct (drain r0); by eexists.
Qed.

(** Rounds after the one that ends the loop do not matter. *)
Lemma receive_loop_prefix fl giaddr pre r post p :
  Forall answered pre → cancelled r = true → deadline_expired r →
  receive_loop fl giaddr (pre ++ r :: post) p = receive_loop fl giaddr (pre ++ [r]) p.
Proof.
  intros Hpre Hc Hd. revert p. induction Hpre as [|r0 pre Ha Hpre IH]; intros p; cbn [app receive_loop].
  - destruct (Receive_expired (sockets (polls r p)) r Hd) as [e E].
    unfold mbind, P_bind, update, get. cbn -[polls Sockets.Receive receive_frame]. by rewrite E, Hc.
  - pose proof (Receive_answered (sockets (polls r0 p)) r0 Ha) as Hr.
    unfold mbind, P_bind, update, get. cbn -[polls Sockets.Receive receive_frame].
    destruct (Sockets.Receive (sockets (polls r0 p)) (answers r0)) as [[[n sall]|e]|]; [| |done].
    + unfold say, update.
      match goal with |- context [receive_frame ?a ?b ?c ?d ?e ?q] =>
        destruct (receive_frame_run a b c d e q) as (p' & -> & _) end. apply IH.
    + destruct (cancelled r0); [done|apply IH].
Qed.

Lemma bind_ext {A B} (m : P A) (k k' : A → P B) p :
  (∀ a q, k a q = k' a q) → (m ≫= k) p = (m ≫= k') p.
Proof. intros Hk. unfold mbind, P_bind. destruct (m p) as [q [a| |s]]; auto. Qed.

Lemma main_body_prefix env fl pre r post p :
  Forall answered pre → cancelled r = true → deadline_expired r →
  main_body env fl (pre ++ r :: post) p = main_body env fl (pre ++ [r]) p.
Proof.
  intros Hpre Hc Hd. unfold main_body. apply bind_ext. intros _ q. destruct (flagVersion fl); [done|].
  apply bind_ext. intros _ q0. destruct (check_flags fl) as [giaddr|e]; [|done].
  do 10 (apply bind_ext; intros _ ?). by apply receive_loop_prefix.
Qed.

Lemma triple_any {A} (I : prog → Prop) (m : P A) :
  triple I m (λ _, True) (λ _, True) (λ _ _, True).
Proof. intros p _. by destruct (m p) as [p' []]. Qed.

Lemma main_body_ends env fl pre r post :
  Forall answered pre → cancelled r = true → deadline_expired r →
  triple (λ _, True) (main_body env fl (pre ++ r :: post)) (λ _, False) (λ _, True) (λ _ _, True).
Proof.
  intros Hpre Hc Hd. unfold main_body. eapply triple_seq; [apply triple_any|]. destruct (flagVersion fl).
  { eapply triple_seq; [apply triple_any|]. by apply triple_exit. }
  eapply triple_seq; [apply triple_any|].
  destruct (check_flags fl) as [giaddr|e].
  2: { eapply triple_seq; [apply triple_any|]. by apply triple_exit. }
  do 10 (eapply triple_seq; [apply triple_any|]). intros p _.
  by destruct (receive_loop_returns fl giaddr pre r post p Hpre Hc Hd) as [p' ->].
Qed.

End loop.

(** ** Properties *)


(** C23: the program always ends after a shutdown signal.  Once the context has been cancelled and the wake
    up has expired the read deadline, [main] ends, whatever the command line, whatever the operating
    system answered before and however the drain goes; rounds after that one are never run. *)
Theorem main_terminates `{Gopacket} `{UnicodeTables} `{Decoder} (env : Env) (args : list bytes)
    (pre post : list round) (r : round) (p : prog) :
  Forall answered pre → cancelled r = true → deadline_expired r →
  ∃ p' status, main env args (pre ++ r :: post) p = (p', Some status) ∧
    main env args (pre ++ [r]) p = (p', Some status).
Proof.
  intros Hpre Hc Hd. unfold main. destruct (parse_flags args) as [fl rest|st]; [|by eexists _, _].
  pose proof (main_body_ends env fl pre r post Hpre Hc Hd p I) as Hends.
  rewrite (main_body_prefix env fl pre r post p Hpre Hc Hd) in *.
  destruct (main_body env fl (pre ++ [r]) p) as [q [[]| |st]]; [done|by eexists _, _..].
Qed.

(** ** Witnesses *)

Module ProgramExample.

Definition no_files : Answers unit :=
  {| ans_open := Err "no such file"; ans_stat := Err "no such file"; ans_read := bufio.of_string [];
     ans_stat_after := Err "no such file"; ans_world := () |}.

Definition no_policy : Answers (bytes → result unit) :=
  {| ans_open := Err "no such file"; ans_stat := Err "no such file"; ans_read := bufio.of_string [];
     ans_stat_after := Err "no such file"; ans_world := λ _, Ok () |}.

Definition env (udp : result unit) : Env :=
  {| buildInfo := None; debug_listen := λ a, Ok a; debug_shutdown := Ok (); policy_abs := Ok ();
     policy_os := no_policy; links_abs := Ok (); links_os := no_files; raw_socket := Ok 7;
     raw_option := OptSet; raw_filter := λ _ _ _, Ok (); udp_listen := λ _ _, udp; udp_filter := Ok () |}.

Definition args : list bytes := [arg "dhcp-server-address" (lit "10.0.0.9"); lit "-debug"].

Definition frame : round :=
  {| policy_polls := []; links_polls := []; midway_polls := []; rx_panics := false;
     answers := [Again; Answered (Ok (3, Some (new_sockaddr 8 2)))]; buffer := [1; 2; 3; 0];
     cancelled := false; slot_free := true; drain := drainCompleted |}.

Definition last_round (d : drainResult) : round :=
  {| policy_polls := []; links_polls := []; midway_polls := []; rx_panics := false; answers := [PollError "i/o timeout"]; buffer := [];
     cancelled := true; slot_free := true; drain := d |}.

Definition run (udp : result unit) (rounds : list round) : prog * option Z :=
  @main TestPacket.test_gopacket ascii_tables MainExample.decoder (env udp) args rounds
    (boot DebugExample.others {[0; 1; 2]}).

End ProgramExample.


Lemma main_terminates_witness :
  ∃ p' status,
    ProgramExample.run (Ok ())
      ([ProgramExample.frame] ++ ProgramExample.last_round drainCompleted :: [ProgramExample.frame]) =
      (p', Some status) ∧
    ProgramExample.run (Ok ()) ([ProgramExample.frame] ++ [ProgramExample.last_round drainCompleted]) =
      (p', Some status).
Proof.
  unfold ProgramExample.run.
  apply (@main_terminates TestPacket.test_gopacket ascii_tables MainExample.decoder
    (ProgramExample.env (Ok ())) ProgramExample.args [ProgramExample.frame] [ProgramExample.frame]
    (ProgramExample.last_round drainCompleted)).
  - apply Forall_singleton. unfold answered. vm_compute. discriminate.
  - reflexivity.
  - by eexists _, _.
Defined.

(** A relay that cannot bind its UDP socket logs an error and ends with the status of success, unlike one
    that cannot create its raw socket. *)
Example udp_failure_exits_zero :
  (ProgramExample.run (Err "address already in use") []).2 = Some 0 ∧
  last (log (ProgramExample.run (Err "address already in use") []).1) =
    Some (Line logger.ERR "Error binding to UDP4 socket").
Proof. split; vm_compute; reflexivity. Qed.
