(* ===== verification/System.v ===== *)
(** * The running relay: receiver, handlers, watchers and shutdown together.

    The receive loop of [main.go], the handler goroutines, the pollers of both configuration files and
    the drain as one transition system.  A handler runs [dhcp4.Handle] on its own message; its events
    reach the wire one at a time, interleaved with everything else.  Each handler has its own host and
    its own view of the interface cache, so nothing is assumed about what the operating system answers
    to different handlers.  A handler or the receiver may panic at any point, as a library they call
    may; what becomes of the panic is up to the deferred functions of [dhcp4.Handle] and [handlePacket],
    and a panic they do not recover ends the process. *)

From S2P Require Import Prelude GoStrings GoNet Specs Layers LayerAccess DhcpOptions Option82 Glob CfgMatch.
From S2P Require Import FileWatch LinkMap MacPolicy Host Addrs IfCache Request Reply Dhcp4 WellTyped Relay CmdLine Main.

(** ** State *)

(** How far a handler goroutine is: not begun; in the body of [dhcp4.Handle] with the events [t] still to do;
    past the body, which returned or panicked, and before its deferred function; and past that, with what
    the deferred function does still to do and, when the panic was not recovered, still panicking. *)
Inductive phase :=
| Fresh
| Doing (t : trace)
| Unwinding (panicking : bool)
| Deferred (t : trace) (panicking : bool).

(** Its arguments, and how far it is. *)
Record handler := mkHandler { h_dec : option Decision; h_ifindex : Z; h_msg : DHCPv4; h_phase : phase }.

(** The next event of a handler. *)
Definition next_event (ph : phase) : option (event * phase) :=
  match ph with
  | Doing (e :: t) => Some (e, Doing t)
  | Deferred (e :: t) b => Some (e, Deferred t b)
  | _ => None
  end.

(** A frame for which a handler was started, with the policy it was decided by. *)
Record admission := { ad_policy : option reads; ad_ifindex : Z; ad_data : bytes; ad_handler : handler }.

(** The state; handlers are named by the position of their frame in [history].  [crashed] tells whether a panic
    has left its goroutine.  [history], [begun], [wire] and [receiver_log] record what has happened: the
    frames that were admitted, the configuration each handler began with and all it does, what the handlers
    have done so far, and what the receiver logged about frames. *)
Record system := mkSystem {
  capacity : nat;
  sys_policy : option (FileWatch.state MacPolicy.Table (bytes → result unit));
  sys_links : option (FileWatch.state LinkMap.Table unit);
  handlers : gmap nat handler;
  leaving_handlers : nat;
  is_receiving : bool;
  is_open : bool;
  crashed : bool;
  history : list admission;
  begun : gmap nat (HandleOptions * trace);
  wire : list (nat * event);
  receiver_log : trace
}.

(** The events of one handler among all that happened. *)
Definition events_of (i : nat) (w : list (nat * event)) : trace :=
  map snd (List.filter (λ p, p.1 =? i)%nat w).
Arguments events_of : simpl never.

Section system.
Context `{Gopacket} `{UnicodeTables} `{Decoder}.
Context (fl : Flags) (giaddr : bytes).
Context (hosts : nat → Host) (caches : nat → option InterfaceCache).

(** The maps as the packet path reads them. *)
Definition policy_now (s : system) : option MacPolicy.Map := watcher <$> sys_policy s.
Definition links_now (s : system) : option (Watcher LinkMap.Table unit) := watcher <$> sys_links s.
Definition config_now (s : system) : HandleOptions := make_config fl giaddr (links_now s).

(** The semaphore accepts a handler while fewer than its capacity run. *)
Definition has_slot (s : system) : bool := bool_decide (size (handlers s) < capacity s)%nat.

(** The run of handler [i]. *)
Definition handler_run (cfg : HandleOptions) (i : nat) (h : handler) : st * result unit :=
  @Handle _ (hosts i) _ cfg (h_dec h) (h_ifindex h) (mkSt [] (h_msg h) (caches i)).

Definition set_phase (ph : phase) (h : handler) : handler :=
  mkHandler (h_dec h) (h_ifindex h) (h_msg h) ph.

Definition with_handlers (hs : gmap nat handler) (lv : nat) (b : gmap nat (HandleOptions * trace))
    (w : list (nat * event)) (s : system) : system :=
  mkSystem (capacity s) (sys_policy s) (sys_links s) hs lv (is_receiving s) (is_open s) (crashed s) (history s) b w
    (receiver_log s).

(** Handler [i] goes to another phase. *)
Definition advance (i : nat) (h : handler) (ph : phase) (s : system) : system :=
  with_handlers (<[i := set_phase ph h]> (handlers s)) (leaving_handlers s) (begun s) (wire s) s.

(** A goroutine has ended, with a panic or not. *)
Definition set_crashed (panicking : bool) (s : system) : system :=
  mkSystem (capacity s) (sys_policy s) (sys_links s) (handlers s) (leaving_handlers s) (is_receiving s) (is_open s)
    (crashed s || panicking) (history s) (begun s) (wire s) (receiver_log s).

(** ** Steps of the handlers

    A handler reads the link map once, before it sends anything; the model reads it where the handler
    begins.  Its goroutine is the closure of [handlePacket]: [dhcp4.Handle], then the deferred release of the
    slot, then the end of the wait group's function. *)

Inductive handler_step : system → system → Prop :=
| step_begin s i h :
    handlers s !! i = Some h → h_phase h = Fresh →
    let t := tr (handler_run (config_now s) i h).1 in
    handler_step s (with_handlers (<[i := set_phase (Doing t) h]> (handlers s)) (leaving_handlers s)
      (<[i := (config_now s, t)]> (begun s)) (wire s) s)
| step_event s i h e ph :
    handlers s !! i = Some h → next_event (h_phase h) = Some (e, ph) →
    handler_step s (with_handlers (<[i := set_phase ph h]> (handlers s)) (leaving_handlers s)
      (begun s) (wire s ++ [(i, e)]) s)
| step_return s i h :
    handlers s !! i = Some h → h_phase h = Doing [] → handler_step s (advance i h (Unwinding false) s)
| step_panic s i h t :
    handlers s !! i = Some h → h_phase h = Doing t → handler_step s (advance i h (Unwinding true) s)
| step_deferred s i h b t b' :
    (* the configuration [main] built has a logger *)
    handlers s !! i = Some h → h_phase h = Unwinding b → recover_handler true b = (t, b') →
    handler_step s (advance i h (Deferred t b') s)
| step_finish s i h b :
    handlers s !! i = Some h → h_phase h = Deferred [] b →
    handler_step s (set_crashed b
      (with_handlers (delete i (handlers s)) (S (leaving_handlers s)) (begun s) (wire s) s))
| step_leave s n :
    leaving_handlers s = S n →
    handler_step s (with_handlers (handlers s) n (begun s) (wire s) s).

(** ** Steps of the receiver, the pollers and shutdown

    A received frame is one step, except that the policy may be reloaded while it is looked up: [pw] is
    the watcher at the second lookup. *)

Definition reloaded (s : system) (pw : option (FileWatch.state MacPolicy.Table (bytes → result unit))) : Prop :=
  option_Forall2 (rtc FileWatch.step) (sys_policy s) pw.

Definition reads_of (before after : option (FileWatch.state MacPolicy.Table (bytes → result unit))) : option reads :=
  match before, after with
  | Some w, Some w' => Some {| first_read := watcher w; second_read := watcher w' |}
  | _, _ => None
  end.

(** The receiver after a frame: the policy watcher is [pw], [hs] and [hist] hold the handlers and the frames,
    and the lines [t] were logged. *)
Definition received (pw : option (FileWatch.state MacPolicy.Table (bytes → result unit))) (hs : gmap nat handler)
    (hist : list admission) (t : trace) (s : system) : system :=
  mkSystem (capacity s) pw (sys_links s) hs (leaving_handlers s) (is_receiving s) (is_open s) (crashed s) hist
    (begun s) (wire s) (receiver_log s ++ t).

Inductive other_step : system → system → Prop :=
| step_frame s pw Ifindex data dec ifIndex m :
    is_receiving s = true → reloaded s pw →
    let p := reads_of (sys_policy s) pw in
    let o := handlePacket fl p Ifindex data (has_slot s) in
    o = Spawned dec ifIndex m →
    let h := mkHandler dec ifIndex m Fresh in
    other_step s (received pw (<[length (history s) := h]> (handlers s))
      (history s ++ [{| ad_policy := p; ad_ifindex := Ifindex; ad_data := data; ad_handler := h |}])
      (frame_log o) s)
| step_discard s pw Ifindex data :
    is_receiving s = true → reloaded s pw →
    let o := handlePacket fl (reads_of (sys_policy s) pw) Ifindex data (has_slot s) in
    (∀ dec ifIndex m, o ≠ Spawned dec ifIndex m) →
    other_step s (received pw (handlers s) (history s) (frame_log o) s)
| step_receive_panic s pw t b :
    (* before the handler is started: the frame is lost *)
    is_receiving s = true → reloaded s pw → recover_receive true = (t, b) →
    other_step s (set_crashed b (received pw (handlers s) (history s) t s))
| step_policy s w w' :
    sys_policy s = Some w → FileWatch.step w w' →
    other_step s (mkSystem (capacity s) (Some w') (sys_links s) (handlers s) (leaving_handlers s)
      (is_receiving s) (is_open s) (crashed s) (history s) (begun s) (wire s) (receiver_log s))
| step_links s w w' :
    sys_links s = Some w → FileWatch.step w w' →
    other_step s (mkSystem (capacity s) (sys_policy s) (Some w') (handlers s) (leaving_handlers s)
      (is_receiving s) (is_open s) (crashed s) (history s) (begun s) (wire s) (receiver_log s))
| step_signal s :
    is_receiving s = true →
    other_step s (mkSystem (capacity s) (sys_policy s) (sys_links s) (handlers s) (leaving_handlers s)
      false (is_open s) (crashed s) (history s) (begun s) (wire s) (receiver_log s))
| step_drained s r :
    is_receiving s = false →
    match r with drainCompleted => (size (handlers s) + leaving_handlers s = 0)%nat | _ => True end →
    other_step s (mkSystem (capacity s) (sys_policy s) (sys_links s) (handlers s) (leaving_handlers s)
      false (match r with drainCompleted => false | _ => is_open s end) (crashed s) (history s) (begun s) (wire s)
      (receiver_log s)).

Definition system_step (s s' : system) : Prop := handler_step s s' ∨ other_step s s'.

(** The relay when the receive loop begins. *)
Definition launch (policy : option MacPolicy.Map) (links : option (Watcher LinkMap.Table unit)) : system :=
  mkSystem (Z.to_nat (flagMaxHandlers fl)) (initial <$> policy) (initial <$> links) ∅ 0 true true false [] ∅ [] [].

(** ** The pool abstraction *)

Definition abstract (s : system) : pool :=
  {| max_handlers := capacity s; Main.running := size (handlers s); leaving := leaving_handlers s;
     receiving := is_receiving s; conn_open := is_open s |}.

(** ** The invariant *)

Definition live_policy (m : MacPolicy.Map) : Prop := live MacPolicy.Parse (Some MacPolicy.ValidateContext) m.

Definition live_reads (p : option reads) : Prop :=
  ∀ r, p = Some r → live_policy (first_read r) ∧ live_policy (second_read r).

Definition live_links (l : option (Watcher LinkMap.Table unit)) : Prop :=
  ∀ lm, l = Some lm → live LinkMap.Parse None lm.

(** A frame that was admitted passed [handlePacket] under a live policy, and its handler is as fresh. *)
Definition admission_ok (a : admission) : Prop :=
  live_reads (ad_policy a) ∧ h_phase (ad_handler a) = Fresh ∧
  handlePacket fl (ad_policy a) (ad_ifindex a) (ad_data a) true =
    Spawned (h_dec (ad_handler a)) (h_ifindex (ad_handler a)) (h_msg (ad_handler a)).

(** The run [t] cut short by a panic that was logged. *)
Definition panic_line : event := Log Error "Recovered DHCPv4 handler panic".
Definition cut_short (t u : trace) : Prop := ∃ p, p `prefix_of` t ∧ u = p ++ [panic_line].

(** What a handler in phase [ph] has done so far, [ev], of the run [t] of the body of [dhcp4.Handle]. *)
Definition phase_ok (t ev : trace) (ph : phase) : Prop :=
  match ph with
  | Fresh => False
  | Doing rest => t = ev ++ rest
  | Unwinding false => ev = t
  | Unwinding true => ev `prefix_of` t
  | Deferred rest b => b = false ∧ (ev ++ rest = t ∨ cut_short t (ev ++ rest))
  end.

(** How far handler [i] is: not begun, then nothing of it is on the wire; begun, then the wire has the
    events of its run up to those it has still to do, and nothing is left when it is gone. *)
Definition progress_ok (s : system) (i : nat) (a : admission) : Prop :=
  match begun s !! i with
  | None => handlers s !! i = Some (ad_handler a) ∧ events_of i (wire s) = []
  | Some (cfg, t) =>
      (∃ links, live_links links ∧ cfg = make_config fl giaddr links) ∧ t = tr (handler_run cfg i (ad_handler a)).1 ∧
      match handlers s !! i with
      | Some h => h = set_phase (h_phase h) (ad_handler a) ∧ phase_ok t (events_of i (wire s)) (h_phase h)
      | None => events_of i (wire s) = t ∨ cut_short t (events_of i (wire s))
      end
  end.

Record system_ok (s : system) : Prop := {
  ok_policy : ∀ w, sys_policy s = Some w → live_policy (watcher w);
  ok_links : live_links (links_now s);
  ok_running : crashed s = false;
  ok_history : ∀ i a, history s !! i = Some a → admission_ok a ∧ progress_ok s i a;
  ok_unknown : ∀ i, history s !! i = None →
    handlers s !! i = None ∧ begun s !! i = None ∧ events_of i (wire s) = []
}.

(** ** Work left *)

Definition weigh (f : handler → nat) (m : gmap nat handler) : nat := map_fold (λ _ h n, (f h + n)%nat) 0%nat m.

Definition weight_waiting (h : handler) : nat := match h_phase h with Fresh => 1 | _ => 0 end.
Definition weight_running (h : handler) : nat :=
  match h_phase h with
  | Fresh => 0
  | Doing t => 5 + length t
  | Unwinding _ => 4
  | Deferred t _ => 2 + length t
  end.

(** Handlers that have not begun, and what those that have begun must still do to leave. *)
Definition waiting_work (s : system) : nat := weigh weight_waiting (handlers s).
Definition running_work (s : system) : nat := (weigh weight_running (handlers s) + leaving_handlers s)%nat.

(** A handler step after any number of steps of the rest of the program. *)
Definition productive (s s' : system) : Prop := ∃ q, rtc other_step s q ∧ handler_step q s'.

(** ** Lemmas *)

Lemma events_of_snoc i w j e :
  events_of i (w ++ [(j, e)]) = events_of i w ++ (if decide (j = i) then [e] else []).
Proof.
  unfold events_of. rewrite List.filter_app, map_app. cbn. f_equal.
  destruct (Nat.eqb_spec j i), (decide (j = i)); done.
Qed.

Lemma events_of_app i w v : events_of i (w ++ v) = events_of i w ++ events_of i v.
Proof. unfold events_of. by rewrite List.filter_app, map_app. Qed.

Lemma events_of_pairs i j t : events_of i (map (pair j) t) = if decide (j = i) then t else [].
Proof.
  unfold events_of. induction t as [|e t IH]; cbn; [by case_decide|].
  destruct (Nat.eqb_spec j i); cbn; rewrite IH; by case_decide.
Qed.

(** A handler that is in the pool belongs to an admitted frame. *)
Lemma handler_admitted s i h :
  system_ok s → handlers s !! i = Some h →
  ∃ a, history s !! i = Some a ∧ admission_ok a ∧ progress_ok s i a ∧ set_phase Fresh h = ad_handler a.
Proof.
  intros Hok Hh. destruct (history s !! i) as [a|] eqn:Ea; [|apply (ok_unknown s Hok) in Ea as [? _]; congruence].
  destruct (ok_history s Hok i a Ea) as [Ha Hp]. exists a. repeat (split; [done|]).
  unfold progress_ok in Hp. rewrite Hh in Hp. destruct Ha as (_ & Ht & _), (ad_handler a) as [d x m ph] eqn:E.
  cbn in Ht. subst ph. destruct (begun s !! i) as [[cfg t]|]; [by destruct Hp as (_ & _ & -> & _)|].
  by destruct Hp as [[= ->] _].
Qed.

(** What a handler that has begun has on the wire and still to do. *)
Lemma handler_progress s i h a :
  progress_ok s i a → admission_ok a → handlers s !! i = Some h → h_phase h ≠ Fresh →
  ∃ cfg, begun s !! i = Some (cfg, tr (handler_run cfg i (ad_handler a)).1) ∧
    (∃ links, live_links links ∧ cfg = make_config fl giaddr links) ∧
    h = set_phase (h_phase h) (ad_handler a) ∧
    phase_ok (tr (handler_run cfg i (ad_handler a)).1) (events_of i (wire s)) (h_phase h).
Proof.
  unfold progress_ok. intros Hp (_ & Hf & _) Hh Hne. rewrite Hh in Hp.
  destruct (begun s !! i) as [[cfg u]|]; [|destruct Hp as [[= ->] _]; congruence].
  destruct Hp as (Hc & -> & Heq & Hm). by exists cfg.
Qed.

(** A step of handler [i] that leaves the others alone keeps the invariant when it keeps it at [i]. *)
Lemma system_ok_at s i a hs lv b w :
  system_ok s → history s !! i = Some a →
  (∀ j, j ≠ i → hs !! j = handlers s !! j ∧ b !! j = begun s !! j ∧ events_of j w = events_of j (wire s)) →
  progress_ok (with_handlers hs lv b w s) i a → system_ok (with_handlers hs lv b w s).
Proof.
  intros [Hpol Hlink Hrun Hhist Hunk] Ha Hj Hi. split; [done|done|done|..].
  - intros j a' Hja. cbn in Hja. destruct (Hhist j a' Hja) as [Had Hp]. split; [done|].
    destruct (decide (j = i)) as [->|Hne]; [by rewrite Ha in Hja; injection Hja as <-|].
    destruct (Hj j Hne) as (E1 & E2 & E3). unfold progress_ok in *. cbn in *. by rewrite E1, E2, E3.
  - intros j Hja. cbn in Hja. assert (Hne : j ≠ i) by congruence.
    destruct (Hj j Hne) as (E1 & E2 & E3). cbn. rewrite E1, E2, E3. by apply Hunk.
Qed.

Lemma set_crashed_id s : set_crashed false s = s.
Proof. unfold set_crashed. rewrite orb_false_r. by destruct s. Qed.

(** A handler that has begun goes on from one phase to the next. *)
Lemma advance_ok s i h ph :
  system_ok s → handlers s !! i = Some h → h_phase h ≠ Fresh →
  (∀ t ev, phase_ok t ev (h_phase h) → phase_ok t ev ph) → system_ok (advance i h ph s).
Proof.
  intros Hok Hh Hne Hph. destruct (handler_admitted s i h Hok Hh) as (a & Ha & Had & Hp & _).
  destruct (handler_progress s i h a Hp Had Hh Hne) as (cfg & Hb & Hc & Heq & Hm).
  eapply (system_ok_at s i a); [done|done|intros j Hj; by rewrite lookup_insert_ne|].
  unfold progress_ok. cbn. rewrite lookup_insert_eq, Hb. repeat (split; [done|]).
  split; [by rewrite Heq|by apply Hph].
Qed.

(** The deferred function recovers, and logs a panic. *)
Lemma recover_handler_ok b t b' tr ev :
  recover_handler true b = (t, b') → phase_ok tr ev (Unwinding b) → phase_ok tr ev (Deferred t b').
Proof.
  destruct b; intros [= <- <-] Hp; (split; [done|]); [right; by exists ev|left; by rewrite app_nil_r].
Qed.

Lemma handler_step_ok s s' : system_ok s → handler_step s s' → system_ok s'.
Proof.
  intros Hok Hstep. revert Hok.
  destruct Hstep as [s i h Hh Ht t|s i h e ph Hh Ht|s i h Hh Ht|s i h t Hh Ht|s i h b t b' Hh Ht Hr|s i h b Hh Ht|s n Hn];
    intros Hok; [| |apply advance_ok; try done; rewrite Ht..| |by destruct Hok].
  - destruct (handler_admitted s i h Hok Hh) as (a & Ha & Had & Hp & _).
    eapply (system_ok_at s i a); [done|done|intros j Hne; by rewrite !lookup_insert_ne|].
    unfold progress_ok in *. cbn. rewrite !lookup_insert_eq, Hh in *.
    destruct (begun s !! i) as [[cfg u]|]; [destruct Hp as (_ & _ & _ & Hp); by rewrite Ht in Hp|].
    destruct Hp as [[= ->] He]. rewrite He. split; [exists (links_now s); split; [apply ok_links|]; done|].
    by split.
  - destruct (handler_admitted s i h Hok Hh) as (a & Ha & Had & Hp & _).
    eapply (system_ok_at s i a); [done|done|intros j Hne|].
    { rewrite lookup_insert_ne by done. by rewrite events_of_snoc, decide_False, app_nil_r. }
    destruct (handler_progress s i h a Hp Had Hh) as (cfg & Hb & Hc & Heq & Hm); [by intros E; rewrite E in Ht|].
    unfold progress_ok. cbn. rewrite lookup_insert_eq, Hb, events_of_snoc, decide_True by done.
    repeat (split; [done|]). split; [by rewrite Heq|]. cbn.
    destruct (h_phase h) as [|[|? ?]| |[|? ?] ?]; try done; injection Ht as <- <-; cbn in *;
      by rewrite <- app_assoc.
  - done.
  - intros u ev ->. by rewrite app_nil_r.
  - done.
  - intros u ev ->. by eexists.
  - done.
  - intros u ev. by apply recover_handler_ok.
  - destruct (handler_admitted s i h Hok Hh) as (a & Ha & Had & Hp & _).
    destruct (handler_progress s i h a Hp Had Hh) as (cfg & Hb & Hc & Heq & Hm); [by rewrite Ht|].
    rewrite Ht in Hm. destruct Hm as [-> Hm]. rewrite set_crashed_id.
    eapply (system_ok_at s i a); [done|done|intros j Hne; by rewrite lookup_delete_ne|].
    unfold progress_ok. cbn. rewrite lookup_delete_eq, Hb, app_nil_r in *. done.
Qed.

(** The policy stays live while a frame is handled. *)
Lemma reloaded_live s pw :
  system_ok s → reloaded s pw →
  live_reads (reads_of (sys_policy s) pw) ∧ ∀ w, pw = Some w → live_policy (watcher w).
Proof.
  intros Hok Hr. pose proof (ok_policy s Hok) as Hp. destruct Hr as [w w' Hst|]; [|done].
  assert (Hl : live_policy (watcher w')) by (eapply live_steps; [by apply (Hp w)|exact Hst]).
  split; [|by intros ? [= <-]]. intros rd [= <-]. split; [by apply Hp|done].
Qed.

(** A frame that starts no handler. *)
Lemma received_ok s pw t :
  system_ok s → (∀ w, pw = Some w → live_policy (watcher w)) → system_ok (received pw (handlers s) (history s) t s).
Proof. intros [Hpol Hlink Hrun Hhist Hunk] Hw. by split. Qed.

Lemma other_step_ok s s' : system_ok s → other_step s s' → system_ok s'.
Proof.
  intros Hok Hstep. revert Hok. destruct Hstep as [s pw i data dec ifi m Hr Hw p o Hp h|s pw i data Hr Hw o Hp
    |s pw t b Hr Hw Hrec|s w w' Hw Hst|s w w' Hw Hst|s Hr|s r Hr Hd]; intros Hok; try (by destruct Hok).
  - destruct (reloaded_live s pw Hok Hw) as [Hrd Hpw]. destruct Hok as [Hpol Hlink Hrun Hhist Hunk].
    split; [done|done|done|..]; cbn [history handlers begun wire received].
    + intros j a [[Hlt Hj]|[-> <-]]%lookup_snoc_Some.
      * destruct (Hhist j a Hj) as [Ha Hpr]. split; [done|]. unfold progress_ok in *. cbn.
        by rewrite lookup_insert_ne by lia.
      * pose proof (handlePacket_gates _ _ _ _ _ _ _ _ Hp) as [Hf _]. unfold o in Hp. rewrite Hf in Hp.
        split; [done|]. destruct (Hunk (length (history s))) as (_ & Hb & He); [by apply lookup_ge_None_2|].
        unfold progress_ok. cbn. by rewrite Hb, lookup_insert_eq.
    + intros j Hj%lookup_ge_None_1. rewrite length_app in Hj. cbn in Hj. rewrite lookup_insert_ne by lia.
      apply Hunk, lookup_ge_None_2. lia.
  - apply received_ok; [done|]. by apply (reloaded_live s pw).
  - injection Hrec as <- <-. rewrite set_crashed_id. apply received_ok; [done|]. by apply (reloaded_live s pw).
  - destruct Hok as [Hpol Hlink Hrun Hhist Hunk]. split; [|done..]. intros ? [= <-].
    eapply live_step; [|exact Hst]. by apply Hpol.
  - destruct Hok as [Hpol Hlink Hrun Hhist Hunk]. split; [done| |done..]. intros p [= <-].
    unfold links_now in Hlink. rewrite Hw in Hlink. eapply live_step; [|exact Hst]. by apply Hlink.
Qed.

Lemma system_steps_ok s s' : system_ok s → rtc system_step s s' → system_ok s'.
Proof.
  intros Hok Hr. induction Hr as [s|s s1 s' [Hst|Hst] _ IH]; [done|..]; apply IH;
    eauto using handler_step_ok, other_step_ok.
Qed.

(** What [main] has loaded, when it has loaded it. *)
Definition policy_loaded (policy : option MacPolicy.Map) : Prop :=
  ∀ m, policy = Some m → ∃ Interval abs os, MacPolicy.policy_New Interval abs os = Ok m.

Definition links_loaded (links : option (Watcher LinkMap.Table unit)) : Prop :=
  ∀ lm, links = Some lm → ∃ Interval abs os, linkmap_New Interval abs os = Ok lm.

Lemma launch_ok policy links : policy_loaded policy → links_loaded links → system_ok (launch policy links).
Proof.
  intros Hp Hl. split; [intros m Hm|intros lm Hm|done|done|].
  - cbn in Hm. destruct policy as [m'|]; [|done]. injection Hm as <-.
    destruct (Hp m' eq_refl) as (iv & abs & os & Hnew). by destruct (New_live _ _ _ _ Hnew) as (p & [= <-] & ? & _).
  - unfold links_now in Hm. cbn in Hm. destruct links as [m'|]; [|done]. injection Hm as <-.
    destruct (Hl m' eq_refl) as (iv & abs & os & Hnew). by destruct (New_live _ _ _ _ Hnew) as (p & [= <-] & ? & _).
  - intros i _. cbn. by rewrite !lookup_empty.
Qed.

(** Every step of the system is a step of the pool or leaves it as it is. *)
Lemma step_abstract s s' :
  system_ok s → system_step s s' → pool_step (abstract s) (abstract s') ∨ abstract s' = abstract s.
Proof.
  intros Hok [Hh|Ho]; revert Hok.
  - destruct Hh as [s i h Hs Ht t|s i h e ph Hs Ht|s i h Hs Ht|s i h t Hs Ht|s i h b t b' Hs Ht Hr|s i h b Hs Ht|s n Hn];
      intros Hok. 1-5: right; unfold abstract; cbn; by rewrite map_size_insert, Hs.
    + left. apply (step_release (abstract s)). cbn. pose proof (map_size_delete i (handlers s)) as Hd.
      rewrite Hs in Hd. cbn in Hd. assert (size (handlers s) ≠ 0%nat) by (eapply map_size_ne_0_lookup_2; eauto). lia.
    + left. by apply (step_done (abstract s)).
  - destruct Ho as [s pw i data dec ifi m Hr Hw p o Hp h|s pw i data Hr Hw o Hp|s pw t b Hr Hw Hrec
      |s w w' Hw Hst|s w w' Hw Hst|s Hr|s r Hr Hd]; intros Hok; try (by right).
    + left. apply handlePacket_gates in Hp as (Hf & _). apply bool_decide_eq_true in Hf.
      unfold abstract at 2. cbn. rewrite map_size_insert_None, Hr;
        [by apply (step_spawn (abstract s))|]. by apply (ok_unknown s Hok), lookup_ge_None_2.
    + left. by apply (step_shutdown (abstract s)).
    + left. apply (step_drain (abstract s) r); [done|]. unfold drain_possible, waitgroup. by destruct r.
Qed.

Lemma steps_abstract s s' :
  system_ok s → rtc system_step s s' → rtc pool_step (abstract s) (abstract s').
Proof.
  intros Hok Hr. induction Hr as [s|s s1 s' Hst Hr IH]; [apply rtc_refl|].
  assert (Hok1 : system_ok s1) by (eapply system_steps_ok; [exact Hok|by apply rtc_once]).
  destruct (step_abstract s s1 Hok Hst) as [Hp|<-]; [eapply rtc_l; [exact Hp|]|]; by apply IH.
Qed.

(** *** What the handlers still have to do *)

Lemma weigh_insert f i h m : m !! i = None → weigh f (<[i := h]> m) = (f h + weigh f m)%nat.
Proof. intros Hi. unfold weigh. rewrite map_fold_insert_L; [done| |done]. intros; lia. Qed.

Lemma weigh_delete f i h m : m !! i = Some h → weigh f m = (f h + weigh f (delete i m))%nat.
Proof.
  intros Hi. rewrite <- (insert_delete_id m i h) at 1 by done. apply weigh_insert, lookup_delete_eq.
Qed.

Lemma weigh_update f i h h' m :
  m !! i = Some h → (weigh f (<[i := h']> m) + f h = weigh f m + f h')%nat.
Proof.
  intros Hi. rewrite (weigh_delete f i h m) by done. rewrite <- insert_delete_eq.
  rewrite weigh_insert by apply lookup_delete_eq. lia.
Qed.

(** What is left after handler [i] went from one phase to another, both begun. *)
Lemma advance_work i h ph m :
  m !! i = Some h → h_phase h ≠ Fresh → ph ≠ Fresh →
  (weight_running (set_phase ph h) < weight_running h)%nat →
  weigh weight_waiting (<[i := set_phase ph h]> m) = weigh weight_waiting m ∧
  (weigh weight_running (<[i := set_phase ph h]> m) < weigh weight_running m)%nat.
Proof.
  intros Hh Hf Hf' Hlt. pose proof (weigh_update weight_waiting i h (set_phase ph h) _ Hh) as Hw.
  pose proof (weigh_update weight_running i h (set_phase ph h) _ Hh) as Hr.
  assert (weight_waiting h = 0%nat ∧ weight_waiting (set_phase ph h) = 0%nat) as [E1 E2]
    by (unfold weight_waiting; cbn; by destruct (h_phase h), ph). rewrite E1, E2 in Hw. lia.
Qed.

(** A handler step begins a handler, or shortens what is left of those that have begun. *)
Lemma handler_step_work s s' :
  handler_step s s' →
  is_receiving s' = is_receiving s ∧
  ((waiting_work s' < waiting_work s)%nat ∨
   waiting_work s' = waiting_work s ∧ (running_work s' < running_work s)%nat).
Proof.
  intros Hstep.
  assert (Hadv : ∀ s i h ph w, handlers s !! i = Some h → h_phase h ≠ Fresh → ph ≠ Fresh →
    (weight_running (set_phase ph h) < weight_running h)%nat →
    let s' := with_handlers (<[i := set_phase ph h]> (handlers s)) (leaving_handlers s) (begun s) w s in
    waiting_work s' = waiting_work s ∧ (running_work s' < running_work s)%nat).
  { clear. intros s i h ph w Hh Hf Hf' Hlt. unfold waiting_work, running_work. cbn.
    destruct (advance_work i h ph _ Hh Hf Hf' Hlt) as [-> ?]. split; [done|lia]. }
  destruct Hstep as [s i h Hh Ht t|s i h e ph Hh Ht|s i h Hh Ht|s i h t Hh Ht|s i h b t b' Hh Ht Hr|s i h b Hh Ht|s n Hn];
    (split; [done|]).
  - left. unfold waiting_work. cbn. pose proof (weigh_update weight_waiting i h (set_phase (Doing t) h) _ Hh) as Hw.
    unfold weight_waiting at 2 4 in Hw. rewrite Ht in Hw. cbn in Hw. lia.
  - right. unfold weight_running in Hadv. apply Hadv; [done|..]; cbn;
      destruct (h_phase h) as [|[|? ?]| |[|? ?] ?]; try done; injection Ht as <- <-; try done; cbn; lia.
  - right. unfold weight_running in Hadv. apply Hadv; rewrite ?Ht; try done. cbn. lia.
  - right. unfold weight_running in Hadv. apply Hadv; rewrite ?Ht; try done. cbn. lia.
  - right. unfold weight_running in Hadv. apply Hadv; rewrite ?Ht; try done.
    destruct b; injection Hr as <- <-; cbn; lia.
  - right. pose proof (weigh_delete weight_waiting i h _ Hh) as Hw.
    pose proof (weigh_delete weight_running i h _ Hh) as Hr. unfold waiting_work, running_work. cbn.
    unfold weight_waiting at 2 in Hw. unfold weight_running at 2 in Hr. rewrite Ht in *. cbn in *. lia.
  - right. unfold waiting_work, running_work. cbn. rewrite Hn. split; [done|lia].
Qed.

(** Once the receiver has stopped the other steps leave the handlers alone. *)
Lemma quiet_steps s s' :
  rtc other_step s s' → is_receiving s = false →
  is_receiving s' = false ∧ handlers s' = handlers s ∧ leaving_handlers s' = leaving_handlers s.
Proof.
  intros Hr. induction Hr as [s|s s1 s' Hst _ IH]; [done|]. intros Hf.
  destruct Hst; try congruence; cbn in IH; by apply IH.
Qed.

Lemma handler_can_step s :
  (0 < size (handlers s) + leaving_handlers s)%nat → ∃ s', handler_step s s'.
Proof.
  intros Hpos. destruct (leaving_handlers s) as [|n] eqn:El; [|by eexists; apply (step_leave s n)].
  destruct (map_size_ne_0_lookup_1 (handlers s)) as [i [h Hh]]; [lia|].
  destruct (h_phase h) as [|[|e t]|b|[|e t] b] eqn:Et.
  - eexists. by eapply step_begin.
  - eexists. by eapply step_return.
  - eexists. eapply step_event; [done|by rewrite Et].
  - destruct (recover_handler true b) as [t b'] eqn:Er. eexists. by eapply step_deferred.
  - eexists. by eapply step_finish.
  - eexists. eapply step_event; [done|by rewrite Et].
Qed.

Lemma productive_acc s : is_receiving s = false → Acc (λ s2 s1, productive s1 s2) s.
Proof.
  remember (waiting_work s) as n eqn:En. revert s En.
  induction (lt_wf n) as [n _ IHn]. intros s En. remember (running_work s) as m eqn:Em. revert s En Em.
  induction (lt_wf m) as [m _ IHm]. intros s -> -> Hf. constructor. intros s' (q & Hq & Hst).
  destruct (quiet_steps s q Hq Hf) as (Hf' & Eh & El). destruct (handler_step_work q s' Hst) as [Er Hw].
  assert (waiting_work q = waiting_work s) as Ew by (unfold waiting_work; by rewrite Eh).
  assert (running_work q = running_work s) as Ev by (unfold running_work; by rewrite Eh, El).
  rewrite Ew, Ev in Hw. destruct Hw as [Hw|[Hw Hv]].
  - eapply IHn; [exact Hw|done|congruence].
  - eapply IHm; [exact Hv|done|done|congruence].
Qed.

(** Handlers alone empty the pool. *)
Lemma handlers_drain s :
  is_receiving s = false →
  ∃ s', rtc handler_step s s' ∧ is_receiving s' = false ∧ (size (handlers s') + leaving_handlers s' = 0)%nat.
Proof.
  intros Hf. pose proof (productive_acc s Hf) as Hacc. induction Hacc as [s _ IH].
  destruct (Nat.eq_0_gt_0_cases (size (handlers s) + leaving_handlers s)) as [Hz|Hpos];
    [exists s; split; [apply rtc_refl|done]|].
  destruct (handler_can_step s Hpos) as [s1 Hst].
  destruct (IH s1) as (s' & Hr & Hrest);
    [exists s; split; [apply rtc_refl|done]|by destruct (handler_step_work s s1 Hst) as [-> _]|].
  exists s'. split; [by eapply rtc_l|done].
Qed.

(** A handler in the body of [dhcp4.Handle], or in its deferred function, can do everything it has to do. *)
Lemma handler_does_all i s h (ph : trace → phase) t :
  (∀ e t, next_event (ph (e :: t)) = Some (e, ph t)) →
  handlers s !! i = Some h → h_phase h = ph t →
  ∃ s', rtc handler_step s s' ∧
    s' = with_handlers (<[i := set_phase (ph []) h]> (handlers s)) (leaving_handlers s) (begun s)
           (wire s ++ map (pair i) t) s.
Proof.
  intros Hph. revert s h. induction t as [|e t IH]; intros s h Hh Ht.
  { eexists. split; [|reflexivity]. unfold with_handlers. cbn. rewrite app_nil_r, <- Ht.
    rewrite insert_id by (by destruct h). destruct s. apply rtc_refl. }
  pose proof (step_event s i h e (ph t) Hh) as Hst. rewrite Ht, Hph in Hst. specialize (Hst eq_refl).
  match type of Hst with handler_step _ ?q => destruct (IH q (set_phase (ph t) h)) as (s' & Hr & ->) end;
    [apply lookup_insert_eq|done|].
  eexists. split; [eapply rtc_l; [exact Hst|exact Hr]|].
  unfold with_handlers. cbn. by rewrite insert_insert_eq, <- app_assoc.
Qed.

(** The end of a handler: its deferred function, the release of the slot and the wait group. *)
Lemma handler_ends i s h b t :
  handlers s !! i = Some h → h_phase h = Unwinding b → recover_handler true b = (t, false) →
  ∃ s', rtc handler_step s s' ∧
    s' = with_handlers (delete i (handlers s)) (leaving_handlers s) (begun s) (wire s ++ map (pair i) t) s.
Proof.
  intros Hh Hp Er. pose proof (step_deferred s i h b t false Hh Hp Er) as Hst.
  destruct (handler_does_all i (advance i h (Deferred t false) s) (set_phase (Deferred t false) h)
    (λ t, Deferred t false) t) as (s1 & Hr & ->); [done|apply lookup_insert_eq|done|].
  eexists. split; [|reflexivity]. eapply rtc_l; [exact Hst|]. etransitivity; [exact Hr|].
  eapply rtc_l; [eapply (step_finish _ i); [apply lookup_insert_eq|done]|]. rewrite set_crashed_id.
  eapply rtc_l; [eapply step_leave; reflexivity|]. unfold with_handlers. cbn.
  rewrite insert_insert_eq, delete_insert_eq. apply rtc_refl.
Qed.

(** An event on the wire belongs to the run of a handler of an admitted frame. *)
Lemma wire_event s i e :
  system_ok s → (i, e) ∈ wire s → e ≠ panic_line →
  ∃ a cfg, history s !! i = Some a ∧ admission_ok a ∧
    (∃ links, live_links links ∧ cfg = make_config fl giaddr links) ∧
    e ∈ tr (handler_run cfg i (ad_handler a)).1.
Proof.
  intros Hok He Hnr. assert (Hin : e ∈ events_of i (wire s)).
  { unfold events_of. apply list_elem_of_In, in_map_iff. exists (i, e). split; [done|].
    apply List.filter_In. split; [by apply list_elem_of_In|]. apply Nat.eqb_refl. }
  destruct (history s !! i) as [a|] eqn:Ea;
    [|apply (ok_unknown s Hok) in Ea as (_ & _ & E); rewrite E in Hin; by apply not_elem_of_nil in Hin].
  destruct (ok_history s Hok i a Ea) as [Ha Hp]. unfold progress_ok in Hp.
  destruct (begun s !! i) as [[cfg t]|]; [|destruct Hp as [_ E]; rewrite E in Hin; by apply not_elem_of_nil in Hin].
  destruct Hp as (Hcfg & -> & Hrest). exists a, cfg. repeat (split; [done|]).
  assert (∃ rest, let u := events_of i (wire s) ++ rest in
    u = tr (handler_run cfg i (ad_handler a)).1 ∨ cut_short (tr (handler_run cfg i (ad_handler a)).1) u) as (rest & Hu).
  { destruct (handlers s !! i) as [h|]; [|exists []; by rewrite app_nil_r].
    destruct Hrest as [_ Hrest]. destruct (h_phase h) as [|rest|[]|rest b]; cbn in Hrest; [done|exists rest; auto|..].
    - destruct Hrest as [rest ->]. exists rest. by left.
    - exists []. rewrite app_nil_r. by left.
    - exists rest. by destruct Hrest. }
  cbv zeta in Hu. destruct Hu as [<-|(p & [q ->] & E)]; [set_solver|].
  assert (e ∈ p ++ [panic_line]) by (rewrite <- E; set_solver). set_solver.
Qed.

(** A handler that has panicked after it did [u] logs that and leaves, whatever the others do. *)
Definition recovering_from (i : nat) (u : trace) (s : system) : Prop :=
  (i < length (history s))%nat ∧
  match handlers s !! i with
  | Some h =>
      (h_phase h = Unwinding true ∧ events_of i (wire s) = u) ∨
      ∃ part rest b, h_phase h = Deferred rest b ∧ part ++ rest = [panic_line] ∧ events_of i (wire s) = u ++ part
  | None => events_of i (wire s) = u ++ [panic_line]
  end.

Lemma recovering_step i u s s' : recovering_from i u s → system_step s s' → recovering_from i u s'.
Proof.
  intros [Hlt Hu] [Hst|Hst]; revert Hlt Hu.
  - destruct Hst as [s j h Hh Ht t|s j h e ph Hh Ht|s j h Hh Ht|s j h t Hh Ht|s j h b t b' Hh Ht Hr|s j h b Hh Ht|s n Hn];
      intros Hlt Hu; (split; [done|]); cbn; [..|done];
      (destruct (decide (j = i)) as [->|Hne];
        [rewrite ?lookup_insert_eq, ?lookup_delete_eq, Hh in *;
         destruct Hu as [[Hp Hu]|(part & rest & b0 & Hp & Hpr & Hu)]; rewrite Hp in Ht; try done
        |by rewrite ?events_of_snoc, ?decide_False, ?app_nil_r, ?lookup_insert_ne, ?lookup_delete_ne]).
    + right. destruct rest as [|e' rest]; [done|]. injection Ht as <- <-. exists (part ++ [e']), rest, b0.
      split; [done|]. by rewrite events_of_snoc, decide_True, Hu, <- !app_assoc.
    + injection Ht as <-. injection Hr as <- <-. right. exists [], [panic_line], false. by rewrite app_nil_r.
    + injection Ht as -> ->. rewrite app_nil_r in Hpr. by subst.
  - destruct Hst; intros Hlt Hu; (split; [cbn; rewrite ?length_app; lia|]); try done.
    cbn. by rewrite lookup_insert_ne by lia.
Qed.

Lemma recovering_steps i u s s' : recovering_from i u s → rtc system_step s s' → recovering_from i u s'.
Proof. intros Hu Hr. induction Hr; [done|]. eauto using recovering_step. Qed.

(** No part of what the deferred function does is a packet. *)
Lemma sends_recovering part rest : part ++ rest = [panic_line] → sends part = [].
Proof. destruct part as [|e [|? ?]]; [done|by intros [= -> _]|done]. Qed.

End system.

(** ** Properties *)

(** C3: every packet the running relay lets out is justified.  In every state that reception, reloads of
    both configuration files, handlers, panics and shutdown reach from a start with accepted flags, in any
    interleaving, a datagram or frame on the wire comes from the handler of a received frame that passed
    every gate of [handlePacket] under live policies, which may differ between its two lookups; the handler
    ran with the configuration of the flags and a live link map, and the packet is among those
    [dhcp4.Handle] may let out for that message: for a request below the hop limit the relayed request to
    the server selected, and for a reply the copies for the client or the one datagram to the next relay.
    It is the serialisation of a well formed message. *)
Theorem wire_justified `{GopacketLaws} `{UnicodeTables} `{!Decoder} `{!DecoderLaws} (fl : Flags) (giaddr : bytes)
    (hosts : nat → Host) (caches : nat → option InterfaceCache) (policy : option MacPolicy.Map)
    (links : option (Watcher LinkMap.Table unit)) (s : system) (i : nat) (e : event) :
  check_flags fl = Ok giaddr → policy_loaded policy → links_loaded links →
  rtc (system_step fl giaddr hosts caches) (launch fl policy links) s →
  (i, e) ∈ wire s → is_send e = true →
  typed_event e ∧
  ∃ a lk s' new, history s !! i = Some a ∧ let h := ad_handler a in let cfg := make_config fl giaddr lk in
    live_reads (ad_policy a) ∧
    passed_gates fl (ad_policy a) (ad_ifindex a) (ad_data a) (h_dec h) (h_ifindex h) (h_msg h) ∧
    live_links lk ∧ good_config cfg ∧ MaxHops cfg = flagMaxHops fl ∧ Giaddr cfg = giaddr ∧
    handler_run hosts caches cfg i h = (s', Ok ()) ∧ new = sends (tr s') ∧ e ∈ new ∧
    GetMessageType (h_msg h) ≠ [] ∧
    (@request_leaves _ (hosts i) cfg (h_dec h) (h_ifindex h) (h_msg h) new ∨
     @reply_leaves _ (hosts i) cfg (h_dec h) (h_msg h) new).
Proof.
  intros Hc Hpol Hlnk Hr He Hs. pose proof (launch_ok fl giaddr hosts caches policy links Hpol Hlnk) as Hl0.
  pose proof (system_steps_ok _ _ _ _ _ _ Hl0 Hr) as Hok.
  destruct (wire_event _ _ _ _ _ _ _ Hok He) as (a & cfg & Ha & (Hlive & _ & Hp) & (lk & Hlk & ->) & Hin);
    [by intros ->|].
  apply handlePacket_gates in Hp as [_ Hg]. pose proof Hg as (_ & _ & _ & Hdec & _).
  destruct Hdec as (? & ? & ? & ? & m0 & Hdec & _ & _ & _ & Hm). apply decoded_representable in Hdec.
  destruct (check_flags_ok _ _ Hc) as (_ & _ & _ & _ & Hh & _).
  destruct (@Handle_leaves _ (hosts i) _ (make_config fl giaddr lk) (h_dec (ad_handler a))
    (h_ifindex (ad_handler a)) (mkSt [] (h_msg (ad_handler a)) (caches i))) as (s' & new & E & Ht & Hnew).
  { cbn. rewrite Hm. apply Hdec. }
  { cbn. pose proof (u8_range (flagMaxHops fl)). lia. }
  cbn [tr msg app] in *. unfold handler_run in *. rewrite E in *. cbn [fst] in Hin.
  assert (Hen : e ∈ new).
  { change (sends []) with (@nil event) in Ht. rewrite app_nil_l in Ht. rewrite <- Ht. unfold sends.
    apply list_elem_of_In, List.filter_In. split; [by apply list_elem_of_In|done]. }
  destruct Hnew as [Ht' Hl]; [by intros ->; apply not_elem_of_nil in Hen|].
  split.
  { destruct (@keeps_Handle _ _ (hosts i) _ (make_config fl giaddr lk) (h_dec (ad_handler a)) (h_ifindex (ad_handler a))
      (make_config_good _ _ _ Hc Hlk) (mkSt [] (h_msg (ad_handler a)) (caches i))) as [[_ Hty] _];
      [by split; [rewrite Hm; apply typed_unsplit|constructor]|].
    rewrite E in Hty. rewrite Forall_forall in Hty. by apply Hty. }
  exists a, lk, s', new. split; [done|]. cbv zeta. split; [done|]. split; [done|]. split; [done|].
  split; [by apply make_config_good|]. split; [cbn; by rewrite u8_small by lia|]. done.
Qed.


(** C9: the running relay refines the handler pool.  Along every execution each step of the receiver, the
    handlers, the pollers and shutdown is a step of the counting pool or does not change it, so every
    state the relay reaches abstracts to one the pool reaches from its start. *)
Theorem system_refines_pool `{Gopacket} `{UnicodeTables} `{Decoder} (fl : Flags) (giaddr : bytes)
    (hosts : nat → Host) (caches : nat → option InterfaceCache) (policy : option MacPolicy.Map)
    (links : option (Watcher LinkMap.Table unit)) (s : system) :
  policy_loaded policy → links_loaded links →
  rtc (system_step fl giaddr hosts caches) (launch fl policy links) s →
  rtc pool_step (start_pool (Z.to_nat (flagMaxHandlers fl))) (abstract s) ∧
  ∀ s', system_step fl giaddr hosts caches s s' →
    pool_step (abstract s) (abstract s') ∨ abstract s' = abstract s.
Proof.
  intros Hpol Hlnk Hr. pose proof (launch_ok fl giaddr hosts caches policy links Hpol Hlnk) as Hl0. split.
  - change (start_pool _) with (abstract (launch fl policy links)). eapply steps_abstract; eauto.
  - intros s' Hst. eapply step_abstract; [|exact Hst]. eapply system_steps_ok; eauto.
Qed.

(** C15: the drain at shutdown makes progress and can complete.  Once the receiver has stopped there is no
    infinite sequence of handler steps, whatever the pollers do in between; as long as a handler is left
    one of them can step; the handlers alone reach a state with none left; and where none is left the
    drain can complete and close the UDP socket. *)
Theorem drain_live `{Gopacket} `{UnicodeTables} `{Decoder} (fl : Flags) (giaddr : bytes)
    (hosts : nat → Host) (caches : nat → option InterfaceCache) (s : system) :
  is_receiving s = false →
  Acc (λ s2 s1, productive fl giaddr hosts caches s1 s2) s ∧
  ((0 < size (handlers s) + leaving_handlers s)%nat → ∃ s', handler_step fl giaddr hosts caches s s') ∧
  ∃ s' s'', rtc (handler_step fl giaddr hosts caches) s s' ∧
    (size (handlers s') + leaving_handlers s' = 0)%nat ∧ other_step fl s' s'' ∧ is_open s'' = false.
Proof.
  intros Hf. split; [by apply productive_acc|]. split; [apply handler_can_step|].
  destruct (handlers_drain fl giaddr hosts caches s Hf) as (s' & Hr & Hf' & Hz).
  eexists s', _. split; [done|]. split; [done|].
  split; [by apply (step_drained fl s' drainCompleted)|done].
Qed.

(** ** Witnesses *)

Module SystemExample.

#[local] Existing Instances TestPacket.test_gopacket ascii_tables MainExample.decoder.

Definition giaddr : bytes := [10; 0; 0; 2].
Definition hosts (_ : nat) : Host := TestHost.test_host.
Definition caches (_ : nat) : option InterfaceCache := None.
Definition start : system := launch MainExample.flags None None.
Definition h : handler := mkHandler None 2 RelayExample.request Fresh.
Definition t : trace := Eval vm_compute in
  tr (handler_run hosts caches (make_config MainExample.flags giaddr None) 0 h).1.

(** After one request has been received and its handler has begun. *)
Definition busy : system :=
  mkSystem 2 None None {[ 0%nat := set_phase (Doing t) h ]} 0 true true false
    [{| ad_policy := None; ad_ifindex := 2; ad_data := []; ad_handler := h |}]
    {[ 0%nat := (make_config MainExample.flags giaddr None, t) ]} [] [].

(** The same when the receiver has stopped. *)
Definition stopping : system :=
  mkSystem 2 None None (handlers busy) 0 false true false (history busy) (begun busy) [] [].

Definition steps : system → system → Prop := rtc (system_step MainExample.flags giaddr hosts caches).

Lemma start_busy : steps start busy.
Proof.
  unfold steps.
  eapply rtc_l; [right; apply (step_frame _ start None 2 [] None 2 RelayExample.request); [reflexivity|constructor|]; vm_compute; reflexivity|].
  eapply rtc_l; [left; eapply (step_begin _ _ _ _ _ 0%nat h); reflexivity|].
  match goal with |- rtc _ ?x _ => replace x with busy; [apply rtc_refl|] end.
  unfold busy, with_handlers, start, launch, config_now. cbn [capacity sys_policy sys_links handlers received
    leaving_handlers is_receiving is_open crashed history begun wire receiver_log length]. rewrite insert_insert_eq. reflexivity.
Qed.

#[export] Instance decoder_laws : @DecoderLaws MainExample.decoder.
Proof.
  split. intros data decoded eth ip udp m [= <- <- <- <- <-].
  split; [vm_compute; split; congruence..|apply list_elem_of_In; vm_compute; tauto|].
  repeat (constructor; [vm_compute; split_and!; congruence|]). constructor.
Qed.

Lemma flags_ok : check_flags MainExample.flags = Ok giaddr.
Proof. vm_compute. reflexivity. Qed.

Lemma no_policy : policy_loaded None.
Proof. done. Qed.

Lemma no_links : links_loaded None.
Proof. done. Qed.

Lemma start_sent : ∃ s, steps start s ∧ (0%nat, List.nth 3 t (Log Debug "")) ∈ wire s.
Proof.
  destruct (handler_does_all MainExample.flags giaddr hosts caches 0%nat busy (set_phase (Doing t) h) Doing t)
    as (s & Hr & ->); [reflexivity..|].
  eexists. split; [unfold steps; etransitivity; [exact start_busy|]|].
  { eapply rtc_subrel; [|exact Hr]. by left. }
  apply list_elem_of_In. cbn. auto.
Qed.

End SystemExample.

Lemma wire_justified_witness :
  ∃ s a lk new, SystemExample.steps SystemExample.start s ∧
    @typed_event TestPacket.test_gopacket (List.nth 3 SystemExample.t (Log Debug "")) ∧ history s !! 0%nat = Some a ∧
    let cfg := @make_config ascii_tables MainExample.flags SystemExample.giaddr lk in
    (@request_leaves TestPacket.test_gopacket TestHost.test_host cfg (h_dec (ad_handler a))
       (h_ifindex (ad_handler a)) (h_msg (ad_handler a)) new ∨
     @reply_leaves TestPacket.test_gopacket TestHost.test_host cfg (h_dec (ad_handler a)) (h_msg (ad_handler a)) new).
Proof.
  destruct SystemExample.start_sent as (s & Hr & He).
  destruct (@wire_justified TestPacket.test_gopacket TestPacket.test_gopacket_laws ascii_tables MainExample.decoder SystemExample.decoder_laws
    MainExample.flags SystemExample.giaddr SystemExample.hosts SystemExample.caches None None s 0%nat _
    SystemExample.flags_ok SystemExample.no_policy SystemExample.no_links Hr He eq_refl)
    as (Hty & a & lk & s' & new & Ha & _ & _ & _ & _ & _ & _ & _ & _ & _ & _ & Hl).
  exists s, a, lk, new. split; [exact Hr|]. split; [exact Hty|]. split; [exact Ha|exact Hl].
Defined.


Lemma system_refines_pool_witness : rtc pool_step (start_pool 2) (abstract SystemExample.busy).
Proof.
  apply (@system_refines_pool TestPacket.test_gopacket ascii_tables MainExample.decoder MainExample.flags
    SystemExample.giaddr SystemExample.hosts SystemExample.caches None None SystemExample.busy
    SystemExample.no_policy SystemExample.no_links SystemExample.start_busy).
Defined.

Lemma drain_live_witness :
  ∃ s : system, size (handlers s) = 1%nat ∧
  ∃ s', @handler_step TestPacket.test_gopacket ascii_tables MainExample.flags SystemExample.giaddr
    SystemExample.hosts SystemExample.caches s s'.
Proof.
  exists SystemExample.stopping. split; [reflexivity|].
  apply (@drain_live TestPacket.test_gopacket ascii_tables MainExample.decoder MainExample.flags
    SystemExample.giaddr SystemExample.hosts SystemExample.caches SystemExample.stopping eq_refl). apply Nat.ltb_lt. reflexivity.
Defined.
