(* ===== verification/Drain.v ===== *)
(** * The drain at shutdown: [waitForHandlers] of [main.go].

    Beside the handlers runs a goroutine that waits for the wait group and closes a channel; [main]
    selects between that channel, a second signal and the grace period.  The transition system of [System]
    takes the result of the drain as one step; here it is the outcome of the select. *)

From S2P Require Import Prelude GoStrings GoNet Specs Layers LayerAccess DhcpOptions Option82 Glob CfgMatch.
From S2P Require Import FileWatch LinkMap MacPolicy Host Addrs IfCache Request Reply Dhcp4 Relay CmdLine Main System.

Definition shutdownGracePeriod : Z := 5 * 10 ^ 9.

(** The relay, whether [waitDone] is closed, whether a signal is in [forceQuit], how long [main] has
    waited, and what [waitForHandlers] returned. *)
Record draining := mkDraining {
  relay : system;
  waitDone : bool;
  forceQuit : bool;
  waited : Z;
  returned : option drainResult
}.

Definition start_drain (s : system) : draining := mkDraining s false false 0 None.

(** The cases of the select that are ready. *)
Definition ready (grace : Z) (d : draining) (r : drainResult) : Prop :=
  match r with
  | drainCompleted => waitDone d = true
  | drainForced => forceQuit d = true
  | drainTimedOut => grace ≤ waited d
  end.

Section drain.
Context `{Gopacket} `{UnicodeTables} `{Decoder}.
Context (fl : Flags) (giaddr : bytes).
Context (hosts : nat → Host) (caches : nat → option InterfaceCache).
Context (grace : Z).

(** The wait group of the handlers. *)
Definition in_flight (s : system) : nat := (size (handlers s) + leaving_handlers s)%nat.

Inductive drain_step : draining → draining → Prop :=
| drain_handler d s' :
    handler_step fl giaddr hosts caches (relay d) s' →
    drain_step d (mkDraining s' (waitDone d) (forceQuit d) (waited d) (returned d))
| drain_waiter d :
    (* wg.Wait(); close(waitDone) *)
    in_flight (relay d) = 0%nat →
    drain_step d (mkDraining (relay d) true (forceQuit d) (waited d) (returned d))
| drain_signal d : drain_step d (mkDraining (relay d) (waitDone d) true (waited d) (returned d))
| drain_time d t :
    0 ≤ t → drain_step d (mkDraining (relay d) (waitDone d) (forceQuit d) (waited d + t) (returned d))
| drain_select d r :
    returned d = None → ready grace d r →
    drain_step d (mkDraining (relay d) (waitDone d) (forceQuit d) (waited d) (Some r)).

(** The channel is closed, and completion returned, only when no handler is left. *)
Record drain_ok (d : draining) : Prop := {
  drain_stopped : is_receiving (relay d) = false;
  drain_waited : waitDone d = true → in_flight (relay d) = 0%nat;
  drain_returned r : returned d = Some r → ready grace d r
}.

(** With none left the handlers make no step. *)
Lemma no_handler_step s s' : in_flight s = 0%nat → ¬ handler_step fl giaddr hosts caches s s'.
Proof.
  unfold in_flight. intros Hz Hst.
  assert (Hno : ∀ i h, handlers s !! i = Some h → False).
  { intros i h Hh. assert (size (handlers s) ≠ 0%nat) by (eapply map_size_ne_0_lookup_2; eauto). lia. }
  inversion Hst; subst; [by eapply Hno..|lia].
Qed.

Lemma drain_step_ok d d' : drain_ok d → drain_step d d' → drain_ok d'.
Proof.
  intros [Hs Hw Hr] Hst. destruct Hst as [d s' Hst|d Hz|d|d t Ht|d r Hn Hready]; split; cbn; try done.
  { by destruct (handler_step_work _ _ _ _ _ _ Hst) as [-> _]. }
  { intros Hwd. by destruct (no_handler_step _ _ (Hw Hwd) Hst). }
  1,2: intros r Hret; specialize (Hr r Hret); by destruct r.
  - intros r Hret. specialize (Hr r Hret). destruct r; cbn in *; [done..|lia].
  - intros r' [= <-]. by destruct r.
Qed.

Lemma drain_steps_ok d d' : drain_ok d → rtc drain_step d d' → drain_ok d'.
Proof. intros Hok Hr. induction Hr; [done|]. eauto using drain_step_ok. Qed.

(** Steps of the handlers are steps of the drain. *)
Lemma drain_handlers s s' b f w r :
  rtc (handler_step fl giaddr hosts caches) s s' → rtc drain_step (mkDraining s b f w r) (mkDraining s' b f w r).
Proof.
  intros Hr. induction Hr as [s|s s1 s' Hst _ IH]; [apply rtc_refl|]. eapply rtc_l; [|exact IH].
  by apply (drain_handler (mkDraining s b f w r)).
Qed.

Lemma start_drain_ok s : is_receiving s = false → drain_ok (start_drain s).
Proof. by split. Qed.

End drain.

(** ** Properties *)

(** C16: the drain at shutdown is correct and bounded.  However handlers, the waiting goroutine, signals and
    time interleave: what [waitForHandlers] returns is what the running relay allows, so completion is
    reported, and the UDP socket closed, only when no handler is left; a forced or timed out drain leaves
    it open; once the grace period is over [main] can always go on; and as long as it has not, the
    handlers alone can bring the drain to completion, without a signal and however little time passed. *)
Theorem drain_select_correct `{Gopacket} `{UnicodeTables} `{Decoder} (fl : Flags) (giaddr : bytes)
    (hosts : nat → Host) (caches : nat → option InterfaceCache) (grace : Z) (s : system) (d : draining) :
  is_receiving s = false → rtc (drain_step fl giaddr hosts caches grace) (start_drain s) d →
  (∀ r, returned d = Some r →
     ready grace d r ∧ (r = drainCompleted → in_flight (relay d) = 0%nat) ∧
     ∃ s', other_step fl (relay d) s' ∧
       is_open s' = match r with drainCompleted => false | _ => is_open (relay d) end) ∧
  (returned d = None → grace ≤ waited d →
     ∃ d', drain_step fl giaddr hosts caches grace d d' ∧ returned d' = Some drainTimedOut) ∧
  (returned d = None →
     ∃ d', rtc (drain_step fl giaddr hosts caches grace) d d' ∧ returned d' = Some drainCompleted ∧
       forceQuit d' = forceQuit d ∧ waited d' = waited d).
Proof.
  intros Hs Hr. pose proof (drain_steps_ok _ _ _ _ _ _ _ (start_drain_ok grace s Hs) Hr) as [Hst Hw Hret].
  split; [|split].
  - intros r Er. specialize (Hret r Er). split; [done|].
    assert (Hz : r = drainCompleted → in_flight (relay d) = 0%nat) by (intros ->; by apply Hw).
    split; [done|]. eexists. split; [apply (step_drained fl (relay d) r Hst); by destruct r; [apply Hz|..]|by destruct r].
  - intros En Hg. eexists. split; [by apply (drain_select fl giaddr hosts caches grace d drainTimedOut)|done].
  - intros En. destruct (handlers_drain fl giaddr hosts caches (relay d) Hst) as (s' & Hrun & Hrec & Hz).
    destruct d as [q b f w r]. cbn in *. subst r. exists (mkDraining s' true f w (Some drainCompleted)).
    split; [|done]. etransitivity; [by apply drain_handlers|].
    eapply rtc_l; [by apply (drain_waiter fl giaddr hosts caches grace (mkDraining s' b f w None))|].
    eapply rtc_once. by apply (drain_select fl giaddr hosts caches grace (mkDraining s' true f w None) drainCompleted).
Qed.

(** ** Witnesses *)

(** A request is in flight when the receiver stops. *)
Lemma drain_select_correct_witness :
  let s := SystemExample.stopping in
  ∃ d', rtc (@drain_step TestPacket.test_gopacket ascii_tables MainExample.flags SystemExample.giaddr
      SystemExample.hosts SystemExample.caches shutdownGracePeriod) (start_drain s) d' ∧
    returned d' = Some drainCompleted ∧ waited d' = 0.
Proof.
  intros s.
  destruct (@drain_select_correct TestPacket.test_gopacket ascii_tables MainExample.decoder MainExample.flags
    SystemExample.giaddr SystemExample.hosts SystemExample.caches shutdownGracePeriod s (start_drain s)
    eq_refl (rtc_refl _ _)) as (_ & _ & Hend).
  destruct (Hend eq_refl) as (d' & Hr & Hret & _ & Hw). exists d'. split; [exact Hr|]. split; [exact Hret|exact Hw].
Defined.
