(* ===== verification/Refinement.v ===== *)
(** * The program refines the running relay.

    [main] as one function over what the operating system answers ([Program]) records the frames it
    started a handler for; the transition system ([System]) runs receiver, handlers and pollers together.
    Every run of [main] is a run of the system with the same reloads, the same frames admitted, and each
    handler run to its end with the configuration [main] gave it. *)

From S2P Require Import Prelude GoStrings GoNet Specs Layers LayerAccess Logger DebugServer Bpf Sockets.
From S2P Require Import FileWatch LinkMap MacPolicy Host Addrs IfCache Request Reply Dhcp4 Relay.
From S2P Require Import GoFlag Version CmdLine Main Program System.

(** The handlers started for the frames received, each with its configuration. *)
Definition spawned (fs : list (HandleOptions * outcome)) : list (HandleOptions * handler) :=
  omap (λ f, match f.2 with
             | Spawned dec ifIndex m => Some (f.1, mkHandler dec ifIndex m Fresh)
             | _ => None
             end) fs.

Arguments spawned : simpl never.

(** ** A reload is a tick of the poller followed by its reload *)

Lemma poll_reload_steps {T W} (w : Watcher T W) os :
  rtc FileWatch.step (initial w) (initial (poll_reload w os)).
Proof.
  set (info := match lastInfo w with
               | Some i => {| dev := dev i; ino := ino i; fsize := fsize i + 1; mtime := mtime i |}
               | None => {| dev := 0; ino := 0; fsize := 0; mtime := 0 |}
               end).
  eapply rtc_l; [apply (FileWatch.step_tick w (Ok info) w true)|eapply rtc_once, FileWatch.step_poll_reload].
  cbn. unfold info. destruct (lastInfo w) as [i|]; [|done]. f_equal. apply not_false_iff_true.
  rewrite FileChanged_eq. intros E. apply (f_equal fsize) in E. cbn in E. lia.
Qed.

Lemma polls_steps {T W} (w : Watcher T W) oss :
  rtc FileWatch.step (initial w) (initial (foldl poll_reload w oss)).
Proof.
  revert w. induction oss as [|os oss IH]; intros w; [apply rtc_refl|].
  etransitivity; [apply poll_reload_steps|apply IH].
Qed.

Section refinement.
Context `{Gopacket} `{UnicodeTables} `{Decoder}.
Context (fl : Flags) (giaddr : bytes).
Context (hosts : nat → Host) (caches : nat → option InterfaceCache).

Definition steps : system → system → Prop := rtc (system_step fl giaddr hosts caches).

(** ** The simulation relation *)

Record related (p : prog) (s : system) : Prop := {
  rel_policy : sys_policy s = initial <$> policy p;
  rel_links : sys_links s = initial <$> links p;
  rel_idle : handlers s = ∅ ∧ leaving_handlers s = 0%nat;
  rel_capacity : (0 < capacity s)%nat;
  rel_history : map ad_handler (history s) = map snd (spawned (frames p));
  rel_events i : events_of i (wire s) =
    match spawned (frames p) !! i with
    | Some (cfg, h) => tr (handler_run hosts caches cfg i h).1
    | None => []
    end
}.

(** The relation reads only these components of the program. *)
Lemma related_same p p' s :
  policy p' = policy p → links p' = links p → frames p' = frames p → related p s → related p' s.
Proof. intros E1 E2 E3 [? ? ? ? ? ?]. split; rewrite ?E1, ?E2, ?E3; done. Qed.

Lemma related_now p s : related p s → policy_now s = policy p ∧ links_now s = links p.
Proof.
  intros [Hp Hl _ _ _ _]. unfold policy_now, links_now. rewrite Hp, Hl.
  split; [by destruct (policy p)|by destruct (links p)].
Qed.

(** ** Steps of the system that match the program's *)

(** The watchers alone. *)
Definition with_watchers (pw : option (FileWatch.state MacPolicy.Table (bytes → result unit)))
    (lw : option (FileWatch.state LinkMap.Table unit)) (s : system) : system :=
  mkSystem (capacity s) pw lw (handlers s) (leaving_handlers s) (is_receiving s) (is_open s) (crashed s) (history s)
    (begun s) (wire s) (receiver_log s).

Lemma policy_steps s w w' :
  sys_policy s = Some w → rtc FileWatch.step w w' → steps s (with_watchers (Some w') (sys_links s) s).
Proof.
  intros E Hr. revert s E. induction Hr as [w|w w1 w' Hst _ IH]; intros s E.
  { unfold with_watchers. rewrite <- E. destruct s. apply rtc_refl. }
  eapply rtc_l; [right; by eapply step_policy|].
  by apply (IH (with_watchers (Some w1) (sys_links s) s)).
Qed.

Lemma links_steps s w w' :
  sys_links s = Some w → rtc FileWatch.step w w' → steps s (with_watchers (sys_policy s) (Some w') s).
Proof.
  intros E Hr. revert s E. induction Hr as [w|w w1 w' Hst _ IH]; intros s E.
  { unfold with_watchers. rewrite <- E. destruct s. apply rtc_refl. }
  eapply rtc_l; [right; by eapply step_links|]. by apply (IH (with_watchers (sys_policy s) (Some w1) s)).
Qed.

Lemma polls_related r p s :
  related p s → ∃ s', steps s s' ∧ related (polls r p) s' ∧
    is_receiving s' = is_receiving s ∧ is_open s' = is_open s.
Proof.
  intros [Hp Hl Hi Hc Hh He].
  set (s1 := with_watchers (initial <$> policy (polls r p)) (sys_links s) s).
  set (s2 := with_watchers (sys_policy s1) (initial <$> links (polls r p)) s1).
  exists s2. split; [|by split].
  assert (Hs1 : steps s s1).
  { unfold s1. cbn. destruct (policy p) as [m|]; cbn in *; [|rewrite <- Hp; destruct s; apply rtc_refl].
    eapply policy_steps; [exact Hp|apply polls_steps]. }
  etransitivity; [exact Hs1|]. unfold s2. cbn.
  destruct (links p) as [m|] eqn:El; cbn in *.
  - eapply links_steps; [exact Hl|apply polls_steps].
  - unfold s1, with_watchers. cbn. rewrite Hl. apply rtc_refl.
Qed.

(** A handler run from its beginning to its end while nothing else happens. *)
Lemma handler_runs s i h :
  handlers s !! i = Some h → h_phase h = Fresh →
  ∃ s' b, steps s s' ∧
    s' = with_handlers (delete i (handlers s)) (leaving_handlers s) b
      (wire s ++ map (pair i) (tr (handler_run hosts caches (config_now fl giaddr s) i h).1)) s.
Proof.
  intros Hh Hf. pose proof (step_begin fl giaddr hosts caches s i h Hh Hf) as Hst. cbv zeta in Hst.
  set (t := tr (handler_run hosts caches (config_now fl giaddr s) i h).1) in *.
  match type of Hst with handler_step _ _ _ _ _ ?q => set (s1 := q) in * end.
  destruct (handler_does_all fl giaddr hosts caches i s1 (set_phase (Doing t) h) Doing t)
    as (s2 & Hr2 & Es2); [done|apply lookup_insert_eq|done|].
  assert (Hh2 : handlers s2 !! i = Some (set_phase (Doing []) h)) by (rewrite Es2; apply lookup_insert_eq).
  pose proof (step_return fl giaddr hosts caches s2 i _ Hh2 eq_refl) as Hst3.
  destruct (handler_ends fl giaddr hosts caches i (advance i (set_phase (Doing []) h) (Unwinding false) s2)
    (set_phase (Unwinding false) h) false []) as (s3 & Hr3 & Es3); [apply lookup_insert_eq|done..|].
  eexists _, (begun s1). split; [|reflexivity].
  eapply rtc_l; [by left|]. etransitivity; [eapply rtc_subrel; [by left|exact Hr2]|].
  eapply rtc_l; [left; exact Hst3|]. etransitivity; [eapply rtc_subrel; [by left|exact Hr3]|].
  rewrite Es3, Es2. unfold with_handlers, advance. cbn.
  rewrite !insert_insert_eq, delete_insert_eq, app_nil_r. apply rtc_refl.
Qed.

(** What the system is after a frame of the program. *)
Definition matched (p' : prog) (s : system) : Prop :=
  ∃ s', steps s s' ∧ related p' s' ∧ is_receiving s' = true ∧ is_open s' = is_open s.

(** The policy watcher at the second lookup of the packet. *)
Lemma midway_reloaded p s r :
  related p s →
  let pw := initial <$> (second_read ∘ policy_reads r <$> policy p) in
  reloaded s pw ∧ reads_of (sys_policy s) pw = policy_reads r <$> policy p.
Proof.
  intros [Hp _ _ _ _ _]. unfold reloaded. rewrite Hp. destruct (policy p) as [m|]; cbn; [|by split; [constructor|]].
  split; [|done]. constructor. apply polls_steps.
Qed.

(** A frame for which a handler is started, and the handler run to its end. *)
Lemma spawn_related p p' s r Ifindex data dec ifIndex m :
  related p s → is_receiving s = true → frame_effect fl giaddr r Ifindex data p p' → rx_panics r = false →
  handlePacket fl (policy_reads r <$> policy p) Ifindex data (slot_free r) = Spawned dec ifIndex m →
  matched p' s.
Proof.
  intros Hrel Hr [Epol Efr _ (_ & _ & Elk & _)] Epan Hp. destruct (midway_reloaded p s r Hrel) as [Hre Hrd].
  pose proof (handlePacket_gates _ _ _ _ _ _ _ _ Hp) as [Hfree _]. rewrite Epan, Hp in Efr. rewrite Hfree in Hp.
  destruct (related_now p s Hrel) as [_ Elnk]. destruct Hrel as [Hpw Hlw [Hi Hl] Hc Hh He].
  set (i := length (history s)). set (pw := initial <$> (second_read ∘ policy_reads r <$> policy p)) in *.
  assert (Hp' : handlePacket fl (reads_of (sys_policy s) pw) Ifindex data (has_slot s) = Spawned dec ifIndex m).
  { rewrite Hrd. unfold has_slot. rewrite bool_decide_true; [done|]. by rewrite Hi, map_size_empty. }
  pose proof (step_frame fl s pw Ifindex data dec ifIndex m Hr Hre Hp') as Hst. cbv zeta in Hst.
  match type of Hst with other_step _ _ ?q => set (s1 := q) in * end.
  destruct (handler_runs s1 i (mkHandler dec ifIndex m Fresh)) as (s2 & b & Hrun & Es2);
    [apply lookup_insert_eq|done|].
  exists s2. split; [eapply rtc_l; [by right|done]|]. subst s2. split; [|done].
  set (cfg := make_config fl giaddr (links p)) in *.
  assert (Ei : length (spawned (frames p)) = i) by (unfold i; by rewrite <- (length_map snd), <- Hh, length_map).
  assert (Esp : spawned (frames p') = spawned (frames p) ++ [(cfg, mkHandler dec ifIndex m Fresh)])
    by (rewrite Efr; unfold spawned; by rewrite omap_app).
  split; cbn; rewrite ?Esp, ?Epol, ?Elk; try done.
  - split; [|done]. by rewrite Hi, delete_insert_eq, delete_empty.
  - by rewrite !map_app, Hh.
  - intros j. rewrite events_of_app, events_of_pairs, He. case_decide as Hj.
    + subst j. rewrite lookup_ge_None_2 by lia. rewrite list_lookup_middle by done.
      unfold config_now, cfg. by assert (links_now s1 = links p) as -> by exact Elnk.
    + rewrite app_nil_r. destruct (decide (j < i)%nat); [by rewrite lookup_app_l by lia|].
      by rewrite !lookup_ge_None_2 by (rewrite ?length_app; cbn; lia).
Qed.

(** A frame for which none is started: only the policy may have been reloaded. *)
Lemma spawned_none fs cfg o : (∀ dec ifIndex m, o ≠ Spawned dec ifIndex m) → spawned (fs ++ [(cfg, o)]) = spawned fs.
Proof.
  intros Ho. unfold spawned. rewrite omap_app. cbn. destruct o; [by rewrite app_nil_r..|]. by destruct (Ho dec ifIndex m).
Qed.

Lemma lost_related p p' s r Ifindex data :
  related p s → is_receiving s = true → frame_effect fl giaddr r Ifindex data p p' →
  spawned (frames p') = spawned (frames p) → matched p' s.
Proof.
  intros [Hpw Hlw Hi Hc Hh He] Hr [Epol _ _ (_ & _ & Elk & _)] Efr.
  exists (with_watchers (initial <$> policy p') (sys_links s) s). split; [|split; [|done]].
  - rewrite Epol. destruct (policy p) as [m|]; cbn in *; [by eapply policy_steps; [|apply polls_steps]|].
    rewrite <- Hpw. destruct s. apply rtc_refl.
  - split; cbn; rewrite ?Efr, ?Elk; done.
Qed.

Lemma frame_related p p' s r Ifindex data :
  related p s → is_receiving s = true → frame_effect fl giaddr r Ifindex data p p' → matched p' s.
Proof.
  intros Hrel Hr Hfe. destruct (rx_panics r) eqn:Ep.
  { apply (lost_related p p' s r Ifindex data); [done..|]. by rewrite (fe_frames _ _ _ _ _ _ _ Hfe), Ep. }
  destruct (handlePacket fl (policy_reads r <$> policy p) Ifindex data (slot_free r)) as [reason| |dec ifIndex m] eqn:Hp.
  3: by eapply spawn_related.
  all: apply (lost_related p p' s r Ifindex data); [done..|];
    rewrite (fe_frames _ _ _ _ _ _ _ Hfe), Ep, Hp; by apply spawned_none.
Qed.

(** The signal and the end of the drain. *)
Lemma shutdown_steps s (d : drainResult) :
  is_receiving s = true → handlers s = ∅ → leaving_handlers s = 0%nat →
  ∃ s', steps s s' ∧ s' = mkSystem (capacity s) (sys_policy s) (sys_links s) (handlers s) (leaving_handlers s)
      false (match d with drainCompleted => false | _ => is_open s end) (crashed s) (history s) (begun s) (wire s)
      (receiver_log s).
Proof.
  intros Hr Hh Hl. eexists. split; [|reflexivity].
  eapply rtc_l; [right; by apply step_signal|]. eapply rtc_once. right.
  match goal with |- other_step _ ?q _ => apply (step_drained fl q d) end; [done|].
  destruct d; [|done..]. cbn. by rewrite Hh, Hl, map_size_empty.
Qed.

(** ** The program *)

(** Before the receive loop: no frame was received, and its wake up is not armed. *)
Record starting (p : prog) : Prop := {
  st_frames : frames p = [];
  st_wake : StopWake ∉ defers p;
  st_policy : policy_loaded (policy p);
  st_links : links_loaded (links p)
}.

Definition start_of (policy : option MacPolicy.Map) (links : option (Watcher LinkMap.Table unit)) (s : system) : Prop :=
  policy_loaded policy ∧ links_loaded links ∧ steps (launch fl policy links) s.

(** In the receive loop. *)
Definition looping (p : prog) : Prop :=
  ∃ pol lnk s, start_of pol lnk s ∧ related p s ∧ is_receiving s = true ∧ is_open s = true ∧
    udp_open p = true ∧ StopWake ∈ defers p.

(** What the system did for a program that is in the receive loop, or has left it, or never reached it. *)
Definition reached (running : bool) (p : prog) (pol : option MacPolicy.Map)
    (lnk : option (Watcher LinkMap.Table unit)) (s : system) : Prop :=
  (StopWake ∈ defers p → is_open s = udp_open p ∧ is_receiving s = running) ∧
  (StopWake ∉ defers p → frames p = [] ∧ s = launch fl pol lnk).

(** When [main] is about to end. *)
Definition simulated (p : prog) : Prop :=
  ∃ pol lnk s, start_of pol lnk s ∧ related p s ∧ reached false p pol lnk s.

Hypothesis Hcap : 0 < flagMaxHandlers fl.

Lemma starting_related p : starting p → related p (launch fl (policy p) (links p)).
Proof. intros [Hf _ _ _]. split; cbn; rewrite ?Hf; try done. lia. Qed.

Lemma starting_simulated p : starting p → simulated p.
Proof.
  intros Hp. pose proof Hp as [Hf Hw Hpol Hlnk]. eexists _, _, _.
  split; [split; [exact Hpol|split; [exact Hlnk|apply rtc_refl]]|].
  split; [by apply starting_related|]. by split.
Qed.

(** The wake up is armed. *)
Lemma starting_looping p : starting p → udp_open p = true → looping (push_defer StopWake (set_wake true p)).
Proof.
  intros Hp Hu. pose proof Hp as [Hf Hw Hpol Hlnk]. eexists _, _, _.
  split; [split; [exact Hpol|split; [exact Hlnk|apply rtc_refl]]|].
  split; [by apply (related_same p), starting_related|]. by repeat split; [..|left].
Qed.

(** *** Parts of [main] that touch neither the watchers nor the frames *)

Definition quiet {A} (m : P A) : Prop :=
  ∀ p, frames (m p).1 = frames p ∧ policy (m p).1 = policy p ∧ links (m p).1 = links p ∧
    (StopWake ∉ defers p → StopWake ∉ defers (m p).1).

Lemma quiet_bind {A B} (m : P A) (k : A → P B) : quiet m → (∀ a, quiet (k a)) → quiet (m ≫= k).
Proof.
  intros Hm Hk p. specialize (Hm p). unfold mbind, P_bind. destruct (m p) as [p' [a| |st]]; [|done..].
  cbn in Hm. destruct (Hk a p') as (E1 & E2 & E3 & E4). rewrite E1, E2, E3. naive_solver.
Qed.

Lemma quiet_defer d : d ≠ StopWake → quiet (defer d).
Proof. intros Hd p. repeat (split; [done|]). cbn. rewrite not_elem_of_cons. auto. Qed.

Lemma quiet_triple {A} (m : P A) : quiet m → triple starting m starting simulated (λ _, simulated).
Proof.
  intros Hm p Hp. specialize (Hm p). assert (Hq : starting (m p).1).
  { destruct Hm as (E1 & E2 & E3 & E4), Hp as [F1 F2 F3 F4]. split; rewrite ?E1, ?E2, ?E3; auto. }
  destruct (m p) as [p' []]; [done|by apply starting_simulated..].
Qed.

Lemma quiet_say sev txt : quiet (say sev txt).
Proof. done. Qed.

Lemma quiet_fatal {A} txt : quiet (fatal txt : P A).
Proof. by apply quiet_bind. Qed.

Lemma quiet_start_debug env : quiet (start_debug env fl).
Proof.
  unfold start_debug. destruct (flagDebug fl); [|done]. apply quiet_bind; [done|]. intros _.
  apply quiet_bind; [done|]. intros p. destruct (DebugServer.Serve _ _ _) as [[w [i|]]|]; [|done..].
  apply quiet_bind; [done|]. intros _. by apply quiet_defer.
Qed.

Lemma quiet_open_raw env : quiet (open_raw env).
Proof.
  unfold open_raw. apply quiet_bind; [done|]. intros p. destruct (Sockets.Create _ _ _) as [w [[]|e]].
  - apply quiet_bind; [done|]. intros _. by apply quiet_defer.
  - by apply quiet_bind.
Qed.

Lemma quiet_attach_filter env : quiet (attach_filter env fl).
Proof.
  unfold attach_filter. apply quiet_bind; [done|]. intros _. apply quiet_bind; [done|]. intros p.
  by destruct (AttachBPF _ _ _).
Qed.

(** *** The parts that do *)

Lemma load_policy_starting env :
  triple starting (load_policy env fl) starting simulated (λ _, simulated).
Proof.
  unfold load_policy. case_bool_decide; [apply triple_ret|].
  destruct (policy_New _ _ _) as [m|e] eqn:E; [|apply quiet_triple, quiet_fatal].
  apply triple_acquire. intros p [Hf Hw Hp Hl]. split; [done|set_solver| |done]. intros m' [= <-]. eauto.
Qed.

Lemma load_links_starting env :
  triple starting (load_links env fl) starting simulated (λ _, simulated).
Proof.
  unfold load_links. case_bool_decide; [apply triple_ret|].
  destruct (linkmap_New _ _ _) as [m|e] eqn:E; [|apply quiet_triple, quiet_fatal].
  apply triple_acquire. intros p [Hf Hw Hp Hl]. split; [done|set_solver|done|]. intros m' [= <-]. eauto.
Qed.

Lemma open_udp_starting env :
  triple starting (open_udp env) (λ p, starting p ∧ udp_open p = true) simulated (λ _, simulated).
Proof.
  unfold open_udp. destruct (ListenPacketConn4 _ _ _).
  - intros p Hp. destruct (udp_filter env); cbn.
    + split; [by destruct Hp|done].
    + apply starting_simulated. by destruct Hp.
  - intros p Hp. apply starting_simulated. by destruct Hp.
Qed.

Lemma looping_same p p' :
  policy p' = policy p → links p' = links p → frames p' = frames p → udp_open p' = udp_open p →
  defers p' = defers p → looping p → looping p'.
Proof.
  intros E1 E2 E3 E4 E5 (pol & lnk & s & Hs & Hrel & Hr & Ho & Hu). exists pol, lnk, s. rewrite E4, E5.
  split; [done|]. split; [by eapply related_same|done].
Qed.

(** A step of the program matched by steps of the system keeps the loop running. *)
Lemma looping_step p p' :
  (∀ s, related p s → is_receiving s = true → matched p' s) →
  udp_open p' = udp_open p → defers p' = defers p → looping p → looping p'.
Proof.
  intros Hf Eu Ed (pol & lnk & s & (Hpol & Hlnk & Hs) & Hrel & Hr & Ho & Hu).
  destruct (Hf s Hrel Hr) as (s' & Hs' & Hrel' & Hr' & Ho').
  exists pol, lnk, s'. rewrite Eu, Ed, Ho'. split; [split; [done|split; [done|by etransitivity]]|done].
Qed.

Lemma shutdown_simulated d : triple looping (shutdown d) looping simulated (λ _, simulated).
Proof.
  intros p (pol & lnk & s & (Hpol & Hlnk & Hs) & Hrel & Hr & Ho & Hu & Hw). pose proof Hrel as [Hpw Hlw [Hi Hl] Hc Hh He].
  destruct (shutdown_steps s d Hr Hi Hl) as (s' & Hs' & Es').
  assert (simulated (match d with drainCompleted => set_udp false p | _ => p end)) as Hsim.
  { exists pol, lnk, s'. split; [split; [done|split; [done|by etransitivity]]|].
    subst s'. destruct d; (split; [by split|]); (split; [by cbn; rewrite ?Ho, ?Hu|done]). }
  destruct Hsim as (pol' & lnk' & q & Hq & Hqr & Hqo).
  destruct d; exists pol', lnk', q; (split; [done|split; [by eapply related_same; [..|exact Hqr]|done]]).
Qed.

Lemma receive_frame_simulated r Ifindex data :
  triple looping (receive_frame fl giaddr r Ifindex data) looping simulated (λ _, simulated).
Proof.
  intros p Hp. destruct (receive_frame_run fl giaddr r Ifindex data p) as (p' & -> & Hfe).
  apply (looping_step p p'); [intros s Hrel Hr; by eapply frame_related| |..|done];
    by destruct (fe_rest _ _ _ _ _ _ _ Hfe) as (_ & _ & _ & _ & _ & ? & _ & ?).
Qed.

Lemma receive_loop_simulated rounds :
  triple looping (receive_loop fl giaddr rounds) looping simulated (λ _, simulated).
Proof.
  induction rounds as [|r rounds IH]; [apply triple_ret|]. cbn [receive_loop].
  apply (triple_bind _ looping).
  { apply triple_update. intros p. apply looping_step; [|done|done]. intros s Hrel Hr.
    destruct (polls_related r p s Hrel) as (s' & ? & ? & E & ?). exists s'. by rewrite E. }
  intros _. apply triple_get. intros p Hp. apply (triple_weaken looping); [by intros q ->|].
  destruct (Sockets.Receive _ _) as [[[n sall]|e]|]; [| |apply triple_ret].
  - apply (triple_bind _ looping); [apply triple_update; intros q; by apply looping_same|]. intros _.
    apply (triple_bind _ looping); [apply receive_frame_simulated|done].
  - destruct (cancelled r); [apply shutdown_simulated|].
    apply (triple_bind _ looping); [|done]. apply triple_update. intros q. by apply looping_same.
Qed.

Lemma main_body_simulated env rounds :
  check_flags fl = Ok giaddr →
  triple starting (main_body env fl rounds) looping simulated (λ _, simulated).
Proof.
  intros Hc. unfold main_body. eapply triple_seq; [by apply quiet_triple|]. destruct (flagVersion fl).
  { apply (triple_seq _ starting); [apply quiet_triple, quiet_say|]. apply triple_exit. apply starting_simulated. }
  eapply triple_seq; [apply quiet_triple, quiet_start_debug|]. rewrite Hc.
  eapply triple_seq; [destruct (_ && _); by apply quiet_triple|].
  do 2 (eapply triple_seq; [by apply quiet_triple|]).
  eapply triple_seq; [apply load_policy_starting|]. eapply triple_seq; [apply load_links_starting|].
  eapply triple_seq; [apply quiet_triple, quiet_bind; [done|intros _; by apply quiet_defer]|].
  eapply triple_seq; [apply quiet_triple, quiet_open_raw|].
  eapply triple_seq; [apply quiet_triple, quiet_attach_filter|]. eapply triple_seq; [apply open_udp_starting|].
  eapply triple_seq; [|apply receive_loop_simulated]. apply triple_acquire. intros p [Hp Hu]. by apply starting_looping.
Qed.

End refinement.

(** Deferred calls keep the tables in force. *)
Lemma run_defers_snap env ds p :
  let q := foldl (run_defer env) p ds in
  snap <$> policy q = snap <$> policy p ∧ snap <$> links q = snap <$> links p.
Proof.
  revert p. induction ds as [|d ds IH]; intros p; [done|]. cbn [foldl]. destruct (IH (run_defer env p d)) as [-> ->].
  destruct d; cbn; try done.
  - by destruct (policy p).
  - by destruct (links p).
  - by destruct (Sockets.Close (sockets p)) as [w [[]|e]].
Qed.

(** ** Properties *)

(** C8: every run of [main] is an execution of the running relay.  For every command line with accepted
    flags, whatever the operating system answers and whatever is received, the transition system reaches
    from its start, with the files [main] loaded, a state in which the same frames were admitted in the
    same order; each of their handlers did exactly what [dhcp4.Handle] does with the configuration
    [main] gave it; and the policy and link tables in force are those of [main].  If [main] got to its
    receive loop, the UDP socket is open in that state just when [main] left it open, and the receiver
    receives just when the process has not ended; otherwise nothing has happened in the system.  So what
    holds of every reachable state of the system holds of what [main] does. *)
Theorem program_refines_system `{Gopacket} `{UnicodeTables} `{Decoder} (env : Env) (hosts : nat → Host)
    (caches : nat → option InterfaceCache) (patterns : list bytes) (fds : gset Z) (args rest : list bytes)
    (rounds : list round) (fl : Flags) (giaddr : bytes) (p : prog) (status : option Z) :
  parse_flags args = flag.Parsed fl rest → check_flags fl = Ok giaddr →
  main env args rounds (boot patterns fds) = (p, status) →
  ∃ pol lnk s, policy_loaded pol ∧ links_loaded lnk ∧
    rtc (system_step fl giaddr hosts caches) (launch fl pol lnk) s ∧
    map ad_handler (history s) = map snd (spawned (frames p)) ∧
    (∀ i, events_of i (wire s) =
       match spawned (frames p) !! i with
       | Some (cfg, h) => tr (handler_run hosts caches cfg i h).1
       | None => []
       end) ∧
    snap <$> policy_now s = snap <$> policy p ∧ snap <$> links_now s = snap <$> links p ∧
    (StopWake ∈ defers p → is_open s = udp_open p ∧ is_receiving s = bool_decide (status = None)) ∧
    (StopWake ∉ defers p → frames p = [] ∧ s = launch fl pol lnk).
Proof.
  intros Hargs Hc. unfold main. rewrite Hargs.
  assert (Hcap : 0 < flagMaxHandlers fl) by (apply check_flags_ok in Hc; lia).
  assert (Hb : starting (boot patterns fds)) by (by split; [|apply not_elem_of_nil|..]).
  pose proof (main_body_simulated fl giaddr hosts caches Hcap env rounds Hc _ Hb) as Hm.
  destruct (main_body env fl rounds (boot patterns fds)) as [q [[]| |st]]; intros [= <- <-];
    destruct Hm as (pol & lnk & s & (Hpol & Hlnk & Hs) & Hrel & Hreach);
    destruct (related_now _ _ _ _ Hrel) as [Ep El]; exists pol, lnk, s; repeat (split; [done|]).
  - destruct Hreach as (Hr & Ho & Hu & Hw), Hrel. rewrite Ep, El, Ho, Hr, Hu. by repeat (split; [done|]).
  - destruct (run_defers_udp env (defers q) q) as [-> ->], (run_defers_snap env (defers q) q) as [-> ->].
    rewrite run_defers_defers, Ep, El. by destruct Hrel.
  - rewrite Ep, El. by destruct Hrel.
Qed.

(** ** Witnesses *)

Lemma program_refines_system_witness :
  ∃ p s, @main TestPacket.test_gopacket ascii_tables MainExample.decoder (ProgramExample.env (Ok ()))
      ProgramExample.args [ProgramExample.frame; ProgramExample.last_round drainCompleted]
      (boot DebugExample.others {[0; 1; 2]}) = (p, Some 0) ∧
    length (history s) = 1%nat ∧ is_open s = false ∧ is_receiving s = false ∧
    map ad_handler (history s) = map snd (spawned (frames p)).
Proof.
  destruct (parse_flags ProgramExample.args) as [fl rest|st] eqn:Ea; [|vm_compute in Ea; discriminate].
  assert (Hc : check_flags fl = Ok []) by (vm_compute in Ea; injection Ea as <- _; vm_compute; reflexivity).
  destruct (@main TestPacket.test_gopacket ascii_tables MainExample.decoder (ProgramExample.env (Ok ()))
      ProgramExample.args [ProgramExample.frame; ProgramExample.last_round drainCompleted]
      (boot DebugExample.others {[0; 1; 2]})) as [p status] eqn:Er.
  destruct (@program_refines_system TestPacket.test_gopacket ascii_tables MainExample.decoder
    (ProgramExample.env (Ok ())) SystemExample.hosts SystemExample.caches DebugExample.others {[0; 1; 2]}
    ProgramExample.args rest [ProgramExample.frame; ProgramExample.last_round drainCompleted] fl [] p status Ea Hc Er)
    as (pol & lnk & s & _ & _ & _ & Eh & _ & _ & _ & Ho & _).
  assert (Hrun : bool_decide (StopWake ∈ defers p) = true ∧ udp_open p = false ∧ status = Some 0 ∧
    length (spawned (frames p)) = 1%nat) by (vm_compute in Er; injection Er as <- <-; vm_compute; repeat split).
  destruct Hrun as (Hw & Hu & -> & Hlen). apply bool_decide_eq_true in Hw. destruct (Ho Hw) as [Ho1 Ho2].
  exists p, s. split; [reflexivity|]. split; [|split; [|split; [|exact Eh]]].
  - rewrite <- (length_map ad_handler), Eh, length_map. exact Hlen.
  - rewrite Ho1. exact Hu.
  - exact Ho2.
Defined.
