(* ===== verification/Reporting.v ===== *)
(** * How the program ends and what it says about it.

    The exit status of [main] ([Program]) against the first thing that goes wrong while it starts, and the
    calls it makes to its logger on its own goroutine. *)

From S2P Require Import Prelude GoStrings GoNet Specs Layers LayerAccess Logger DebugServer Bpf Sockets.
From S2P Require Import FileWatch LinkMap MacPolicy Host Addrs IfCache Request Reply Dhcp4 Relay.
From S2P Require Import GoFlag Version CmdLine Main Program.

Definition said_fatal (e : log_entry) : bool :=
  match e with Line logger.FTL _ => true | _ => false end.

(** What keeps the relay from starting, in the order [main] gets to it: the flags, the policy file, the link
    map file, the raw socket. *)
Definition startup_failure `{UnicodeTables} (env : Env) (fds : gset Z) (fl : Flags) : option string :=
  match check_flags fl with
  | Err e => Some e
  | Ok _ =>
      if negb (bool_decide (flagMACPolicy fl = [])) &&
         negb (is_ok (policy_New (flagMACPolicyInterval fl) (policy_abs env) (policy_os env)))
      then Some "Error loading MAC policy"
      else if negb (bool_decide (flagLinkMap fl = [])) &&
              negb (is_ok (linkmap_New (flagLinkMapInterval fl) (links_abs env) (links_os env)))
      then Some "Error loading link map"
      else if negb (is_ok (Sockets.Create (new_world fds) (raw_socket env) (raw_option env)).2)
      then Some "Error creating socket"
      else None
  end.

(** ** Lemmas: computations that log *)

(** It adds plain lines, and a fatal one just before it exits with status one. *)
Definition adds (status : option Z) (p p' : prog) : Prop :=
  ∃ ls, Forall plain_entry ls ∧
    if bool_decide (status = Some 1) then ∃ msg, log p' = log p ++ ls ++ [Line logger.FTL msg]
    else log p' = log p ++ ls.

Definition status_of {A} (c : control_flow A) : option Z := match c with Exit s => Some s | _ => None end.

Definition talks {A} (m : P A) : Prop := ∀ p, adds (status_of (m p).2) p (m p).1.

Lemma adds_entries status ls p p' :
  status ≠ Some 1 → Forall plain_entry ls → log p' = log p ++ ls → adds status p p'.
Proof. intros Hs Hls El. exists ls. split; [done|]. by rewrite bool_decide_false. Qed.

Lemma adds_refl status p p' : status ≠ Some 1 → log p' = log p → adds status p p'.
Proof. intros Hs El. apply (adds_entries _ []); [done|constructor|by rewrite app_nil_r]. Qed.

Lemma adds_trans status p p1 p2 : adds None p p1 → adds status p1 p2 → adds status p p2.
Proof.
  intros (ls & Hls & El) (ls' & Hls' & El'). cbn in El. exists (ls ++ ls').
  split; [by apply Forall_app|]. rewrite El in El'.
  destruct (bool_decide (status = Some 1)); [destruct El' as [msg E]; exists msg; rewrite E|rewrite El']; by rewrite <- !app_assoc.
Qed.

Lemma talks_bind {A B} (m : P A) (k : A → P B) : talks m → (∀ a, talks (k a)) → talks (m ≫= k).
Proof.
  intros Hm Hk p. specialize (Hm p). unfold mbind, P_bind. destruct (m p) as [p' [a| |st]]; cbn in *; try done.
  eapply adds_trans; [exact Hm|apply Hk].
Qed.

Lemma talks_update f : (∀ p, log (f p) = log p) → talks (update f).
Proof. intros Hf p. by apply adds_refl; [|apply Hf]. Qed.

Lemma talks_entries f ls : Forall plain_entry ls → (∀ p, log (f p) = log p ++ ls) → talks (update f).
Proof. intros Hls Hf p. by eapply adds_entries; [|exact Hls|apply Hf]. Qed.

Lemma talks_ret {A} (a : A) : talks (mret a).
Proof. intros p. by apply adds_refl. Qed.

Lemma talks_get : talks get.
Proof. intros p. by apply adds_refl. Qed.

Lemma talks_return {A} : talks (return_ : P A).
Proof. intros p. by apply adds_refl. Qed.

Lemma talks_say s msg : s ≠ logger.FTL → talks (say s msg).
Proof. intros Hs. apply (talks_entries _ [Line s msg]); [by repeat constructor|done]. Qed.

Lemma talks_fatal {A} msg : talks (fatal msg : P A).
Proof. intros p. exists []. split; [constructor|]. by exists msg. Qed.

(** The lines of the packages. *)
Lemma watch_lines_plain es : Forall plain_entry (map watch_line es).
Proof. induction es as [|[] es IH]; by constructor. Qed.

Lemma web_lines_plain es : Forall plain_entry (map web_line es).
Proof. induction es as [|[] es IH]; by constructor. Qed.

Create HintDb talks.
#[local] Hint Resolve talks_ret talks_get talks_return talks_fatal talks_bind : talks.
#[local] Hint Extern 1 (talks (say _ _)) => (apply talks_say; discriminate) : talks.
#[local] Hint Extern 1 (talks (update _)) => (apply talks_update; intros; reflexivity) : talks.
#[local] Hint Extern 2 (talks (update _)) => (eapply talks_entries; [apply watch_lines_plain|reflexivity]) : talks.
#[local] Hint Extern 1 (talks (defer _)) => (apply talks_update; intros; reflexivity) : talks.

(** Walk through the code. *)
Ltac talk :=
  repeat match goal with
  | |- talks (mbind _ _) => apply talks_bind; [|intros]
  | |- talks (match ?x with _ => _ end) => destruct x
  | |- talks (let '(_, _) := ?x in _) => destruct x
  | |- talks _ => solve [eauto with talks]
  end.

Section body.
Context `{Gopacket} `{UnicodeTables} `{Decoder}.

Lemma talks_receive_frame fl giaddr r Ifindex data : talks (receive_frame fl giaddr r Ifindex data).
Proof.
  intros p. destruct (receive_frame_run fl giaddr r Ifindex data p) as (p' & -> & [_ _ (ls & Hls & El) _]).
  by eapply adds_entries.
Qed.

#[local] Hint Resolve talks_receive_frame : talks.

Lemma talks_receive_loop fl giaddr rounds : talks (receive_loop fl giaddr rounds).
Proof. induction rounds as [|r rounds IH]; cbn [receive_loop]; unfold shutdown; talk; done. Qed.

Lemma talks_load_policy env fl : talks (load_policy env fl).
Proof. unfold load_policy. talk. Qed.

Lemma talks_load_links env fl : talks (load_links env fl).
Proof. unfold load_links. talk. Qed.

Lemma talks_open_raw env : talks (open_raw env).
Proof. unfold open_raw. talk. Qed.

Lemma talks_attach_filter env fl : talks (attach_filter env fl).
Proof. unfold attach_filter. talk. Qed.

Lemma talks_open_udp env : talks (open_udp env).
Proof. unfold open_udp. talk. Qed.

Lemma bind_next {A B} (m : P A) (k : A → P B) p p' a : m p = (p', Next a) → (m ≫= k) p = k a p'.
Proof. intros E. unfold mbind, P_bind. by rewrite E. Qed.

(** The calls of [main] after the choice of the logger: the version line alone, or the verbosity first. *)
Definition reports (fl : Flags) (status : option Z) (l : list log_entry) : Prop :=
  (status = Some 0 ∧ ∃ msg, l = [Line logger.INF msg]) ∨
  ∃ ls, Forall plain_entry ls ∧
    if bool_decide (status = Some 1) then ∃ msg, l = Verbosity (flagDebug fl) :: ls ++ [Line logger.FTL msg]
    else l = Verbosity (flagDebug fl) :: ls.

Lemma adds_reports fl status p p' :
  log p = [Verbosity (flagDebug fl)] → adds status p p' → reports fl status (log p').
Proof. intros E (ls & Hls & El). right. exists ls. split; [done|]. by rewrite E in El. Qed.

Lemma start_debug_adds env fl p :
  log p = [] → ∃ p0, log p0 = [Verbosity (flagDebug fl)] ∧
    adds (status_of (start_debug env fl p).2) p0 (start_debug env fl p).1.
Proof.
  intros El. exists (set_verbose (flagDebug fl) p). cbn. rewrite El. split; [done|].
  unfold start_debug, mbind, P_bind, update, get. destruct (flagDebug fl); [|by apply adds_refl].
  cbn -[DebugServer.Serve]. destruct (DebugServer.Serve _ _ _) as [[w [i|]]|]; [..|by apply adds_refl];
    (eapply adds_entries; [done|apply web_lines_plain|cbn; by rewrite El]).
Qed.

Lemma main_body_reports env fl rounds p :
  log p = [] → let r := main_body env fl rounds p in reports fl (status_of r.2) (log r.1).
Proof.
  intros El. unfold main_body. set (q := set_datetime (negb (flagLogWithoutDatetime fl)) p).
  rewrite (bind_next (choose_logger fl) _ p q ()) by done. assert (Eq : log q = []) by done.
  destruct (flagVersion fl).
  { rewrite (bind_next (say _ _) _ q (log_line logger.INF "DHCPv4-Relay version" q) ()) by done. cbn.
    left. split; [done|]. rewrite El. by eexists. }
  destruct (start_debug_adds env fl q Eq) as (p0 & E0 & Had).
  destruct (start_debug env fl q) as [q1 [[]| |st]] eqn:Es; cbn [fst snd status_of] in *;
    [rewrite (bind_next _ _ _ _ _ Es)|unfold mbind, P_bind; rewrite Es; by eapply adds_reports..].
  match goal with |- context [?m q1] => assert (Ht : talks m) end.
  { destruct (check_flags fl) as [giaddr|e]; [|apply talks_fatal]. talk;
      first [apply talks_load_policy|apply talks_load_links|apply talks_open_raw|apply talks_attach_filter
            |apply talks_open_udp|apply talks_receive_loop]. }
  specialize (Ht q1). pose proof (adds_trans _ _ _ _ Had Ht) as Ha. by eapply adds_reports.
Qed.

(** Deferred calls add plain lines. *)
Lemma run_defers_adds env ds p : adds None p (foldl (run_defer env) p ds).
Proof.
  revert p. induction ds as [|d ds IH]; intros p; [by apply adds_refl|]. cbn [foldl].
  eapply adds_trans; [|apply IH]. destruct d; cbn; try by apply adds_refl.
  - eapply adds_entries; [done|apply web_lines_plain|done].
  - destruct (Sockets.Close (sockets p)) as [w [[]|e]]; [by apply adds_refl|].
    apply (adds_entries _ [Line logger.WRN "Error closing socket"]); [done|by repeat constructor|done].
Qed.

Lemma reports_adds fl p p' : adds None p p' → reports fl None (log p) → reports fl None (log p').
Proof.
  intros (ls & Hls & El) [[? ?]|(ls0 & Hls0 & E)]; [done|right]. cbn in *. exists (ls0 ++ ls).
  split; [by apply Forall_app|]. by rewrite El, E.
Qed.

(** Which of the lines are fatal. *)
Lemma plain_not_fatal ls : Forall plain_entry ls → Forall (λ e, said_fatal e = false) ls.
Proof. intros Hls. eapply Forall_impl; [exact Hls|]. by intros [on|[] ?]. Qed.

Lemma reports_fatal fl status l :
  reports fl status l →
  (status ≠ Some 1 → Forall (λ e, said_fatal e = false) l) ∧
  (status = Some 1 → ∃ es msg, l = es ++ [Line logger.FTL msg] ∧ Forall (λ e, said_fatal e = false) es).
Proof.
  intros [[-> [msg ->]]|(ls & Hls%plain_not_fatal & E)]; [split; [|done]; intros _; by repeat constructor|].
  case_bool_decide; split; try done; intros _.
  - destruct E as [msg ->]. exists (Verbosity (flagDebug fl) :: ls), msg. split; [done|by constructor].
  - subst l. by constructor.
Qed.

End body.

(** ** Lemmas: the exit status *)

Section status.
Context `{Gopacket} `{UnicodeTables} `{Decoder}.
Context (env : Env) (patterns : list bytes) (fds : gset Z) (fl : Flags).
Hypothesis Hpat : metrics_pattern ∉ patterns.

(** Nothing has failed yet: the raw socket has not been tried. *)
Definition untried (p : prog) : Prop := sockets p = new_world fds ∧ web_ok patterns (debug_web p).

Definition no_failure (_ : prog) : Prop := startup_failure env fds fl = None.

(** An exit is the failure that [startup_failure] names. *)
Definition exits_for (s : Z) (p : prog) : Prop :=
  s = 1 ∧ ∃ msg, startup_failure env fds fl = Some msg ∧ last (log p) = Some (Line logger.FTL msg).

Abbreviation triple' I m Q := (triple I m Q no_failure exits_for).

Lemma untried_same f : (∀ p, sockets (f p) = sockets p ∧ debug_web (f p) = debug_web p) → triple' untried (update f) untried.
Proof. intros Hf. apply triple_update. intros p [E1 E2]. destruct (Hf p) as [F1 F2]. split; by rewrite ?F1, ?F2. Qed.

Lemma fatal_exits {A} I Q msg : startup_failure env fds fl = Some msg → triple' I (fatal msg : P A) Q.
Proof. intros E p _. split; [done|]. exists msg. split; [done|]. cbn. apply last_snoc. Qed.

Lemma triple_pure {A} (φ : Prop) I Q (m : P A) : (φ → triple' I m Q) → triple' (λ p, I p ∧ φ) m Q.
Proof. intros Hm p [Hp Hφ]. by apply Hm. Qed.

Lemma start_debug_untried : triple' untried (start_debug env fl) untried.
Proof.
  unfold start_debug. destruct (flagDebug fl); [|by apply untried_same].
  eapply triple_seq; [by apply untried_same|]. apply triple_get. intros p [Es Hw].
  destruct (Serve_ok patterns (flagDebugServerAddr fl) (debug_listen env) (debug_web p) Hpat Hw)
    as (w & i & -> & Hw' & _). apply (triple_seq _ untried); [apply triple_update; intros q ->; by split|].
  destruct i; [by apply untried_same|apply triple_ret].
Qed.

Lemma load_policy_untried giaddr :
  check_flags fl = Ok giaddr → triple' untried (load_policy env fl)
    (λ p, untried p ∧ negb (bool_decide (flagMACPolicy fl = [])) &&
       negb (is_ok (policy_New (flagMACPolicyInterval fl) (policy_abs env) (policy_os env))) = false).
Proof.
  intros Hc. unfold load_policy. destruct (bool_decide (flagMACPolicy fl = [])) eqn:Ef; [by intros p Hp|].
  destruct (policy_New _ _ _) as [m|e] eqn:E; [by intros p Hp|]. apply fatal_exits.
  unfold startup_failure. by rewrite Hc, Ef, E.
Qed.

Lemma load_links_untried giaddr :
  check_flags fl = Ok giaddr →
  negb (bool_decide (flagMACPolicy fl = [])) &&
    negb (is_ok (policy_New (flagMACPolicyInterval fl) (policy_abs env) (policy_os env))) = false →
  triple' untried (load_links env fl)
    (λ p, untried p ∧ negb (bool_decide (flagLinkMap fl = [])) &&
       negb (is_ok (linkmap_New (flagLinkMapInterval fl) (links_abs env) (links_os env))) = false).
Proof.
  intros Hc Hpol. unfold load_links. destruct (bool_decide (flagLinkMap fl = [])) eqn:Ef; [by intros p Hp|].
  destruct (linkmap_New _ _ _) as [m|e] eqn:E; [by intros p Hp|]. apply fatal_exits.
  unfold startup_failure. by rewrite Hc, Hpol, Ef, E.
Qed.

Lemma open_raw_tried :
  startup_failure env fds fl =
    (if negb (is_ok (Sockets.Create (new_world fds) (raw_socket env) (raw_option env)).2)
     then Some "Error creating socket" else None) →
  triple' untried (open_raw env) no_failure.
Proof.
  intros Ef. unfold open_raw. apply triple_get. intros p [-> _].
  destruct (Sockets.Create _ _ _) as [w [[]|e]]; cbn in Ef.
  - intros q _. done.
  - eapply triple_seq; [apply (triple_update _ (λ _, True)); done|]. by apply fatal_exits.
Qed.

(** After the sockets nothing exits. *)
Definition no_exit {A} (m : P A) : Prop := ∀ p s, (m p).2 ≠ Exit s.

Lemma no_exit_bind {A B} (m : P A) (k : A → P B) : no_exit m → (∀ a, no_exit (k a)) → no_exit (m ≫= k).
Proof.
  intros Hm Hk p s. specialize (Hm p s). unfold mbind, P_bind. destruct (m p) as [p' [a| |st]]; [apply Hk|done|].
  intros [= ->]. by apply Hm.
Qed.

Lemma quiet_end {A} (m : P A) : no_exit m → triple' no_failure m no_failure.
Proof. intros Hm p Hp. specialize (Hm p). destruct (m p) as [p' [a| |s]]; [done..|]. by destruct (Hm s). Qed.

Lemma receive_loop_no_exit giaddr rounds : no_exit (receive_loop fl giaddr rounds).
Proof.
  induction rounds as [|r rounds IH]; [done|]. cbn [receive_loop].
  apply no_exit_bind; [done|]. intros _. apply no_exit_bind; [done|]. intros p.
  destruct (Sockets.Receive _ _) as [[[n sall]|e]|]; [| |done].
  - apply no_exit_bind; [done|]. intros _. apply no_exit_bind; [|done]. intros q s.
    by destruct (receive_frame_run fl giaddr r (sa_Ifindex sall) (take (Z.to_nat n) (buffer r)) q) as (p' & -> & _).
  - destruct (cancelled r); [|by apply no_exit_bind]. intros q s. by destruct (drain r).
Qed.

Lemma attach_filter_no_exit : no_exit (attach_filter env fl).
Proof.
  apply no_exit_bind; [done|]. intros _. apply no_exit_bind; [done|]. intros p. by destruct (AttachBPF _ _ _).
Qed.

Lemma open_udp_no_exit : no_exit (open_udp env).
Proof. unfold open_udp. destruct (ListenPacketConn4 _ _ _); [|done]. by destruct (udp_filter env). Qed.

Lemma main_body_status rounds :
  flagVersion fl = false → triple' untried (main_body env fl rounds) no_failure.
Proof.
  intros Hv. unfold main_body. eapply triple_seq; [by apply untried_same|]. rewrite Hv.
  eapply triple_seq; [apply start_debug_untried|]. destruct (check_flags fl) as [giaddr|e] eqn:Hc.
  2: { apply fatal_exits. unfold startup_failure. by rewrite Hc. }
  eapply triple_seq; [destruct (_ && _); [by apply untried_same|apply triple_ret]|].
  do 2 (eapply triple_seq; [by apply untried_same|]). eapply triple_seq; [by eapply load_policy_untried|].
  apply triple_pure. intros Hpol. eapply triple_seq; [by eapply load_links_untried|].
  apply triple_pure. intros Hlnk.
  eapply triple_seq; [by eapply triple_seq; apply untried_same|].
  eapply triple_seq; [apply open_raw_tried; unfold startup_failure; by rewrite Hc, Hpol, Hlnk|].
  apply quiet_end. apply no_exit_bind; [apply attach_filter_no_exit|]. intros _.
  apply no_exit_bind; [apply open_udp_no_exit|]. intros _. apply no_exit_bind; [done|]. intros _.
  apply receive_loop_no_exit.
Qed.

End status.

(** ** Properties *)


